(* ===== verification/_CoqProject ===== *)
-Q . S2P
Prelude.v
GoStrings.v
Regexp.v
Json.v
Config.v
Container.v
Inventory.v
EngineState.v
EngineOps.v
NopClient.v
HttpClient.v
EventsMonitor.v
GoFloat.v
GoFmt.v
Options.v
ApiEvents.v
Leadership.v
Node.v
Strategy.v
Expr.v
Filters.v
Scheduler.v
SwarmRegistry.v
RegistrySpec.v
Discovery.v
SwarmCluster.v
SwarmHealth.v
Watchdog.v
ScaleUtils.v
Cli.v
CliFlags.v
SwarmInfo.v
SwarmStreams.v
ApiList.v
ApiUtils.v
ApiHandlers.v
ApiFacts.v
Hijack.v
Router.v
Serve.v
Tasks.v
TaskHeap.v
LocalProcessor.v
ScaleFilter.v
OldFilter.v
Seize.v
Scale.v
ScaleApi.v
MesosTask.v
MesosCluster.v
MesosFacts.v
MesosRun.v
