(* ===== verification/Prelude.v ===== *)
(** * A verification development for the cattle cluster manager

    cattle (a fork of Docker Swarm, in Go) makes one Docker host out of many: a manager
    keeps a table of engines, mirrors what each daemon holds, chooses the engine a new
    container goes to, scales groups of containers up and down, and serves the Docker API
    over all of them; a second back end takes its machines from Mesos.  This development
    models the packages [cluster], [cluster/swarm], [cluster/mesos], [scheduler],
    [common], [discovery/token], [api] and [cli] as executable definitions and proves what
    each part guarantees, errors and panics included.

    ** Conventions

    - A Go function that can fail returns an [outcome]: a value, an error, or a panic.
      The three are kept apart because a panic skips every later statement, an unlock
      included.  Operations on an engine are in the state monad [M] of [EngineState.v],
      operations on the cluster in the monad [C] of [SwarmRegistry.v]; a panic keeps the
      state reached.
    - [int] and [int64] are [Z] with [wrap64] where the code computes; durations are
      nanoseconds.  Strings are byte strings; [range s] decodes UTF-8 ([GoStrings.v]).
    - A Go map is a [gmap]; a [range] loop over it uses [range_map] of the class
      [MapRange], some permutation of the entries.  A given map value is always
      enumerated in the same order, which is narrower than Go; every theorem holds for
      each such order.  [sort.Sort] is the class [GoSort]: a sorted permutation, not
      necessarily stable.
    - Code outside the repository is a parameter: the Docker client ([DockerAPI], a
      daemon as a state machine that may answer anything), [regexp] ([GoRegexp]),
      [encoding/json] on string lists ([GoJson]), [net.ParseIP] ([GoNet]), the random
      source, the driver of the Mesos master ([MesosDriver]), what is decoded from a request
      ([Decoding]), what is sent to an engine beside its client ([Forwarding],
      [EngineHTTP]), the HTTP clients that listen ([Writers]); and, as arguments, durations,
      floating-point literals, host and port, natural order, printable characters, files of
      certificates, answers of the discovery service, the results of dialling and of
      listening.  Each class has an instance ([quiet_daemon], [re2], [json_strings],
      [net_zero], [canonical_range], [insertion_sort]) on which the witnesses compute.
    - Engines are objects with an identity: containers point to their engine by a [ptr],
      and the cluster keeps the engine objects in a heap, so that a goroutine that still
      holds a removed engine acts on that object.  A container is a value; the stores
      that share one container object are given equal values.
    - Goroutines that matter are the steps of a relation: registry ([step]), monitors of the
      events ([mon_step]), listeners ([ev_step]), election ([rep_step]), discovery
      ([ds_step]), Mesos ([mesos_step]), connections that are taken over ([hj_step]), the
      serving of the hosts ([sv_step]), the context of the requests ([share_step]).  A statement that reads or writes shared memory
      without a lock is atomic in them.  The goroutines that an operation starts, one per
      engine, and waits for, run one after the other, in any order; those that it does not
      wait for ([LocalProcessor.v]) are recorded as started.  The writes of an operation of
      the cluster that is not a step relation of its own are visible when it returns.
    - [float64] is binary64 of [SpecFloat]; the conversion of a value out of range is the
      machine's, an argument.
    - Logging is left out, except where evaluating an argument of the message can panic.

    ** The parts

    - [GoStrings.v], [Regexp.v], [Json.v]: the parts of [strings], [strconv], [regexp] and
      [encoding/json] that the code uses, with an executable matcher and codec.
    - [Config.v] ([cluster/config.go]): container configurations.  The directives of the
      environment ([affinity:], [constraint:], ...) become labels, building twice is the
      same as building once, and what the temporary image affinity of a creation costs.
    - [Container.v], [Inventory.v] ([cluster/container.go], [image.go], [network.go],
      [volume.go]): the mirrored objects and the lookups by identifier, name or prefix,
      the repair of duplicate network endpoints, the merge of network replicas.
    - [EngineState.v] ([cluster/engine.go]): an engine, its connection state machine, its
      failure counter and health degree, the validation back-off and the specifications
      read from its daemon.
    - [EngineOps.v] ([cluster/engine.go]): the refreshes, the commands sent to the daemon
      and the reaction to its events, one definition per method; [run_op] and
      [engine_steps] make them a transition system.  Two invariants of every reachable
      engine: a healthy engine is below its failure threshold; the stores are well formed
      ([engine_wf]), so that resource accounting never dereferences nil.
    - [Node.v], [Strategy.v] ([scheduler/node], [scheduler/strategy]): the snapshot of an
      engine that scheduling works on, and the three strategies.  [ranks] is the abstract
      specification of a ranking; [spread] and [binpack] refine it for their orders, and
      [random] has exactly the permutations as outcomes.
    - [Expr.v], [Filters.v] ([scheduler/filter]): the expressions [key==value] and the
      seven filters.  [accepts] says what a filter accepts node by node; [selects] is the
      specification that every filter and their composition refine.
    - [Scheduler.v] ([scheduler/scheduler.go]): the two passes, with and without soft
      expressions, specified by [eligible].
    - [SwarmRegistry.v] ([cluster/swarm/cluster.go]): the table of engines under discovery.
      [step] interleaves additions, validations (several at once, late ones included),
      the two halves of a removal and the activity of the engines; [registry_ok] is the
      invariant of the reachable states.
    - [SwarmCluster.v] ([cluster/swarm/cluster.go]): operations across engines; creating
      a container is a reservation under the scheduler's lock, the daemon's work, and the
      release.  Names stay distinct under any interleaving of creations; the lock is free
      after every attempt that returns.
    - [RegistrySpec.v]: what the registry promises, a directory of addresses that are
      awaited or registered under an identifier ([dir_step]).  [registry_refines]: as long
      as no validation is late, every step of the goroutines is one of its operations.
    - [Discovery.v] ([discovery/token], [monitorDiscovery]): the entries, the token service,
      and the goroutine that adds and removes engines.  Once it has run its commands, the
      engines are those of the last entries ([discovery_listed]).
    - [SwarmHealth.v]: computations that leave an engine alone ([cinv]); with the health
      filter a creation does not touch an unhealthy engine.
    - [Watchdog.v] ([cluster/watchdog.go]): duplicates removed when an engine comes back,
      without losing any Swarm ID; containers rescheduled when it fails.
    - [SwarmInfo.v], [SwarmStreams.v] ([cluster/swarm/cluster.go]): volumes, pulls, builds,
      [Info]; and the loading of an image through one pipe per engine.
    - [Options.v] ([cluster/options.go], the two [NewCluster]), [GoFloat.v], [GoFmt.v]: the
      driver options and what [fmt] makes of a text used as a format.
    - [EventsMonitor.v] ([cluster/event_monitor.go]): the goroutines behind the events of
      an engine and their channels; [NopClient.v] ([api/nopclient]): the client of a
      disconnected engine, and why [call] may look at [e_connected] instead of it.
    - [ApiEvents.v] ([cluster/event.go], [api/events.go]): the handlers of the events, the
      clients that listen, and the races between a write that fails, a client that leaves
      and one whose time is over.
    - [ScaleUtils.v], [Tasks.v], [ScaleFilter.v] ([common/define.go],
      [cluster/swarm/utils.go], [task.go], [filter.go]): scale requests.  A request is
      parsed, each item chooses containers and queues tasks, and the queue is served; the
      ring of tasks is proved to be a first-in first-out queue with retries.
    - [TaskHeap.v], [Seize.v], [LocalProcessor.v], [Scale.v]
      ([cluster/swarm/resource_filter.go], [task_filter.go], [local_processor.go],
      [cluster.go]): the tasks point to containers of an engine or to copies that share
      their environment's array and their labels; the filter that takes nodes from other
      applications; what a task does; the whole request.
    - [MesosTask.v], [MesosCluster.v], [MesosFacts.v], [MesosRun.v] ([cluster/mesos]): the
      task that is launched and its ports; agents and offers; the critical section of
      [LaunchTask]; and the goroutines of a creation, with a reachable deadlock.
    - [Leadership.v] ([cli/manage.go], [api/replica.go], [api/server.go]): who answers a
      request while managers are elected, and the watchdog that only the leader has.
    - [ApiUtils.v], [ApiList.v], [ApiHandlers.v] ([api/utils.go], [handlers.go],
      [sorter.go], [primary.go]): requests and answers, forwarding, the listings and every
      handler; a handler gives the list of what is written ([effect]).  [ApiFacts.v]: one
      answer per request, with its exceptions; conflicts; the round trip of an [exec].
      [ScaleApi.v]: the handler of a scale request, over [Scale.v].
    - [Hijack.v] ([hijack], [tlsDial]): the copying between the connections of a client
      and of an engine; what each is given, when the goroutines end, and when they do not.
    - [Router.v] ([api/primary.go]): the patterns of the routes, which handler a request is
      given to whatever the order of the maps, and the race for the version of the path.
      [Serve.v] ([api/server.go], [server_unix.go], [flusher.go]): the goroutines that
      listen, and the mask of the process that they share.
    - [HttpClient.v] ([cluster/httpclient.go]): the URL and the dialling of a daemon.
    - [Cli.v], [CliFlags.v] ([cli], and of the vendored framework what reads a command
      line): what the commands check before they start; how the arguments and the
      environment become the values that they check.
    - [OldFilter.v] ([Cluster.filterContainer], dead code): the same choice as the filters
      of [ScaleFilter.v], where it does not panic.

    The parts are composed where the program composes them: [ApiHandlers.v] calls the
    operations of [SwarmCluster.v] and [SwarmInfo.v], which call the engine's through [on];
    [Watchdog.v] and [Scale.v] create containers through [SwarmCluster.v]; [Discovery.v]
    drives the registry; [Cli.v] calls the option parsers of [Options.v], [filter.New] and
    [strategy.New].

    ** Fuel

    [DoTasks] takes its number of iterations; [DoTasks_spec] proves that the tasks plus
    their retries, and one more, are enough.  [Itoa] has fuel for the digits of any 64-bit
    number.  [getPorts] of Mesos takes a bound on its iterations: [offers_fuel] is enough
    when no range of an offer ends with the largest 64-bit number, and no bound is when one
    does; [Build] gives nothing then, and the theorems on [launch] have that case apart.
    [ReplaceAll] and [Sprintf] consume a character at each step and have the length of their
    text, and [Parse] one at each argument and has one more than their number.  The other
    definitions with fuel are the parser and matcher of [re2] (a star is
    iterated at most as often as the text is long) and the decoder of [json_strings],
    instances of the interfaces that only witnesses use.

    ** Not modelled

    What [gorilla/mux] does beside the matching of a route (the version before the path,
    the cleaning of the path); JSON encoding beyond lists of strings; the TLS handshake; the
    profiler; the help texts; timers, and the goroutines that only run the loop bodies given
    here; the mock client, a test double; [product] of the swarm cluster, which is commented
    out.
    Of the embedded [types.ContainerJSON] the promoted pointer [ContainerJSONBase] is taken
    as present once a container is inspected.  The template of a copy is not inspected
    again between its copying and its use.

    ** State

    Every component is modelled up to these limits.  What could be added is a simulation for
    the creation of a container (a specification of the names, refined by
    [SwarmCluster.v]), another for the Mesos tables, and the deadlock of [MesosRun.v] seen
    from the API. *)
From Stdlib Require Export ZArith Lia.
From stdpp Require Export base tactics strings gmap list sorting fin_maps.

#[export] Set Default Goal Selector "!".
Open Scope string_scope.
Open Scope list_scope.
Open Scope Z_scope.

(** ** Outcomes of Go code

    A Go function either returns values, returns a non-nil [error] (we keep its
    message), or panics (index out of range, nil dereference, integer division
    by zero).  The three are kept apart, because a panic unwinds through the
    callers and skips every later statement that is not deferred. *)
Inductive outcome (A : Type) : Type :=
  | Ret (a : A)
  | Err (msg : string)
  | Panic (why : string).
Arguments Ret {A} a.
Arguments Err {A} msg.
Arguments Panic {A} why.

#[export] Instance outcome_ret : MRet outcome := @Ret.
#[export] Instance outcome_bind : MBind outcome := λ A B f m,
  match m with Ret a => f a | Err e => Err e | Panic w => Panic w end.
#[export] Instance outcome_fmap : FMap outcome := λ A B f m,
  match m with Ret a => Ret (f a) | Err e => Err e | Panic w => Panic w end.

(** The outcome is not a panic. *)
Definition no_panic {A} (m : outcome A) : Prop :=
  match m with Panic _ => False | _ => True end.

(** The outcome is a plain return. *)
Definition returns {A} (m : outcome A) : Prop := ∃ a, m = Ret a.

Lemma bind_Ret_inv {A B} (m : outcome A) (f : A → outcome B) b :
  m ≫= f = Ret b → ∃ a, m = Ret a ∧ f a = Ret b.
Proof. destruct m; simpl; naive_solver. Qed.

Lemma no_panic_bind {A B} (m : outcome A) (f : A → outcome B) :
  no_panic m → (∀ a, m = Ret a → no_panic (f a)) → no_panic (m ≫= f).
Proof. destruct m; simpl; naive_solver. Qed.

(** Sequencing over a slice, in slice order, as a [for _, x := range xs] loop. *)
Fixpoint omapM {A B} (f : A → outcome B) (l : list A) : outcome (list B) :=
  match l with
  | [] => Ret []
  | x :: l' => y ← f x; ys ← omapM f l'; Ret (y :: ys)
  end.

(** The loop [for _, x := range xs { if p(x) { out = append(out, x) } }]. *)
Fixpoint ofilter {A} (p : A → outcome bool) (l : list A) : outcome (list A) :=
  match l with
  | [] => Ret []
  | x :: l' => b ← p x; ys ← ofilter p l'; Ret (if b : bool then x :: ys else ys)
  end.

(** The loop [for _, x := range xs { if p(x) { return true } }; return false]. *)
Fixpoint oexistsb {A} (p : A → outcome bool) (l : list A) : outcome bool :=
  match l with
  | [] => Ret false
  | x :: l' => b ← p x; if b : bool then Ret true else oexistsb p l'
  end.

(** ** Machine integers *)

(** [int64] (and [int] on a 64-bit platform) arithmetic wraps around. *)
Definition wrap64 (z : Z) : Z := (z + 2^63) mod 2^64 - 2^63.
Definition int64_range (z : Z) : Prop := - 2^63 ≤ z < 2^63.

Lemma wrap64_id z : int64_range z → wrap64 z = z.
Proof.
  unfold int64_range, wrap64. intros H. rewrite Z.mod_small; lia.
Qed.

Lemma wrap64_range z : int64_range (wrap64 z).
Proof.
  unfold int64_range, wrap64.
  pose proof (Z.mod_pos_bound (z + 2^63) (2^64) ltac:(lia)). lia.
Qed.

(** Go's [/] on integers truncates toward zero and panics on zero. *)
Definition go_div (a b : Z) : outcome Z :=
  if decide (b = 0) then Panic "integer divide by zero" else Ret (wrap64 (a ÷ b)).

(** ** Iteration over a Go map

    The order of [for k, v := range m] is unspecified.  The development is
    generic in the order: every theorem holds for any enumeration that is a
    permutation of the map's entries. *)
Class MapRange := {
  range_map : ∀ {V : Type}, gmap string V → list (string * V);
  range_map_perm : ∀ {V : Type} (m : gmap string V), range_map m ≡ₚ map_to_list m
}.

Section map_range.
Context `{MapRange} {V : Type}.
Implicit Types m : gmap string V.
Lemma elem_of_range_map m k v : (k, v) ∈ range_map m ↔ m !! k = Some v.
Proof. by rewrite range_map_perm, elem_of_map_to_list. Qed.
Lemma NoDup_range_map_fst m : NoDup (range_map m).*1.
Proof. rewrite range_map_perm. apply NoDup_fst_map_to_list. Qed.
Lemma range_map_empty : range_map (∅ : gmap string V) = [].
Proof.
  apply Permutation_nil_r. by rewrite range_map_perm, map_to_list_empty.
Qed.
Lemma elem_of_range_snd m v : v ∈ (range_map m).*2 ↔ ∃ k, m !! k = Some v.
Proof.
  rewrite list_elem_of_fmap. split.
  - intros ([k v'] & -> & Hin). exists k. by apply elem_of_range_map.
  - intros [k Hk]. exists (k, v). split; [done|]. by apply elem_of_range_map.
Qed.
End map_range.

(** The order used by the witnesses: the one of [map_to_list]. *)
Definition canonical_range : MapRange :=
  {| range_map := λ V m, map_to_list m; range_map_perm := λ V m, reflexivity _ |}.

(** ** Sorting with [sort.Sort]

    [sort.Sort] sorts in place with respect to [Less] and is documented not to
    be stable: the result is some permutation of the input in which no element
    is [Less] than an earlier one, provided [Less] is a strict weak order. *)
Definition sorted_by {A} (less : A → A → bool) (l : list A) : Prop :=
  StronglySorted (λ x y, less y x = false) l.

Class GoSort := {
  go_sort : ∀ {A : Type}, (A → A → bool) → list A → list A;
  go_sort_perm : ∀ {A} (less : A → A → bool) l, go_sort less l ≡ₚ l;
  go_sort_sorted : ∀ {A} (less : A → A → bool) l,
    (∀ x y, less x y = true → less y x = false) →
    (∀ x y z, less y x = false → less z y = false → less z x = false) →
    sorted_by less (go_sort less l)
}.

(** Insertion sort, which is what [sort.Sort] runs on fewer than 12 elements. *)
Section insertion_sort.
Context {A : Type} (less : A → A → bool).
Fixpoint isort_insert (x : A) (l : list A) : list A :=
  match l with
  | [] => [x]
  | y :: l' => if less x y then x :: l else y :: isort_insert x l'
  end.
Definition isort (l : list A) : list A := foldl (λ acc x, isort_insert x acc) [] l.
Lemma isort_insert_perm x l : isort_insert x l ≡ₚ x :: l.
Proof.
  induction l as [|y l IH]; simpl; [done|].
  destruct (less x y); [done|]. rewrite IH. by constructor.
Qed.
Lemma isort_perm l : isort l ≡ₚ l.
Proof.
  unfold isort. cut (∀ acc, foldl (λ acc x, isort_insert x acc) acc l ≡ₚ l ++ acc).
  { intros Hc. rewrite Hc. by rewrite app_nil_r. }
  induction l as [|x l IH]; intros acc; simpl; [done|].
  rewrite IH, isort_insert_perm. by rewrite Permutation_middle.
Qed.
Hypothesis less_asym : ∀ x y, less x y = true → less y x = false.
Hypothesis less_trans : ∀ x y z, less y x = false → less z y = false → less z x = false.
Lemma isort_insert_sorted x l : sorted_by less l → sorted_by less (isort_insert x l).
Proof.
  induction 1 as [|y l Hl IH Hy]; simpl; [repeat constructor|].
  destruct (less x y) eqn:Hxy.
  - constructor; [by constructor|]. constructor; [by apply less_asym|].
    eapply Forall_impl; [exact Hy|]. intros z Hz. simpl in Hz.
    eapply less_trans; [by apply less_asym|done].
  - constructor; [done|]. rewrite isort_insert_perm. by constructor.
Qed.
Lemma isort_sorted l : sorted_by less (isort l).
Proof.
  unfold isort.
  cut (∀ acc, sorted_by less acc → sorted_by less (foldl (λ acc x, isort_insert x acc) acc l)).
  { intros Hc. apply Hc. constructor. }
  induction l as [|x l IH]; intros acc Hacc; simpl; [done|].
  apply IH. by apply isort_insert_sorted.
Qed.
End insertion_sort.

Definition insertion_sort : GoSort :=
  {| go_sort := @isort; go_sort_perm := @isort_perm; go_sort_sorted := λ A less l Ha Ht, isort_sorted less Ha Ht l |}.

(** ** Shared list lemmas and automation *)

Lemma omapM_elem {A B} (f : A → outcome B) l out y :
  omapM f l = Ret out → y ∈ out → ∃ x, x ∈ l ∧ f x = Ret y.
Proof.
  revert out. induction l as [|x l IH]; simpl; intros out.
  { intros [= <-] Hy. by apply elem_of_nil in Hy. }
  destruct (f x) as [y'| |] eqn:Hx; simpl; [|done..].
  destruct (omapM f l) as [ys| |]; simpl; [|done..]. intros [= <-] [->|Hy]%elem_of_cons.
  - exists x. split; [left|done].
  - destruct (IH _ eq_refl Hy) as (x' & Hin & Hfx). exists x'. split; [by right|done].
Qed.
Lemma omapM_Ret {A B} (f : A → outcome B) (g : A → B) l :
  (∀ x, x ∈ l → f x = Ret (g x)) → omapM f l = Ret (g <$> l).
Proof.
  induction l as [|x l IH]; intros Hf; simpl; [done|].
  rewrite (Hf x) by set_solver. simpl. rewrite IH by set_solver. done.
Qed.

Lemma ofilter_Ret {A} (p : A → outcome bool) (b : A → bool) l :
  (∀ x, x ∈ l → p x = Ret (b x)) → ofilter p l = Ret (List.filter b l).
Proof.
  induction l as [|x l IH]; intros Hp; simpl; [done|].
  rewrite (Hp x) by set_solver. simpl. rewrite IH by set_solver. simpl.
  by destruct (b x).
Qed.

Lemma oexistsb_Ret {A} (p : A → outcome bool) (b : A → bool) l :
  (∀ x, x ∈ l → p x = Ret (b x)) → oexistsb p l = Ret (existsb b l).
Proof.
  induction l as [|x l IH]; intros Hp; simpl; [done|].
  rewrite (Hp x) by set_solver. simpl. destruct (b x); [done|]. simpl.
  apply IH. set_solver.
Qed.

(** What a filtering loop that returned has computed: the elements, in order, on
    which the predicate returned [true]; and it returned on every element. *)
Lemma ofilter_spec {A} (p : A → outcome bool) l l' :
  ofilter p l = Ret l' →
  (∀ x, x ∈ l' ↔ x ∈ l ∧ p x = Ret true) ∧ l' `sublist_of` l ∧
  (∀ x, x ∈ l → ∃ b, p x = Ret b).
Proof.
  revert l'. induction l as [|x l IH]; intros l'; simpl.
  { intros [= <-]. split_and!; [|done|]; intros x; rewrite elem_of_nil; tauto. }
  intros (b & Hb & (ys & Hys & [= <-])%bind_Ret_inv)%bind_Ret_inv.
  destruct (IH ys Hys) as (Hin & Hsub & Htot). split_and!.
  - intros z. destruct b.
    + rewrite !elem_of_cons, Hin. split; [|tauto].
      intros [->|[??]]; auto.
    + rewrite !elem_of_cons, Hin. split; [tauto|].
      intros [[->|Hz] Hpz]; [congruence|auto].
  - destruct b; by constructor.
  - intros z [->|Hz]%elem_of_cons; eauto.
Qed.

Lemma ofilter_no_panic {A} (p : A → outcome bool) l :
  (∀ x, x ∈ l → no_panic (p x)) → no_panic (ofilter p l).
Proof.
  induction l as [|x l IH]; intros Hp; simpl; [done|].
  apply no_panic_bind; [apply Hp; set_solver|]. intros b _.
  apply no_panic_bind; [apply IH; set_solver|]. by intros ys _.
Qed.

Lemma list_elem_of_Lfilter {A} (b : A → bool) l x :
  x ∈ List.filter b l ↔ x ∈ l ∧ b x = true.
Proof. by rewrite !list_elem_of_In, List.filter_In. Qed.

Lemma Lfilter_sublist {A} (b : A → bool) l : List.filter b l `sublist_of` l.
Proof. induction l as [|x l IH]; simpl; [done|]. destruct (b x); by constructor. Qed.

Lemma Lfilter_Lfilter {A} (b c : A → bool) l :
  List.filter c (List.filter b l) = List.filter (λ x, b x && c x) l.
Proof.
  induction l as [|x l IH]; simpl; [done|].
  destruct (b x); simpl; [|done]. destruct (c x); simpl; congruence.
Qed.

Lemma Lfilter_perm {A} (b : A → bool) l1 l2 :
  l1 ≡ₚ l2 → List.filter b l1 ≡ₚ List.filter b l2.
Proof.
  induction 1 as [|x l1 l2 _ IH|x y l|l1 l2 l3 _ IH1 _ IH2]; simpl.
  - done.
  - destruct (b x); by rewrite ?IH.
  - destruct (b x), (b y); try done. by constructor.
  - by rewrite IH1.
Qed.

Lemma Lfilter_true {A} (b : A → bool) l : (∀ x, x ∈ l → b x = true) → List.filter b l = l.
Proof.
  induction l as [|x l IH]; intros Hb; simpl; [done|].
  rewrite Hb by set_solver. f_equal. apply IH. set_solver.
Qed.

Lemma Lfilter_nil {A} (b : A → bool) l :
  List.filter b l = [] ↔ ∀ x, x ∈ l → b x = false.
Proof.
  split.
  - intros Hnil x Hx. destruct (b x) eqn:Hb; [|done].
    assert (x ∈ List.filter b l) as Hin by (by apply list_elem_of_Lfilter).
    rewrite Hnil in Hin. by apply not_elem_of_nil in Hin.
  - induction l as [|x l IH]; intros Hb; simpl; [done|].
    rewrite Hb by set_solver. apply IH. set_solver.
Qed.

Lemma sorted_by_sublist {A} (less : A → A → bool) l1 l2 :
  l1 `sublist_of` l2 → sorted_by less l2 → sorted_by less l1.
Proof.
  unfold sorted_by. induction 1 as [|x l1 l2 Hsub IH|x l1 l2 Hsub IH]; intros Hs.
  - constructor.
  - inversion Hs as [|? ? Hs' Hall]; subst. constructor; [by apply IH|].
    rewrite Forall_forall in Hall |- *. intros y Hy. apply Hall.
    by eapply elem_of_sublist.
  - inversion Hs; subst. by apply IH.
Qed.

(** ** Tactics and hints *)

(** Destruct the scrutinee of a [match] or [if] in the goal or the context. *)
Ltac split_match :=
  match goal with
  | |- context [match ?x with _ => _ end] => destruct x eqn:?
  | H : context [match ?x with _ => _ end] |- _ => destruct x eqn:?
  end.

(** Peel a chain of binds that returned. *)
Ltac inv_ret :=
  repeat match goal with
  | H : mbind _ _ = Ret _ |- _ => apply bind_Ret_inv in H as (? & ? & ?)
  | H : Ret _ = Ret _ |- _ => injection H as H; try subst
  | H : Err _ = Ret _ |- _ => discriminate H
  | H : Panic _ = Ret _ |- _ => discriminate H
  | H : mret _ = Ret _ |- _ => injection H as H; try subst
  end.

Create HintDb cattle discriminated.
#[export] Hint Resolve wrap64_range no_panic_bind ofilter_no_panic Lfilter_sublist : cattle.
#[export] Hint Rewrite @list_elem_of_Lfilter @Lfilter_Lfilter @elem_of_range_map : cattle.
