(* ===== verification/GoStrings.v ===== *)
(** * Go strings

    The functions of Go's [strings], [strconv] and [unicode/utf8] that the
    cluster manager calls, on byte strings: a Go [string] is a [string] whose
    characters are its bytes.  [range s] decodes UTF-8, so it is modelled by
    [runes], which yields the byte offset and the code point of every rune. *)
From S2P Require Import Prelude.
From Stdlib Require Import Ascii.

(** Let [simpl] reduce an append whose left operand is a constructor. *)
#[global] Arguments String.append !_ _ / : simpl nomatch.
#[global] Arguments String.prefix !_ !_ /.

Definition chars (s : string) : list ascii := String.list_ascii_of_string s.
Definition byte (c : ascii) : Z := Z.of_N (N_of_ascii c).
Definition len (s : string) : Z := Z.of_nat (String.length s).

(** [strings.HasPrefix(s, p)] *)
Definition HasPrefix (s p : string) : bool := String.prefix p s.

(** [s[n:]], for [n] at most the length *)
Fixpoint sdrop (n : nat) (s : string) : string :=
  match n, s with
  | O, _ => s
  | S n, String _ s' => sdrop n s'
  | S _, EmptyString => EmptyString
  end.

(** [s[:n]], for [n] at most the length *)
Fixpoint stake (n : nat) (s : string) : string :=
  match n, s with
  | S n, String c s' => String c (stake n s')
  | _, _ => EmptyString
  end.

(** [strings.HasSuffix(s, p)] *)
Definition HasSuffix (s p : string) : bool :=
  Nat.leb (String.length p) (String.length s) && String.eqb (sdrop (String.length s - String.length p) s) p.

(** [s[i:j]] with Go's bounds check *)
Definition slice_string (s : string) (i j : Z) : outcome string :=
  if bool_decide (0 ≤ i ∧ i ≤ j ∧ j ≤ len s)
  then Ret (stake (Z.to_nat (j - i)) (sdrop (Z.to_nat i) s))
  else Panic "slice bounds out of range".

(** [s[i]] with Go's bounds check *)
Definition index_byte (s : string) (i : Z) : outcome ascii :=
  if bool_decide (0 ≤ i) then
    match String.get (Z.to_nat i) s with
    | Some c => Ret c
    | None => Panic "index out of range"
    end
  else Panic "index out of range".

(** [strings.TrimPrefix(s, p)] *)
Definition TrimPrefix (s p : string) : string :=
  if HasPrefix s p then sdrop (String.length p) s else s.

(** The first occurrence of a non-empty [sep]: what precedes and what follows. *)
Fixpoint cut (sep s : string) : option (string * string) :=
  if String.prefix sep s then Some (EmptyString, sdrop (String.length sep) s) else
  match s with
  | EmptyString => None
  | String c s' =>
      match cut sep s' with
      | Some (a, b) => Some (String c a, b)
      | None => None
      end
  end.

(** [strings.Contains(s, sub)] *)
Definition Contains (s sub : string) : bool :=
  match cut sub s with Some _ => true | None => false end.

(** [strings.SplitN(s, sep, 2)] *)
Definition SplitN2 (s sep : string) : list string :=
  match cut sep s with Some (a, b) => [a; b] | None => [s] end.

(** [strings.Split(s, c)] for a one-byte separator *)
Fixpoint Split_char (c : ascii) (s : string) : list string :=
  match s with
  | EmptyString => [EmptyString]
  | String d s' =>
      if Ascii.eqb d c then EmptyString :: Split_char c s'
      else match Split_char c s' with
           | x :: l => String d x :: l
           | [] => [String d EmptyString]
           end
  end.

(** The last occurrence of a byte: what [strings.LastIndex] splits at. *)
Fixpoint cut_last (c : ascii) (s : string) : option (string * string) :=
  match s with
  | EmptyString => None
  | String d s' =>
      match cut_last c s' with
      | Some (a, b) => Some (String d a, b)
      | None => if Ascii.eqb d c then Some (EmptyString, s') else None
      end
  end.

(** [strings.Replace(s, c, new, -1)] for a one-byte pattern *)
Fixpoint Replace_char (c : ascii) (new s : string) : string :=
  match s with
  | EmptyString => EmptyString
  | String d s' =>
      if Ascii.eqb d c then new +:+ Replace_char c new s'
      else String d (Replace_char c new s')
  end.

(** [strings.Replace(s, old, new, 1)] *)
Definition Replace1 (s old new : string) : string :=
  match cut old s with Some (a, b) => a +:+ new +:+ b | None => s end.

(** [strings.TrimLeft(s, c)] for a one-byte cutset *)
Fixpoint TrimLeft_char (c : ascii) (s : string) : string :=
  match s with
  | String d s' => if Ascii.eqb d c then TrimLeft_char c s' else s
  | EmptyString => EmptyString
  end.

(** [strings.Join] *)
Fixpoint Join (l : list string) (sep : string) : string :=
  match l with
  | [] => EmptyString
  | [x] => x
  | x :: l' => x +:+ sep +:+ Join l' sep
  end.

(** ** Runes *)

Definition between (lo hi : Z) (c : ascii) : bool := (lo <=? byte c) && (byte c <=? hi).
Definition cont (c : ascii) : Z := byte c mod 64.

(** [utf8.DecodeRune] on a non-empty string: the rune and its width; an invalid
    sequence yields U+FFFD and width 1. *)
Definition decode_rune (c : ascii) (s : string) : Z * nat :=
  let b := byte c in
  let bad := (65533, 1%nat) in
  if b <? 128 then (b, 1%nat)
  else if between 194 223 c then
    match s with
    | String c1 _ =>
        if between 128 191 c1 then ((b mod 32) * 64 + cont c1, 2%nat) else bad
    | _ => bad
    end
  else if between 224 239 c then
    match s with
    | String c1 (String c2 _) =>
        if between (if b =? 224 then 160 else 128) (if b =? 237 then 159 else 191) c1
           && between 128 191 c2
        then ((b mod 16) * 4096 + cont c1 * 64 + cont c2, 3%nat) else bad
    | _ => bad
    end
  else if between 240 244 c then
    match s with
    | String c1 (String c2 (String c3 _)) =>
        if between (if b =? 240 then 144 else 128) (if b =? 244 then 143 else 191) c1
           && between 128 191 c2 && between 128 191 c3
        then ((b mod 8) * 262144 + cont c1 * 4096 + cont c2 * 64 + cont c3, 4%nat) else bad
    | _ => bad
    end
  else bad.

(** [for i, r := range s]: the pairs [(i, r)] in order. *)
Fixpoint runes_from (i : nat) (skip : nat) (s : string) : list (nat * Z) :=
  match s with
  | EmptyString => []
  | String c s' =>
      match skip with
      | S k => runes_from (S i) k s'
      | O => let '(r, w) := decode_rune c s' in
             (i, r) :: runes_from (S i) (Nat.pred w) s'
      end
  end.
Definition runes (s : string) : list (nat * Z) := runes_from 0 0 s.

(** ** Numbers *)

Definition digit (c : ascii) : option Z :=
  if between 48 57 c then Some (byte c - 48) else None.

Fixpoint digits (acc : Z) (s : string) : option Z :=
  match s with
  | EmptyString => Some acc
  | String c s' =>
      match digit c with Some d => digits (acc * 10 + d) s' | None => None end
  end.

(** [strconv.Atoi]: the value, and whether the error is nil.  A syntax error
    yields 0, a range error the nearest [int]. *)
Definition Atoi (s : string) : Z * bool :=
  let parse (neg : bool) (t : string) :=
    match t with
    | EmptyString => (0, false)
    | _ => match digits 0 t with
           | None => (0, false)
           | Some n =>
               if neg then if n <=? 2^63 then (- n, true) else (- 2^63, false)
               else if n <? 2^63 then (n, true) else (2^63 - 1, false)
           end
    end in
  match s with
  | String c t =>
      if Ascii.eqb c "-" then parse true t
      else if Ascii.eqb c "+" then parse false t
      else parse false s
  | EmptyString => (0, false)
  end.

(** [%d] and [strconv.Itoa] *)
Definition digit_char (d : Z) : ascii := ascii_of_N (Z.to_N (48 + d)).

Fixpoint itoa_pos (fuel : nat) (n : Z) (acc : string) : string :=
  match fuel with
  | O => acc
  | S f =>
      let acc' := String (digit_char (n mod 10)) acc in
      if n <? 10 then acc' else itoa_pos f (n / 10) acc'
  end.
Definition Itoa (n : Z) : string :=
  if n <? 0 then String "-" (itoa_pos 20 (- n) EmptyString) else itoa_pos 20 n EmptyString.

(** ** Properties *)

Lemma chars_app a b : chars (a +:+ b) = chars a ++ chars b.
Proof. induction a as [|c a IH]; simpl; [done|]. by rewrite IH. Qed.

Lemma app_assoc_s (a b c : string) : a +:+ b +:+ c = (a +:+ b) +:+ c.
Proof. induction a as [|x a IH]; simpl; [done|]. by rewrite IH. Qed.

Lemma app_nil_r_s (a : string) : a +:+ EmptyString = a.
Proof. induction a as [|x a IH]; simpl; [done|]. by rewrite IH. Qed.

Lemma app_inj_l (a b c : string) : a +:+ b = a +:+ c → b = c.
Proof. induction a as [|x a IH]; simpl; [done|]. intros [= H]. auto. Qed.

Lemma length_app_s (a b : string) :
  String.length (a +:+ b) = (String.length a + String.length b)%nat.
Proof. induction a as [|x a IH]; simpl; [done|]. by rewrite IH. Qed.

Lemma prefix_app p s : String.prefix p (p +:+ s) = true.
Proof.
  induction p as [|c p IH]; [by destruct s|]. simpl.
  destruct (Ascii.ascii_dec c c); done.
Qed.

Lemma sdrop_app p s : sdrop (String.length p) (p +:+ s) = s.
Proof. induction p as [|c p IH]; simpl; [by destruct s|done]. Qed.

Lemma stake_app p s : stake (String.length p) (p +:+ s) = p.
Proof. induction p as [|c p IH]; simpl; [by destruct s|]. by rewrite IH. Qed.

Lemma prefix_true p s : String.prefix p s = true ↔ ∃ t, s = p +:+ t.
Proof.
  split.
  - revert s. induction p as [|c p IH]; intros s; [eauto|].
    destruct s as [|d s]; [done|]. simpl.
    destruct (Ascii.ascii_dec c d) as [->|]; [|done].
    intros [t ->]%IH. eauto.
  - intros [t ->]. apply prefix_app.
Qed.

Lemma HasPrefix_spec s p : HasPrefix s p = true ↔ ∃ t, s = p +:+ t.
Proof. apply prefix_true. Qed.

Lemma TrimPrefix_app p s : TrimPrefix (p +:+ s) p = s.
Proof. unfold TrimPrefix, HasPrefix. rewrite prefix_app. apply sdrop_app. Qed.

(** [cut] finds an occurrence of the separator. *)
Lemma cut_Some sep s a b : cut sep s = Some (a, b) → s = a +:+ sep +:+ b.
Proof.
  revert a b. induction s as [|c s IH]; intros a b; simpl.
  - destruct (String.prefix sep "") eqn:Hp; [|done]. intros [= <- <-].
    apply prefix_true in Hp as [t Ht]. simpl. rewrite Ht. by rewrite sdrop_app.
  - destruct (String.prefix sep (String c s)) eqn:Hp.
    + intros [= <- <-]. apply prefix_true in Hp as [t Ht]. rewrite Ht.
      by rewrite sdrop_app.
    + destruct (cut sep s) as [[a' b']|]; [|done]. intros [= <- <-].
      simpl. f_equal. by apply IH.
Qed.

(** There is none in what precedes it. *)
Lemma prefix_app_false sep s t : String.prefix sep (s +:+ t) = false → String.prefix sep s = false.
Proof.
  revert s. induction sep as [|c sep IH]; intros s; [by destruct s, t|].
  destruct s as [|d s]; [done|]. simpl. destruct (Ascii.ascii_dec c d); [apply IH|done].
Qed.
Lemma cut_prefix_None sep s a b : sep ≠ "" → cut sep s = Some (a, b) → cut sep a = None.
Proof.
  intros Hsep. revert a b. induction s as [|c s IH]; intros a b.
  { simpl. destruct sep; [done|]. done. }
  cbn [cut]. destruct (String.prefix sep (String c s)) eqn:Hp.
  { intros [= <- <-]. by destruct sep. }
  destruct (cut sep s) as [[a' b']|] eqn:Hcut; [|done]. intros [= <- <-].
  specialize (IH a' b' eq_refl). cbn [cut]. rewrite IH.
  apply cut_Some in Hcut. rewrite Hcut in Hp. change (String c (a' +:+ ?x)) with (String c a' +:+ x) in Hp.
  apply prefix_app_false in Hp. by rewrite Hp.
Qed.

(** The first occurrence is found when the separator's first byte does not
    occur before it. *)
Lemma cut_app c sep a b :
  c ∉ chars a → cut (String c sep) (a +:+ String c sep +:+ b) = Some (a, b).
Proof.
  induction a as [|d a IH]; intros Hc.
  - change (EmptyString +:+ String c sep +:+ b) with (String c sep +:+ b).
    pose proof (prefix_app (String c sep) b) as Hp.
    pose proof (sdrop_app (String c sep) b) as Hd.
    destruct (String c sep +:+ b) eqn:E; [done|].
    unfold cut. rewrite Hp, Hd. done.
  - simpl chars in Hc. apply not_elem_of_cons in Hc as [Hcd Hc].
    specialize (IH Hc). simpl. destruct (Ascii.ascii_dec c d); [done|].
    simpl in IH. by rewrite IH.
Qed.

Lemma cut_None_notin c sep s : c ∉ chars s → cut (String c sep) s = None.
Proof.
  induction s as [|d s IH]; intros Hc; [done|].
  simpl chars in Hc. apply not_elem_of_cons in Hc as [Hcd Hc].
  simpl. destruct (Ascii.ascii_dec c d); [done|]. by rewrite IH.
Qed.

Lemma Contains_spec s sub :
  Contains s sub = true ↔ ∃ a b, s = a +:+ sub +:+ b.
Proof.
  unfold Contains. split.
  - destruct (cut sub s) as [[a b]|] eqn:Hc; [|done]. intros _.
    exists a, b. by apply cut_Some.
  - intros (a & b & ->). induction a as [|c a IH].
    + simpl. pose proof (prefix_app sub b) as Hp.
      destruct (sub +:+ b) eqn:E; simpl; rewrite Hp; done.
    + simpl. destruct (String.prefix sub _); [done|].
      destruct (cut sub (a +:+ sub +:+ b)) as [[??]|]; done.
Qed.

Lemma SplitN2_length s sep :
  length (SplitN2 s sep) = if Contains s sep then 2%nat else 1%nat.
Proof. unfold SplitN2, Contains. by destruct (cut sep s) as [[??]|]. Qed.

Lemma HasPrefix_app_l p s t : HasPrefix s p = true → HasPrefix (s +:+ t) p = true.
Proof. rewrite !HasPrefix_spec. intros [u ->]. exists (u +:+ t). by rewrite app_assoc_s. Qed.

Lemma sdrop_stake n s : stake n s +:+ sdrop n s = s.
Proof.
  revert s. induction n as [|n IH]; intros [|c s]; simpl; try done. f_equal. apply IH.
Qed.
Lemma HasSuffix_spec s p : HasSuffix s p = true ↔ ∃ t, s = t +:+ p.
Proof.
  unfold HasSuffix. rewrite andb_true_iff, Nat.leb_le, String.eqb_eq. split.
  - intros [_ Hd]. exists (stake (String.length s - String.length p) s). rewrite <- Hd at 2.
    by rewrite sdrop_stake.
  - intros [t ->]. rewrite length_app_s. split; [lia|].
    replace (String.length t + String.length p - String.length p)%nat with (String.length t) by lia.
    apply sdrop_app.
Qed.

Lemma HasPrefix_nil s : HasPrefix s "" = true.
Proof. apply HasPrefix_spec. by exists s. Qed.

Lemma len_nonneg s : 0 ≤ len s.
Proof. unfold len. lia. Qed.

(** ** The order of strings *)
Lemma ltb_cons c s d t :
  String.ltb (String c s) (String d t) = true ↔
  (N_of_ascii c < N_of_ascii d)%N ∨ c = d ∧ String.ltb s t = true.
Proof.
  unfold String.ltb. simpl. change (Ascii.compare c d) with (N.compare (N_of_ascii c) (N_of_ascii d)).
  destruct (N.compare_spec (N_of_ascii c) (N_of_ascii d)) as [He|Hl|Hg].
  - apply (f_equal ascii_of_N) in He. rewrite !ascii_N_embedding in He. subst.
    destruct (String.compare s t); split; try done; try (by right); intros [?|[_ ?]]; try done; lia.
  - split; [by left|done].
  - split; [done|]. intros [?|[-> _]]; lia.
Qed.
Lemma ltb_asym a b : String.ltb a b = true → String.ltb b a = false.
Proof.
  revert b. induction a as [|c a IH]; intros [|d b]; try done. rewrite <- not_true_iff_false, !ltb_cons.
  intros [H|[-> H]] [H'|[He H']]; try (subst; lia). specialize (IH _ H). congruence.
Qed.
Lemma ltb_negative_trans a b c : String.ltb b a = false → String.ltb c b = false → String.ltb c a = false.
Proof.
  revert b c. induction a as [|x a IH]; intros [|y b] [|z c]; try done.
  rewrite <- !not_true_iff_false, !ltb_cons. intros H1 H2 [H|[-> H]].
  - destruct (decide (y = z)) as [->|Hne].
    + apply H1. by left.
    + destruct (N.lt_trichotomy (N_of_ascii y) (N_of_ascii x)) as [?|[He|?]]; [by apply H1; left| |].
      * apply H2. left. lia.
      * apply H2. left. lia.
  - destruct (N.lt_trichotomy (N_of_ascii y) (N_of_ascii x)) as [?|[He|?]]; [by apply H1; left| |].
    + apply (f_equal ascii_of_N) in He. rewrite !ascii_N_embedding in He. subst.
      rewrite (IH b c) in H; [done|..]; apply not_true_iff_false; intros Ht; [apply H1|apply H2]; by right.
    + apply H2. by left.
Qed.

#[export] Hint Rewrite chars_app prefix_app sdrop_app stake_app TrimPrefix_app : cattle.
#[export] Hint Resolve len_nonneg : cattle.

(** ** Concrete checks *)

Example SplitN2_ex : SplitN2 "a:b:c" ":" = ["a"; "b:c"].
Proof. reflexivity. Qed.
Example Split_char_ex : Split_char "|" "n1|n2||" = ["n1"; "n2"; ""; ""].
Proof. reflexivity. Qed.
Example cut_last_ex : cut_last ":" "host:5000/img:tag" = Some ("host:5000/img", "tag").
Proof. reflexivity. Qed.
Example Atoi_ex : (Atoi "-12", Atoi "", Atoi "3x", Atoi "9223372036854775808")
  = ((-12, true), (0, false), (0, false), (9223372036854775807, false)).
Proof. vm_compute. reflexivity. Qed.
Example Itoa_ex : (Itoa 0, Itoa (-120), Itoa 907) = ("0", "-120", "907").
Proof. vm_compute. reflexivity. Qed.

(** ** [strings.TrimSpace] *)

Definition is_unicode_space (r : Z) : bool :=
  ((9 <=? r) && (r <=? 13)) || (r =? 32) || (r =? 133) || (r =? 160) || (r =? 5760)
  || ((8192 <=? r) && (r <=? 8202)) || (r =? 8232) || (r =? 8233) || (r =? 8239)
  || (r =? 8287) || (r =? 12288).

(** The bytes between the first and the last rune that is not a space. *)
Definition TrimSpace (s : string) : string :=
  let rs := runes s in
  let ends := (tail rs).*1 ++ [String.length s] in
  match List.filter (λ x, negb (is_unicode_space x.1.2)) (zip rs ends) with
  | [] => EmptyString
  | x :: l =>
      let start := x.1.1 in
      let stop := (List.last l x).2 in
      stake (stop - start) (sdrop start s)
  end.

Example TrimSpace_ex : TrimSpace "  no such image 	" = "no such image".
Proof. vm_compute. reflexivity. Qed.
