(* ===== verification/Regexp.v ===== *)
(** * Regular expressions

    The interface of Go's [regexp] that the sources use, and an instance for
    witnesses.  Every theorem of the development holds for any [GoRegexp]; the
    instance [re2] implements literals, escapes, [.], [^], [$], classes, groups,
    [|], [*], [+], [?] and their lazy forms, and refuses every other pattern. *)
From S2P Require Import Prelude GoStrings.

(** [Compile] is [regexp.Compile] ([None]: a non-nil error) and [MatchRe] the
    [MatchString] method of the compiled expression. *)
Class GoRegexp := {
  regex : Type;
  Compile : string → option regex;
  MatchRe : regex → string → bool
}.

(** [regexp.MatchString(pattern, s)]: compile, then match; [None] is an error. *)
Definition MatchString `{GoRegexp} (pattern s : string) : option bool :=
  (λ re, MatchRe re s) <$> Compile pattern.

(** ** Syntax and matching *)

Inductive re : Type :=
  | Eps
  | Cls (p : Z → bool)
  | Bol
  | Eol
  | Seq (r1 r2 : re)
  | Alt (r1 r2 : re)
  | Star (r : re).

(** The end positions of the matches of [r] in [s] that start at [i]. *)
Section ends.
Variable s : list Z.
Fixpoint star_ends (f : nat → list nat) (fuel i : nat) : list nat :=
  match fuel with
  | O => [i]
  | S k => remove_dups (i :: mjoin (star_ends f k <$> List.filter (λ j, (i <? j)%nat) (f i)))
  end.
Fixpoint ends (r : re) (i : nat) : list nat :=
  match r with
  | Eps => [i]
  | Cls p => match s !! i with Some c => if p c then [S i] else [] | None => [] end
  | Bol => if (i =? 0)%nat then [i] else []
  | Eol => if (i =? length s)%nat then [i] else []
  | Seq r1 r2 => remove_dups (mjoin (ends r2 <$> ends r1 i))
  | Alt r1 r2 => ends r1 i ++ ends r2 i
  | Star r => star_ends (ends r) (length s) i
  end.
End ends.

(** Some substring matches. *)
Definition re_match (r : re) (s : string) : bool :=
  let w := (runes s).*2 in
  existsb (λ i, match ends w r i with [] => false | _ => true end) (seq 0 (S (length w))).

(** ** Parsing *)

Definition is_digit (c : Z) : bool := (48 <=? c) && (c <=? 57).
Definition is_alpha (c : Z) : bool :=
  ((97 <=? c) && (c <=? 122)) || ((65 <=? c) && (c <=? 90)).
Definition is_word (c : Z) : bool := is_digit c || is_alpha c || (c =? 95).
Definition is_space (c : Z) : bool :=
  (c =? 9) || (c =? 10) || (c =? 12) || (c =? 13) || (c =? 32).
Definition any (c : Z) : bool := negb (c =? 10).

(** The class of the escape [\c]; [None] for an escape that is not supported. *)
Definition escape (c : Z) : option (Z → bool) :=
  if c =? 100 then Some is_digit
  else if c =? 68 then Some (λ x, negb (is_digit x))
  else if c =? 115 then Some is_space
  else if c =? 83 then Some (λ x, negb (is_space x))
  else if c =? 119 then Some is_word
  else if c =? 87 then Some (λ x, negb (is_word x))
  else if c =? 110 then Some (Z.eqb 10)
  else if c =? 116 then Some (Z.eqb 9)
  else if c =? 114 then Some (Z.eqb 13)
  else if (c <? 128) && negb (is_word c) then Some (Z.eqb c)
  else None.

(** The items of a class, up to the closing bracket. *)
Fixpoint p_class (fuel : nat) (first : bool) (acc : Z → bool) (s : list Z)
  : option ((Z → bool) * list Z) :=
  match fuel with
  | O => None
  | S n =>
      match s with
      | [] => None
      | 93 :: s' => if first then p_class n false (λ x, acc x || (x =? 93)) s'
                    else Some (acc, s')
      | 92 :: c :: s' => e ← escape c; p_class n false (λ x, acc x || e x) s'
      | a :: 45 :: b :: s' =>
          if b =? 93 then p_class n false (λ x, acc x || (x =? a) || (x =? 45)) (b :: s')
          else if (b <? a) || (b =? 92) then None
          else p_class n false (λ x, acc x || ((a <=? x) && (x <=? b))) s'
      | a :: s' => if a =? 92 then None else p_class n false (λ x, acc x || (x =? a)) s'
      end
  end.

Definition is_rep (c : Z) : bool := (c =? 42) || (c =? 43) || (c =? 63).

(** At most one repetition operator, with an optional [?], may follow an atom. *)
Definition p_rep (a : re) (s : list Z) : option (re * list Z) :=
  let close (r : re) (s : list Z) :=
    let s := match s with 63 :: s' => s' | _ => s end in
    match s with c :: _ => if is_rep c then None else Some (r, s) | [] => Some (r, s) end in
  match s with
  | 42 :: s' => close (Star a) s'
  | 43 :: s' => close (Seq a (Star a)) s'
  | 63 :: s' => close (Alt a Eps) s'
  | _ => Some (a, s)
  end.

Fixpoint p_alt (fuel : nat) (s : list Z) : option (re * list Z) :=
  match fuel with
  | O => None
  | S n =>
      '(r, s1) ← p_seq n s;
      match s1 with
      | 124 :: s2 => '(r2, s3) ← p_alt n s2; Some (Alt r r2, s3)
      | _ => Some (r, s1)
      end
  end
with p_seq (fuel : nat) (s : list Z) : option (re * list Z) :=
  match fuel with
  | O => None
  | S n =>
      match s with
      | [] | 124 :: _ | 41 :: _ => Some (Eps, s)
      | _ =>
          '(a, s1) ← p_atom n s;
          '(r, s2) ← p_rep a s1;
          '(t, s3) ← p_seq n s2;
          Some (Seq r t, s3)
      end
  end
with p_atom (fuel : nat) (s : list Z) : option (re * list Z) :=
  match fuel with
  | O => None
  | S n =>
      match s with
      | [] => None
      | 40 :: 63 :: _ => None
      | 40 :: s1 =>
          '(r, s2) ← p_alt n s1;
          match s2 with 41 :: s3 => Some (r, s3) | _ => None end
      | 91 :: 94 :: s1 => '(p, s2) ← p_class n true (λ _, false) s1; Some (Cls (λ x, negb (p x)), s2)
      | 91 :: s1 => '(p, s2) ← p_class n true (λ _, false) s1; Some (Cls p, s2)
      | 92 :: 65 :: s1 => Some (Bol, s1)
      | 92 :: 122 :: s1 => Some (Eol, s1)
      | 92 :: c :: s1 => p ← escape c; Some (Cls p, s1)
      | 46 :: s1 => Some (Cls any, s1)
      | 94 :: s1 => Some (Bol, s1)
      | 36 :: s1 => Some (Eol, s1)
      | c :: s1 => if is_rep c || (c =? 123) || (c =? 92) then None else Some (Cls (Z.eqb c), s1)
      end
  end.

Definition re_compile (p : string) : option re :=
  let w := (runes p).*2 in
  match p_alt (2 * length w + 4) w with
  | Some (r, []) => Some r
  | _ => None
  end.

Definition re2 : GoRegexp := {| regex := re; Compile := re_compile; MatchRe := re_match |}.

Example re2_ex :
  (λ p, @MatchString re2 p "ubuntu-14") <$> ["^ub.*t.*$"; "^ub$"; "u+n|x"; "[0-9]+$"; "a(b"; "**"; "b\w"]
  = [Some true; Some false; Some true; Some true; None; None; Some true].
Proof. vm_compute. reflexivity. Qed.
