(* ===== verification/Json.v ===== *)
(** * JSON arrays of strings

    The affinities, constraints, whitelists and rescheduling policies of a
    container are stored in its labels as JSON arrays of strings.  [GoJson] is
    what the code relies on of [encoding/json] for them; [json_strings] is an
    implementation that discharges it. *)
From S2P Require Import Prelude GoStrings.
From Stdlib Require Import Ascii.

(** Strings on which encoding is lossless (invalid UTF-8 is replaced by Go's
    encoder; the development restricts itself to ASCII). *)
Definition json_clean (s : string) : Prop := Forall (λ c, byte c < 128) (chars s).
Definition json_cleanb (s : string) : bool := forallb (λ c, byte c <? 128) (chars s).

Lemma json_cleanb_all l : forallb json_cleanb l = true → Forall json_clean l.
Proof.
  rewrite forallb_forall, Forall_forall. intros Hl x Hx%list_elem_of_In%Hl.
  apply Forall_forall. intros c Hc%list_elem_of_In.
  unfold json_cleanb in Hx. rewrite forallb_forall in Hx. apply Z.ltb_lt. by apply Hx.
Qed.

Lemma json_cleanb_one s : json_cleanb s = true → json_clean s.
Proof.
  intros Hs. apply (Forall_singleton json_clean), json_cleanb_all. simpl. by rewrite Hs.
Qed.

(** [Unmarshal_strings s] is the value of a nil [[]string] variable after
    [json.Unmarshal([]byte(s), &v)], whose error the callers discard;
    [Marshal_strings] is [json.Marshal] on a non-nil [[]string]. *)
Class GoJson := {
  Unmarshal_strings : string → list string;
  Marshal_strings : list string → outcome string;
  json_roundtrip : ∀ l, Forall json_clean l →
    ∃ s, Marshal_strings l = Ret s ∧ Unmarshal_strings s = l
}.

(** ** Encoding *)

Definition hex_char (d : Z) : ascii :=
  if d <? 10 then ascii_of_N (Z.to_N (48 + d)) else ascii_of_N (Z.to_N (87 + d)).
Definition quote : ascii := "034".

Definition encode_char (c : ascii) : string :=
  let b := byte c in
  if b =? 34 then String "\" (String quote "")
  else if b =? 92 then "\\"
  else if b =? 10 then "\n"
  else if b =? 13 then "\r"
  else if b =? 9 then "\t"
  else if (b <? 32) || (b =? 60) || (b =? 62) || (b =? 38)
  then "\u00" +:+ String (hex_char (b / 16)) (String (hex_char (b mod 16)) "")
  else String c "".

Fixpoint encode_chars (s : string) : string :=
  match s with
  | EmptyString => EmptyString
  | String c s' => encode_char c +:+ encode_chars s'
  end.

Definition encode_string (s : string) : string :=
  String quote (encode_chars s +:+ String quote "").

Definition encode_strings (l : list string) : string :=
  "[" +:+ Join (encode_string <$> l) "," +:+ "]".

(** ** Decoding *)

Definition hex_digit (c : ascii) : option Z :=
  if between 48 57 c then Some (byte c - 48)
  else if between 97 102 c then Some (byte c - 87)
  else if between 65 70 c then Some (byte c - 55)
  else None.

Definition chr (z : Z) : ascii := ascii_of_N (Z.to_N z).

(** The UTF-8 encoding of a code point of the basic plane; surrogates are
    replaced by U+FFFD. *)
Definition encode_rune (z : Z) : string :=
  let z := if (55296 <=? z) && (z <=? 57343) then 65533 else z in
  if z <? 128 then String (chr z) ""
  else if z <? 2048 then String (chr (192 + z / 64)) (String (chr (128 + z mod 64)) "")
  else String (chr (224 + z / 4096))
         (String (chr (128 + z / 64 mod 64)) (String (chr (128 + z mod 64)) "")).

(** One character of a string literal: [None] on a syntax error, [Some None] on
    the closing quote. *)
Definition decode_char (s : string) : option (option string * string) :=
  match s with
  | EmptyString => None
  | String c s' =>
      if byte c =? 34 then Some (None, s')
      else if byte c <? 32 then None
      else if byte c =? 92 then
        match s' with
        | EmptyString => None
        | String e s2 =>
            let lit x := Some (Some (String (chr x) ""), s2) in
            if byte e =? 117 then
              match s2 with
              | String a (String b (String f (String g s3))) =>
                  x1 ← hex_digit a; x2 ← hex_digit b; x3 ← hex_digit f; x4 ← hex_digit g;
                  Some (Some (encode_rune (x1 * 4096 + x2 * 256 + x3 * 16 + x4)), s3)
              | _ => None
              end
            else if (byte e =? 34) || (byte e =? 92) || (byte e =? 47) then lit (byte e)
            else if byte e =? 98 then lit 8
            else if byte e =? 102 then lit 12
            else if byte e =? 110 then lit 10
            else if byte e =? 114 then lit 13
            else if byte e =? 116 then lit 9
            else None
        end
      else Some (Some (String c ""), s')
  end.

Fixpoint decode_chars (fuel : nat) (s : string) : option (string * string) :=
  match fuel with
  | O => None
  | S n =>
      '(o, s') ← decode_char s;
      match o with
      | None => Some (EmptyString, s')
      | Some x => '(y, s2) ← decode_chars n s'; Some (x +:+ y, s2)
      end
  end.

Fixpoint skip_ws (s : string) : string :=
  match s with
  | String c s' =>
      if (byte c =? 32) || (byte c =? 9) || (byte c =? 10) || (byte c =? 13)
      then skip_ws s' else s
  | EmptyString => EmptyString
  end.

(** The elements after the opening bracket, and the text after the closing one. *)
Fixpoint decode_elems (fuel : nat) (s : string) : option (list string * string) :=
  match fuel with
  | O => None
  | S n =>
      match skip_ws s with
      | String q s1 =>
          if byte q =? 34 then
            '(x, s2) ← decode_chars (S (String.length s1)) s1;
            match skip_ws s2 with
            | String d s3 =>
                if byte d =? 44 then '(l, s4) ← decode_elems n s3; Some (x :: l, s4)
                else if byte d =? 93 then Some ([x], s3) else None
            | EmptyString => None
            end
          else None
      | EmptyString => None
      end
  end.

(** Arrays of strings; every other text yields nil. *)
Definition decode_strings (s : string) : list string :=
  match skip_ws s with
  | String b s1 =>
      if byte b =? 91 then
        match skip_ws s1 with
        | String c s2 =>
            if byte c =? 93 then []
            else match decode_elems (S (String.length s1)) s1 with
                 | Some (l, s3) => match skip_ws s3 with EmptyString => l | _ => [] end
                 | None => []
                 end
        | EmptyString => []
        end
      else []
  | EmptyString => []
  end.

(** ** Round trip *)

Lemma decode_encode_char c rest :
  byte c < 128 → decode_char (encode_char c +:+ rest) = Some (Some (String c ""), rest).
Proof.
  intros Hc. destruct c as [b0 b1 b2 b3 b4 b5 b6 b7].
  destruct b7; [exfalso; revert Hc; by destruct b0, b1, b2, b3, b4, b5, b6|].
  clear Hc. by destruct b0, b1, b2, b3, b4, b5, b6.
Qed.

Lemma encode_char_length c : (1 ≤ String.length (encode_char c))%nat.
Proof. unfold encode_char. repeat case_match; simpl; lia. Qed.

Lemma decode_encode_chars s rest n :
  json_clean s → (String.length s < n)%nat →
  decode_chars n (encode_chars s +:+ String quote rest) = Some (s, rest).
Proof.
  unfold json_clean. revert n. induction s as [|c s IH]; intros n Hs Hn.
  - destruct n as [|n]; [lia|]. done.
  - simpl in Hs. apply Forall_cons in Hs as [Hc Hs]. simpl in Hn.
    destruct n as [|n]; [lia|].
    change (encode_chars (String c s)) with (encode_char c +:+ encode_chars s).
    rewrite <- app_assoc_s. simpl decode_chars.
    rewrite decode_encode_char by done. simpl. rewrite IH by (done || lia). done.
Qed.

#[local] Arguments decode_chars : simpl never.

Lemma encode_chars_length s : (String.length s ≤ String.length (encode_chars s))%nat.
Proof.
  induction s as [|c s IH]; simpl; [lia|].
  rewrite length_app_s. pose proof (encode_char_length c). lia.
Qed.

Lemma encode_string_app s t :
  encode_string s +:+ t = String quote (encode_chars s +:+ String quote t).
Proof. unfold encode_string. simpl. by rewrite <- app_assoc_s. Qed.

Lemma decode_encode_elems x l n rest :
  Forall json_clean (x :: l) → (length l < n)%nat →
  decode_elems n (Join (encode_string <$> (x :: l)) "," +:+ "]" +:+ rest) = Some (x :: l, rest).
Proof.
  revert x n. induction l as [|y l IH]; intros x n [Hx Hl]%Forall_cons Hn.
  - destruct n as [|n]; [simpl in Hn; lia|]. simpl Join. rewrite encode_string_app.
    simpl decode_elems.
    rewrite decode_encode_chars; [done|done|].
    rewrite length_app_s. simpl. pose proof (encode_chars_length x). lia.
  - destruct n as [|n]; [simpl in Hn; lia|].
    change (Join (encode_string <$> x :: y :: l) ",")
      with (encode_string x +:+ "," +:+ Join (encode_string <$> (y :: l)) ",").
    rewrite <- !app_assoc_s, encode_string_app.
    specialize (IH y n Hl ltac:(simpl in Hn; lia)).
    set (w := Join (encode_string <$> y :: l) "," +:+ "]" +:+ rest) in *. clearbody w.
    simpl decode_elems. rewrite decode_encode_chars; [|done|].
    + simpl. by rewrite IH.
    + rewrite length_app_s. simpl. pose proof (encode_chars_length x). lia.
Qed.

Lemma join_length l sep : (length l ≤ S (String.length (Join (encode_string <$> l) sep)))%nat.
Proof.
  induction l as [|x [|y l] IH]; simpl in *; [lia|lia|].
  rewrite !length_app_s. simpl. lia.
Qed.

Lemma decode_encode_strings l : Forall json_clean l → decode_strings (encode_strings l) = l.
Proof.
  intros Hl. destruct l as [|x l]; [done|].
  pose proof (decode_encode_elems x l) as H.
  pose proof (join_length (x :: l) ",") as Hlen.
  unfold encode_strings.
  set (w := Join (encode_string <$> x :: l) ",") in *.
  assert (∃ w', w +:+ "]" = String quote w') as [w' Hw'].
  { subst w. destruct l; simpl; eauto. }
  change ("[" +:+ w +:+ "]") with (String "[" (w +:+ "]")).
  unfold decode_strings. simpl skip_ws. simpl byte. cbv iota.
  specialize (H (S (String.length (w +:+ "]"))) "").
  rewrite app_nil_r_s in H. rewrite H.
  - rewrite Hw'. done.
  - done.
  - rewrite length_app_s. simpl in *. lia.
Qed.

Definition json_strings : GoJson :=
  {| Unmarshal_strings := decode_strings;
     Marshal_strings := λ l, Ret (encode_strings l);
     json_roundtrip := λ l Hl, ex_intro _ (encode_strings l) (conj eq_refl (decode_encode_strings l Hl)) |}.

Example json_ex :
  decode_strings (encode_strings ["container==redis"; "a<b\"]) = ["container==redis"; "a<b\"].
Proof. vm_compute. reflexivity. Qed.
