(* ===== verification/Config.v ===== *)
(** * Container configurations ([cluster/config.go])

    The scheduling directives of a container (affinities, constraints,
    whitelists, rescheduling policies) arrive as environment entries
    [affinity:...], [constraint:...] or as labels, and are kept as JSON arrays in
    labels.  Only the fields of Docker's types that the sources read or write are
    kept.  A nil map reads as an empty one; the label map is always allocated by
    [BuildContainerConfig] before anything is written to it. *)
From S2P Require Import Prelude GoStrings Json.

(** ** Data *)

(** [nat.PortBinding] *)
Record PortBinding := { pb_HostIP : string; pb_HostPort : string }.
(** [nat.PortMap] *)
Abbreviation PortMap := (gmap string (list PortBinding)).

(** [container.HostConfig] *)
Record HostConfig := {
  hc_Memory : Z;
  hc_MemorySwap : Z;
  hc_CPUShares : Z;
  hc_CpusetCpus : string;
  hc_NetworkMode : string;
  hc_VolumesFrom : list string;
  hc_Links : list string;
  hc_PortBindings : PortMap
}.

(** [container.Config] *)
Record DockerConfig := {
  dc_Env : list string;
  dc_Labels : gmap string string;
  dc_Image : string;
  dc_ExposedPorts : gmap string unit;
  dc_Hostname : string;
  dc_Domainname : string;
  dc_Cmd : list string;
  dc_AttachStdin : bool;
  dc_AttachStdout : bool;
  dc_AttachStderr : bool
}.

(** [network.EndpointSettings] and [network.NetworkingConfig] *)
Record EndpointSettings := { es_NetworkID : string }.
Record NetworkingConfig := { EndpointsConfig : gmap string EndpointSettings }.

Definition zero_HostConfig : HostConfig := {|
  hc_Memory := 0; hc_MemorySwap := 0; hc_CPUShares := 0; hc_CpusetCpus := "";
  hc_NetworkMode := ""; hc_VolumesFrom := []; hc_Links := []; hc_PortBindings := ∅ |}.
Definition zero_DockerConfig : DockerConfig :=
  {| dc_Env := []; dc_Labels := ∅; dc_Image := ""; dc_ExposedPorts := ∅; dc_Hostname := ""; dc_Domainname := "";
     dc_Cmd := []; dc_AttachStdin := false; dc_AttachStdout := false; dc_AttachStderr := false |}.
Definition zero_NetworkingConfig : NetworkingConfig := {| EndpointsConfig := ∅ |}.

Definition hc_set_Memory (z : Z) (h : HostConfig) : HostConfig := {|
  hc_Memory := z; hc_MemorySwap := hc_MemorySwap h; hc_CPUShares := hc_CPUShares h;
  hc_CpusetCpus := hc_CpusetCpus h; hc_NetworkMode := hc_NetworkMode h;
  hc_VolumesFrom := hc_VolumesFrom h; hc_Links := hc_Links h;
  hc_PortBindings := hc_PortBindings h |}.
Definition hc_set_MemorySwap (z : Z) (h : HostConfig) : HostConfig := {|
  hc_Memory := hc_Memory h; hc_MemorySwap := z; hc_CPUShares := hc_CPUShares h;
  hc_CpusetCpus := hc_CpusetCpus h; hc_NetworkMode := hc_NetworkMode h;
  hc_VolumesFrom := hc_VolumesFrom h; hc_Links := hc_Links h;
  hc_PortBindings := hc_PortBindings h |}.
Definition hc_set_CPUShares (z : Z) (h : HostConfig) : HostConfig := {|
  hc_Memory := hc_Memory h; hc_MemorySwap := hc_MemorySwap h; hc_CPUShares := z;
  hc_CpusetCpus := hc_CpusetCpus h; hc_NetworkMode := hc_NetworkMode h;
  hc_VolumesFrom := hc_VolumesFrom h; hc_Links := hc_Links h;
  hc_PortBindings := hc_PortBindings h |}.
Definition hc_set_CpusetCpus (s : string) (h : HostConfig) : HostConfig := {|
  hc_Memory := hc_Memory h; hc_MemorySwap := hc_MemorySwap h;
  hc_CPUShares := hc_CPUShares h; hc_CpusetCpus := s; hc_NetworkMode := hc_NetworkMode h;
  hc_VolumesFrom := hc_VolumesFrom h; hc_Links := hc_Links h;
  hc_PortBindings := hc_PortBindings h |}.
Definition hc_set_NetworkMode (s : string) (h : HostConfig) : HostConfig := {|
  hc_Memory := hc_Memory h; hc_MemorySwap := hc_MemorySwap h;
  hc_CPUShares := hc_CPUShares h; hc_CpusetCpus := hc_CpusetCpus h; hc_NetworkMode := s;
  hc_VolumesFrom := hc_VolumesFrom h; hc_Links := hc_Links h;
  hc_PortBindings := hc_PortBindings h |}.

Definition SwarmLabelNamespace : string := "com.docker.swarm".

(** [type ContainerConfig struct] *)
Record ContainerConfig := {
  cc_Config : DockerConfig;
  cc_HostConfig : HostConfig;
  cc_NetworkingConfig : NetworkingConfig
}.

(** The promoted fields of the embedded [container.Config]. *)
Definition cc_Env (c : ContainerConfig) : list string := dc_Env (cc_Config c).
Definition cc_Labels (c : ContainerConfig) : gmap string string := dc_Labels (cc_Config c).
Definition cc_Image (c : ContainerConfig) : string := dc_Image (cc_Config c).
Definition cc_ExposedPorts (c : ContainerConfig) : gmap string unit :=
  dc_ExposedPorts (cc_Config c).

Definition dc_set_Labels (m : gmap string string) (d : DockerConfig) : DockerConfig :=
  {| dc_Env := dc_Env d; dc_Labels := m; dc_Image := dc_Image d;
     dc_ExposedPorts := dc_ExposedPorts d; dc_Hostname := dc_Hostname d;
     dc_Domainname := dc_Domainname d; dc_Cmd := dc_Cmd d; dc_AttachStdin := dc_AttachStdin d;
     dc_AttachStdout := dc_AttachStdout d; dc_AttachStderr := dc_AttachStderr d |}.
Definition dc_set_Env (l : list string) (d : DockerConfig) : DockerConfig :=
  {| dc_Env := l; dc_Labels := dc_Labels d; dc_Image := dc_Image d;
     dc_ExposedPorts := dc_ExposedPorts d; dc_Hostname := dc_Hostname d;
     dc_Domainname := dc_Domainname d; dc_Cmd := dc_Cmd d; dc_AttachStdin := dc_AttachStdin d;
     dc_AttachStdout := dc_AttachStdout d; dc_AttachStderr := dc_AttachStderr d |}.
Definition cc_set_Labels (m : gmap string string) (c : ContainerConfig) : ContainerConfig :=
  {| cc_Config := dc_set_Labels m (cc_Config c); cc_HostConfig := cc_HostConfig c;
     cc_NetworkingConfig := cc_NetworkingConfig c |}.
Definition cc_set_Env (l : list string) (c : ContainerConfig) : ContainerConfig :=
  {| cc_Config := dc_set_Env l (cc_Config c); cc_HostConfig := cc_HostConfig c;
     cc_NetworkingConfig := cc_NetworkingConfig c |}.
Definition cc_set_HostConfig (h : HostConfig) (c : ContainerConfig) : ContainerConfig :=
  {| cc_Config := cc_Config c; cc_HostConfig := h;
     cc_NetworkingConfig := cc_NetworkingConfig c |}.

(** [&cluster.ContainerConfig{}] *)
Definition zero_ContainerConfig : ContainerConfig := {|
  cc_Config := zero_DockerConfig; cc_HostConfig := zero_HostConfig;
  cc_NetworkingConfig := zero_NetworkingConfig |}.

(** [type OldContainerConfig struct] *)
Record OldContainerConfig := {
  oc_ContainerConfig : ContainerConfig;
  oc_Memory : Z;
  oc_MemorySwap : Z;
  oc_CPUShares : Z;
  oc_CPUSet : string
}.

(** ** Operations *)

Definition parseEnv (e : string) : bool * string * string :=
  match SplitN2 e ":" with
  | [k; v] => (true, k, v)
  | _ => (false, "", "")
  end.

(** The four tests of the source, in sequence, on the host configuration. *)
Definition ConsolidateResourceFields (c : OldContainerConfig) : OldContainerConfig :=
  let h0 := cc_HostConfig (oc_ContainerConfig c) in
  let h1 := if bool_decide (oc_Memory c ≠ hc_Memory h0) && bool_decide (oc_Memory c ≠ 0)
            then hc_set_Memory (oc_Memory c) h0 else h0 in
  let h2 := if bool_decide (oc_MemorySwap c ≠ hc_MemorySwap h1) && bool_decide (oc_MemorySwap c ≠ 0)
            then hc_set_MemorySwap (oc_MemorySwap c) h1 else h1 in
  let h3 := if bool_decide (oc_CPUShares c ≠ hc_CPUShares h2) && bool_decide (oc_CPUShares c ≠ 0)
            then hc_set_CPUShares (oc_CPUShares c) h2 else h2 in
  let h4 := if bool_decide (oc_CPUSet c ≠ hc_CpusetCpus h3) && bool_decide (oc_CPUSet c ≠ "")
            then hc_set_CpusetCpus (oc_CPUSet c) h3 else h3 in
  {| oc_ContainerConfig := cc_set_HostConfig h4 (oc_ContainerConfig c);
     oc_Memory := oc_Memory c; oc_MemorySwap := oc_MemorySwap c;
     oc_CPUShares := oc_CPUShares c; oc_CPUSet := oc_CPUSet c |}.

Section config.
Context `{GoJson}.
(** The local variables of [BuildContainerConfig]. *)
Record directives := {
  d_affinities : list string;
  d_constraints : list string;
  d_policies : list string;
  d_whitelists : list string;
  d_env : list string
}.
(** The body of [for _, e := range c.Env]. *)
Definition scan_env (d : directives) (e : string) : directives :=
  let '(ok, key, value) := parseEnv e in
  if ok && String.eqb key "affinity" then
    {| d_affinities := d_affinities d ++ [value]; d_constraints := d_constraints d;
       d_policies := d_policies d; d_whitelists := d_whitelists d; d_env := d_env d |}
  else if ok && String.eqb key "constraint" then
    {| d_affinities := d_affinities d; d_constraints := d_constraints d ++ [value];
       d_policies := d_policies d; d_whitelists := d_whitelists d; d_env := d_env d |}
  else if ok && String.eqb key "reschedule" then
    {| d_affinities := d_affinities d; d_constraints := d_constraints d;
       d_policies := d_policies d ++ [value]; d_whitelists := d_whitelists d; d_env := d_env d |}
  else if ok && String.eqb key "whitelist" then
    {| d_affinities := d_affinities d; d_constraints := d_constraints d;
       d_policies := d_policies d; d_whitelists := d_whitelists d ++ [value]; d_env := d_env d |}
  else
    {| d_affinities := d_affinities d; d_constraints := d_constraints d;
       d_policies := d_policies d; d_whitelists := d_whitelists d; d_env := d_env d ++ [e] |}.
(** [if labels, ok := c.Labels[NS+"."+key]; ok { json.Unmarshal(labels, &exprs) }] *)
Definition label_exprs (labels : gmap string string) (key : string) : list string :=
  match labels !! (SwarmLabelNamespace +:+ "." +:+ key) with
  | Some s => Unmarshal_strings s
  | None => []
  end.
(** [if len(v) > 0 { if labels, err := json.Marshal(v); err == nil { store } }] *)
Definition store_exprs (key : string) (v : list string) (labels : gmap string string)
  : gmap string string :=
  if bool_decide (v = []) then labels else
  match Marshal_strings v with
  | Ret s => <[SwarmLabelNamespace +:+ "." +:+ key := s]> labels
  | _ => labels
  end.
Definition BuildContainerConfig (c : DockerConfig) (h : HostConfig) (n : NetworkingConfig)
  : ContainerConfig :=
  let init := {| d_affinities := label_exprs (dc_Labels c) "affinities";
                 d_constraints := label_exprs (dc_Labels c) "constraints";
                 d_policies := label_exprs (dc_Labels c) "reschedule-policies";
                 d_whitelists := label_exprs (dc_Labels c) "whitelists";
                 d_env := [] |} in
  let d := foldl scan_env init (dc_Env c) in
  let labels := store_exprs "affinities" (d_affinities d) (dc_Labels c) in
  let labels := store_exprs "constraints" (d_constraints d) labels in
  let labels := store_exprs "reschedule-policies" (d_policies d) labels in
  let labels := store_exprs "whitelists" (d_whitelists d) labels in
  {| cc_Config := dc_set_Labels labels (dc_set_Env (d_env d) c);
     cc_HostConfig := h; cc_NetworkingConfig := n |}.
Definition extractExprs (c : ContainerConfig) (key : string) : list string :=
  label_exprs (cc_Labels c) key.
(** [c.Labels[NS+".id"]]: the empty string when absent. *)
Definition SwarmID (c : ContainerConfig) : string :=
  default "" (cc_Labels c !! (SwarmLabelNamespace +:+ ".id")).
Definition SetSwarmID (id : string) (c : ContainerConfig) : ContainerConfig :=
  cc_set_Labels (<[SwarmLabelNamespace +:+ ".id" := id]> (cc_Labels c)) c.
Definition Affinities (c : ContainerConfig) : list string := extractExprs c "affinities".
Definition Constraints (c : ContainerConfig) : list string := extractExprs c "constraints".
Definition Whitelists (c : ContainerConfig) : list string := extractExprs c "whitelists".
(** Marshal the new list and store it under the key; an error leaves [c] alone. *)
Definition set_exprs (key : string) (l : list string) (c : ContainerConfig)
  : outcome ContainerConfig :=
  labels ← Marshal_strings l;
  Ret (cc_set_Labels (<[SwarmLabelNamespace +:+ "." +:+ key := labels]> (cc_Labels c)) c).
Definition not_equal_to (x a : string) : bool := negb (String.eqb a x).
Definition AddWhitelist (whitelist : string) (c : ContainerConfig) : outcome ContainerConfig :=
  set_exprs "whitelists" (extractExprs c "whitelists" ++ [whitelist]) c.
Definition RemoveWhitelist (whitelist : string) (c : ContainerConfig) : outcome ContainerConfig :=
  set_exprs "whitelists" (List.filter (not_equal_to whitelist) (extractExprs c "whitelists")) c.
Definition AddAffinity (affinity : string) (c : ContainerConfig) : outcome ContainerConfig :=
  set_exprs "affinities" (extractExprs c "affinities" ++ [affinity]) c.
Definition RemoveAffinity (affinity : string) (c : ContainerConfig) : outcome ContainerConfig :=
  set_exprs "affinities" (List.filter (not_equal_to affinity) (extractExprs c "affinities")) c.
Definition AddConstraint (constraint : string) (c : ContainerConfig) : outcome ContainerConfig :=
  set_exprs "constraints" (extractExprs c "constraints" ++ [constraint]) c.
Definition HaveNodeConstraint (c : ContainerConfig) : bool :=
  existsb (λ x, HasPrefix x "node==" && negb (HasPrefix x "node==~")) (extractExprs c "constraints").
Definition HasReschedulePolicy (c : ContainerConfig) (p : string) : bool :=
  existsb (λ x, String.eqb x p) (extractExprs c "reschedule-policies").
Definition Validate (c : ContainerConfig) : outcome unit :=
  match extractExprs c "reschedule-policies" with
  | [] => Ret tt
  | [p] =>
      if existsb (String.eqb p) ["off"; "on-node-failure"] then Ret tt
      else Err ("invalid reschedule policy: " +:+ p)
  | _ => Err "too many reschedule policies"
  end.
End config.

(** ** Specification of the directives *)

(** The values of the environment entries [key:value], in order. *)
Definition env_directives (key : string) (env : list string) : list string :=
  omap (λ e, let '(ok, k, v) := parseEnv e in
             if ok && String.eqb k key then Some v else None) env.

Definition directive_keys : list string := ["affinity"; "constraint"; "reschedule"; "whitelist"].

(** Entries that are not scheduling directives stay in the environment. *)
Definition plain_env (e : string) : bool :=
  let '(ok, k, _) := parseEnv e in negb (ok && existsb (String.eqb k) directive_keys).

Lemma scan_env_foldl env d :
  foldl scan_env d env =
  {| d_affinities := d_affinities d ++ env_directives "affinity" env;
     d_constraints := d_constraints d ++ env_directives "constraint" env;
     d_policies := d_policies d ++ env_directives "reschedule" env;
     d_whitelists := d_whitelists d ++ env_directives "whitelist" env;
     d_env := d_env d ++ List.filter plain_env env |}.
Proof.
  revert d. induction env as [|e env IH]; intros d; cbn [foldl].
  { destruct d; simpl; by rewrite !app_nil_r. }
  rewrite IH. clear IH. unfold scan_env, plain_env. unfold env_directives. cbn [omap list_omap].
  destruct (parseEnv e) as [[ok k] v] eqn:E. simpl.
  rewrite E. destruct ok; simpl; [|by rewrite <- app_assoc].
  destruct (String.eqb_spec k "affinity") as [->|]; [simpl; by rewrite <- app_assoc|].
  destruct (String.eqb_spec k "constraint") as [->|]; [simpl; by rewrite <- app_assoc|].
  destruct (String.eqb_spec k "reschedule") as [->|]; [simpl; by rewrite <- app_assoc|].
  destruct (String.eqb_spec k "whitelist") as [->|]; simpl; by rewrite <- app_assoc.
Qed.

(** A second scan of an environment that was already scanned finds nothing. *)
Lemma env_directives_plain key env :
  key ∈ directive_keys → env_directives key (List.filter plain_env env) = [].
Proof.
  intros Hkey. induction env as [|e env IH]; [done|].
  simpl. destruct (plain_env e) eqn:Hp; [|done]. unfold env_directives in *.
  cbn [omap list_omap]. unfold plain_env in Hp. destruct (parseEnv e) as [[ok k] v].
  destruct ok; simpl in *; [|done].
  destruct (String.eqb_spec k key) as [->|]; [|done]. exfalso.
  apply negb_true_iff in Hp. revert Hp. unfold directive_keys in Hkey.
  repeat (apply elem_of_cons in Hkey as [->|Hkey]; [done|]). by apply elem_of_nil in Hkey.
Qed.

Section config_theorems.
Context `{GoJson}.
Implicit Types c : ContainerConfig.
Lemma label_exprs_store key v labels :
  Forall json_clean v → label_exprs (store_exprs key v labels) key =
    if bool_decide (v = []) then label_exprs labels key else v.
Proof.
  intros Hv. unfold store_exprs. case_bool_decide; [done|].
  destruct (json_roundtrip v Hv) as (s & -> & Hs).
  unfold label_exprs. by rewrite lookup_insert_eq.
Qed.
Lemma label_exprs_store_ne key key' v labels :
  key ≠ key' → label_exprs (store_exprs key v labels) key' = label_exprs labels key'.
Proof.
  intros Hne. unfold store_exprs. case_bool_decide; [done|].
  destruct (Marshal_strings v); [|done|done].
  unfold label_exprs. rewrite lookup_insert_ne; [done|].
  intros Heq. apply Hne. by apply app_inj_l, app_inj_l in Heq.
Qed.
Lemma store_exprs_lookup_ne key v labels i :
  i ≠ SwarmLabelNamespace +:+ "." +:+ key → store_exprs key v labels !! i = labels !! i.
Proof.
  intros Hne. unfold store_exprs. case_bool_decide; [done|].
  destruct (Marshal_strings v); [by rewrite lookup_insert_ne|done|done].
Qed.
Lemma ns_key_ne key key' : key ≠ key' →
  SwarmLabelNamespace +:+ "." +:+ key ≠ SwarmLabelNamespace +:+ "." +:+ key'.
Proof. intros Hne Heq. apply Hne. by apply app_inj_l, app_inj_l in Heq. Qed.
Lemma store_exprs_idem key v labels :
  store_exprs key v (store_exprs key v labels) = store_exprs key v labels.
Proof.
  unfold store_exprs. case_bool_decide; [done|].
  destruct (Marshal_strings v); [by rewrite insert_insert_eq|done|done].
Qed.
Lemma store_exprs_comm key key' v v' labels :
  key ≠ key' →
  store_exprs key v (store_exprs key' v' labels) = store_exprs key' v' (store_exprs key v labels).
Proof.
  intros Hne. unfold store_exprs. repeat case_bool_decide; try done.
  repeat case_match; try done. apply insert_insert_ne. by apply ns_key_ne.
Qed.
(** Setting a directive list and reading it back. *)
Lemma set_exprs_spec key l c :
  Forall json_clean l → key ≠ "id" → ∃ c', set_exprs key l c = Ret c' ∧
  extractExprs c' key = l ∧ (∀ key', key' ≠ key → extractExprs c' key' = extractExprs c key') ∧
  SwarmID c' = SwarmID c ∧ cc_Env c' = cc_Env c ∧ cc_HostConfig c' = cc_HostConfig c ∧
  cc_Image c' = cc_Image c.
Proof.
  intros Hl Hid. unfold set_exprs. destruct (json_roundtrip l Hl) as (s & -> & Hs).
  simpl. eexists. split; [done|]. unfold extractExprs, label_exprs, SwarmID, cc_Labels; simpl.
  split_and!; [|  | |done|done|done].
  - by rewrite lookup_insert_eq.
  - intros key' Hne. by rewrite lookup_insert_ne by (by apply ns_key_ne).
  - by rewrite lookup_insert_ne by (by apply (ns_key_ne _ "id")).
Qed.
Lemma label_exprs_store4 a b p w k labels :
  Forall json_clean (a ++ b ++ p ++ w) →
  let labels' := store_exprs "whitelists" w (store_exprs "reschedule-policies" p
                   (store_exprs "constraints" b (store_exprs "affinities" a labels))) in
  (a = [] → label_exprs labels "affinities" = []) →
  (b = [] → label_exprs labels "constraints" = []) →
  (p = [] → label_exprs labels "reschedule-policies" = []) →
  (w = [] → label_exprs labels "whitelists" = []) →
  label_exprs labels' "affinities" = a ∧ label_exprs labels' "constraints" = b ∧
  label_exprs labels' "reschedule-policies" = p ∧ label_exprs labels' "whitelists" = w ∧
  ((∀ q, k ≠ SwarmLabelNamespace +:+ "." +:+ q) ∨ k = SwarmLabelNamespace +:+ ".id" →
    labels' !! k = labels !! k).
Proof.
  rewrite !Forall_app. intros (Ha & Hb & Hp & Hw) labels' Ha0 Hb0 Hp0 Hw0. subst labels'.
  split_and!.
  - rewrite !(label_exprs_store_ne _ "affinities") by done.
    rewrite label_exprs_store by done. case_bool_decide; subst; auto.
  - rewrite 2!(label_exprs_store_ne _ "constraints"), label_exprs_store by done.
    case_bool_decide; subst; [|done]. rewrite label_exprs_store_ne; auto.
  - rewrite (label_exprs_store_ne _ "reschedule-policies"), label_exprs_store by done.
    case_bool_decide; subst; [|done]. rewrite !label_exprs_store_ne; auto.
  - rewrite label_exprs_store by done.
    case_bool_decide; subst; [|done]. rewrite !label_exprs_store_ne; auto.
  - intros [Hk| ->]; rewrite !store_exprs_lookup_ne; auto; by apply (ns_key_ne "id").
Qed.
(** The lists a configuration is built from are JSON-clean. *)
Definition directives_clean (c : DockerConfig) : Prop :=
  Forall json_clean (
    (label_exprs (dc_Labels c) "affinities" ++ env_directives "affinity" (dc_Env c)) ++
    (label_exprs (dc_Labels c) "constraints" ++ env_directives "constraint" (dc_Env c)) ++
    (label_exprs (dc_Labels c) "reschedule-policies" ++ env_directives "reschedule" (dc_Env c)) ++
    (label_exprs (dc_Labels c) "whitelists" ++ env_directives "whitelist" (dc_Env c))).
(** What [BuildContainerConfig] computes: the four directive lists of the
    result, its environment, and the labels it leaves alone. *)
Lemma build_config_fields (c : DockerConfig) h n :
  directives_clean c →
  let c' := BuildContainerConfig c h n in
  Affinities c' = label_exprs (dc_Labels c) "affinities" ++ env_directives "affinity" (dc_Env c) ∧
  Constraints c' = label_exprs (dc_Labels c) "constraints" ++ env_directives "constraint" (dc_Env c) ∧
  extractExprs c' "reschedule-policies" =
    label_exprs (dc_Labels c) "reschedule-policies" ++ env_directives "reschedule" (dc_Env c) ∧
  Whitelists c' = label_exprs (dc_Labels c) "whitelists" ++ env_directives "whitelist" (dc_Env c) ∧
  cc_Env c' = List.filter plain_env (dc_Env c) ∧
  SwarmID c' = default "" (dc_Labels c !! (SwarmLabelNamespace +:+ ".id")).
Proof.
  intros Hc. unfold BuildContainerConfig. rewrite scan_env_foldl.
  unfold Affinities, Constraints, Whitelists, extractExprs, SwarmID, cc_Labels, cc_Env.
  cbn [cc_Config dc_Labels dc_Env dc_set_Labels dc_set_Env d_affinities d_constraints
       d_policies d_whitelists d_env app].
  destruct (label_exprs_store4 _ _ _ _ (SwarmLabelNamespace +:+ ".id") (dc_Labels c) Hc)
    as (Ha & Hb & Hp & Hw & Hk).
  1-4: by intros [? _]%app_nil.
  rewrite Ha, Hb, Hp, Hw, Hk by (by right). done.
Qed.
(** C39: [BuildContainerConfig] moves every scheduling directive of the
    environment behind the ones already stored in the labels, keeps exactly the
    other environment entries in order, keeps the Swarm ID, and stores the host
    and networking configuration it was given. *)
Theorem BuildContainerConfig_directives (c : DockerConfig) h n :
  directives_clean c →
  let c' := BuildContainerConfig c h n in
  Affinities c' = label_exprs (dc_Labels c) "affinities" ++ env_directives "affinity" (dc_Env c) ∧
  Constraints c' = label_exprs (dc_Labels c) "constraints" ++ env_directives "constraint" (dc_Env c) ∧
  extractExprs c' "reschedule-policies" =
    label_exprs (dc_Labels c) "reschedule-policies" ++ env_directives "reschedule" (dc_Env c) ∧
  Whitelists c' = label_exprs (dc_Labels c) "whitelists" ++ env_directives "whitelist" (dc_Env c) ∧
  cc_Env c' = List.filter plain_env (dc_Env c) ∧
  SwarmID c' = default "" (dc_Labels c !! (SwarmLabelNamespace +:+ ".id")) ∧
  cc_HostConfig c' = h ∧ cc_NetworkingConfig c' = n.
Proof. intros Hc c'. destruct (build_config_fields c h n Hc) as (?&?&?&?&?&?). by split_and!. Qed.
Lemma directives_clean_build (c : DockerConfig) h n :
  directives_clean c → directives_clean (cc_Config (BuildContainerConfig c h n)).
Proof.
  intros Hc. destruct (build_config_fields c h n Hc) as (Ha & Hb & Hp & Hw & He & _).
  unfold Affinities, Constraints, Whitelists, extractExprs, cc_Env, cc_Labels in *.
  unfold directives_clean. rewrite Ha, Hb, Hp, Hw, He.
  rewrite !env_directives_plain by (by apply (bool_decide_unpack _)).
  by rewrite !app_nil_r.
Qed.
(** C40: building a configuration again from the one the engine reports back
    (which [updateContainer] does at every inspection) is the identity. *)
Theorem BuildContainerConfig_idempotent (c : DockerConfig) h n :
  directives_clean c →
  BuildContainerConfig (cc_Config (BuildContainerConfig c h n)) h n = BuildContainerConfig c h n.
Proof.
  intros Hc. pose proof (build_config_fields c h n Hc) as (Ha & Hb & Hp & Hw & He & _).
  unfold Affinities, Constraints, Whitelists, extractExprs, cc_Env, cc_Labels in *.
  remember (BuildContainerConfig c h n) as c1 eqn:Hc1.
  unfold BuildContainerConfig. rewrite scan_env_foldl.
  cbn [d_affinities d_constraints d_policies d_whitelists d_env].
  rewrite Ha, Hb, Hp, Hw, He.
  rewrite !env_directives_plain by (by apply (bool_decide_unpack _)).
  rewrite !app_nil_r, Lfilter_true by (by intros x [_ ?]%list_elem_of_Lfilter).
  clear Ha Hb Hp Hw He. subst c1. unfold BuildContainerConfig. rewrite scan_env_foldl.
  cbn [d_affinities d_constraints d_policies d_whitelists d_env cc_Config dc_Labels
       dc_set_Labels dc_set_Env dc_Image dc_ExposedPorts app].
  f_equal. unfold dc_set_Labels, dc_set_Env; simpl. f_equal.
  rewrite (store_exprs_comm "affinities" "whitelists") by done.
  rewrite (store_exprs_comm "affinities" "reschedule-policies") by done.
  rewrite (store_exprs_comm "affinities" "constraints"), store_exprs_idem by done.
  rewrite (store_exprs_comm "constraints" "whitelists") by done.
  rewrite (store_exprs_comm "constraints" "reschedule-policies"), store_exprs_idem by done.
  rewrite (store_exprs_comm "reschedule-policies" "whitelists") by done.
  by rewrite !store_exprs_idem.
Qed.
(** The temporary image affinity of [createContainer].  Adding an affinity
    appends it; removing it afterwards removes every equal affinity, so the
    affinities come back exactly when the user had not asked for the same one;
    nothing else of the configuration that scheduling reads changes. *)
Theorem AddAffinity_RemoveAffinity a c :
  Forall json_clean (Affinities c) → json_clean a →
  ∃ c1 c2, AddAffinity a c = Ret c1 ∧ RemoveAffinity a c1 = Ret c2 ∧
    Affinities c1 = Affinities c ++ [a] ∧
    Affinities c2 = List.filter (not_equal_to a) (Affinities c) ∧
    (a ∉ Affinities c → Affinities c2 = Affinities c) ∧
    (∀ key, key ≠ "affinities" → extractExprs c2 key = extractExprs c key) ∧
    SwarmID c2 = SwarmID c ∧ cc_Env c2 = cc_Env c ∧ cc_HostConfig c2 = cc_HostConfig c.
Proof.
  unfold Affinities, AddAffinity, RemoveAffinity. intros Hc Ha.
  destruct (set_exprs_spec "affinities" (extractExprs c "affinities" ++ [a]) c)
    as (c1 & Hc1 & Hl1 & Ho1 & Hs1 & He1 & Hh1 & _);
    [apply Forall_app; by repeat constructor|done|].
  destruct (set_exprs_spec "affinities"
    (List.filter (not_equal_to a) (extractExprs c1 "affinities")) c1)
    as (c2 & Hc2 & Hl2 & Ho2 & Hs2 & He2 & Hh2 & _); [|done|].
  { rewrite Hl1. rewrite Forall_forall in Hc |- *.
    intros x [[Hx| ->%list_elem_of_singleton]%elem_of_app _]%list_elem_of_Lfilter; auto. }
  assert (extractExprs c2 "affinities" =
          List.filter (not_equal_to a) (extractExprs c "affinities")) as Hl.
  { rewrite Hl2, Hl1, List.filter_app. simpl. unfold not_equal_to at 2.
    rewrite String.eqb_refl. simpl. by rewrite app_nil_r. }
  exists c1, c2. split_and!; try done; try congruence.
  - intros Hin. rewrite Hl. apply Lfilter_true. intros x Hx. unfold not_equal_to.
    destruct (String.eqb_spec x a) as [->|]; done.
  - intros key Hk. rewrite Ho2, Ho1 by done. done.
Qed.
(** A configuration is valid exactly when it carries no rescheduling policy,
    or the single policy [off] or [on-node-failure]; otherwise the error says
    which of the two rules failed. *)
Theorem Validate_spec c :
  (Validate c = Ret tt ↔
    extractExprs c "reschedule-policies" ∈ [[]; ["off"]; ["on-node-failure"]]) ∧
  (∀ p, extractExprs c "reschedule-policies" = [p] → p ∉ ["off"; "on-node-failure"] →
    Validate c = Err ("invalid reschedule policy: " +:+ p)) ∧
  (∀ p q l, extractExprs c "reschedule-policies" = p :: q :: l →
    Validate c = Err "too many reschedule policies").
Proof.
  unfold Validate. split_and!.
  - destruct (extractExprs c "reschedule-policies") as [|p [|q l]]; simpl.
    + split; [intros _; by left|done].
    + destruct (String.eqb_spec p "off") as [->|H1]; simpl.
      { split; [intros _; set_solver|done]. }
      destruct (String.eqb_spec p "on-node-failure") as [->|H2]; simpl.
      { split; [intros _; set_solver|done]. }
      split; [done|]. rewrite !elem_of_cons, elem_of_nil. naive_solver.
    + split; [done|]. rewrite !elem_of_cons, elem_of_nil. naive_solver.
  - intros p -> Hp. simpl.
    destruct (String.eqb_spec p "off"); [set_solver|].
    destruct (String.eqb_spec p "on-node-failure"); [set_solver|done].
  - by intros p q l ->.
Qed.
End config_theorems.

(** One of the four tests: keep [y] when the override [x] is the zero value [z]. *)
Definition override {A} `{EqDecision A} (z x y : A) : A := if decide (x = z) then y else x.

Lemma override_test {A B} `{EqDecision A} (z x y : A) (set : A → B → B) (h : B) :
  set y h = h →
  (if bool_decide (x ≠ y) && bool_decide (x ≠ z) then set x h else h) = set (override z x y) h.
Proof.
  intros Hy. unfold override.
  repeat case_bool_decide; repeat case_decide; simplify_eq/=; auto; by destruct H0 + destruct H.
Qed.

Lemma override_idem {A} `{EqDecision A} (z x y : A) :
  override z x (override z x y) = override z x y.
Proof. unfold override. by repeat case_decide. Qed.

Lemma consolidate_normal c :
  let h := cc_HostConfig (oc_ContainerConfig c) in
  ConsolidateResourceFields c = {|
    oc_ContainerConfig := cc_set_HostConfig
      (hc_set_CpusetCpus (override "" (oc_CPUSet c) (hc_CpusetCpus h))
        (hc_set_CPUShares (override 0 (oc_CPUShares c) (hc_CPUShares h))
          (hc_set_MemorySwap (override 0 (oc_MemorySwap c) (hc_MemorySwap h))
            (hc_set_Memory (override 0 (oc_Memory c) (hc_Memory h)) h)))) (oc_ContainerConfig c);
    oc_Memory := oc_Memory c; oc_MemorySwap := oc_MemorySwap c;
    oc_CPUShares := oc_CPUShares c; oc_CPUSet := oc_CPUSet c |}.
Proof.
  destruct c as [[cfg [m ms cpu cs nm vf ln pb] net] M MS CPU CS].
  unfold ConsolidateResourceFields; cbn [cc_HostConfig oc_ContainerConfig oc_Memory oc_MemorySwap
    oc_CPUShares oc_CPUSet].
  rewrite (override_test 0 M _ hc_set_Memory) by done.
  rewrite (override_test 0 MS _ hc_set_MemorySwap) by done.
  rewrite (override_test 0 CPU _ hc_set_CPUShares) by done.
  rewrite (override_test "" CS _ hc_set_CpusetCpus) by done. done.
Qed.

(** For clients of API versions up to 1.8 a non-zero top-level resource field
    overrides the host configuration's, a zero one leaves it; every other field
    of the configuration is untouched and a second consolidation changes nothing. *)
Theorem ConsolidateResourceFields_spec (c : OldContainerConfig) :
  let h := cc_HostConfig (oc_ContainerConfig c) in
  let c' := ConsolidateResourceFields c in
  let h' := cc_HostConfig (oc_ContainerConfig c') in
  hc_Memory h' = (if decide (oc_Memory c = 0) then hc_Memory h else oc_Memory c) ∧
  hc_MemorySwap h' = (if decide (oc_MemorySwap c = 0) then hc_MemorySwap h else oc_MemorySwap c) ∧
  hc_CPUShares h' = (if decide (oc_CPUShares c = 0) then hc_CPUShares h else oc_CPUShares c) ∧
  hc_CpusetCpus h' = (if decide (oc_CPUSet c = "") then hc_CpusetCpus h else oc_CPUSet c) ∧
  hc_NetworkMode h' = hc_NetworkMode h ∧ hc_VolumesFrom h' = hc_VolumesFrom h ∧
  hc_Links h' = hc_Links h ∧ hc_PortBindings h' = hc_PortBindings h ∧
  cc_Config (oc_ContainerConfig c') = cc_Config (oc_ContainerConfig c) ∧
  ConsolidateResourceFields c' = c'.
Proof.
  cbv zeta. rewrite (consolidate_normal (ConsolidateResourceFields c)), (consolidate_normal c).
  destruct c as [[cfg [m ms cpu cs nm vf ln pb] net] M MS CPU CS]; simpl.
  rewrite !override_idem. by split_and!.
Qed.

(** ** Witnesses *)

Definition wit_docker_config : DockerConfig := {|
  dc_Env := ["affinity:container==redis"; "PATH=/bin"; "constraint:storage==ssd";
             "reschedule:on-node-failure"];
  dc_Labels := {["com.docker.swarm.affinities" := encode_strings ["image==nginx"]]};
  dc_Image := "nginx"; dc_ExposedPorts := ∅; dc_Hostname := ""; dc_Domainname := "";
     dc_Cmd := []; dc_AttachStdin := false; dc_AttachStdout := false; dc_AttachStderr := false |}.

Lemma wit_directives_clean : @directives_clean json_strings wit_docker_config.
Proof. apply json_cleanb_all. vm_compute. reflexivity. Qed.

Lemma BuildContainerConfig_directives_witness :
  Affinities (H := json_strings)
    (BuildContainerConfig (H := json_strings) wit_docker_config zero_HostConfig zero_NetworkingConfig)
  = ["image==nginx"; "container==redis"].
Proof.
  destruct (BuildContainerConfig_directives (H := json_strings) wit_docker_config
    zero_HostConfig zero_NetworkingConfig wit_directives_clean) as [Ha _].
  rewrite Ha. vm_compute. reflexivity.
Defined.

Lemma BuildContainerConfig_idempotent_witness :
  let build := BuildContainerConfig (H := json_strings) in
  let c := build wit_docker_config zero_HostConfig zero_NetworkingConfig in
  build (cc_Config c) zero_HostConfig zero_NetworkingConfig = c.
Proof.
  exact (BuildContainerConfig_idempotent (H := json_strings) wit_docker_config
    zero_HostConfig zero_NetworkingConfig wit_directives_clean).
Defined.

Lemma AddAffinity_RemoveAffinity_witness :
  ∃ c1 c2, AddAffinity (H := json_strings) "image==nginx" zero_ContainerConfig = Ret c1 ∧
    RemoveAffinity (H := json_strings) "image==nginx" c1 = Ret c2 ∧
    Affinities (H := json_strings) c2 = [].
Proof.
  destruct (AddAffinity_RemoveAffinity (H := json_strings) "image==nginx" zero_ContainerConfig)
    as (c1 & c2 & H1 & H2 & _ & _ & H3 & _).
  - constructor.
  - by apply json_cleanb_one.
  - exists c1, c2. split_and!; [done|done|]. rewrite H3; [done|].
    vm_compute. by intros ?%elem_of_nil.
Defined.

(** A user's own [image==nginx] affinity does not survive the protocol. *)
Example user_image_affinity_lost :
  let c := BuildContainerConfig (H := json_strings)
    {| dc_Env := ["affinity:image==nginx"]; dc_Labels := ∅; dc_Image := "nginx"; dc_ExposedPorts := ∅; dc_Hostname := ""; dc_Domainname := "";
     dc_Cmd := []; dc_AttachStdin := false; dc_AttachStdout := false; dc_AttachStderr := false |}
    zero_HostConfig zero_NetworkingConfig in
  (c1 ← AddAffinity (H := json_strings) "image==nginx" c;
   c2 ← RemoveAffinity (H := json_strings) "image==nginx" c1;
   Ret (Affinities (H := json_strings) c, Affinities (H := json_strings) c2))
  = Ret (["image==nginx"], []).
Proof. vm_compute. reflexivity. Qed.
