(* ===== verification/Container.v ===== *)
(** * Containers ([cluster/container.go])

    The container object, the human-readable state, and [Containers.Get], the
    lookup by ID, Swarm ID, name or unique prefix that the scheduler and the API
    use.  A container refers to its engine by a pointer; the fields of the engine
    that are read through it are given by [E : ptr → EngineHdr], the content of
    the engine store at that moment. *)
From S2P Require Import Prelude GoStrings Json Config.

(** Engine objects are referred to by address. *)
Abbreviation ptr := nat (only parsing).

(** The identity fields of an [Engine] object. *)
Record EngineHdr := {
  eng_ID : string;
  eng_IP : string;
  eng_Addr : string;
  eng_Name : string;
  eng_Labels : gmap string string
}.

(** [types.ContainerState]; [cst_Health] is the status of a non-nil [Health]. *)
Record ContainerState := {
  cst_Running : bool;
  cst_Paused : bool;
  cst_Restarting : bool;
  cst_Dead : bool;
  cst_ExitCode : Z;
  cst_StartedAt : string;
  cst_FinishedAt : string;
  cst_Health : option string
}.

(** [types.NetworkSettings] *)
Record NetworkSettings := {
  ns_Ports : PortMap;
  ns_Networks : gmap string EndpointSettings
}.

(** [types.MountPoint] and [types.Port]: the fields that are read. *)
Record MountPoint := { mp_Name : string; mp_Destination : string }.
Record Port := { port_IP : string; port_PrivatePort : Z; port_PublicPort : Z; port_Type : string }.

(** [types.ContainerJSON]; the pointers are options. *)
Record ContainerJSON := {
  ci_Name : string;
  ci_HostConfig : option HostConfig;
  ci_State : option ContainerState;
  ci_Config : option DockerConfig;
  ci_NetworkSettings : option NetworkSettings;
  ci_Created : string;
  ci_ExecIDs : list string;
  ci_Mounts : list MountPoint
}.

Definition zero_ContainerJSON : ContainerJSON :=
  {| ci_Name := ""; ci_HostConfig := None; ci_State := None; ci_Config := None;
     ci_NetworkSettings := None; ci_Created := ""; ci_ExecIDs := []; ci_Mounts := [] |}.

(** [types.Container], an entry of the list an engine reports *)
Record ListedContainer := {
  lc_ID : string;
  lc_Names : list string;
  lc_Labels : gmap string string;
  lc_State : string;
  lc_Created : Z;
  lc_Image : string;
  lc_Ports : list Port
}.

(** [type Container struct] *)
Record Container := {
  ctr_Container : ListedContainer;
  ctr_Config : option ContainerConfig;
  ctr_Info : ContainerJSON;
  ctr_Engine : ptr
}.
Definition ctr_ID (c : Container) : string := lc_ID (ctr_Container c).
Definition ctr_Names (c : Container) : list string := lc_Names (ctr_Container c).
Definition ctr_Labels (c : Container) : gmap string string := lc_Labels (ctr_Container c).
Definition ctr_State (c : Container) : string := lc_State (ctr_Container c).

(** The container with another configuration. *)
Definition ctr_set_Config (cfg : ContainerConfig) (c : Container) : Container :=
  {| ctr_Container := ctr_Container c; ctr_Config := Some cfg; ctr_Info := ctr_Info c; ctr_Engine := ctr_Engine c |}.

Definition nil_dereference : string := "invalid memory address or nil pointer dereference".

(** [*p], a panic when [p] is nil. *)
Definition deref {A} (o : option A) : outcome A :=
  match o with Some x => Ret x | None => Panic nil_dereference end.

(** [container.Config.SwarmID()] *)
Definition container_SwarmID (c : Container) : outcome string :=
  cfg ← deref (ctr_Config c); Ret (SwarmID cfg).

(** ** The state of a container as text *)
Section state_string.
(** [time.Parse(time.RFC3339Nano, s)], 0 being the zero time (also the value on
    a parse error); the clock; and go-units' [HumanDuration]. *)
Context (ParseTime : string → Z) (Now : Z) (HumanDuration : Z → string).
Definition StateString (st : ContainerState) : string :=
  let startedAt := ParseTime (cst_StartedAt st) in
  if cst_Running st then
    if cst_Paused st then "paused"
    else if cst_Restarting st then "restarting"
    else "running"
  else if cst_Dead st then "dead"
  else if startedAt =? 0 then "created"
  else "exited".
Definition FullStateString (st : ContainerState) : string :=
  let startedAt := ParseTime (cst_StartedAt st) in
  let finishedAt := ParseTime (cst_FinishedAt st) in
  let since t := HumanDuration (Now - t) in
  if cst_Running st then
    if cst_Paused st then "Up " +:+ since startedAt +:+ " (Paused)"
    else if cst_Restarting st then
      "Restarting (" +:+ Itoa (cst_ExitCode st) +:+ ") " +:+ since finishedAt +:+ " ago"
    else
      let healthText := match cst_Health st with
                        | Some h => if String.eqb h "starting" then "health: starting" else h
                        | None => ""
                        end in
      if 0 <? len healthText then "Up " +:+ since startedAt +:+ " (" +:+ healthText +:+ ")"
      else "Up " +:+ since startedAt
  else if cst_Dead st then "Dead"
  else if startedAt =? 0 then "Created"
  else if finishedAt =? 0 then ""
  else "Exited (" +:+ Itoa (cst_ExitCode st) +:+ ") " +:+ since finishedAt +:+ " ago".
(** The prefix of the long text that a short one corresponds to. *)
Definition state_prefix (s : string) : string :=
  if String.eqb s "paused" then "Up "
  else if String.eqb s "running" then "Up "
  else if String.eqb s "restarting" then "Restarting ("
  else if String.eqb s "dead" then "Dead"
  else if String.eqb s "created" then "Created"
  else "Exited (".
End state_string.

(** ** Lookup *)

(** Docker's [stringid.TruncateID]: drop an algorithm prefix, keep 12 bytes. *)
Definition TruncateID (id : string) : string :=
  let id := match cut ":" id with Some (_, b) => b | None => id end in
  if 12 <? len id then stake 12 id else id.

Definition id_match (x : string) (c : Container) : bool :=
  String.eqb (ctr_ID c) x || String.eqb (TruncateID (ctr_ID c)) x.

Definition swarm_match (x : string) (c : Container) : outcome bool :=
  s ← container_SwarmID c; Ret (String.eqb s x || String.eqb (TruncateID s) x).

(** Find the first element on which the test returns true. *)
Fixpoint ofind {A} (p : A → outcome bool) (l : list A) : outcome (option A) :=
  match l with
  | [] => Ret None
  | x :: l' => b ← p x; if b : bool then Ret (Some x) else ofind p l'
  end.

Section get.
Context (E : ptr → EngineHdr).
Definition name_match (x : string) (c : Container) : bool :=
  existsb (λ name, String.eqb name x || String.eqb name ("/" +:+ x)
    || String.eqb (eng_ID (E (ctr_Engine c)) +:+ name) x
    || String.eqb (eng_Name (E (ctr_Engine c)) +:+ name) x) (ctr_Names c).
(** [func (containers Containers) Get(IDOrName string) *Container] *)
Definition Containers_Get (containers : list Container) (IDOrName : string)
  : outcome (option Container) :=
  if len IDOrName =? 0 then Ret None else
  match List.find (id_match IDOrName) containers with
  | Some c => Ret (Some c)
  | None =>
      r ← ofind (swarm_match IDOrName) containers;
      match r with
      | Some c => Ret (Some c)
      | None =>
          match List.filter (name_match IDOrName) containers with
          | [c] => Ret (Some c)
          | _ :: _ :: _ => Ret None
          | [] =>
              let candidates := List.filter (λ c, HasPrefix (ctr_ID c) IDOrName) containers in
              swarm ← ofilter (λ c, s ← container_SwarmID c; Ret (HasPrefix s IDOrName)) containers;
              match candidates ++ swarm with
              | [c] => Ret (Some c)
              | _ => Ret None
              end
          end
      end
  end.
End get.

(** ** Properties *)

(** The container carries a configuration, as every inspected one does. *)
Definition has_config (c : Container) : Prop := is_Some (ctr_Config c).

(** Its Swarm ID, for a container that has a configuration. *)
Definition swarm_of (c : Container) : string :=
  match ctr_Config c with Some cfg => SwarmID cfg | None => "" end.

Lemma container_SwarmID_Ret c : has_config c → container_SwarmID c = Ret (swarm_of c).
Proof. intros [cfg Hc]. unfold container_SwarmID, swarm_of. by rewrite Hc. Qed.

Lemma ofind_Ret {A} (p : A → outcome bool) (b : A → bool) l :
  (∀ x, x ∈ l → p x = Ret (b x)) → ofind p l = Ret (List.find b l).
Proof.
  induction l as [|x l IH]; intros Hp; simpl; [done|].
  rewrite (Hp x) by set_solver. simpl. destruct (b x); [done|]. apply IH. set_solver.
Qed.

Lemma ofind_Some {A} (p : A → outcome bool) l x :
  ofind p l = Ret (Some x) → x ∈ l ∧ p x = Ret true.
Proof.
  induction l as [|y l IH]; simpl; [done|].
  intros (b & Hb & Hr)%bind_Ret_inv. destruct b; [injection Hr as <-; set_solver|].
  apply IH in Hr as [??]. set_solver.
Qed.

Definition swarm_matchb (x : string) (c : Container) : bool :=
  String.eqb (swarm_of c) x || String.eqb (TruncateID (swarm_of c)) x.

(** [Get] as a pure function, when every container carries a configuration. *)
Definition get_pure (E : ptr → EngineHdr) (l : list Container) (x : string) : option Container :=
  if len x =? 0 then None else
  match List.find (id_match x) l with
  | Some c => Some c
  | None =>
      match List.find (swarm_matchb x) l with
      | Some c => Some c
      | None =>
          match List.filter (name_match E x) l with
          | [c] => Some c
          | _ :: _ :: _ => None
          | [] =>
              match List.filter (λ c, HasPrefix (ctr_ID c) x) l ++
                    List.filter (λ c, HasPrefix (swarm_of c) x) l with
              | [c] => Some c
              | _ => None
              end
          end
      end
  end.

Lemma Containers_Get_pure E l x :
  Forall has_config l → Containers_Get E l x = Ret (get_pure E l x).
Proof.
  rewrite Forall_forall. intros Hl. unfold Containers_Get, get_pure.
  destruct (len x =? 0); [done|]. destruct (List.find (id_match x) l); [done|].
  rewrite (ofind_Ret _ (swarm_matchb x)).
  2: { intros c Hc. unfold swarm_match. by rewrite container_SwarmID_Ret by auto. }
  simpl. destruct (List.find (swarm_matchb x) l); [done|].
  destruct (List.filter (name_match E x) l) as [|c [|c' l']]; try done.
  rewrite (ofilter_Ret _ (λ c, HasPrefix (swarm_of c) x)).
  2: { intros c Hc. by rewrite container_SwarmID_Ret by auto. }
  simpl. destruct (_ ++ _) as [|c [|c' l']]; done.
Qed.

(** How a container can be designated. *)
Definition designates (E : ptr → EngineHdr) (x : string) (c : Container) : Prop :=
  ctr_ID c = x ∨ TruncateID (ctr_ID c) = x ∨
  swarm_of c = x ∨ TruncateID (swarm_of c) = x ∨
  (∃ name, name ∈ ctr_Names c ∧
    (name = x ∨ name = "/" +:+ x ∨ eng_ID (E (ctr_Engine c)) +:+ name = x ∨
     eng_Name (E (ctr_Engine c)) +:+ name = x)) ∨
  HasPrefix (ctr_ID c) x = true ∨ HasPrefix (swarm_of c) x = true.

Lemma name_match_spec E x c :
  name_match E x c = true ↔ ∃ name, name ∈ ctr_Names c ∧
    (name = x ∨ name = "/" +:+ x ∨ eng_ID (E (ctr_Engine c)) +:+ name = x ∨
     eng_Name (E (ctr_Engine c)) +:+ name = x).
Proof.
  unfold name_match. rewrite existsb_exists. setoid_rewrite <- list_elem_of_In.
  setoid_rewrite orb_true_iff. setoid_rewrite orb_true_iff. setoid_rewrite orb_true_iff.
  setoid_rewrite String.eqb_eq. naive_solver.
Qed.

Lemma singleton_elem {A} (l : list A) c x : l = [c] → x ∈ l → x = c.
Proof. intros -> ?%list_elem_of_singleton. done. Qed.

(** [Get] never panics on containers that carry a configuration; what it
    returns is one of the containers, is designated by the argument, and the
    empty argument designates nothing. *)
Theorem Containers_Get_sound E l x :
  Forall has_config l →
  ∃ r, Containers_Get E l x = Ret r ∧
    match r with
    | Some c => x ≠ "" ∧ c ∈ l ∧ designates E x c
    | None => True
    end.
Proof.
  intros Hl. rewrite Containers_Get_pure by done. eexists; split; [done|].
  unfold get_pure. destruct (len x =? 0) eqn:Hx; [done|].
  assert (x ≠ "") as Hne by (intros ->; done).
  destruct (List.find (id_match x) l) as [c|] eqn:Hid.
  { apply List.find_some in Hid as [Hin%list_elem_of_In Hm]. unfold id_match in Hm.
    apply orb_true_iff in Hm as [?%String.eqb_eq|?%String.eqb_eq]; unfold designates; auto 10. }
  destruct (List.find (swarm_matchb x) l) as [c|] eqn:Hsw.
  { apply List.find_some in Hsw as [Hin%list_elem_of_In Hm]. unfold swarm_matchb in Hm.
    apply orb_true_iff in Hm as [?%String.eqb_eq|?%String.eqb_eq]; unfold designates; auto 10. }
  destruct (List.filter (name_match E x) l) as [|c [|c' l']] eqn:Hnm; [| |done].
  - destruct (_ ++ _) as [|c [|c' l']] eqn:Happ; [done| |done].
    assert (c ∈ List.filter (λ c, HasPrefix (ctr_ID c) x) l ++
                List.filter (λ c, HasPrefix (swarm_of c) x) l) as Hin
      by (rewrite Happ; by apply list_elem_of_singleton).
    apply elem_of_app in Hin as [Hin|Hin]; apply list_elem_of_Lfilter in Hin as [Hin Hp];
      unfold designates; split_and!; auto 10.
  - assert (c ∈ List.filter (name_match E x) l) as Hin by (rewrite Hnm; by apply list_elem_of_singleton).
    apply list_elem_of_Lfilter in Hin as [Hin Hm%name_match_spec]. unfold designates. auto 10.
Qed.

Lemma find_none_all {A} (p : A → bool) l :
  (∀ x, x ∈ l → p x = false) → List.find p l = None.
Proof.
  induction l as [|x l IH]; intros Hp; simpl; [done|].
  rewrite Hp by set_solver. apply IH. set_solver.
Qed.

Lemma find_unique {A} (p : A → bool) l c :
  c ∈ l → p c = true → (∀ d, d ∈ l → p d = true → d = c) → List.find p l = Some c.
Proof.
  intros Hin Hp Hu. destruct (List.find p l) as [d|] eqn:Hf.
  - apply List.find_some in Hf as [Hd%list_elem_of_In Hpd]. f_equal. auto.
  - eapply List.find_none in Hf; [|by apply list_elem_of_In]. congruence.
Qed.

Lemma TruncateID_length id : len (TruncateID id) ≤ 12.
Proof.
  unfold TruncateID. set (i := match cut _ _ with Some (_, b) => b | None => id end).
  destruct (12 <? len i) eqn:H; [|apply Z.ltb_ge in H; done].
  clear H. clearbody i. unfold len.
  assert (∀ n s, (String.length (stake n s) ≤ n)%nat) as Hs.
  { induction n as [|n IH]; intros [|a s]; simpl; try lia. specialize (IH s). lia. }
  specialize (Hs 12%nat i). lia.
Qed.

(** A full-length identifier designates its container, whatever the names,
    Swarm IDs and prefixes of the others are; and a short identifier (the first
    12 bytes) that a single container has designates that one. *)
Theorem Containers_Get_by_id E l c :
  Forall has_config l → NoDup (ctr_ID <$> l) → c ∈ l → 12 < len (ctr_ID c) →
  Containers_Get E l (ctr_ID c) = Ret (Some c) ∧
  ((∀ d, d ∈ l → TruncateID (ctr_ID d) = TruncateID (ctr_ID c) ∨
                 ctr_ID d = TruncateID (ctr_ID c) → d = c) →
   TruncateID (ctr_ID c) ≠ "" →
   Containers_Get E l (TruncateID (ctr_ID c)) = Ret (Some c)).
Proof.
  intros Hl Hnd Hin Hlen. rewrite !Containers_Get_pure by done. split.
  - f_equal. unfold get_pure. destruct (len (ctr_ID c) =? 0) eqn:H0; [lia|].
    rewrite (find_unique _ l c Hin); [done| |].
    + unfold id_match. by rewrite String.eqb_refl.
    + intros d Hd Hm. unfold id_match in Hm.
      apply orb_true_iff in Hm as [Heq%String.eqb_eq|Heq%String.eqb_eq].
      * apply list_elem_of_lookup in Hin as [i Hi], Hd as [j Hj].
        assert (i = j) as <-; [|congruence].
        apply (NoDup_lookup _ _ _ (ctr_ID c) Hnd); rewrite list_lookup_fmap, ?Hi, ?Hj; simpl; congruence.
      * pose proof (TruncateID_length (ctr_ID d)). rewrite Heq in *. lia.
  - intros Hu Hne. f_equal. unfold get_pure.
    destruct (len (TruncateID (ctr_ID c)) =? 0) eqn:H0.
    { destruct (TruncateID (ctr_ID c)); [done|]. unfold len in H0. simpl in H0. lia. }
    rewrite (find_unique _ l c Hin); [done| |].
    + unfold id_match. by rewrite String.eqb_refl, orb_true_r.
    + intros d Hd Hm. unfold id_match in Hm.
      apply orb_true_iff in Hm as [Heq%String.eqb_eq|Heq%String.eqb_eq]; auto.
Qed.

(** A name that no ID or Swarm ID equals designates a container exactly when
    it is the name of that container only: with two bearers the lookup gives up,
    it does not fall back to a prefix match. *)
Theorem Containers_Get_by_name E l x :
  Forall has_config l → x ≠ "" →
  (∀ d, d ∈ l → id_match x d = false ∧ swarm_matchb x d = false) →
  match List.filter (name_match E x) l with
  | [c] => Containers_Get E l x = Ret (Some c)
  | _ :: _ :: _ => Containers_Get E l x = Ret None
  | [] => ∀ c, Containers_Get E l x = Ret (Some c) →
      HasPrefix (ctr_ID c) x = true ∨ HasPrefix (swarm_of c) x = true
  end.
Proof.
  intros Hl Hx Hno. rewrite Containers_Get_pure by done. unfold get_pure.
  destruct (len x =? 0) eqn:H0.
  { destruct x; [done|]. unfold len in H0. simpl in H0. lia. }
  rewrite (find_none_all (id_match x)) by (intros d Hd; by apply Hno).
  rewrite (find_none_all (swarm_matchb x)) by (intros d Hd; by apply Hno).
  destruct (List.filter (name_match E x) l) as [|c [|c' l']]; [|done|done].
  intros c Hc. destruct (_ ++ _) as [|d [|d' l']] eqn:Happ; simplify_eq.
  assert (c ∈ List.filter (λ c, HasPrefix (ctr_ID c) x) l ++
              List.filter (λ c, HasPrefix (swarm_of c) x) l) as Hin
    by (rewrite Happ; by apply list_elem_of_singleton).
  apply elem_of_app in Hin as [Hin|Hin]; apply list_elem_of_Lfilter in Hin as [_ Hp]; auto.
Qed.

(** The two renderings of a container's state agree: the short text is one of
    six, and the long one starts with the words of the short one.  (A container
    that is not running, was started and carries no finish time has an empty long
    text.) *)
Theorem StateString_FullStateString P N D st :
  let s := StateString P st in
  s ∈ ["paused"; "restarting"; "running"; "dead"; "created"; "exited"] ∧
  (HasPrefix (FullStateString P N D st) (state_prefix s) = true ∨
   (s = "exited" ∧ P (cst_FinishedAt st) = 0 ∧ FullStateString P N D st = "")) ∧
  (s ∈ ["paused"; "restarting"; "running"] ↔ cst_Running st = true).
Proof.
  unfold StateString, FullStateString.
  assert (∀ a b, HasPrefix (a +:+ b) a = true) as Hp by (intros; apply prefix_app).
  destruct (cst_Running st), (cst_Paused st), (cst_Restarting st), (cst_Dead st),
    (P (cst_StartedAt st) =? 0) eqn:?, (P (cst_FinishedAt st) =? 0) eqn:?; simpl;
    (split; [by apply (bool_decide_unpack _)|split; [|rewrite !elem_of_cons, elem_of_nil; naive_solver]]);
    repeat case_match; first [left; apply Hp | left; apply HasPrefix_nil | left; reflexivity | right; split_and!; [done|by apply Z.eqb_eq|done]].
Qed.

(** ** Concrete lookups *)

Definition plain_container (id name : string) : Container :=
  {| ctr_Container := {| lc_ID := id; lc_Names := ["/" +:+ name]; lc_Labels := ∅; lc_State := "running"; lc_Created := 0; lc_Image := ""; lc_Ports := [] |};
     ctr_Config := Some {| cc_Config := zero_DockerConfig; cc_HostConfig := zero_HostConfig;
                           cc_NetworkingConfig := {| EndpointsConfig := ∅ |} |};
     ctr_Info := zero_ContainerJSON; ctr_Engine := 0%nat |}.
Definition node1 (p : ptr) : EngineHdr :=
  {| eng_ID := "X"; eng_IP := ""; eng_Addr := "a:1"; eng_Name := "node1"; eng_Labels := ∅ |}.
Definition two_containers : list Container :=
  [plain_container "0123456789abcdef" "web"; plain_container "fedcba9876543210" "db"].
Lemma two_containers_config : Forall has_config two_containers.
Proof. repeat constructor; by eexists. Qed.

Lemma Containers_Get_sound_witness :
  ∃ r, Containers_Get node1 two_containers "012" = Ret r ∧
    match r with Some c => c ∈ two_containers ∧ designates node1 "012" c | None => True end.
Proof.
  destruct (Containers_Get_sound node1 two_containers "012" two_containers_config) as (r & Hr & Hd).
  exists r. split; [exact Hr|]. destruct r; [|done]. tauto.
Defined.
Lemma Containers_Get_by_id_witness :
  Containers_Get node1 two_containers "0123456789abcdef" = Ret (Some (plain_container "0123456789abcdef" "web")) ∧
  Containers_Get node1 two_containers "0123456789ab" = Ret (Some (plain_container "0123456789abcdef" "web")).
Proof.
  destruct (Containers_Get_by_id node1 two_containers (plain_container "0123456789abcdef" "web")) as [Ha Hb].
  - apply two_containers_config.
  - by apply (bool_decide_unpack _).
  - left.
  - done.
  - split; [exact Ha|]. apply Hb; [|done].
    intros d [-> | [-> | []%elem_of_nil]%elem_of_cons]%elem_of_cons; [done|]. by intros [[=]|[=]].
Defined.
Lemma Containers_Get_by_name_witness :
  Containers_Get node1 two_containers "node1/db" = Ret (Some (plain_container "fedcba9876543210" "db")).
Proof.
  refine (Containers_Get_by_name node1 two_containers "node1/db" two_containers_config _ _); [done|].
  by intros d [-> | [-> | []%elem_of_nil]%elem_of_cons]%elem_of_cons.
Defined.
