(* ===== verification/Inventory.v ===== *)
(** * Images, networks and volumes ([cluster/image.go], [network.go], [volume.go])

    The inventory an engine reports, the lookups by ID, name or prefix over the
    whole cluster's inventory, the merge of a global network's replicas
    ([Networks.Uniq]) and the repair of duplicated endpoints. *)
From S2P Require Import Prelude GoStrings Json Config Container.
From Stdlib Require Import Ascii.

(** ** Docker's [filters.Args] (api/types/filters) *)

Definition Args : Type := gmap string (gmap string bool).

Section args.
Context `{MapRange}.
Definition Args_Get (f : Args) (field : string) : list string :=
  match f !! field with Some values => (range_map values).*1 | None => [] end.
Definition Args_Len (f : Args) : nat := size f.
Definition Args_Include (f : Args) (field : string) : bool :=
  match f !! field with Some _ => true | None => false end.
Definition Args_ExactMatch (f : Args) (field source : string) : bool :=
  match f !! field with
  | None => true
  | Some values => if bool_decide (values = ∅) then true else default false (values !! source)
  end.
Definition kv_match (sources : gmap string string) (name2match : string) : bool :=
  match SplitN2 name2match "=" with
  | [k; v] => match sources !! k with Some w => String.eqb v w | None => false end
  | [k] => match sources !! k with Some _ => true | None => false end
  | _ => false
  end.
Definition Args_MatchKVList (f : Args) (field : string) (sources : gmap string string) : bool :=
  let values := default ∅ (f !! field) in
  if bool_decide (values = ∅) then true
  else if bool_decide (sources = ∅) then false
  else forallb (kv_match sources) (range_map values).*1.
End args.

(** ** Images *)

(** [type Image struct]: the fields of [types.ImageSummary] that are read. *)
Record Image := {
  img_ID : string;
  img_RepoTags : list string;
  img_RepoDigests : list string;
  img_Labels : gmap string string;
  img_Created : Z;
  img_Engine : ptr
}.

Definition ParseRepositoryTag (repos : string) : string * string :=
  if Contains repos "@" then
    match Split_char "@" repos with
    | a :: b :: _ => (a, b)
    | _ => (repos, "")
    end
  else
    match cut_last ":" repos with
    | None => (repos, "")
    | Some (name, tag) => if negb (Contains tag "/") then (name, tag) else (repos, "")
    end.

(** One of the two loops of [Image.Match], over tags or over digests. *)
Definition repo_matches (matchTag : bool) (repoName tag : string) (reference : string) : bool :=
  let '(name, t) := ParseRepositoryTag reference in
  (negb matchTag && String.eqb name repoName)
  || (String.eqb name repoName && (String.eqb t tag || String.eqb tag "")).

Definition Image_Match (image : Image) (IDOrName : string) (matchTag : bool) : bool :=
  let size := len IDOrName in
  if String.eqb (img_ID image) IDOrName || ((2 <? size) && HasPrefix (img_ID image) IDOrName) then true
  else if match SplitN2 (img_ID image) ":" with
          | [_; h] => String.eqb h IDOrName || ((2 <? size) && HasPrefix h IDOrName)
          | _ => false
          end then true
  else
    let '(repoName, tag) := ParseRepositoryTag IDOrName in
    if existsb (repo_matches matchTag repoName tag) (img_RepoTags image) then true
    else existsb (repo_matches matchTag repoName tag) (img_RepoDigests image).

Section images.
Context `{MapRange}.
Definition includeAll (All : bool) (image : Image) : bool :=
  All
  || match img_RepoTags image with t :: _ => negb (String.eqb t "<none>:<none>") | [] => false end
  || match img_RepoDigests image with d :: _ => negb (String.eqb d "<none>@<none>") | [] => false end.
Definition includeLabels (Filters : Args) (image : Image) : bool :=
  if (Args_Len Filters =? 0)%nat then true else Args_MatchKVList Filters "label" (img_Labels image).
Definition referenceFilter (Filters : Args) (filter : string) (image : Image) : bool :=
  if negb (Args_Include Filters filter) then true else
  let matches r := let '(imageName, _) := ParseRepositoryTag r in
    existsb (λ pattern, String.eqb r pattern || String.eqb pattern imageName)
            (Args_Get Filters filter) in
  existsb matches (img_RepoTags image) || existsb matches (img_RepoDigests image).
Definition Images_Filter (All : bool) (Filters : Args) (images : list Image) : list Image :=
  List.filter (λ i, includeAll All i && includeLabels Filters i &&
                    referenceFilter Filters "reference" i) images.
End images.

(** ** Networks *)

(** [types.EndpointResource] *)
Record EndpointResource := { er_Name : string; er_EndpointID : string }.

(** [type Network struct] with the fields of [types.NetworkResource] that are read *)
Record Network := {
  net_ID : string;
  net_Name : string;
  net_Scope : string;
  net_Driver : string;
  net_Labels : gmap string string;
  net_Containers : gmap string EndpointResource;
  net_Engine : ptr
}.
Definition net_set_Containers (m : gmap string EndpointResource) (n : Network) : Network :=
  {| net_ID := net_ID n; net_Name := net_Name n; net_Scope := net_Scope n;
     net_Driver := net_Driver n; net_Labels := net_Labels n; net_Containers := m;
     net_Engine := net_Engine n |}.

Definition isPreDefined (network : Network) : bool :=
  String.eqb (net_Name network) "none" || String.eqb (net_Name network) "host"
  || String.eqb (net_Name network) "bridge".

Section networks.
Context `{MapRange} (E : ptr → EngineHdr).
(** The body of the first loop of [Uniq]: merge into the copy, or copy. *)
Definition uniq_step (tmp : gmap string Network) (network : Network) : gmap string Network :=
  match tmp !! net_ID network with
  | Some n => <[net_ID network :=
      net_set_Containers (net_Containers network ∪ net_Containers n) n]> tmp
  | None => <[net_ID network := network]> tmp
  end.
Definition Networks_Uniq (networks : list Network) : list Network :=
  (range_map (foldl uniq_step ∅ networks)).*2.
(** The body of the loop over [network.Containers]. *)
Definition endpoint_step (m : gmap string string) (x : string * EndpointResource)
  : gmap string string :=
  let endpointID := er_EndpointID x.2 in
  if match m !! endpointID with None => true | Some _ => false end
     || negb (Contains x.1 endpointID)
  then <[endpointID := x.1]> m else m.
Definition RemoveDuplicateEndpoints (network : Network) : Network :=
  let endpointMap := foldl endpoint_step ∅ (range_map (net_Containers network)) in
  net_set_Containers
    (list_to_map (omap (λ index, pair index <$> net_Containers network !! index)
                       (range_map endpointMap).*2)) network.
Definition net_id_match (x : string) (n : Network) : bool :=
  String.eqb (net_ID n) x || String.eqb (TruncateID (net_ID n)) x.
Definition net_name_match (x : string) (n : Network) : bool :=
  String.eqb (net_Name n) x
  || String.eqb (eng_ID (E (net_Engine n)) +:+ "/" +:+ net_Name n) x
  || String.eqb (eng_Name (E (net_Engine n)) +:+ "/" +:+ net_Name n) x.
(** [func (networks Networks) Get(IDOrName string) *Network] *)
Definition Networks_Get (networks : list Network) (IDOrName : string) : option Network :=
  if len IDOrName =? 0 then None else
  match List.find (net_id_match IDOrName) networks with
  | Some n => Some n
  | None =>
      let candidates := List.filter (net_name_match IDOrName) networks in
      match length (Networks_Uniq candidates) with
      | 1%nat => head candidates
      | S (S _) => None
      | O =>
          match List.find (λ n, String.eqb (net_Name n) ("/" +:+ IDOrName)) networks with
          | Some n => Some n
          | None =>
              let candidates := candidates ++
                List.filter (λ n, HasPrefix (net_ID n) IDOrName) networks in
              if (length (Networks_Uniq candidates) =? 1)%nat then head candidates else None
          end
      end
  end.
Definition includeNetwork (filter : Args) (network : Network) : bool :=
  forallb (λ typ, negb (String.eqb typ "custom" && isPreDefined network) &&
                  negb (String.eqb typ "builtin" && negb (isPreDefined network)))
          (Args_Get filter "type")
  && (negb (Args_Include filter "label") || Args_MatchKVList filter "label" (net_Labels network))
  && (negb (Args_Include filter "driver") || Args_ExactMatch filter "driver" (net_Driver network)).
Definition Networks_Filter (filter : Args) (networks : list Network) : list Network :=
  let names := Args_Get filter "name" in
  let ids := Args_Get filter "id" in
  match names, ids with
  | [], [] => List.filter (includeNetwork filter) (Networks_Uniq networks)
  | _, _ => List.filter (includeNetwork filter) (omap (Networks_Get networks) (names ++ ids))
  end.
End networks.

(** ** Volumes *)

(** [type Volume struct] *)
Record Volume := { vol_Name : string; vol_Driver : string; vol_Engine : ptr }.

Section volumes.
Context (E : ptr → EngineHdr).
Definition vol_name_match (name : string) (v : Volume) : bool :=
  String.eqb (vol_Name v) name
  || String.eqb (eng_ID (E (vol_Engine v)) +:+ "/" +:+ vol_Name v) name
  || String.eqb (eng_Name (E (vol_Engine v)) +:+ "/" +:+ vol_Name v) name.
(** [func (volumes Volumes) Get(name string) *Volume] *)
Definition Volumes_Get (volumes : list Volume) (name : string) : option Volume :=
  if len name =? 0 then None else
  match List.filter (vol_name_match name) volumes with
  | [v] => Some v
  | [] => List.find (λ v, String.eqb (vol_Name v) ("/" +:+ name)) volumes
  | candidates => List.find (λ v, String.eqb (vol_Name v) name &&
                                  negb (String.eqb (vol_Driver v) "local")) candidates
  end.
End volumes.

(** ** Properties of the reference syntax *)

Lemma Split_char_app c a b :
  c ∉ chars a → Split_char c (a +:+ String c b) = a :: Split_char c b.
Proof.
  induction a as [|d a IH]; intros Hc; simpl.
  - by rewrite Ascii.eqb_refl.
  - simpl in Hc. apply not_elem_of_cons in Hc as [Hcd Hc].
    destruct (Ascii.eqb_spec d c) as [->|_]; [done|]. by rewrite IH.
Qed.

Lemma Split_char_notin c a : c ∉ chars a → Split_char c a = [a].
Proof.
  induction a as [|d a IH]; intros Hc; simpl; [done|].
  simpl in Hc. apply not_elem_of_cons in Hc as [Hcd Hc].
  destruct (Ascii.eqb_spec d c) as [->|_]; [done|]. by rewrite IH.
Qed.

Lemma cut_last_notin c a : c ∉ chars a → cut_last c a = None.
Proof.
  induction a as [|d a IH]; intros Hc; simpl; [done|].
  simpl in Hc. apply not_elem_of_cons in Hc as [Hcd Hc].
  rewrite IH by done. destruct (Ascii.eqb_spec d c) as [->|_]; done.
Qed.

Lemma cut_last_app c a b : c ∉ chars b → cut_last c (a +:+ String c b) = Some (a, b).
Proof.
  intros Hb. induction a as [|d a IH]; simpl.
  - by rewrite cut_last_notin, Ascii.eqb_refl.
  - by rewrite IH.
Qed.

Lemma cut_last_app_r c a b :
  c ∉ chars b → cut_last c (a +:+ b) =
    match cut_last c a with Some (x, y) => Some (x, y +:+ b) | None => None end.
Proof.
  intros Hb. induction a as [|d a IH]; simpl; [by apply cut_last_notin|].
  rewrite IH. destruct (cut_last c a) as [[x y]|]; [done|].
  by destruct (Ascii.eqb d c).
Qed.

Lemma Contains_notin c s : c ∉ chars s → Contains s (String c "") = false.
Proof. intros Hc. unfold Contains. by rewrite cut_None_notin. Qed.

Lemma Contains_char_app c a b : Contains (a +:+ String c b) (String c "") = true.
Proof. apply Contains_spec. by exists a, b. Qed.

(** Image references: [name@digest] and [name:tag] are split at the
    separator, and a colon before the last slash (a registry port) is not a tag
    separator. *)
Theorem ParseRepositoryTag_spec :
  (∀ name d, "@"%char ∉ chars name → "@"%char ∉ chars d →
    ParseRepositoryTag (name +:+ "@" +:+ d) = (name, d)) ∧
  (∀ name tag, "@"%char ∉ chars name → "@"%char ∉ chars tag →
    ":"%char ∉ chars tag → "/"%char ∉ chars tag →
    ParseRepositoryTag (name +:+ ":" +:+ tag) = (name, tag)) ∧
  (∀ path base, "@"%char ∉ chars path → "@"%char ∉ chars base → ":"%char ∉ chars base →
    ParseRepositoryTag (path +:+ "/" +:+ base) = (path +:+ "/" +:+ base, "")).
Proof.
  unfold ParseRepositoryTag. split_and!.
  - intros name d Hn Hd. change ("@" +:+ d) with (String "@" d).
    by rewrite Contains_char_app, Split_char_app, Split_char_notin.
  - intros name tag Hn Ht Hc Hs. change (":" +:+ tag) with (String ":" tag).
    rewrite Contains_notin.
    2: { rewrite chars_app. apply not_elem_of_app. split; [done|]. by apply not_elem_of_cons. }
    by rewrite cut_last_app, Contains_notin.
  - intros path base Hp Hb Hc. change ("/" +:+ base) with (String "/" base).
    rewrite Contains_notin.
    2: { rewrite chars_app. apply not_elem_of_app. split; [done|]. by apply not_elem_of_cons. }
    rewrite cut_last_app_r by (by apply not_elem_of_cons).
    destruct (cut_last ":" path) as [[x y]|]; [|done].
    by rewrite Contains_char_app.
Qed.

(** ** Merging the replicas of a network *)

Section uniq.
Context `{MapRange}.
Implicit Types (l : list Network) (tmp : gmap string Network).
(** What the accumulator of [Uniq] holds after the networks [l]. *)
Definition uniq_inv l tmp : Prop :=
  ∀ id, match tmp !! id with
        | None => ∀ n, n ∈ l → net_ID n ≠ id
        | Some m => net_ID m = id ∧
            (∃ n0, List.find (λ n, String.eqb (net_ID n) id) l = Some n0 ∧
              m = net_set_Containers (net_Containers m) n0) ∧
            dom (net_Containers m) =
              ⋃ (map (λ n, dom (net_Containers n)) (List.filter (λ n, String.eqb (net_ID n) id) l)) ∧
            (∀ k e, net_Containers m !! k = Some e →
              ∃ n, n ∈ l ∧ net_ID n = id ∧ net_Containers n !! k = Some e)
        end.
Lemma find_app_Lfind {A} (p : A → bool) (xs ys : list A) :
  List.find p (xs ++ ys) =
    match List.find p xs with Some x => Some x | None => List.find p ys end.
Proof. induction xs as [|x xs IH]; simpl; [done|]. by destruct (p x). Qed.
Lemma uniq_step_inv l tmp n : uniq_inv l tmp → uniq_inv (l ++ [n]) (uniq_step tmp n).
Proof.
  intros Hinv id. specialize (Hinv id). unfold uniq_step.
  rewrite find_app_Lfind, List.filter_app. simpl.
  destruct (decide (net_ID n = id)) as [Hid|Hid].
  - rewrite Hid, String.eqb_refl. destruct (tmp !! id) as [m|] eqn:Hm.
    + destruct Hinv as (Hmid & (n0 & Hf & Hn0) & Hdom & Hel).
      rewrite lookup_insert_eq. simpl. split_and!; [done| | |].
      * exists n0. rewrite Hf. split; [done|]. by rewrite Hn0.
      * rewrite map_app, union_list_app_L, dom_union_L, <- Hdom. simpl.
        rewrite union_empty_r_L. apply union_comm_L.
      * intros k e [He|[_ He]]%lookup_union_Some_raw.
        { exists n. rewrite elem_of_app. set_solver. }
        destruct (Hel k e He) as (n' & ? & ? & ?). exists n'. rewrite elem_of_app. auto.
    + rewrite lookup_insert_eq. rewrite (find_none_all _ l).
      2: { intros n' Hn'. apply String.eqb_neq. by apply Hinv. }
      assert (List.filter (λ n, String.eqb (net_ID n) id) l = []) as ->.
      { apply Lfilter_nil. intros n' Hn'. apply String.eqb_neq. by apply Hinv. }
      simpl. split_and!; [done| | |].
      * exists n. split; [done|]. by destruct n.
      * by rewrite union_empty_r_L.
      * intros k e He. exists n. rewrite elem_of_app. set_solver.
  - apply String.eqb_neq in Hid as Hb. rewrite Hb. rewrite app_nil_r.
    assert (∀ y, (match tmp !! net_ID n with
                  | Some m => <[net_ID n := y m]> tmp
                  | None => <[net_ID n := n]> tmp end) !! id = tmp !! id) as ->.
    { intros y. destruct (tmp !! net_ID n); by rewrite lookup_insert_ne. }
    destruct (tmp !! id) as [m|] eqn:Hm.
    + destruct Hinv as (Hmid & (n0 & Hf & Hn0) & Hdom & Hel).
      split_and!; [done| |done|].
      * exists n0. by rewrite Hf.
      * intros k e He. destruct (Hel k e He) as (n' & ? & ? & ?).
        exists n'. rewrite elem_of_app. auto.
    + intros n'. rewrite elem_of_app, list_elem_of_singleton. intros [Hn'| ->]; auto.
Qed.
Lemma uniq_foldl l : uniq_inv l (foldl uniq_step ∅ l).
Proof.
  induction l as [|n l IH] using rev_ind.
  - intros id. simpl. rewrite lookup_empty. intros n Hn. by apply elem_of_nil in Hn.
  - rewrite foldl_app. simpl. by apply uniq_step_inv.
Qed.
(** [Uniq] returns each network ID once, exactly the IDs of the argument,
    and a merged network is its first replica with the endpoints of all the
    replicas of that ID; no endpoint is invented. *)
Theorem Networks_Uniq_spec l :
  NoDup (net_ID <$> Networks_Uniq l) ∧
  (∀ id, id ∈ net_ID <$> Networks_Uniq l ↔ id ∈ net_ID <$> l) ∧
  (∀ m, m ∈ Networks_Uniq l →
    (∃ n0, List.find (λ n, String.eqb (net_ID n) (net_ID m)) l = Some n0 ∧
      m = net_set_Containers (net_Containers m) n0) ∧
    dom (net_Containers m) =
      ⋃ (map (λ n, dom (net_Containers n))
             (List.filter (λ n, String.eqb (net_ID n) (net_ID m)) l)) ∧
    (∀ k e, net_Containers m !! k = Some e →
      ∃ n, n ∈ l ∧ net_ID n = net_ID m ∧ net_Containers n !! k = Some e)).
Proof.
  pose proof (uniq_foldl l) as Hinv. unfold Networks_Uniq.
  set (tmp := foldl uniq_step ∅ l) in *.
  assert (∀ k m, (k, m) ∈ range_map tmp → net_ID m = k) as Hkey.
  { intros k m Hkm%elem_of_range_map. specialize (Hinv k). rewrite Hkm in Hinv. tauto. }
  assert (net_ID <$> (range_map tmp).*2 = (range_map tmp).*1) as Hids.
  { rewrite <- list_fmap_compose. apply list_fmap_ext. intros i [k m] Hi. simpl.
    apply Hkey. by eapply list_elem_of_lookup_2. }
  split_and!.
  - rewrite Hids. apply NoDup_range_map_fst.
  - intros id. rewrite Hids, !list_elem_of_fmap. specialize (Hinv id). split.
    + intros ([k m] & -> & Hin). simpl in *. apply elem_of_range_map in Hin.
      rewrite Hin in Hinv. destruct Hinv as (_ & (n0 & Hf & _) & _).
      apply List.find_some in Hf as [Hn0%list_elem_of_In Heq%String.eqb_eq]. eauto.
    + intros (n & -> & Hn). destruct (tmp !! net_ID n) as [m|] eqn:Hm; [|by destruct (Hinv n)].
      exists (net_ID n, m). split; [done|]. by apply elem_of_range_map.
  - intros m ([k m'] & -> & Hin)%list_elem_of_fmap. simpl.
    rewrite <- (Hkey k m' Hin) in Hin. apply elem_of_range_map in Hin.
    specialize (Hinv (net_ID m')). rewrite Hin in Hinv. tauto.
Qed.
End uniq.

(** ** Removing duplicated endpoints *)

Section endpoints.
Context `{MapRange}.
Definition endpoints_inv (l : list (string * EndpointResource)) (m : gmap string string) : Prop :=
  (∀ eid idx, m !! eid = Some idx → ∃ r, (idx, r) ∈ l ∧ er_EndpointID r = eid) ∧
  (∀ i r, (i, r) ∈ l → ∃ idx, m !! er_EndpointID r = Some idx ∧
    (Contains idx (er_EndpointID r) = true → Contains i (er_EndpointID r) = true)).
Lemma endpoint_step_inv l m i r :
  endpoints_inv l m → endpoints_inv (l ++ [(i, r)]) (endpoint_step m (i, r)).
Proof.
  intros [Hin Hcov]. unfold endpoint_step. simpl.
  destruct (_ || _) eqn:Htest; split.
  - intros eid idx. rewrite lookup_insert. case_decide as Heq.
    + intros [= <-]. exists r. rewrite elem_of_app, list_elem_of_singleton. auto.
    + intros (r' & ? & ?)%Hin. exists r'. rewrite elem_of_app. auto.
  - intros j r' [Hj|[= -> ->]%list_elem_of_singleton]%elem_of_app.
    + destruct (Hcov j r' Hj) as (idx & Hidx & Himp).
      rewrite lookup_insert. case_decide as Heq; [|eauto].
      exists i. split; [done|]. rewrite Heq in Htest. rewrite Hidx in Htest. simpl in Htest.
      intros Hc. by rewrite Hc in Htest.
    + rewrite lookup_insert_eq. eauto.
  - intros eid idx (r' & ? & ?)%Hin. exists r'. rewrite elem_of_app. auto.
  - intros j r' [Hj|[= -> ->]%list_elem_of_singleton]%elem_of_app; [by apply Hcov|].
    apply orb_false_iff in Htest as [Hs Hc%negb_false_iff].
    destruct (m !! er_EndpointID r) as [idx|] eqn:Hm; [|done]. eauto.
Qed.
Lemma endpoints_foldl l : endpoints_inv l (foldl endpoint_step ∅ l).
Proof.
  induction l as [|[i r] l IH] using rev_ind.
  - split; simpl; [intros eid idx; by rewrite lookup_empty|].
    intros i r Hir. by apply elem_of_nil in Hir.
  - rewrite foldl_app. simpl. by apply endpoint_step_inv.
Qed.
Lemma dedup_lookup n k r :
  net_Containers (RemoveDuplicateEndpoints n) !! k = Some r ↔
  net_Containers n !! k = Some r ∧
  ∃ eid, foldl endpoint_step ∅ (range_map (net_Containers n)) !! eid = Some k.
Proof.
  unfold RemoveDuplicateEndpoints. simpl. set (m := foldl _ _ _).
  set (f := λ index, pair index <$> net_Containers n !! index).
  assert (∀ j x, (j, x) ∈ omap f (range_map m).*2 ↔
            net_Containers n !! j = Some x ∧ ∃ eid, m !! eid = Some j) as Hel.
  { intros j x. rewrite list_elem_of_omap. unfold f. split.
    - intros (i & Hi%elem_of_range_snd & Hx). apply fmap_Some in Hx as (y & Hy & [= -> ->]). auto.
    - intros (Hx & Hm). exists j. split; [by apply elem_of_range_snd|]. by rewrite Hx. }
  rewrite <- Hel. split; [apply elem_of_list_to_map_2|].
  intros Hk. apply elem_of_list_to_map_1'; [|done].
  intros y Hy. apply Hel in Hk as [Hk _], Hy as [Hy _]. congruence.
Qed.
(** The repaired network keeps a subset of the endpoints, one entry per
    endpoint ID, loses no endpoint ID, and prefers an entry whose index is not
    derived from the endpoint ID; all this whatever the map's iteration order. *)
Theorem RemoveDuplicateEndpoints_spec n :
  let n' := RemoveDuplicateEndpoints n in
  net_Containers n' ⊆ net_Containers n ∧
  (∀ k r k' r', net_Containers n' !! k = Some r → net_Containers n' !! k' = Some r' →
    er_EndpointID r = er_EndpointID r' → k = k') ∧
  (∀ k r, net_Containers n !! k = Some r → ∃ k' r', net_Containers n' !! k' = Some r' ∧
    er_EndpointID r' = er_EndpointID r ∧
    (Contains k' (er_EndpointID r) = true → Contains k (er_EndpointID r) = true)).
Proof.
  cbv zeta. destruct (endpoints_foldl (range_map (net_Containers n))) as [Hin Hcov].
  assert (∀ k r eid, net_Containers n !! k = Some r →
    foldl endpoint_step ∅ (range_map (net_Containers n)) !! eid = Some k →
    er_EndpointID r = eid) as Heid.
  { intros k r eid Hk Hm. destruct (Hin eid k Hm) as (r' & Hr'%elem_of_range_map & <-). congruence. }
  split_and!.
  - apply map_subseteq_spec. intros k r [? _]%dedup_lookup. done.
  - intros k r k' r' [Hk (e & He)]%dedup_lookup [Hk' (e' & He')]%dedup_lookup Heq.
    rewrite (Heid _ _ _ Hk He), (Heid _ _ _ Hk' He') in Heq. congruence.
  - intros k r Hk. destruct (Hcov k r) as (idx & Hidx & Himp); [by apply elem_of_range_map|].
    destruct (Hin _ _ Hidx) as (r' & Hr'%elem_of_range_map & Heq).
    exists idx, r'. split_and!; [|done|done]. apply dedup_lookup. eauto.
Qed.
End endpoints.

(** A volume found by name is one of the volumes and bears the name, alone or
    qualified by its engine; a name borne by several local volumes designates
    none of them. *)
Theorem Volumes_Get_spec E l name :
  (∀ v, Volumes_Get E l name = Some v → name ≠ "" ∧ v ∈ l ∧
    (vol_name_match E name v = true ∨ vol_Name v = "/" +:+ name)) ∧
  ((2 ≤ length (List.filter (vol_name_match E name) l))%nat →
    (∀ v, v ∈ l → vol_Driver v = "local") → Volumes_Get E l name = None) ∧
  (∀ v, name ≠ "" → List.filter (vol_name_match E name) l = [v] → Volumes_Get E l name = Some v).
Proof.
  unfold Volumes_Get.
  assert ((len name =? 0) = bool_decide (name = "")) as ->.
  { destruct name; [done|]. case_bool_decide; [done|]. apply Z.eqb_neq.
    unfold len. simpl. lia. }
  assert (∀ v, v ∈ List.filter (vol_name_match E name) l → v ∈ l ∧ vol_name_match E name v = true)
    as Hf by (intros v; apply list_elem_of_Lfilter).
  case_bool_decide as Hn; split_and!; try done.
  - intros v Hv. split; [done|]. revert Hf Hv.
    destruct (List.filter (vol_name_match E name) l) as [|c [|c' l']] eqn:Hl; intros Hf Hv.
    + apply List.find_some in Hv as [Hin%list_elem_of_In Heq%String.eqb_eq]. auto.
    + injection Hv as <-. destruct (Hf c); [by apply list_elem_of_singleton|]. auto.
    + apply List.find_some in Hv as [Hin%list_elem_of_In _]. destruct (Hf v Hin). auto.
  - intros Hlen Hloc. destruct (List.filter (vol_name_match E name) l) as [|c [|c' l']];
      [simpl in Hlen; lia|simpl in Hlen; lia|].
    apply find_none_all. intros v Hv. destruct (Hf v Hv) as [Hin _].
    rewrite (Hloc v Hin). apply andb_false_r.
  - intros v _ ->. done.
Qed.
