(* ===== verification/EngineState.v ===== *)
(** * The health of an engine ([cluster/engine.go], first half)

    An [Engine] is the manager's view of one Docker daemon.  This file models its
    record, the monad its methods run in, the state machine
    pending / healthy / unhealthy / disconnected with its failure counter, the
    events it emits, the validation back-off and the refresh of the specification
    of the machine ([updateSpecs]).

    A method that calls the daemon runs in [M W]: the world [W] (the daemon and
    the clock) is threaded through, and [DockerAPI W] is the client's interface;
    it is a third-party package, so it is a parameter.  Each method takes its
    locks for its critical sections; a method is modelled as the sequence of its
    sections with no other method in between. *)
From S2P Require Import Prelude GoStrings Json Config Container Inventory.
From Stdlib Require Import Ascii.

(** ** Data *)

(** [type engineState int] *)
Inductive engineState := statePending | stateUnhealthy | stateHealthy | stateDisconnected.
#[export] Instance engineState_eq_dec : EqDecision engineState.
Proof. solve_decision. Defined.

(** [stateText] *)
Definition stateText (s : engineState) : string :=
  match s with
  | statePending => "Pending"
  | stateUnhealthy => "Unhealthy"
  | stateHealthy => "Healthy"
  | stateDisconnected => "Disconnected"
  end.

(** An error value: its text and what the client library's predicates say of it. *)
Record error := {
  err_msg : string;
  err_refused : bool;         (* err == dockerclient.ErrConnectionRefused *)
  err_conn_failed : bool;     (* client.IsErrConnectionFailed(err) *)
  err_old_not_found : bool;   (* err == dockerclient.ErrImageNotFound *)
  err_image_not_found : bool  (* client.IsErrImageNotFound(err) *)
}.
Definition plain_error (msg : string) : error :=
  {| err_msg := msg; err_refused := false; err_conn_failed := false;
     err_old_not_found := false; err_image_not_found := false |}.

(** What every method of the no-operation client returns. *)
Definition errNoEngine : error := plain_error "Engine no longer exists".

(** [type Engine struct].  [e_connected]: the two clients are real ones;
    [e_monitor]: the events monitor, [None] when nil, and whether its stop channel
    exists; [e_stopped]: the stop channel of the refresh loop is closed;
    [e_hasHandler]: an event handler is registered; [e_FailureRetry] is
    [opts.FailureRetry]. *)
Record Engine := {
  e_self : ptr;
  e_hdr : EngineHdr;
  e_Cpus : Z;
  e_Memory : Z;
  e_Version : string;
  e_apiVersion : string;
  e_containers : gmap string Container;
  e_images : list Image;
  e_networks : gmap string Network;
  e_volumes : gmap string Volume;
  e_connected : bool;
  e_monitor : option bool;
  e_hasHandler : bool;
  e_stopped : bool;
  e_state : engineState;
  e_lastError : string;
  e_updatedAt : Z;
  e_failureCount : Z;
  e_overcommitRatio : Z;
  e_FailureRetry : Z;
  e_DeltaDuration : Z
}.
Definition set_hdr (v : EngineHdr) (e : Engine) : Engine :=
  {| e_self := e_self e; e_hdr := v; e_Cpus := e_Cpus e; e_Memory := e_Memory e; e_Version
     := e_Version e; e_apiVersion := e_apiVersion e; e_containers := e_containers e;
     e_images := e_images e; e_networks := e_networks e; e_volumes := e_volumes e;
     e_connected := e_connected e; e_monitor := e_monitor e; e_hasHandler := e_hasHandler e;
     e_stopped := e_stopped e; e_state := e_state e; e_lastError := e_lastError e;
     e_updatedAt := e_updatedAt e; e_failureCount := e_failureCount e; e_overcommitRatio :=
     e_overcommitRatio e; e_FailureRetry := e_FailureRetry e; e_DeltaDuration :=
     e_DeltaDuration e |}.
Definition set_Cpus (v : Z) (e : Engine) : Engine :=
  {| e_self := e_self e; e_hdr := e_hdr e; e_Cpus := v; e_Memory := e_Memory e; e_Version :=
     e_Version e; e_apiVersion := e_apiVersion e; e_containers := e_containers e; e_images
     := e_images e; e_networks := e_networks e; e_volumes := e_volumes e; e_connected :=
     e_connected e; e_monitor := e_monitor e; e_hasHandler := e_hasHandler e; e_stopped :=
     e_stopped e; e_state := e_state e; e_lastError := e_lastError e; e_updatedAt :=
     e_updatedAt e; e_failureCount := e_failureCount e; e_overcommitRatio :=
     e_overcommitRatio e; e_FailureRetry := e_FailureRetry e; e_DeltaDuration :=
     e_DeltaDuration e |}.
Definition set_Memory (v : Z) (e : Engine) : Engine :=
  {| e_self := e_self e; e_hdr := e_hdr e; e_Cpus := e_Cpus e; e_Memory := v; e_Version :=
     e_Version e; e_apiVersion := e_apiVersion e; e_containers := e_containers e; e_images
     := e_images e; e_networks := e_networks e; e_volumes := e_volumes e; e_connected :=
     e_connected e; e_monitor := e_monitor e; e_hasHandler := e_hasHandler e; e_stopped :=
     e_stopped e; e_state := e_state e; e_lastError := e_lastError e; e_updatedAt :=
     e_updatedAt e; e_failureCount := e_failureCount e; e_overcommitRatio :=
     e_overcommitRatio e; e_FailureRetry := e_FailureRetry e; e_DeltaDuration :=
     e_DeltaDuration e |}.
Definition set_Version (v : string) (e : Engine) : Engine :=
  {| e_self := e_self e; e_hdr := e_hdr e; e_Cpus := e_Cpus e; e_Memory := e_Memory e;
     e_Version := v; e_apiVersion := e_apiVersion e; e_containers := e_containers e;
     e_images := e_images e; e_networks := e_networks e; e_volumes := e_volumes e;
     e_connected := e_connected e; e_monitor := e_monitor e; e_hasHandler := e_hasHandler e;
     e_stopped := e_stopped e; e_state := e_state e; e_lastError := e_lastError e;
     e_updatedAt := e_updatedAt e; e_failureCount := e_failureCount e; e_overcommitRatio :=
     e_overcommitRatio e; e_FailureRetry := e_FailureRetry e; e_DeltaDuration :=
     e_DeltaDuration e |}.
Definition set_apiVersion (v : string) (e : Engine) : Engine :=
  {| e_self := e_self e; e_hdr := e_hdr e; e_Cpus := e_Cpus e; e_Memory := e_Memory e;
     e_Version := e_Version e; e_apiVersion := v; e_containers := e_containers e; e_images
     := e_images e; e_networks := e_networks e; e_volumes := e_volumes e; e_connected :=
     e_connected e; e_monitor := e_monitor e; e_hasHandler := e_hasHandler e; e_stopped :=
     e_stopped e; e_state := e_state e; e_lastError := e_lastError e; e_updatedAt :=
     e_updatedAt e; e_failureCount := e_failureCount e; e_overcommitRatio :=
     e_overcommitRatio e; e_FailureRetry := e_FailureRetry e; e_DeltaDuration :=
     e_DeltaDuration e |}.
Definition set_containers (v : gmap string Container) (e : Engine) : Engine :=
  {| e_self := e_self e; e_hdr := e_hdr e; e_Cpus := e_Cpus e; e_Memory := e_Memory e;
     e_Version := e_Version e; e_apiVersion := e_apiVersion e; e_containers := v; e_images
     := e_images e; e_networks := e_networks e; e_volumes := e_volumes e; e_connected :=
     e_connected e; e_monitor := e_monitor e; e_hasHandler := e_hasHandler e; e_stopped :=
     e_stopped e; e_state := e_state e; e_lastError := e_lastError e; e_updatedAt :=
     e_updatedAt e; e_failureCount := e_failureCount e; e_overcommitRatio :=
     e_overcommitRatio e; e_FailureRetry := e_FailureRetry e; e_DeltaDuration :=
     e_DeltaDuration e |}.
Definition set_images (v : list Image) (e : Engine) : Engine :=
  {| e_self := e_self e; e_hdr := e_hdr e; e_Cpus := e_Cpus e; e_Memory := e_Memory e;
     e_Version := e_Version e; e_apiVersion := e_apiVersion e; e_containers := e_containers
     e; e_images := v; e_networks := e_networks e; e_volumes := e_volumes e; e_connected :=
     e_connected e; e_monitor := e_monitor e; e_hasHandler := e_hasHandler e; e_stopped :=
     e_stopped e; e_state := e_state e; e_lastError := e_lastError e; e_updatedAt :=
     e_updatedAt e; e_failureCount := e_failureCount e; e_overcommitRatio :=
     e_overcommitRatio e; e_FailureRetry := e_FailureRetry e; e_DeltaDuration :=
     e_DeltaDuration e |}.
Definition set_networks (v : gmap string Network) (e : Engine) : Engine :=
  {| e_self := e_self e; e_hdr := e_hdr e; e_Cpus := e_Cpus e; e_Memory := e_Memory e;
     e_Version := e_Version e; e_apiVersion := e_apiVersion e; e_containers := e_containers
     e; e_images := e_images e; e_networks := v; e_volumes := e_volumes e; e_connected :=
     e_connected e; e_monitor := e_monitor e; e_hasHandler := e_hasHandler e; e_stopped :=
     e_stopped e; e_state := e_state e; e_lastError := e_lastError e; e_updatedAt :=
     e_updatedAt e; e_failureCount := e_failureCount e; e_overcommitRatio :=
     e_overcommitRatio e; e_FailureRetry := e_FailureRetry e; e_DeltaDuration :=
     e_DeltaDuration e |}.
Definition set_volumes (v : gmap string Volume) (e : Engine) : Engine :=
  {| e_self := e_self e; e_hdr := e_hdr e; e_Cpus := e_Cpus e; e_Memory := e_Memory e;
     e_Version := e_Version e; e_apiVersion := e_apiVersion e; e_containers := e_containers
     e; e_images := e_images e; e_networks := e_networks e; e_volumes := v; e_connected :=
     e_connected e; e_monitor := e_monitor e; e_hasHandler := e_hasHandler e; e_stopped :=
     e_stopped e; e_state := e_state e; e_lastError := e_lastError e; e_updatedAt :=
     e_updatedAt e; e_failureCount := e_failureCount e; e_overcommitRatio :=
     e_overcommitRatio e; e_FailureRetry := e_FailureRetry e; e_DeltaDuration :=
     e_DeltaDuration e |}.
Definition set_connected (v : bool) (e : Engine) : Engine :=
  {| e_self := e_self e; e_hdr := e_hdr e; e_Cpus := e_Cpus e; e_Memory := e_Memory e;
     e_Version := e_Version e; e_apiVersion := e_apiVersion e; e_containers := e_containers
     e; e_images := e_images e; e_networks := e_networks e; e_volumes := e_volumes e;
     e_connected := v; e_monitor := e_monitor e; e_hasHandler := e_hasHandler e; e_stopped
     := e_stopped e; e_state := e_state e; e_lastError := e_lastError e; e_updatedAt :=
     e_updatedAt e; e_failureCount := e_failureCount e; e_overcommitRatio :=
     e_overcommitRatio e; e_FailureRetry := e_FailureRetry e; e_DeltaDuration :=
     e_DeltaDuration e |}.
Definition set_monitor (v : option bool) (e : Engine) : Engine :=
  {| e_self := e_self e; e_hdr := e_hdr e; e_Cpus := e_Cpus e; e_Memory := e_Memory e;
     e_Version := e_Version e; e_apiVersion := e_apiVersion e; e_containers := e_containers
     e; e_images := e_images e; e_networks := e_networks e; e_volumes := e_volumes e;
     e_connected := e_connected e; e_monitor := v; e_hasHandler := e_hasHandler e; e_stopped
     := e_stopped e; e_state := e_state e; e_lastError := e_lastError e; e_updatedAt :=
     e_updatedAt e; e_failureCount := e_failureCount e; e_overcommitRatio :=
     e_overcommitRatio e; e_FailureRetry := e_FailureRetry e; e_DeltaDuration :=
     e_DeltaDuration e |}.
Definition set_hasHandler (v : bool) (e : Engine) : Engine :=
  {| e_self := e_self e; e_hdr := e_hdr e; e_Cpus := e_Cpus e; e_Memory := e_Memory e;
     e_Version := e_Version e; e_apiVersion := e_apiVersion e; e_containers := e_containers
     e; e_images := e_images e; e_networks := e_networks e; e_volumes := e_volumes e;
     e_connected := e_connected e; e_monitor := e_monitor e; e_hasHandler := v; e_stopped :=
     e_stopped e; e_state := e_state e; e_lastError := e_lastError e; e_updatedAt :=
     e_updatedAt e; e_failureCount := e_failureCount e; e_overcommitRatio :=
     e_overcommitRatio e; e_FailureRetry := e_FailureRetry e; e_DeltaDuration :=
     e_DeltaDuration e |}.
Definition set_stopped (v : bool) (e : Engine) : Engine :=
  {| e_self := e_self e; e_hdr := e_hdr e; e_Cpus := e_Cpus e; e_Memory := e_Memory e;
     e_Version := e_Version e; e_apiVersion := e_apiVersion e; e_containers := e_containers
     e; e_images := e_images e; e_networks := e_networks e; e_volumes := e_volumes e;
     e_connected := e_connected e; e_monitor := e_monitor e; e_hasHandler := e_hasHandler e;
     e_stopped := v; e_state := e_state e; e_lastError := e_lastError e; e_updatedAt :=
     e_updatedAt e; e_failureCount := e_failureCount e; e_overcommitRatio :=
     e_overcommitRatio e; e_FailureRetry := e_FailureRetry e; e_DeltaDuration :=
     e_DeltaDuration e |}.
Definition set_state (v : engineState) (e : Engine) : Engine :=
  {| e_self := e_self e; e_hdr := e_hdr e; e_Cpus := e_Cpus e; e_Memory := e_Memory e;
     e_Version := e_Version e; e_apiVersion := e_apiVersion e; e_containers := e_containers
     e; e_images := e_images e; e_networks := e_networks e; e_volumes := e_volumes e;
     e_connected := e_connected e; e_monitor := e_monitor e; e_hasHandler := e_hasHandler e;
     e_stopped := e_stopped e; e_state := v; e_lastError := e_lastError e; e_updatedAt :=
     e_updatedAt e; e_failureCount := e_failureCount e; e_overcommitRatio :=
     e_overcommitRatio e; e_FailureRetry := e_FailureRetry e; e_DeltaDuration :=
     e_DeltaDuration e |}.
Definition set_lastError (v : string) (e : Engine) : Engine :=
  {| e_self := e_self e; e_hdr := e_hdr e; e_Cpus := e_Cpus e; e_Memory := e_Memory e;
     e_Version := e_Version e; e_apiVersion := e_apiVersion e; e_containers := e_containers
     e; e_images := e_images e; e_networks := e_networks e; e_volumes := e_volumes e;
     e_connected := e_connected e; e_monitor := e_monitor e; e_hasHandler := e_hasHandler e;
     e_stopped := e_stopped e; e_state := e_state e; e_lastError := v; e_updatedAt :=
     e_updatedAt e; e_failureCount := e_failureCount e; e_overcommitRatio :=
     e_overcommitRatio e; e_FailureRetry := e_FailureRetry e; e_DeltaDuration :=
     e_DeltaDuration e |}.
Definition set_updatedAt (v : Z) (e : Engine) : Engine :=
  {| e_self := e_self e; e_hdr := e_hdr e; e_Cpus := e_Cpus e; e_Memory := e_Memory e;
     e_Version := e_Version e; e_apiVersion := e_apiVersion e; e_containers := e_containers
     e; e_images := e_images e; e_networks := e_networks e; e_volumes := e_volumes e;
     e_connected := e_connected e; e_monitor := e_monitor e; e_hasHandler := e_hasHandler e;
     e_stopped := e_stopped e; e_state := e_state e; e_lastError := e_lastError e;
     e_updatedAt := v; e_failureCount := e_failureCount e; e_overcommitRatio :=
     e_overcommitRatio e; e_FailureRetry := e_FailureRetry e; e_DeltaDuration :=
     e_DeltaDuration e |}.
Definition set_failureCount (v : Z) (e : Engine) : Engine :=
  {| e_self := e_self e; e_hdr := e_hdr e; e_Cpus := e_Cpus e; e_Memory := e_Memory e;
     e_Version := e_Version e; e_apiVersion := e_apiVersion e; e_containers := e_containers
     e; e_images := e_images e; e_networks := e_networks e; e_volumes := e_volumes e;
     e_connected := e_connected e; e_monitor := e_monitor e; e_hasHandler := e_hasHandler e;
     e_stopped := e_stopped e; e_state := e_state e; e_lastError := e_lastError e;
     e_updatedAt := e_updatedAt e; e_failureCount := v; e_overcommitRatio :=
     e_overcommitRatio e; e_FailureRetry := e_FailureRetry e; e_DeltaDuration :=
     e_DeltaDuration e |}.
Definition set_DeltaDuration (v : Z) (e : Engine) : Engine :=
  {| e_self := e_self e; e_hdr := e_hdr e; e_Cpus := e_Cpus e; e_Memory := e_Memory e;
     e_Version := e_Version e; e_apiVersion := e_apiVersion e; e_containers := e_containers
     e; e_images := e_images e; e_networks := e_networks e; e_volumes := e_volumes e;
     e_connected := e_connected e; e_monitor := e_monitor e; e_hasHandler := e_hasHandler e;
     e_stopped := e_stopped e; e_state := e_state e; e_lastError := e_lastError e;
     e_updatedAt := e_updatedAt e; e_failureCount := e_failureCount e; e_overcommitRatio :=
     e_overcommitRatio e; e_FailureRetry := e_FailureRetry e; e_DeltaDuration := v |}.
Definition hdr_set_ID (v : string) (h : EngineHdr) : EngineHdr :=
  {| eng_ID := v; eng_IP := eng_IP h; eng_Addr := eng_Addr h; eng_Name := eng_Name h;
     eng_Labels := eng_Labels h |}.
Definition hdr_set_IP (v : string) (h : EngineHdr) : EngineHdr :=
  {| eng_ID := eng_ID h; eng_IP := v; eng_Addr := eng_Addr h; eng_Name := eng_Name h;
     eng_Labels := eng_Labels h |}.
Definition hdr_set_Name (v : string) (h : EngineHdr) : EngineHdr :=
  {| eng_ID := eng_ID h; eng_IP := eng_IP h; eng_Addr := eng_Addr h; eng_Name := v;
     eng_Labels := eng_Labels h |}.
Definition hdr_set_Labels (v : gmap string string) (h : EngineHdr) : EngineHdr :=
  {| eng_ID := eng_ID h; eng_IP := eng_IP h; eng_Addr := eng_Addr h; eng_Name := eng_Name h;
     eng_Labels := v |}.

(** ** The monad of engine methods *)

Record EngineSt (W : Type) := mkSt { st_world : W; st_engine : Engine; st_events : list string }.
Arguments mkSt {W}.
Arguments st_world {W}.
Arguments st_engine {W}.
Arguments st_events {W}.

Definition M (W A : Type) : Type := EngineSt W → A * EngineSt W.
#[export] Instance M_ret W : MRet (M W) := λ A a st, (a, st).
#[export] Instance M_bind W : MBind (M W) := λ A B f m st, let '(a, st') := m st in f a st'.

Definition get_engine {W} : M W Engine := λ st, (st_engine st, st).
Definition modify {W} (f : Engine → Engine) : M W unit :=
  λ st, (tt, mkSt (st_world st) (f (st_engine st)) (st_events st)).
(** A critical section that updates the engine and returns a value. *)
Definition section {W A} (f : Engine → Engine * A) : M W A := λ st,
  let '(e, a) := f (st_engine st) in (a, mkSt (st_world st) e (st_events st)).
Definition emit {W} (event : string) : M W unit :=
  λ st, (tt, mkSt (st_world st) (st_engine st) (st_events st ++ [event])).

(** [types.Info], the fields that are read *)
Record SysInfo := {
  si_ID : string;
  si_Name : string;
  si_NCPU : Z;
  si_MemTotal : Z;
  si_SystemTime : string;
  si_Driver : string;
  si_KernelVersion : string;
  si_OperatingSystem : string;
  si_Labels : list string
}.

(** The answer to a container inspection. *)
Record Inspect := {
  in_Name : string;
  in_HostConfig : HostConfig;
  in_State : ContainerState;
  in_Config : DockerConfig;
  in_NetworkSettings : NetworkSettings;
  in_Created : string;
  in_ExecIDs : list string;
  in_Mounts : list MountPoint
}.

(** [types.ImageSummary] *)
Record ImageSummary := {
  is_ID : string;
  is_RepoTags : list string;
  is_RepoDigests : list string;
  is_Labels : gmap string string;
  is_Created : Z
}.

(** [types.NetworkResource] *)
Record NetworkResource := {
  nr_ID : string;
  nr_Name : string;
  nr_Scope : string;
  nr_Driver : string;
  nr_Labels : gmap string string;
  nr_Containers : gmap string EndpointResource
}.

(** [types.Volume] *)
Record VolumeInfo := { vi_Name : string; vi_Driver : string }.

(** [types.ImageBuildOptions]: the fields that the cluster reads or writes *)
Record ImageBuildOptions := { ib_BuildArgs : gmap string string; ib_CPUShares : Z; ib_Memory : Z }.

(** The client of one daemon, and the clock and time arithmetic of the manager.
    A pull, once accepted, answers with a stream: the JSON objects decoded from it
    in order, and the error that ended the decoding when it was not [io.EOF]. *)
Class DockerAPI (W : Type) := {
  clock : W → W * Z;
  ParseTime : string → Z;
  ShiftTime : string → Z → string;
  api_Info : W → W * (SysInfo + error);
  api_ServerVersion : W → W * (string + error);
  api_ContainerList : option string → W → W * (list ListedContainer + error);
  api_ContainerInspect : string → W → W * (Inspect + error);
  api_ContainerCreate : ContainerConfig → string → W → W * (string + error);
  api_ContainerRemove : string → bool → bool → W → W * (unit + error);
  api_ContainerStart : string → W → W * (unit + error);
  api_ContainerStop : string → Z → W → W * (unit + error);
  api_ContainerRename : string → string → W → W * (unit + error);
  api_ImageList : W → W * (list ImageSummary + error);
  api_ImageRemove : string → bool → W → W * (list string + error);
  api_ImagePull : string → string → W → W * ((list (gmap string string) * option error) + error);
  api_ImageTag : string → string → W → W * (unit + error);
  api_ImageLoad : string → W → W * ((list (gmap string string) * option error) + error);
  api_ImageImport : string → string → string → string → W → W * (unit + error);
  api_ImageBuild : ImageBuildOptions → string → W → W * (string + error);
  api_NetworkList : W → W * (list NetworkResource + error);
  api_NetworkInspect : string → W → W * (NetworkResource + error);
  api_NetworkCreate : string → W → W * (string + error);
  api_NetworkRemove : string → W → W * (unit + error);
  api_NetworkDisconnect : string → string → bool → W → W * (unit + error);
  api_NetworkConnect : string → string → EndpointSettings → W → W * (unit + error);
  api_VolumeList : W → W * (list VolumeInfo + error);
  api_VolumeInspect : string → W → W * (VolumeInfo + error);
  api_VolumeCreate : string → string → W → W * (VolumeInfo + error);
  api_VolumeRemove : string → W → W * (unit + error)
}.

(** A call through [e.apiClient]: the daemon's when connected, the no-operation
    client's otherwise. *)
Definition call {W A} (f : W → W * (A + error)) : M W (A + error) := λ st,
  if e_connected (st_engine st) then
    let '(w, r) := f (st_world st) in (r, mkSt w (st_engine st) (st_events st))
  else (inr errNoEngine, st).

Definition Now {W} `{DockerAPI W} : M W Z := λ st,
  let '(w, t) := clock (st_world st) in (t, mkSt w (st_engine st) (st_events st)).

(** The error component of a result. *)
Definition error_of {A} (r : A + error) : option error :=
  match r with inl _ => None | inr e => Some e end.

(** ** Durations and delays *)

Definition Second : Z := 10^9.

(** The method [Wait] of [delayer]: the period, [rnd] being the draw of [Int63n(delta)]. *)
Definition delayer_Wait (rangeMin rangeMax backoffFactor : Z) (rnd : Z → Z) : Z :=
  let waitPeriod := wrap64 (rangeMin * wrap64 (1 + backoffFactor)) in
  let delta := wrap64 (rangeMax - rangeMin) in
  if 0 <? delta then wrap64 (waitPeriod + rnd delta) else waitPeriod.

(** [versions.compare(v1, v2)] of Docker's API types: numeric, field by field. *)
Fixpoint compare_fields (a b : list string) : Z :=
  match a, b with
  | [], [] => 0
  | x :: a', [] => let i := (Atoi x).1 in if 0 <? i then 1 else if i <? 0 then -1 else compare_fields a' []
  | [], y :: b' =>
      (fix right (l : list string) : Z :=
         match l with
         | [] => 0
         | y :: l' => let j := (Atoi y).1 in if j <? 0 then 1 else if 0 <? j then -1 else right l'
         end) b
  | x :: a', y :: b' =>
      let i := (Atoi x).1 in let j := (Atoi y).1 in
      if j <? i then 1 else if i <? j then -1 else compare_fields a' b'
  end.
Definition LessThan (v other : string) : bool :=
  compare_fields (Split_char "." v) (Split_char "." other) =? -1.

Definition minSupportedVersion : string := "1.8.0".
Definition thresholdTime : Z := 2 * Second.

(** [IsConnectionError(err)] *)
Definition IsConnectionError (err : error) : bool :=
  err_refused err || err_conn_failed err
  || Contains (err_msg err) "onnection refused"
  || Contains (err_msg err) "annot connect to the docker engine endpoint"
  || Contains (err_msg err) "annot connect to the Docker daemon".

(** ** Health *)

(** [NewEngine]: [percent] is [int64(overcommitRatio * 100)]. *)
Definition NewEngine (self : ptr) (addr : string) (percent FailureRetry now : Z) : Engine := {|
  e_self := self;
  e_hdr := {| eng_ID := ""; eng_IP := ""; eng_Addr := addr; eng_Name := ""; eng_Labels := ∅ |};
  e_Cpus := 0; e_Memory := 0; e_Version := ""; e_apiVersion := "";
  e_containers := ∅; e_images := []; e_networks := ∅; e_volumes := ∅;
  e_connected := false; e_monitor := None; e_hasHandler := false; e_stopped := false;
  e_state := statePending; e_lastError := ""; e_updatedAt := now; e_failureCount := 0;
  e_overcommitRatio := percent; e_FailureRetry := FailureRetry; e_DeltaDuration := 0 |}.

Definition isConnected (e : Engine) : bool := e_connected e.
Definition IsHealthy (e : Engine) : bool := bool_decide (e_state e = stateHealthy).
Definition Status (e : Engine) : string := stateText (e_state e).
Definition ErrMsg (e : Engine) : string := e_lastError e.
Definition UpdatedAt (e : Engine) : Z := e_updatedAt e.
Definition getFailureCount (e : Engine) : Z := e_failureCount e.

Definition HealthIndicator (e : Engine) : outcome Z :=
  if bool_decide (e_state e ≠ stateHealthy) || (e_FailureRetry e <=? e_failureCount e) then Ret 0
  else q ← go_div (wrap64 (e_failureCount e * 100)) (e_FailureRetry e); Ret (wrap64 (100 - q)).

Definition setState {W} (s : engineState) : M W unit := modify (set_state s).

(** [1<<uint(n)] as an untyped constant converted to [time.Duration]: shifting a
    64-bit one by 64 or more gives 0; [n] is converted to [uint] first. *)
Definition shift1 (n : Z) : Z := let u := n mod 2^64 in if u <? 64 then wrap64 (2^u) else 0.

Definition validationLimit : Z := 4 * 3600 * Second.
Definition minFailureBackoff : Z := 30 * Second.

Definition TimeToValidate (now : Z) (e : Engine) : bool :=
  if bool_decide (e_state e ≠ statePending) then false else
  let sinceLastUpdate := wrap64 (now - e_updatedAt e) in
  (validationLimit <? sinceLastUpdate)
  || (wrap64 (wrap64 (shift1 (e_failureCount e) * Second) + minFailureBackoff) <? sinceLastUpdate).

Definition ValidationComplete (e : Engine) : Engine :=
  if bool_decide (e_state e ≠ statePending) then e
  else set_failureCount 0 (set_state stateHealthy e).

Section health.
Context {W : Type} `{DockerAPI W}.
Definition setErrMsg (errMsg : string) : M W unit :=
  t ← Now; modify (λ e, set_updatedAt t (set_lastError (TrimSpace errMsg) e)).
Definition HandleIDConflict (otherAddr : string) : M W unit :=
  e ← get_engine;
  setErrMsg ("ID duplicated. " +:+ eng_ID (e_hdr e) +:+ " shared by this node " +:+
    eng_Addr (e_hdr e) +:+ " and another node " +:+ otherAddr).
(** Nothing is emitted before a handler is registered. *)
Definition emitEvent (event : string) : M W unit :=
  e ← get_engine; if e_hasHandler e then emit event else mret tt.
Definition incFailureCount : M W unit :=
  modify (λ e, set_failureCount (wrap64 (e_failureCount e + 1)) e) ;;
  e ← get_engine;
  if bool_decide (e_state e = stateHealthy) && (e_FailureRetry e <=? e_failureCount e)
  then setState stateUnhealthy ;; emitEvent "engine_disconnect"
  else mret tt.
Definition resetFailureCount : M W unit := modify (set_failureCount 0).
Definition CheckConnectionErr (err : option error) : M W unit :=
  match err with
  | None =>
      setErrMsg "" ;;
      e ← get_engine;
      (if bool_decide (e_state e = stateUnhealthy)
       then emitEvent "engine_reconnect" ;; setState stateHealthy
       else mret tt) ;;
      resetFailureCount
  | Some err =>
      if IsConnectionError err then incFailureCount ;; setErrMsg (err_msg err) else mret tt
  end.
Definition updateClientVersionFromServer (serverVersion : string) : M W unit :=
  let v := if LessThan serverVersion "1.9" then "1.20"
           else if LessThan serverVersion "1.10" then "1.21"
           else if LessThan serverVersion "1.11" then "1.22"
           else if LessThan serverVersion "1.12" then "1.23"
           else if LessThan serverVersion "1.13" then "1.24"
           else "1.25" in
  modify (set_apiVersion v).
(** The loop over [info.Labels]: the labels so far, and the offending label. *)
Fixpoint spec_labels (labels : gmap string string) (l : list string)
  : gmap string string * option string :=
  match l with
  | [] => (labels, None)
  | label :: l' =>
      match SplitN2 label "=" with
      | [k; v] =>
          if String.eqb k "node" then spec_labels labels l'
          else match labels !! k with
               | Some _ => spec_labels labels l'
               | None => spec_labels (<[k := v]> labels) l'
               end
      | _ => (labels, Some label)
      end
  end.
(** The labels derived from the daemon's description of itself. *)
Definition base_labels (info : SysInfo) : gmap string string :=
  let m : gmap string string := ∅ in
  let m := if String.eqb (si_Driver info) "" then m else <["storagedriver" := si_Driver info]> m in
  let m := if String.eqb (si_KernelVersion info) "" then m
           else <["kernelversion" := si_KernelVersion info]> m in
  if String.eqb (si_OperatingSystem info) "" then m
  else <["operatingsystem" := si_OperatingSystem info]> m.
(** The manager's clock minus the engine's, 0 below the threshold. *)
Definition delta_duration (now : Z) (info : SysInfo) : Z :=
  let delta := if String.eqb (si_SystemTime info) "" then 0
               else wrap64 (now - ParseTime (si_SystemTime info)) in
  let absDelta := if delta <? 0 then (- delta / Second) * Second else delta in
  if absDelta <? thresholdTime then 0 else delta.
(** The critical section at the end of [updateSpecs]. *)
Definition apply_specs (now : Z) (info : SysInfo) (e : Engine) : Engine * option error :=
  let id := eng_ID (e_hdr e) in
  if negb (String.eqb id "") && negb (String.eqb id (si_ID info)) then
    let message := "Engine (ID: " +:+ id +:+ ", Addr: " +:+ eng_Addr (e_hdr e) +:+
      ") shows up with another ID:" +:+ si_ID info +:+
      ". Please remove it from cluster, it can be added back." in
    (set_lastError message (set_state statePending e), Some (plain_error message))
  else
    let '(labels, bad) := spec_labels (base_labels info) (si_Labels info) in
    let hdr := hdr_set_Labels labels (hdr_set_Name (si_Name info)
                 (if String.eqb id "" then hdr_set_ID (si_ID info) (e_hdr e) else e_hdr e)) in
    let e := set_hdr hdr (set_Memory (si_MemTotal info) (set_Cpus (si_NCPU info)
               (set_DeltaDuration (delta_duration now info) e))) in
    match bad with
    | None => (e, None)
    | Some label => (e, Some (plain_error ("Engine (ID: " +:+ eng_ID hdr +:+ ", Addr: " +:+
        eng_Addr hdr +:+ ") contains an invalid label (" +:+ label +:+
        ") not formatted as " +:+ String quote ("key=value" +:+ String quote "."))))
    end.
Definition updateSpecs : M W (option error) :=
  info ← call api_Info;
  CheckConnectionErr (error_of info) ;;
  match info with
  | inr err => mret (Some err)
  | inl info =>
      e ← get_engine;
      if (si_NCPU info =? 0) || (si_MemTotal info =? 0) then
        mret (Some (plain_error ("cannot get resources for this engine, make sure " +:+
          eng_Addr (e_hdr e) +:+ " is a Docker Engine, not a Swarm manager")))
      else
        v ← call api_ServerVersion;
        CheckConnectionErr (error_of v) ;;
        match v with
        | inr err => mret (Some err)
        | inl v =>
            if LessThan v minSupportedVersion then
              mret (Some (plain_error ("engine " +:+ eng_Addr (e_hdr e) +:+
                " is running an unsupported version of Docker Engine. Please upgrade to at least "
                +:+ minSupportedVersion)))
            else
              modify (set_Version v) ;;
              updateClientVersionFromServer v ;;
              now ← Now;
              section (apply_specs now info)
        end
  end.
(** [Disconnect]: a second call does nothing; a nil events monitor is a nil
    dereference, after the stop channel has been closed. *)
Definition Disconnect : M W (outcome unit) :=
  e ← get_engine;
  if bool_decide (e_state e = stateDisconnected) then mret (Ret tt) else
  modify (set_stopped true) ;;
  match e_monitor e with
  | None => mret (Panic nil_dereference)
  | Some _ =>
      modify (set_connected false) ;;
      setState stateDisconnected ;;
      emitEvent "engine_disconnect" ;;
      mret (Ret tt)
  end.
Definition RegisterEventHandler : M W (option error) :=
  e ← get_engine;
  if e_hasHandler e then mret (Some (plain_error "event handler already set"))
  else modify (set_hasHandler true) ;; mret None.
End health.

(** ** Reasoning about methods

    [mrel R m]: the engine before and after [m] are related by [R]. *)
Definition mrel {W A} (R : Engine → Engine → Prop) (m : M W A) : Prop :=
  ∀ st, R (st_engine st) (st_engine (m st).2).

Section mrel.
Context {W : Type} (R : Engine → Engine → Prop) `{!PreOrder R}.
Lemma mrel_ret {A} (a : A) : mrel (W := W) R (mret a).
Proof. intros st. reflexivity. Qed.
Lemma mrel_bind {A B} (m : M W A) (f : A → M W B) :
  mrel R m → (∀ a, mrel R (f a)) → mrel R (m ≫= f).
Proof.
  intros Hm Hf st. unfold mbind, M_bind. specialize (Hm st).
  destruct (m st) as [a st']. simpl in Hm. etrans; [exact Hm|]. apply Hf.
Qed.
Lemma mrel_get : mrel (W := W) R get_engine.
Proof. intros st. reflexivity. Qed.
Lemma mrel_emit s : mrel (W := W) R (emit s).
Proof. intros st. reflexivity. Qed.
Lemma mrel_modify f : (∀ e, R e (f e)) → mrel (W := W) R (modify f).
Proof. intros Hf st. apply Hf. Qed.
Lemma mrel_section {A} (f : Engine → Engine * A) :
  (∀ e, R e (f e).1) → mrel (W := W) R (section f).
Proof. intros Hf st. unfold section. specialize (Hf (st_engine st)). by destruct (f (st_engine st)). Qed.
Lemma mrel_call {A} (f : W → W * (A + error)) : mrel R (call f).
Proof.
  intros st. unfold call. destruct (e_connected _); [|reflexivity].
  destruct (f (st_world st)). reflexivity.
Qed.
(** What holds of [m], its result dropped, holds of [m]. *)
Lemma mrel_drop {A} (m : M W A) : mrel (W := W) R (m ;; mret tt) → mrel R m.
Proof.
  intros Hm st. specialize (Hm st). unfold mbind, M_bind in Hm. by destruct (m st).
Qed.
Lemma mrel_Now `{DockerAPI W} : mrel (W := W) R Now.
Proof. intros st. unfold Now. destruct (clock (st_world st)). reflexivity. Qed.
Lemma mrel_emitEvent s : mrel (W := W) R (emitEvent s).
Proof.
  unfold emitEvent. apply mrel_bind; [apply mrel_get|]. intros e.
  destruct (e_hasHandler e); [apply mrel_emit|apply mrel_ret].
Qed.
End mrel.

Create HintDb engine.
#[export] Hint Resolve mrel_ret mrel_bind mrel_get mrel_emit mrel_call mrel_Now mrel_emitEvent : engine.

(** Step through a method whose state changes are covered by the database. *)
Ltac mrel_tac :=
  repeat (first
    [ progress intros
    | solve [eauto with engine typeclass_instances]
    | apply mrel_bind; [typeclasses eauto| |]
    | apply mrel_modify
    | apply mrel_section
    | case_match ]).

(** The failure counter stays below the threshold while the engine is healthy. *)
Definition health_ok (e : Engine) : Prop :=
  e_state e = stateHealthy → 0 ≤ e_failureCount e < e_FailureRetry e.

(** The invariant is preserved and the threshold does not change. *)
Definition keeps_health (e e' : Engine) : Prop :=
  e_FailureRetry e' = e_FailureRetry e ∧
  (0 < e_FailureRetry e < 2^62 → health_ok e → health_ok e').
#[export] Instance keeps_health_preorder : PreOrder keeps_health.
Proof.
  split; [by intros e|]. intros e1 e2 e3 [H1 H2] [H3 H4]. split; [congruence|].
  intros HR H. apply H4; [by rewrite H1|auto].
Qed.

(** A disconnected engine stays disconnected, and an identifier, once set, stays. *)
Definition keeps_identity (e e' : Engine) : Prop :=
  e_self e' = e_self e ∧ eng_Addr (e_hdr e') = eng_Addr (e_hdr e) ∧
  e_overcommitRatio e' = e_overcommitRatio e ∧
  (eng_ID (e_hdr e) ≠ "" → eng_ID (e_hdr e') = eng_ID (e_hdr e)) ∧
  (e_state e = stateDisconnected ∧ e_connected e = false →
   e_state e' = stateDisconnected ∧ e_connected e' = false).
#[export] Instance keeps_identity_preorder : PreOrder keeps_identity.
Proof.
  split; [by intros e|].
  intros e1 e2 e3 (H1&H2&H3&H4&H5) (K1&K2&K3&K4&K5). split_and!; try congruence; try tauto.
  intros Hid. rewrite K4; [auto|]. by rewrite H4.
Qed.

Section health_theorems.
Context {W : Type} `{DockerAPI W}.
Implicit Types st : EngineSt W.
(** [CheckConnectionErr] as a function on the engine, [t] being the clock and
    [b] the text. *)
Definition checked (err : option error) (t : Z) (e : Engine) : Engine :=
  match err with
  | None =>
      set_failureCount 0
        ((if decide (e_state e = stateUnhealthy) then set_state stateHealthy else id)
           (set_updatedAt t (set_lastError (TrimSpace "") e)))
  | Some err =>
      if IsConnectionError err then
        let n := wrap64 (e_failureCount e + 1) in
        set_updatedAt t (set_lastError (TrimSpace (err_msg err))
          ((if decide (e_state e = stateHealthy ∧ e_FailureRetry e ≤ n)
            then set_state stateUnhealthy else id) (set_failureCount n e)))
      else e
  end.
(** The events it emits, when a handler is registered. *)
Definition checked_events (err : option error) (e : Engine) : list string :=
  if e_hasHandler e then
    match err with
    | None => if decide (e_state e = stateUnhealthy) then ["engine_reconnect"] else []
    | Some err =>
        if IsConnectionError err then
          if decide (e_state e = stateHealthy ∧ e_FailureRetry e ≤ wrap64 (e_failureCount e + 1))
          then ["engine_disconnect"] else []
        else []
    end
  else [].
Lemma CheckConnectionErr_checked err st :
  ∃ t, st_engine (CheckConnectionErr err st).2 = checked err t (st_engine st) ∧
       st_events (CheckConnectionErr err st).2 = st_events st ++ checked_events err (st_engine st).
Proof.
  destruct st as [w e evs]. destruct err as [err|]; unfold CheckConnectionErr, checked, checked_events.
  - destruct (IsConnectionError err).
    + unfold incFailureCount, setErrMsg, Now, emitEvent, emit, setState, modify, get_engine,
        mbind, M_bind, mret, M_ret. simpl.
      destruct (decide (e_state e = stateHealthy ∧ e_FailureRetry e ≤ wrap64 (e_failureCount e + 1)))
        as [[Hs Hn]|Hn].
      * rewrite bool_decide_eq_true_2 by done. apply Z.leb_le in Hn. rewrite Hn. simpl.
        destruct (e_hasHandler e); simpl; destruct (clock w) as [w' t]; simpl;
          rewrite ?app_nil_r; eauto.
      * assert (bool_decide (e_state e = stateHealthy) &&
                (e_FailureRetry e <=? wrap64 (e_failureCount e + 1)) = false) as ->.
        { apply andb_false_iff. case_bool_decide; [right|by left]. apply Z.leb_gt, Z.nle_gt.
          intros ?. by apply Hn. }
        simpl. destruct (clock w) as [w' t]; destruct (e_hasHandler e); simpl;
          rewrite ?app_nil_r; eauto.
    + exists 0. simpl. destruct (e_hasHandler e); simpl; by rewrite app_nil_r.
  - unfold setErrMsg, Now, emitEvent, emit, setState, resetFailureCount, modify, get_engine,
      mbind, M_bind, mret, M_ret. simpl.
    destruct (clock w) as [w' t]. simpl. exists t.
    destruct (decide (e_state e = stateUnhealthy)) as [Hu|Hu].
    + rewrite bool_decide_eq_true_2 by done. simpl.
      by destruct (e_hasHandler e); simpl; rewrite ?app_nil_r.
    + rewrite bool_decide_eq_false_2 by done.
      simpl. by destruct (e_hasHandler e); simpl; rewrite ?app_nil_r.
Qed.
Lemma checked_keeps_health err t e : keeps_health e (checked err t e).
Proof.
  unfold keeps_health, health_ok, checked. destruct err as [err|].
  - destruct (IsConnectionError err); [|done].
    case_decide as Hd; simpl; split; [done| |done|]; intros HR Hok; [done|].
    intros Hs. specialize (Hok Hs).
    assert (wrap64 (e_failureCount e + 1) = e_failureCount e + 1) as Hw.
    { apply wrap64_id. unfold int64_range. lia. }
    rewrite Hw in *. destruct (decide (e_FailureRetry e ≤ e_failureCount e + 1)); [|lia].
    by destruct Hd.
  - case_decide; simpl; split; intros; (done || lia).
Qed.
Lemma checked_keeps_identity err t e : keeps_identity e (checked err t e).
Proof.
  unfold keeps_identity, checked. destruct err as [err|].
  - destruct (IsConnectionError err); [|done].
    case_decide as Hd; simpl; split_and!; try done. intros [Hs Hc]. destruct Hd; congruence.
  - case_decide; simpl; split_and!; try done. intros [Hs Hc]. congruence.
Qed.
Lemma CheckConnectionErr_mrel (R : Engine → Engine → Prop) err :
  (∀ t e, R e (checked err t e)) → mrel (W := W) R (CheckConnectionErr err).
Proof. intros HR st. destruct (CheckConnectionErr_checked err st) as (t & -> & _). apply HR. Qed.
(** The connection state machine.  A call that succeeded clears the error
    text and the failure counter and brings an unhealthy engine back, with one
    [engine_reconnect] event; a connection error counts, and the failure that
    reaches the threshold makes a healthy engine unhealthy, with one
    [engine_disconnect] event; any other error changes nothing. *)
Theorem CheckConnectionErr_spec err st :
  let e := st_engine st in
  let st' := (CheckConnectionErr err st).2 in
  ∃ t, st_engine st' = checked err t e ∧ st_events st' = st_events st ++ checked_events err e ∧
    match err with
    | None => e_failureCount (st_engine st') = 0 ∧ e_lastError (st_engine st') = "" ∧
              e_state (st_engine st') ≠ stateUnhealthy
    | Some err =>
        if IsConnectionError err
        then e_failureCount (st_engine st') = wrap64 (e_failureCount e + 1) ∧
             (e_state (st_engine st') ≠ e_state e → e_state e = stateHealthy ∧
                e_state (st_engine st') = stateUnhealthy ∧
                e_FailureRetry e ≤ wrap64 (e_failureCount e + 1))
        else st_engine st' = e
    end.
Proof.
  cbv zeta. destruct (CheckConnectionErr_checked err st) as (t & He & Hev).
  exists t. rewrite He, Hev. split_and!; [done|done|].
  unfold checked. destruct err as [err|].
  - destruct (IsConnectionError err); [|done]. case_decide as Hd; simpl; [|done].
    split; [done|]. intros _. tauto.
  - case_decide as Hd; split_and!; try reflexivity; simpl; done.
Qed.
(** The health degree reported to the scheduler is between 0 and 100; it
    is positive exactly for a healthy engine below the failure threshold, it
    never divides by zero, and it does not grow with the failure count. *)
Theorem HealthIndicator_spec e :
  0 ≤ e_failureCount e → e_FailureRetry e < 2^56 →
  ∃ h, HealthIndicator e = Ret h ∧ 0 ≤ h ≤ 100 ∧
    (0 < h ↔ e_state e = stateHealthy ∧ e_failureCount e < e_FailureRetry e) ∧
    (e_state e = stateHealthy → e_failureCount e = 0 → 0 < e_FailureRetry e → h = 100) ∧
    (∀ n h', 0 ≤ n ≤ e_failureCount e → HealthIndicator (set_failureCount n e) = Ret h' → h ≤ h').
Proof.
  intros Hc HR. unfold HealthIndicator. simpl.
  assert (∀ c, 0 ≤ c < e_FailureRetry e →
    (q ← go_div (wrap64 (c * 100)) (e_FailureRetry e); Ret (wrap64 (100 - q)))
    = Ret (100 - c * 100 / e_FailureRetry e) ∧ 0 ≤ c * 100 / e_FailureRetry e < 100) as Hq.
  { intros c Hcr. assert (0 ≤ c * 100 / e_FailureRetry e < 100) as Hb.
    { split; [apply Z.div_pos; lia|]. apply Z.div_lt_upper_bound; nia. }
    split; [|done]. unfold go_div. rewrite decide_False by lia. simpl.
    rewrite (wrap64_id (c * 100)) by (unfold int64_range; lia).
    rewrite Z.quot_div_nonneg by lia.
    rewrite !wrap64_id; unfold int64_range; [done|lia|rewrite wrap64_id; unfold int64_range; lia]. }
  destruct (bool_decide (e_state e ≠ stateHealthy)) eqn:Hs; simpl.
  { apply bool_decide_eq_true in Hs. exists 0. split; [done|]. split; [lia|].
    split; [split; [lia|tauto]|]. split; [tauto|]. intros n h' _ [= <-]. done. }
  apply bool_decide_eq_false in Hs. apply dec_stable in Hs.
  destruct (e_FailureRetry e <=? e_failureCount e) eqn:Hlt.
  { apply Z.leb_le in Hlt. exists 0. split; [done|]. split; [lia|]. split; [lia|]. split; [lia|].
    intros n h' Hn. destruct (e_FailureRetry e <=? n) eqn:Hn'; [by intros [= <-]|].
    apply Z.leb_gt in Hn'. destruct (Hq n) as [-> Hb]; [lia|]. intros [= <-]. lia. }
  apply Z.leb_gt in Hlt. destruct (Hq (e_failureCount e)) as [-> Hb]; [lia|].
  eexists. split; [done|]. split; [lia|]. split; [split; [done|lia]|]. split.
  - intros _ -> _. rewrite Z.div_0_l; lia.
  - intros n h' Hn. destruct (e_FailureRetry e <=? n) eqn:Hn'; [apply Z.leb_le in Hn'; lia|].
    destruct (Hq n) as [-> Hb']; [lia|]. intros [= <-].
    assert (n * 100 / e_FailureRetry e ≤ e_failureCount e * 100 / e_FailureRetry e); [|lia].
    apply Z.div_le_mono; lia.
Qed.
End health_theorems.

(** ** Validation back-off *)

Lemma shift1_small n : 0 ≤ n ≤ 62 → shift1 n = 2^n.
Proof.
  intros Hn. unfold shift1. rewrite Z.mod_small by lia.
  destruct (n <? 64) eqn:E; [|apply Z.ltb_ge in E; lia].
  apply wrap64_id. unfold int64_range.
  assert (0 < 2^n ≤ 2^62); [|lia]. split; [apply Z.pow_pos_nonneg; lia|].
  apply Z.pow_le_mono_r; lia.
Qed.

(** A pending engine is validated again once [min(4h, 2^failures s + 30 s)]
    has passed since its last update, as long as it failed at most 33 times. *)
Theorem TimeToValidate_spec now e :
  0 ≤ e_failureCount e ≤ 33 → int64_range (now - e_updatedAt e) →
  (TimeToValidate now e = true ↔
    e_state e = statePending ∧
    Z.min validationLimit (2 ^ e_failureCount e * Second + minFailureBackoff) < now - e_updatedAt e).
Proof.
  intros Hf Hr. unfold TimeToValidate.
  rewrite (wrap64_id _ Hr), shift1_small by lia.
  assert (1 ≤ 2 ^ e_failureCount e ≤ 2^33) as Hp.
  { split; [change 1 with (2^0)|]; apply Z.pow_le_mono_r; lia. }
  unfold validationLimit, minFailureBackoff, Second in *.
  rewrite (wrap64_id (2 ^ e_failureCount e * _)) by (unfold int64_range; lia).
  rewrite wrap64_id by (unfold int64_range; lia).
  case_bool_decide as Hs; [split; [done|tauto]|].
  rewrite orb_true_iff, !Z.ltb_lt. split; [|lia]. intros Hor. split; [done|lia].
Qed.

(** Past 33 failures the back-off overflows: with 34 the delay is negative
    and the engine is validated at every inspection, and from 64 on the delay is
    30 seconds; the four-hour cap does not apply. *)
Theorem TimeToValidate_overflow now e :
  e_state e = statePending → int64_range (now - e_updatedAt e) → 0 ≤ now - e_updatedAt e →
  (e_failureCount e = 34 → TimeToValidate now e = true) ∧
  (64 ≤ e_failureCount e < 2^63 → minFailureBackoff < now - e_updatedAt e → TimeToValidate now e = true).
Proof.
  intros Hs Hr H0. unfold TimeToValidate. rewrite bool_decide_eq_false_2 by (rewrite Hs; auto).
  rewrite (wrap64_id _ Hr). split.
  - intros ->. apply orb_true_iff. right. apply Z.ltb_lt.
    eapply Z.lt_le_trans; [|exact H0]. by vm_compute.
  - intros Hf Hd. apply orb_true_iff. right. apply Z.ltb_lt.
    unfold shift1. rewrite Z.mod_small by lia.
    destruct (e_failureCount e <? 64) eqn:E; [apply Z.ltb_lt in E; lia|]. exact Hd.
Qed.

(** ** Specifications *)

(** The value the list of [key=value] labels gives to [k]: the first one. *)
Fixpoint label_value (k : string) (l : list string) : option string :=
  match l with
  | [] => None
  | label :: l' =>
      match SplitN2 label "=" with
      | [k'; v] => if String.eqb k' k then Some v else label_value k l'
      | _ => None
      end
  end.

Definition well_formed_label (label : string) : bool := Contains label "=".

Lemma spec_labels_spec m l :
  ((spec_labels m l).2 = None ↔ Forall (λ x, well_formed_label x = true) l) ∧
  (Forall (λ x, well_formed_label x = true) l → ∀ k,
    (spec_labels m l).1 !! k =
      match m !! k with
      | Some v => Some v
      | None => if String.eqb k "node" then None else label_value k l
      end).
Proof.
  unfold well_formed_label. revert m. induction l as [|x l IH]; intros m; simpl.
  { split; [split; [constructor|done]|]. intros _ k.
    destruct (m !! k); [done|]. by destruct (String.eqb k "node"). }
  unfold SplitN2, Contains. destruct (cut "=" x) as [[k0 v]|] eqn:Hcut.
  2: { split; [split; [done|]|]; intros Hx; inversion Hx; subst;
       unfold Contains in *; rewrite Hcut in *; done. }
  assert (Forall (λ x, Contains x "=" = true) (x :: l) ↔ Forall (λ x, Contains x "=" = true) l) as Hall.
  { rewrite Forall_cons. unfold Contains at 1. rewrite Hcut. tauto. }
  change (Forall (λ x, match cut "=" x with Some _ => true | None => false end = true) (x :: l))
    with (Forall (λ x, Contains x "=" = true) (x :: l)). rewrite Hall.
  destruct (String.eqb_spec k0 "node") as [->|Hnode].
  { destruct (IH m) as [IH1 IH2]. split; [exact IH1|]. intros Hl k. rewrite (IH2 Hl).
    destruct (m !! k); [done|]. destruct (String.eqb_spec k "node") as [->|Hk]; [done|].
    destruct (String.eqb_spec "node" k); [congruence|done]. }
  destruct (m !! k0) as [w|] eqn:Hm.
  - destruct (IH m) as [IH1 IH2]. split; [exact IH1|]. intros Hl k. rewrite (IH2 Hl).
    destruct (m !! k) eqn:Hk; [done|]. destruct (String.eqb k "node"); [done|].
    destruct (String.eqb_spec k0 k); [congruence|done].
  - destruct (IH (<[k0:=v]> m)) as [IH1 IH2]. split; [exact IH1|]. intros Hl k. rewrite (IH2 Hl).
    rewrite lookup_insert. case_decide as Hk.
    + subst k. rewrite Hm, String.eqb_refl. by rewrite (proj2 (String.eqb_neq _ _) Hnode).
    + destruct (m !! k); [done|]. destruct (String.eqb k "node"); [done|].
      by rewrite (proj2 (String.eqb_neq _ _) Hk).
Qed.

Section specs_theorems.
Context {W : Type} `{DockerAPI W}.
(** What a specification refresh does to an engine.  An engine that reports
    another ID than its own is put back to pending and keeps every other field;
    otherwise the ID is set once and for all, the resources and the clock
    difference are the daemon's, and, when every label has the form key=value,
    the labels are the ones derived from the daemon, then the first value given
    to each key, the key [node] being refused. *)
Theorem apply_specs_spec now info e :
  let id := eng_ID (e_hdr e) in
  let '(e', err) := apply_specs now info e in
  (id ≠ "" ∧ id ≠ si_ID info →
    err ≠ None ∧ e_state e' = statePending ∧ e_hdr e' = e_hdr e ∧
    e_Cpus e' = e_Cpus e ∧ e_Memory e' = e_Memory e) ∧
  (id = "" ∨ id = si_ID info →
    eng_ID (e_hdr e') = si_ID info ∧ eng_Name (e_hdr e') = si_Name info ∧
    eng_Addr (e_hdr e') = eng_Addr (e_hdr e) ∧ e_state e' = e_state e ∧
    e_Cpus e' = si_NCPU info ∧ e_Memory e' = si_MemTotal info ∧
    (err = None ↔ Forall (λ x, well_formed_label x = true) (si_Labels info)) ∧
    (err = None → ∀ k, eng_Labels (e_hdr e') !! k =
      match base_labels info !! k with
      | Some v => Some v
      | None => if String.eqb k "node" then None else label_value k (si_Labels info)
      end)).
Proof.
  cbv zeta. unfold apply_specs.
  destruct (String.eqb_spec (eng_ID (e_hdr e)) "") as [Hid|Hid]; simpl;
    [|destruct (String.eqb_spec (eng_ID (e_hdr e)) (si_ID info)) as [Hid'|Hid']; simpl].
  3: { split; [|tauto]. intros _. done. }
  all: destruct (spec_labels_spec (base_labels info) (si_Labels info)) as [H1 H2].
  all: destruct (spec_labels (base_labels info) (si_Labels info)) as [labels bad]; simpl in *.
  all: destruct bad; (split; [tauto|]); intros _; simpl; split_and!;
    try done; try (split; [done|]; by intros ?%H1);
    try (split; [intros _; by apply H1|done]).
  all: try (by intros _; apply H2, H1).
Qed.
(** The clock difference: the delta, unless it is under two seconds. *)
Lemma delta_duration_spec now info :
  let d := if String.eqb (si_SystemTime info) "" then 0
           else wrap64 (now - ParseTime (si_SystemTime info)) in
  delta_duration now info = if decide (Z.abs d < thresholdTime) then 0 else d.
Proof.
  unfold delta_duration, thresholdTime. set (d := if String.eqb _ _ then _ else _). cbv zeta.
  destruct (d <? 0) eqn:Hd; [apply Z.ltb_lt in Hd|apply Z.ltb_ge in Hd].
  - rewrite Z.abs_neq by lia. unfold Second.
    pose proof (Z.div_mod (- d) (10^9) ltac:(lia)).
    pose proof (Z.mod_pos_bound (- d) (10^9) ltac:(lia)).
    destruct (_ <? _) eqn:Ht; [apply Z.ltb_lt in Ht|apply Z.ltb_ge in Ht]; case_decide; lia || done.
  - rewrite Z.abs_eq by lia.
    destruct (_ <? _) eqn:Ht; [apply Z.ltb_lt in Ht|apply Z.ltb_ge in Ht]; case_decide; lia || done.
Qed.
(** Disconnecting is idempotent and final: it closes the stop channel and
    replaces the clients once, with one event, and a second call changes
    nothing.  An engine whose connection never got as far as creating the events
    monitor makes it panic. *)
Theorem Disconnect_spec (st : EngineSt W) :
  let e := st_engine st in
  let '(r, st') := Disconnect st in
  (e_state e = stateDisconnected → r = Ret tt ∧ st' = st) ∧
  (e_state e ≠ stateDisconnected → e_monitor e = None → r = Panic nil_dereference) ∧
  (e_state e ≠ stateDisconnected → is_Some (e_monitor e) →
    r = Ret tt ∧ e_state (st_engine st') = stateDisconnected ∧
    e_connected (st_engine st') = false ∧ e_stopped (st_engine st') = true ∧
    st_events st' = st_events st ++ (if e_hasHandler e then ["engine_disconnect"] else []) ∧
    Disconnect st' = (Ret tt, st')).
Proof.
  destruct st as [w e evs]. unfold Disconnect, get_engine, mbind, M_bind. simpl.
  case_bool_decide as Hs; simpl.
  { split_and!; [done|done|done]. }
  destruct (e_monitor e) as [b|] eqn:Hm; simpl.
  - unfold emitEvent, get_engine, mbind, M_bind. simpl.
    destruct (e_hasHandler e) eqn:Hh; simpl; rewrite ?app_nil_r; (split; [done|]);
      (split; [done|]); intros _ _; by split_and!.
  - split; [done|]. split; [done|]. by intros _ [??].
Qed.
Lemma apply_specs_keeps_health now info e : keeps_health e (apply_specs now info e).1.
Proof.
  unfold apply_specs. case_match; simpl; [by split|].
  destruct (spec_labels _ _) as [labels bad]. by destruct bad.
Qed.
End specs_theorems.

Lemma keeps_health_eq e e' :
  e_state e' = e_state e → e_failureCount e' = e_failureCount e →
  e_FailureRetry e' = e_FailureRetry e → keeps_health e e'.
Proof. intros H1 H2 H3. unfold keeps_health, health_ok. rewrite H1, H2, H3. done. Qed.

Lemma CheckConnectionErr_keeps_health {W} `{DockerAPI W} err :
  mrel (W := W) keeps_health (CheckConnectionErr err).
Proof. apply CheckConnectionErr_mrel. intros. apply checked_keeps_health. Qed.

#[export] Hint Resolve CheckConnectionErr_keeps_health apply_specs_keeps_health : engine.
#[export] Hint Extern 4 (keeps_health _ _) => (by apply keeps_health_eq) : engine.

Lemma updateSpecs_keeps_health {W} `{DockerAPI W} : mrel (W := W) keeps_health updateSpecs.
Proof.
  unfold updateSpecs, updateClientVersionFromServer.
  mrel_tac.
Qed.

(** ** A daemon for witnesses

    It describes itself by [info] and holds the containers [held]; what is asked of it
    succeeds and changes nothing. *)
Definition held_container := (ListedContainer * Inspect)%type.
Definition is_held (id : string) (x : held_container) : bool := String.eqb (lc_ID x.1) id.
Definition holding_daemon (info : SysInfo) (held : list held_container) : DockerAPI unit := {|
  clock := λ w, (w, 0);
  ParseTime := λ _, 0;
  ShiftTime := λ s _, s;
  api_Info := λ w, (w, inl info);
  api_ServerVersion := λ w, (w, inl "1.13.0");
  api_ContainerList := λ id w,
    (w, inl (fst <$> match id with Some id => List.filter (is_held id) held | None => held end));
  api_ContainerInspect := λ id w,
    (w, match List.find (is_held id) held with
        | Some x => inl x.2 | None => inr (plain_error "No such container") end);
  api_ContainerCreate := λ _ _ w, (w, inl "c0");
  api_ContainerRemove := λ _ _ _ w, (w, inl tt);
  api_ContainerStart := λ _ w, (w, inl tt);
  api_ContainerStop := λ _ _ w, (w, inl tt);
  api_ContainerRename := λ _ _ w, (w, inl tt);
  api_ImageList := λ w, (w, inl []);
  api_ImageRemove := λ _ _ w, (w, inl []);
  api_ImagePull := λ _ _ w, (w, inl ([], None));
  api_ImageTag := λ _ _ w, (w, inl tt);
  api_ImageLoad := λ _ w, (w, inl ([], None));
  api_ImageImport := λ _ _ _ _ w, (w, inl tt);
  api_ImageBuild := λ _ _ w, (w, inl "");
  api_NetworkList := λ w, (w, inl []);
  api_NetworkInspect := λ _ w, (w, inr (plain_error "No such network"));
  api_NetworkCreate := λ _ w, (w, inl "n0");
  api_NetworkRemove := λ _ w, (w, inl tt);
  api_NetworkDisconnect := λ _ _ _ w, (w, inl tt);
  api_NetworkConnect := λ _ _ _ w, (w, inl tt);
  api_VolumeList := λ w, (w, inl []);
  api_VolumeInspect := λ _ w, (w, inr (plain_error "No such volume"));
  api_VolumeCreate := λ name driver w, (w, inl {| vi_Name := name; vi_Driver := driver |});
  api_VolumeRemove := λ _ w, (w, inl tt)
|}.
(** One that holds nothing. *)
Definition quiet_daemon (info : SysInfo) : DockerAPI unit := holding_daemon info [].
Definition quiet_info : SysInfo := {|
  si_ID := "X"; si_Name := "node"; si_NCPU := 4; si_MemTotal := 1024; si_Driver := "";
  si_KernelVersion := ""; si_OperatingSystem := ""; si_Labels := []; si_SystemTime := "" |}.

(** ** Concrete engines *)

Definition engine_with (state : engineState) (failures : Z) : Engine :=
  set_state state (set_failureCount failures (NewEngine 0 "a:1" 5 3 0)).

Lemma HealthIndicator_spec_witness :
  ∃ h, HealthIndicator (engine_with stateHealthy 1) = Ret h ∧ 0 < h ≤ 100.
Proof.
  destruct (HealthIndicator_spec (engine_with stateHealthy 1)) as (h & Hh & Hb & Hpos & _); [done..|].
  exists h. split; [exact Hh|]. split; [by apply Hpos|lia].
Defined.
Lemma TimeToValidate_spec_witness :
  TimeToValidate (33 * Second) (engine_with statePending 1) = true ∧
  TimeToValidate (32 * Second) (engine_with statePending 1) = false.
Proof.
  split; [by apply TimeToValidate_spec|].
  apply not_true_is_false. intros Ht. apply TimeToValidate_spec in Ht as [_ Ht]; [by vm_compute in Ht|done|done].
Defined.
Lemma TimeToValidate_overflow_witness :
  TimeToValidate 0 (engine_with statePending 34) = true ∧
  TimeToValidate (31 * Second) (engine_with statePending 64) = true.
Proof.
  destruct (TimeToValidate_overflow 0 (engine_with statePending 34)) as [Ha _]; [done..|].
  destruct (TimeToValidate_overflow (31 * Second) (engine_with statePending 64)) as [_ Hb]; [done..|].
  split; [by apply Ha|]. by apply Hb.
Defined.
