(* ===== verification/EngineOps.v ===== *)
(** * What an engine stores and does ([cluster/engine.go], second half)

    The refresh of the containers, images, networks and volumes of an engine from
    its daemon, the operations forwarded to the daemon, the resource accounting
    and the dispatch of the daemon's events. *)
From S2P Require Import Prelude GoStrings Json Config Container Inventory EngineState.

(** ** Resources *)

(** [float64(x)/float64(n)] rounded up, for [0 ≤ x] and [0 < n < 2^53]: the
    quotient of the nearest doubles is rounded to 53 bits, half to even, then to
    the next integer. *)
Definition round_half_even (num den : Z) : Z :=
  let q := num / den in
  let r := num mod den in
  if (den <? 2 * r) || ((2 * r =? den) && Z.odd q) then q + 1 else q.

(** The exponent [e] for which the mantissa of [x/n] has 53 bits. *)
Definition quot_exponent (x n : Z) : Z :=
  let e := Z.log2 x - Z.log2 n - 53 in
  let num := x * 2 ^ (- Z.min e 0) in
  let den := n * 2 ^ (Z.max e 0) in
  if num <? den * 2^53 then e else e + 1.

Definition float_of_nat (x : Z) : Z :=
  if x <? 2^53 then x
  else let e := Z.log2 x - 52 in round_half_even x (2^e) * 2^e.

Definition float_div_ceil (x n : Z) : Z :=
  let x := float_of_nat x in
  if x =? 0 then 0 else
  let e := quot_exponent x n in
  let m := round_half_even (x * 2 ^ (- Z.min e 0)) (n * 2 ^ (Z.max e 0)) in
  if 0 <=? e then m * 2^e else (m + 2^(-e) - 1) / 2^(-e).

(** The same quotient, rounded down. *)
Definition float_div_floor (x n : Z) : Z :=
  let y := float_of_nat x in
  let e := quot_exponent y n in
  let m := round_half_even (y * 2 ^ (- Z.min e 0)) (n * 2 ^ (Z.max e 0)) in
  if 0 <=? e then m * 2^e else m / 2^(-e).

(** [int64(math.Ceil(float64(shares*1024) / float64(cpus)))]; a negative quotient
    is rounded toward zero, which is up. *)
Definition shares_to_docker (shares cpus : Z) : Z :=
  let x := wrap64 (shares * 1024) in
  if 0 <=? x then float_div_ceil x cpus else - float_div_floor (- x) cpus.

(** [shares * e.Cpus / 1024] *)
Definition shares_of_docker (shares cpus : Z) : Z := wrap64 (wrap64 (shares * cpus) ÷ 1024).

Definition sum64 (l : list Z) : Z := foldl (λ r z, wrap64 (r + z)) 0 l.

Section accounting.
Context `{MapRange}.
Definition Containers (e : Engine) : list Container := (range_map (e_containers e)).*2.
Definition Images (e : Engine) : list Image := e_images e.
Definition Networks (e : Engine) : list Network := (range_map (e_networks e)).*2.
Definition Volumes (e : Engine) : list Volume := (range_map (e_volumes e)).*2.
Definition UsedMemory (e : Engine) : outcome Z :=
  l ← omapM (λ c, cfg ← deref (ctr_Config c); Ret (hc_Memory (cc_HostConfig cfg))) (Containers e);
  Ret (sum64 l).
Definition UsedCpus (e : Engine) : outcome Z :=
  l ← omapM (λ c, cfg ← deref (ctr_Config c); Ret (hc_CPUShares (cc_HostConfig cfg))) (Containers e);
  Ret (sum64 l).
End accounting.

Definition TotalMemory (e : Engine) : Z :=
  wrap64 (e_Memory e + wrap64 (wrap64 (e_Memory e * e_overcommitRatio e) ÷ 100)).
Definition TotalCpus (e : Engine) : Z :=
  wrap64 (e_Cpus e + wrap64 (wrap64 (e_Cpus e * e_overcommitRatio e) ÷ 100)).

(** [func (e *Engine) Image(IDOrName string)] *)
Definition Engine_Image (e : Engine) (IDOrName : string) : option Image :=
  List.find (λ i, Image_Match i IDOrName true) (e_images e).

(** ** The internal state *)

Definition AddContainer (c : Container) (e : Engine) : Engine * option error :=
  match e_containers e !! ctr_ID c with
  | Some _ => (e, Some (plain_error "container already exists"))
  | None => (set_containers (<[ctr_ID c := c]> (e_containers e)) e, None)
  end.

Definition addImage (i : Image) (e : Engine) : Engine := set_images (e_images e ++ [i]) e.

Definition removeContainer (c : Container) (e : Engine) : Engine * option error :=
  match e_containers e !! ctr_ID c with
  | None => (e, Some (plain_error "container not found"))
  | Some _ => (set_containers (delete (ctr_ID c) (e_containers e)) e, None)
  end.

Definition cleanupContainers (e : Engine) : Engine := set_containers ∅ e.

Definition network_of (e : Engine) (r : NetworkResource) : Network :=
  {| net_ID := nr_ID r; net_Name := nr_Name r; net_Scope := nr_Scope r; net_Driver := nr_Driver r;
     net_Labels := nr_Labels r; net_Containers := nr_Containers r; net_Engine := e_self e |}.
Definition volume_of (e : Engine) (v : VolumeInfo) : Volume :=
  {| vol_Name := vi_Name v; vol_Driver := vi_Driver v; vol_Engine := e_self e |}.
Definition image_of (e : Engine) (i : ImageSummary) : Image :=
  {| img_ID := is_ID i; img_RepoTags := is_RepoTags i; img_RepoDigests := is_RepoDigests i;
     img_Labels := is_Labels i; img_Created := is_Created i; img_Engine := e_self e |}.

Definition DeleteNetwork (id : string) (e : Engine) : Engine :=
  set_networks (delete id (e_networks e)) e.
(** The resource of another engine's network, under this engine. *)
Definition AddNetwork (n : Network) (e : Engine) : Engine :=
  set_networks (<[net_ID n := {| net_ID := net_ID n; net_Name := net_Name n;
    net_Scope := net_Scope n; net_Driver := net_Driver n; net_Labels := net_Labels n;
    net_Containers := net_Containers n; net_Engine := e_self e |}]> (e_networks e)) e.

Section ops.
Context {W : Type} `{DockerAPI W} `{GoJson} `{MapRange}.
(** ** Refreshing *)
(** The container as inspected: [info] converted, its CPU shares scaled, its
    times shifted.  [BuildContainerConfig] writes through the label map of
    [info.Config]. *)
Definition inspected_config (e : Engine) (info : Inspect) : ContainerConfig :=
  let cfg := BuildContainerConfig (in_Config info) (in_HostConfig info)
    {| EndpointsConfig := ns_Networks (in_NetworkSettings info) |} in
  let h := cc_HostConfig cfg in
  cc_set_HostConfig (hc_set_CPUShares (shares_of_docker (hc_CPUShares h) (e_Cpus e)) h) cfg.
Definition shift_state (d : Z) (s : ContainerState) : ContainerState :=
  {| cst_Running := cst_Running s; cst_Paused := cst_Paused s;
     cst_Restarting := cst_Restarting s; cst_Dead := cst_Dead s;
     cst_ExitCode := cst_ExitCode s; cst_StartedAt := ShiftTime (cst_StartedAt s) d;
     cst_FinishedAt := ShiftTime (cst_FinishedAt s) d; cst_Health := cst_Health s |}.
Definition inspected_info (e : Engine) (info : Inspect) : ContainerJSON :=
  {| ci_Name := in_Name info; ci_HostConfig := Some (in_HostConfig info);
     ci_State := Some (shift_state (e_DeltaDuration e) (in_State info));
     ci_Config := Some (dc_set_Labels (cc_Labels (inspected_config e info)) (in_Config info));
     ci_NetworkSettings := Some (in_NetworkSettings info);
     ci_Created := in_Created info; ci_ExecIDs := in_ExecIDs info; ci_Mounts := in_Mounts info |}.
Definition adjust_created (e : Engine) (c : ListedContainer) : ListedContainer :=
  {| lc_ID := lc_ID c; lc_Names := lc_Names c; lc_Labels := lc_Labels c; lc_State := lc_State c;
     lc_Created := lc_Created c + e_DeltaDuration e / Second;
     lc_Image := lc_Image c; lc_Ports := lc_Ports c |}.
(** The container object to update, and whether it must be inspected. *)
Definition known_container (e : Engine) (c : ListedContainer) (full : bool) : Container * bool :=
  match e_containers e !! lc_ID c with
  | Some current =>
      (current, full || match ci_State (ctr_Info current) with
                        | Some s => cst_Restarting s | None => false end)
  | None =>
      ({| ctr_Container := {| lc_ID := ""; lc_Names := []; lc_Labels := ∅; lc_State := "";
                              lc_Created := 0; lc_Image := ""; lc_Ports := [] |};
          ctr_Config := None; ctr_Info := zero_ContainerJSON; ctr_Engine := e_self e |}, true)
  end.
(** [updateContainer]: the new [containers] map.  The object of a container that
    the engine already knows is shared with [e.containers], hence the write
    there. *)
Definition updateContainer (c : ListedContainer) (containers : gmap string Container) (full : bool)
  : M W (gmap string Container + error) :=
  e ← get_engine;
  let '(container, full) := known_container e c full in
  let c := adjust_created e c in
  let store (container : Container) : M W (gmap string Container + error) :=
    section (λ e',
      let container := {| ctr_Container := c; ctr_Config := ctr_Config container;
                          ctr_Info := ctr_Info container; ctr_Engine := ctr_Engine container |} in
      (match e_containers e !! lc_ID c with
       | Some _ => set_containers (<[lc_ID c := container]> (e_containers e')) e'
       | None => e'
       end, inl (<[lc_ID c := container]> containers))) in
  if full then
    info ← call (api_ContainerInspect (lc_ID c));
    CheckConnectionErr (error_of info) ;;
    match info with
    | inr err => mret (inr err)
    | inl info =>
        store {| ctr_Container := ctr_Container container;
                 ctr_Config := Some (inspected_config e info);
                 ctr_Info := inspected_info e info; ctr_Engine := ctr_Engine container |}
    end
  else store container.
(** The loop of [RefreshContainers]: a container that cannot be inspected is
    logged and left out. *)
Fixpoint update_all (l : list ListedContainer) (merged : gmap string Container) (full : bool)
  : M W (gmap string Container) :=
  match l with
  | [] => mret merged
  | c :: l' =>
      r ← updateContainer c merged full;
      match r with
      | inl merged' => update_all l' merged' full
      | inr _ => update_all l' merged full
      end
  end.
Definition RefreshContainers (full : bool) : M W (option error) :=
  containers ← call (api_ContainerList None);
  CheckConnectionErr (error_of containers) ;;
  match containers with
  | inr err => mret (Some err)
  | inl containers =>
      merged ← update_all containers ∅ full;
      modify (set_containers merged) ;;
      mret None
  end.
Definition refreshContainer (ID : string) (full : bool) : M W (option Container * option error) :=
  containers ← call (api_ContainerList (Some ID));
  CheckConnectionErr (error_of containers) ;;
  match containers with
  | inr err => mret (None, Some err)
  | inl [] =>
      modify (λ e, set_containers (delete ID (e_containers e)) e) ;; mret (None, None)
  | inl [c] =>
      e ← get_engine;
      r ← updateContainer c (e_containers e) full;
      (* the map passed is [e.containers] itself *)
      match r with
      | inl m => modify (set_containers m)
      | inr _ => mret tt
      end ;;
      e ← get_engine;
      mret (e_containers e !! lc_ID c, error_of r)
  | inl _ =>
      err ← RefreshContainers full; mret (None, err)
  end.
Definition RefreshImages : M W (option error) :=
  images ← call api_ImageList;
  CheckConnectionErr (error_of images) ;;
  match images with
  | inr err => mret (Some err)
  | inl images => modify (λ e, set_images (image_of e <$> images) e) ;; mret None
  end.
Definition refreshNetwork (ID : string) : M W (option error) :=
  network ← call (api_NetworkInspect ID);
  CheckConnectionErr (error_of network) ;;
  match network with
  | inr err =>
      if Contains (err_msg err) "No such network"
      then modify (λ e, set_networks (delete ID (e_networks e)) e) ;; mret None
      else mret (Some err)
  | inl n => modify (λ e, set_networks (<[ID := network_of e n]> (e_networks e)) e) ;; mret None
  end.
Definition RefreshNetworks : M W (option error) :=
  networks ← call api_NetworkList;
  CheckConnectionErr (error_of networks) ;;
  match networks with
  | inr err => mret (Some err)
  | inl l =>
      modify (λ e, set_networks (foldl (λ m n, <[nr_ID n := network_of e n]> m) ∅ l) e) ;;
      mret None
  end.
Definition RefreshVolumes : M W (option error) :=
  volumes ← call api_VolumeList;
  CheckConnectionErr (error_of volumes) ;;
  match volumes with
  | inr err => mret (Some err)
  | inl l =>
      modify (λ e, set_volumes (foldl (λ m v, <[vi_Name v := volume_of e v]> m) ∅ l) e) ;;
      mret None
  end.
Definition refreshVolume (IDOrName : string) : M W (option error) :=
  volume ← call (api_VolumeInspect IDOrName);
  CheckConnectionErr (error_of volume) ;;
  match volume with
  | inr err =>
      if Contains (err_msg err) "No such volume"
      then modify (λ e, set_volumes (delete IDOrName (e_volumes e)) e) ;; mret None
      else mret (Some err)
  | inl v => modify (λ e, set_volumes (<[vi_Name v := volume_of e v]> (e_volumes e)) e) ;; mret None
  end.
(** [ConnectWithClient], the starting of the events monitor's goroutine included
    as the creation of its stop channel. *)
Definition ConnectWithClient : M W (option error) :=
  modify (λ e, set_monitor (Some false) (set_connected true e)) ;;
  err ← updateSpecs;
  match err with
  | Some err => mret (Some err)
  | None =>
      modify (set_monitor (Some true)) ;;
      err ← RefreshContainers true;
      match err with
      | Some err => mret (Some err)
      | None =>
          err ← RefreshImages;
          match err with
          | Some err => mret (Some err)
          | None =>
              RefreshVolumes ;; RefreshNetworks ;; emitEvent "engine_connect" ;; mret None
          end
      end
  end.
(** [Connect(config)]: [resolve] splits the address and resolves its host, [dial] makes the
    HTTP clients. *)
Definition Connect (resolve : string → string + error) (dial : string → option error) : M W (option error) :=
  e ← get_engine;
  match resolve (eng_Addr (e_hdr e)) with
  | inr err => mret (Some err)
  | inl ip =>
      modify (λ e, set_hdr (hdr_set_IP ip (e_hdr e)) e) ;;
      match dial (eng_Addr (e_hdr e)) with
      | Some err => mret (Some err)
      | None => ConnectWithClient
      end
  end.
(** One turn of [refreshLoop] after the delay, [due] telling whether the
    specifications are older than five minutes; the result tells whether they
    were updated. *)
Definition backoff (e : Engine) : Z :=
  let b := wrap64 (e_failureCount e - e_FailureRetry e) in
  if b <? 0 then 0 else if 1000 <? b then 1000 else b.
Definition refresh_turn (due : bool) : M W bool :=
  e ← get_engine;
  let refresh : M W unit :=
    err ← RefreshContainers false;
    match err with
    | None => RefreshVolumes ;; RefreshNetworks ;; RefreshImages ;; mret tt
    | Some _ => mret tt
    end in
  if negb (IsHealthy e) || due then
    err ← updateSpecs;
    match err with
    | Some _ => mret false
    | None => refresh ;; mret true
    end
  else refresh ;; mret false.
(** ** Operations forwarded to the daemon *)
(** [Pull(image, authConfig)], [auth] being the encoded credentials.  The map
    into which the stream is decoded is reused from object to object, so the
    ["error"] of any of them is returned. *)
Definition Pull (image auth : string) : M W (option error) :=
  resp ← call (api_ImagePull image auth);
  CheckConnectionErr (error_of resp) ;;
  match resp with
  | inr err => mret (Some err)
  | inl (_, Some err) => mret (Some err)
  | inl (msgs, None) =>
      match foldl (λ m msg, msg ∪ m) (∅ : gmap string string) msgs !! "error" with
      | Some errMsg => mret (Some (plain_error errMsg))
      | None => RefreshImages ;; mret None
      end
  end.
(** [Load(reader)], [content] being what is read; the messages of the answer go into one
    map, like those of [Pull]. *)
Definition Load (content : string) : M W (option error) :=
  resp ← call (api_ImageLoad content);
  CheckConnectionErr (error_of resp) ;;
  match resp with
  | inr err => mret (Some err)
  | inl (_, Some err) => mret (Some err)
  | inl (msgs, None) =>
      match foldl (λ m msg, msg ∪ m) (∅ : gmap string string) msgs !! "error" with
      | Some errMsg => mret (Some (plain_error errMsg))
      | None => RefreshImages ;; mret None
      end
  end.
(** [Import(source, ref, tag, imageReader)] *)
Definition Import (source ref tag content : string) : M W (option error) :=
  r ← call (api_ImageImport source ref tag content);
  CheckConnectionErr (error_of r) ;;
  match r with
  | inr err => mret (Some err)
  | inl _ => RefreshImages ;; mret None
  end.
(** [BuildImage(buildContext, buildImage)]: the output of the build. *)
Definition BuildImage (options : ImageBuildOptions) (content : string) : M W (string + error) :=
  r ← call (api_ImageBuild options content);
  CheckConnectionErr (error_of r) ;;
  mret r.
(** The copy of the configuration whose number of CPUs is turned into shares. *)
Definition dockerConfig_of (config : ContainerConfig) (e : Engine) : ContainerConfig :=
  let h := cc_HostConfig config in
  cc_set_HostConfig (hc_set_CPUShares (shares_to_docker (hc_CPUShares h) (e_Cpus e)) h) config.
Definition not_reported_back : error :=
  plain_error "Container created but refresh didn't report it back".
Definition CreateContainer (config : ContainerConfig) (name : string) (pullImage : bool)
    (auth : string) : M W (option Container * option error) :=
  e ← get_engine;
  let dockerConfig := dockerConfig_of config e in
  let register (ID : string) : M W (option Container * option error) :=
    refreshContainer ID true ;;
    e ← get_engine;
    match e_containers e !! ID with
    | None => mret (None, Some not_reported_back)
    | Some container => mret (Some container, None)
    end in
  createResp ← call (api_ContainerCreate dockerConfig name);
  CheckConnectionErr (error_of createResp) ;;
  match createResp with
  | inl ID => register ID
  | inr err =>
      if (negb (err_old_not_found err) && negb (err_image_not_found err)) || negb pullImage then mret (None, Some err) else
      err ← Pull (cc_Image config) auth;
      match err with
      | Some err => mret (None, Some err)
      | None =>
          createResp ← call (api_ContainerCreate dockerConfig name);
          CheckConnectionErr (error_of createResp) ;;
          match createResp with
          | inl ID => register ID
          | inr err => mret (None, Some err)
          end
      end
  end.
Definition RemoveContainer (container : Container) (force volumes : bool) : M W (option error) :=
  r ← call (api_ContainerRemove (ctr_ID container) force volumes);
  CheckConnectionErr (error_of r) ;;
  match r with
  | inr err => mret (Some err)
  | inl _ => modify (λ e, set_containers (delete (ctr_ID container) (e_containers e)) e) ;; mret None
  end.
(** The images are refreshed even when the removal failed. *)
Definition RemoveImage (name : string) (force : bool) : M W (list string + error) :=
  dels ← call (api_ImageRemove name force);
  CheckConnectionErr (error_of dels) ;;
  RefreshImages ;;
  mret dels.
Definition RemoveNetwork (network : Network) : M W (option error) :=
  r ← call (api_NetworkRemove (net_ID network));
  CheckConnectionErr (error_of r) ;;
  match r with
  | inr err => mret (Some err)
  | inl _ => modify (DeleteNetwork (net_ID network)) ;; mret None
  end.
Definition RemoveVolume (name : string) : M W (option error) :=
  r ← call (api_VolumeRemove name);
  CheckConnectionErr (error_of r) ;;
  match r with
  | inr err => mret (Some err)
  | inl _ => modify (λ e, set_volumes (delete name (e_volumes e)) e) ;; mret None
  end.
Definition CreateNetwork (name : string) : M W (string + error) :=
  r ← call (api_NetworkCreate name);
  CheckConnectionErr (error_of r) ;;
  match r with
  | inr err => mret (inr err)
  | inl ID => refreshNetwork ID ;; mret (inl ID)
  end.
Definition CreateVolume (name driver : string) : M W (VolumeInfo + error) :=
  r ← call (api_VolumeCreate name driver);
  CheckConnectionErr (error_of r) ;;
  match r with
  | inr err => mret (inr err)
  | inl volume => refreshVolume (vi_Name volume) ;; mret (inl volume)
  end.
(** [StartContainer(id, nil)] *)
Definition StartContainer (id : string) : M W (option error) :=
  r ← call (api_ContainerStart id);
  CheckConnectionErr (error_of r) ;;
  match r with
  | inr err => mret (Some err)
  | inl _ => r ← refreshContainer id true; mret r.2
  end.
Definition RenameContainer (container : Container) (newName : string) : M W (option error) :=
  r ← call (api_ContainerRename (ctr_ID container) newName);
  CheckConnectionErr (error_of r) ;;
  match r with
  | inr err => mret (Some err)
  | inl _ => r ← refreshContainer (ctr_ID container) true; mret r.2
  end.
Definition TagImage (IDOrName ref : string) : M W (option error) :=
  r ← call (api_ImageTag IDOrName ref);
  CheckConnectionErr (error_of r) ;;
  match r with inr err => mret (Some err) | inl _ => RefreshImages end.
Definition NetworkDisconnect (container : Container) (network : Network) (force : bool)
  : M W (option error) :=
  r ← call (api_NetworkDisconnect (net_ID network) (ctr_ID container) force);
  CheckConnectionErr (error_of r) ;;
  match r with inr err => mret (Some err) | inl _ => RefreshNetworks end.
Definition RefreshEngine (hostname : string) : M W (option error) :=
  e ← get_engine;
  if negb (String.eqb hostname (eng_Name (e_hdr e))) then
    mret (Some (plain_error ("invalid engine name during refresh: " +:+ hostname +:+ " vs " +:+
      eng_Name (e_hdr e))))
  else RefreshContainers true.
(** ** Events of the daemon *)
(** What the handling of an event refreshes. *)
Inductive reaction :=
  | react_network (ID : string)
  | react_volume (ID : string)
  | react_images
  | react_container (ID : string) (full : bool)
  | react_container_all (ID : string) (full : bool)   (* then volumes and networks *)
  | react_specs
  | react_nothing.
(** [events.Message] *)
Record Message := {
  msg_Type : string;
  msg_Action : string;
  msg_Status : string;
  msg_ID : string;
  msg_ActorID : string
}.
(** The two [switch]es of [handler]. *)
Definition dispatch (msg : Message) : reaction :=
  let ty := msg_Type msg in
  if String.eqb ty "network" then react_network (msg_ActorID msg)
  else if String.eqb ty "volume" then react_volume (msg_ActorID msg)
  else if String.eqb ty "image" then react_images
  else if String.eqb ty "container" then
    let action := if HasPrefix (msg_Action msg) "health_status" then "health_status"
                  else msg_Action msg in
    if String.eqb action "commit" then react_images
    else if bool_decide (action ∈ ["die"; "kill"; "oom"; "pause"; "start"; "restart"; "stop";
                                   "unpause"; "rename"; "update"; "health_status"])
    then react_container (msg_ID msg) true
    else if bool_decide (action ∈ ["top"; "resize"; "export"; "exec_create"; "exec_start";
                                   "exec_detach"; "attach"; "detach"; "extract-to-dir"; "copy";
                                   "archive-path"])
    then react_nothing
    else react_container (msg_ID msg) false
  else if String.eqb ty "daemon" then
    if String.eqb (msg_Action msg) "reload" then react_specs else react_nothing
  else if String.eqb ty "" then
    let status := msg_Status msg in
    if bool_decide (status ∈ ["pull"; "untag"; "delete"; "commit"]) then react_images
    else if bool_decide (status ∈ ["die"; "kill"; "oom"; "pause"; "start"; "stop"; "unpause";
                                   "rename"])
    then react_container_all (msg_ID msg) true
    else if bool_decide (status ∈ ["top"; "resize"; "export"; "exec_create"; "exec_start";
                                   "attach"; "extract-to-dir"; "copy"; "archive-path"])
    then react_nothing
    else react_container_all (msg_ID msg) false
  else react_nothing.
(** Errors of the refreshes are dropped. *)
Definition react (r : reaction) : M W unit :=
  match r with
  | react_network ID => refreshNetwork ID ;; mret tt
  | react_volume ID => refreshVolume ID ;; mret tt
  | react_images => RefreshImages ;; mret tt
  | react_container ID full => refreshContainer ID full ;; mret tt
  | react_container_all ID full =>
      refreshContainer ID full ;; RefreshVolumes ;; RefreshNetworks ;; mret tt
  | react_specs => updateSpecs ;; mret tt
  | react_nothing => mret tt
  end.
(** [handler(msg)], the event being passed on by its status. *)
Definition handler (msg : Message) : M W unit :=
  react (dispatch msg) ;; emitEvent (msg_Status msg).
End ops.

(** ** Everything that can happen to an engine *)

Inductive op :=
  | op_RegisterEventHandler | op_Connect | op_Disconnect | op_ValidationComplete
  | op_HandleIDConflict (addr : string) | op_refresh_turn (due : bool)
  | op_RefreshContainers (full : bool) | op_refreshContainer (ID : string) (full : bool)
  | op_RefreshImages | op_RefreshNetworks | op_RefreshVolumes | op_RefreshEngine (hostname : string)
  | op_CreateContainer (config : ContainerConfig) (name : string) (pull : bool) (auth : string)
  | op_RemoveContainer (c : Container) (force volumes : bool)
  | op_StartContainer (id : string) | op_RenameContainer (c : Container) (newName : string)
  | op_Pull (image auth : string) | op_TagImage (image ref : string)
  | op_RemoveImage (name : string) (force : bool) | op_Load (content : string)
  | op_Import (source ref tag content : string) | op_BuildImage (options : ImageBuildOptions) (content : string)
  | op_CreateNetwork (name : string) | op_RemoveNetwork (n : Network)
  | op_AddNetwork (n : Network) | op_NetworkDisconnect (c : Container) (n : Network) (force : bool)
  | op_CreateVolume (name driver : string) | op_RemoveVolume (name : string)
  | op_handler (msg : Message).

Definition run_op {W} `{DockerAPI W} `{GoJson} `{MapRange} (o : op) : M W unit :=
  match o with
  | op_RegisterEventHandler => RegisterEventHandler ;; mret tt
  | op_Connect => ConnectWithClient ;; mret tt
  | op_Disconnect => Disconnect ;; mret tt
  | op_ValidationComplete => modify ValidationComplete
  | op_HandleIDConflict addr => HandleIDConflict addr
  | op_refresh_turn due => refresh_turn due ;; mret tt
  | op_RefreshContainers full => RefreshContainers full ;; mret tt
  | op_refreshContainer ID full => refreshContainer ID full ;; mret tt
  | op_RefreshImages => RefreshImages ;; mret tt
  | op_RefreshNetworks => RefreshNetworks ;; mret tt
  | op_RefreshVolumes => RefreshVolumes ;; mret tt
  | op_RefreshEngine hostname => RefreshEngine hostname ;; mret tt
  | op_CreateContainer config name pull auth => CreateContainer config name pull auth ;; mret tt
  | op_RemoveContainer c force volumes => RemoveContainer c force volumes ;; mret tt
  | op_StartContainer id => StartContainer id ;; mret tt
  | op_RenameContainer c newName => RenameContainer c newName ;; mret tt
  | op_Pull image auth => Pull image auth ;; mret tt
  | op_TagImage image ref => TagImage image ref ;; mret tt
  | op_RemoveImage name force => RemoveImage name force ;; mret tt
  | op_Load content => Load content ;; mret tt
  | op_Import source ref tag content => Import source ref tag content ;; mret tt
  | op_BuildImage options content => BuildImage options content ;; mret tt
  | op_CreateNetwork name => CreateNetwork name ;; mret tt
  | op_RemoveNetwork n => RemoveNetwork n ;; mret tt
  | op_AddNetwork n => modify (AddNetwork n)
  | op_NetworkDisconnect c n force => NetworkDisconnect c n force ;; mret tt
  | op_CreateVolume name driver => CreateVolume name driver ;; mret tt
  | op_RemoveVolume name => RemoveVolume name ;; mret tt
  | op_handler msg => handler msg
  end.

(** Reachability: any sequence of operations. *)
Inductive engine_steps {W} `{DockerAPI W} `{GoJson} `{MapRange} : EngineSt W → EngineSt W → Prop :=
  | steps_refl st : engine_steps st st
  | steps_op st o st' : engine_steps (run_op o st).2 st' → engine_steps st st'.

(** ** The failure counter *)

Section keeps_health.
Context {W : Type} `{DockerAPI W} `{GoJson} `{MapRange}.
Notation KH := (mrel (W := W) keeps_health).
Lemma updateContainer_keeps_health c containers full : KH (updateContainer c containers full).
Proof. unfold updateContainer. mrel_tac. Qed.
Hint Resolve updateContainer_keeps_health updateSpecs_keeps_health : engine.
Lemma update_all_keeps_health l merged full : KH (update_all l merged full).
Proof. revert merged. induction l; intros; simpl; mrel_tac. Qed.
Hint Resolve update_all_keeps_health : engine.
Lemma RefreshContainers_keeps_health full : KH (RefreshContainers full).
Proof. unfold RefreshContainers. mrel_tac. Qed.
Hint Resolve RefreshContainers_keeps_health : engine.
Lemma refreshContainer_keeps_health ID full : KH (refreshContainer ID full).
Proof. unfold refreshContainer. mrel_tac. Qed.
Lemma RefreshImages_keeps_health : KH RefreshImages.
Proof. unfold RefreshImages. mrel_tac. Qed.
Lemma RefreshNetworks_keeps_health : KH RefreshNetworks.
Proof. unfold RefreshNetworks. mrel_tac. Qed.
Lemma refreshNetwork_keeps_health ID : KH (refreshNetwork ID).
Proof. unfold refreshNetwork. mrel_tac. Qed.
Lemma RefreshVolumes_keeps_health : KH RefreshVolumes.
Proof. unfold RefreshVolumes. mrel_tac. Qed.
Lemma refreshVolume_keeps_health ID : KH (refreshVolume ID).
Proof. unfold refreshVolume. mrel_tac. Qed.
Hint Resolve refreshContainer_keeps_health RefreshImages_keeps_health RefreshNetworks_keeps_health
  refreshNetwork_keeps_health RefreshVolumes_keeps_health refreshVolume_keeps_health : engine.
Lemma Pull_keeps_health image auth : KH (Pull image auth).
Proof. unfold Pull. mrel_tac. Qed.
Hint Resolve Pull_keeps_health : engine.
Lemma ValidationComplete_keeps_health e : keeps_health e (ValidationComplete e).
Proof.
  unfold ValidationComplete. case_bool_decide; [done|].
  split; [done|]. unfold health_ok. simpl. lia.
Qed.
Lemma Disconnect_keeps_health : KH Disconnect.
Proof. unfold Disconnect. mrel_tac; (split; [done|]; by intros _ _ ?). Qed.
Hint Resolve ValidationComplete_keeps_health Disconnect_keeps_health : engine.
Lemma run_op_keeps_health o : KH (run_op o).
Proof.
  destruct o; simpl; unfold RegisterEventHandler, ConnectWithClient, HandleIDConflict, setErrMsg,
    refresh_turn, RefreshEngine, CreateContainer, RemoveContainer, StartContainer, RenameContainer,
    TagImage, RemoveImage, CreateNetwork, RemoveNetwork, NetworkDisconnect, CreateVolume,
    RemoveVolume, handler, react; mrel_tac.
Qed.
End keeps_health.

(** ** The well-formedness of what is stored

    [minv I m Q]: [m] keeps the invariant [I] and its result satisfies [Q]. *)
Definition minv {W A} (I : Engine → Prop) (m : M W A) (Q : A → Prop) : Prop :=
  ∀ st, I (st_engine st) → I (st_engine (m st).2) ∧ Q (m st).1.

Section minv.
Context {W : Type} (I : Engine → Prop).
Lemma minv_bind {A B} (m : M W A) (f : A → M W B) Q R :
  minv I m Q → (∀ a, Q a → minv I (f a) R) → minv I (m ≫= f) R.
Proof.
  intros Hm Hf st Hst. unfold mbind, M_bind. destruct (Hm st Hst) as [H1 H2].
  destruct (m st) as [a st']. by apply (Hf a H2 st').
Qed.
Lemma minv_ret {A} (a : A) (Q : A → Prop) : Q a → minv (W := W) I (mret a) Q.
Proof. by intros HQ st Hst. Qed.
Lemma minv_ret_True {A} (a : A) : minv (W := W) I (mret a) (λ _, True).
Proof. by apply minv_ret. Qed.
(** What [m], its result dropped, keeps, [m] keeps. *)
Lemma minv_drop {A} (m : M W A) : minv (W := W) I (m ;; mret tt) (λ _, True) → minv I m (λ _, True).
Proof.
  intros Hm st Hst. specialize (Hm st Hst). unfold mbind, M_bind in Hm. by destruct (m st).
Qed.
Lemma minv_get : minv (W := W) I get_engine I.
Proof. by intros st Hst. Qed.
Lemma minv_modify f : (∀ e, I e → I (f e)) → minv (W := W) I (modify f) (λ _, True).
Proof. intros Hf st Hst. split; [by apply Hf|done]. Qed.
Lemma minv_section {A} (f : Engine → Engine * A) (Q : A → Prop) :
  (∀ e, I e → I (f e).1 ∧ Q (f e).2) → minv (W := W) I (section f) Q.
Proof. intros Hf st Hst. unfold section. specialize (Hf _ Hst). by destruct (f (st_engine st)). Qed.
Lemma minv_call {A} (f : W → W * (A + error)) : minv I (call f) (λ _, True).
Proof.
  intros st Hst. unfold call. destruct (e_connected _); [|done]. by destruct (f (st_world st)).
Qed.
Lemma minv_mrel {A} R (m : M W A) : (∀ e e', R e e' → I e → I e') → mrel R m → minv I m (λ _, True).
Proof. intros HR Hm st Hst. split; [|done]. eapply HR; [apply Hm|done]. Qed.
End minv.

(** A container is stored under its ID, with a configuration, and points back to
    its engine, like the images, networks and volumes. *)
Definition good_container (s : ptr) (id : string) (c : Container) : Prop :=
  ctr_ID c = id ∧ ctr_Engine c = s ∧ is_Some (ctr_Config c).
Definition good_map (s : ptr) (m : gmap string Container) : Prop := map_Forall (good_container s) m.
Record engine_wf (s : ptr) (e : Engine) : Prop := {
  wf_self : e_self e = s;
  wf_containers : good_map s (e_containers e);
  wf_images : Forall (λ i, img_Engine i = s) (e_images e);
  wf_networks : map_Forall (λ _ n, net_Engine n = s) (e_networks e);
  wf_volumes : map_Forall (λ name v, vol_Name v = name ∧ vol_Engine v = s) (e_volumes e)
}.

Create HintDb wf.

(** Nothing that is stored changes. *)
Definition same_store (e e' : Engine) : Prop :=
  e_self e' = e_self e ∧ e_containers e' = e_containers e ∧ e_images e' = e_images e ∧
  e_networks e' = e_networks e ∧ e_volumes e' = e_volumes e.
#[export] Instance same_store_preorder : PreOrder same_store.
Proof. split; [by intros e|]. unfold same_store. intros e1 e2 e3; naive_solver congruence. Qed.

Lemma engine_wf_same s e e' : same_store e e' → engine_wf s e → engine_wf s e'.
Proof.
  intros (H1&H2&H3&H4&H5) [W1 W2 W3 W4 W5]. split; congruence || (rewrite ?H2, ?H3, ?H4, ?H5; done).
Qed.

Lemma engine_wf_set_containers s e m :
  engine_wf s e → good_map s m → engine_wf s (set_containers m e).
Proof. by intros [] ?. Qed.
Lemma engine_wf_set_networks s e m :
  engine_wf s e → map_Forall (λ _ n, net_Engine n = s) m → engine_wf s (set_networks m e).
Proof. by intros [] ?. Qed.
Lemma engine_wf_set_volumes s e m :
  engine_wf s e → map_Forall (λ name v, vol_Name v = name ∧ vol_Engine v = s) m →
  engine_wf s (set_volumes m e).
Proof. by intros [] ?. Qed.

Lemma good_map_insert s m id c : good_map s m → good_container s id c → good_map s (<[id := c]> m).
Proof. intros Hm Hc. by apply map_Forall_insert_2. Qed.
Lemma good_map_delete s m id : good_map s m → good_map s (delete id m).
Proof. intros Hm. by apply map_Forall_delete. Qed.
Lemma good_map_empty s : good_map s ∅.
Proof. apply map_Forall_empty. Qed.

Lemma networks_of_wf s e (l : list NetworkResource) (m : gmap string Network) :
  e_self e = s → map_Forall (λ _ n, net_Engine n = s) m →
  map_Forall (λ _ n, net_Engine n = s) (foldl (λ m n, <[nr_ID n := network_of e n]> m) m l).
Proof.
  intros Hs. revert m. induction l as [|n l IH]; intros m Hm; simpl; [done|].
  apply IH. by apply map_Forall_insert_2.
Qed.
Lemma volumes_of_wf s e (l : list VolumeInfo) (m : gmap string Volume) :
  e_self e = s → map_Forall (λ name v, vol_Name v = name ∧ vol_Engine v = s) m →
  map_Forall (λ name v, vol_Name v = name ∧ vol_Engine v = s)
    (foldl (λ m v, <[vi_Name v := volume_of e v]> m) m l).
Proof.
  intros Hs. revert m. induction l as [|v l IH]; intros m Hm; simpl; [done|].
  apply IH. by apply map_Forall_insert_2.
Qed.

#[export] Hint Resolve engine_wf_set_containers engine_wf_set_networks engine_wf_set_volumes
  good_map_insert good_map_delete good_map_empty wf_containers wf_self networks_of_wf
  volumes_of_wf map_Forall_empty : wf.
#[export] Hint Extern 4 (same_store _ _) => (by repeat split) : engine.

(** Step through a method, keeping what is stored well-formed. *)
Ltac minv_tac :=
  repeat (first
    [ progress intros
    | solve [eauto 4 with wf]
    | eapply minv_bind; [| ]
    | apply minv_ret_True
    | apply minv_modify
    | apply minv_section
    | apply minv_call
    | case_match ]).

Section keeps_wf.
Context {W : Type} `{DockerAPI W} `{GoJson} `{MapRange} (s : ptr).
Notation WF m := (minv (W := W) (engine_wf s) m (λ _, True)).
Lemma wf_of_mrel {A} (m : M W A) : mrel same_store m → WF m.
Proof. apply minv_mrel. apply engine_wf_same. Qed.
Lemma apply_specs_same now info e : same_store e (apply_specs now info e).1.
Proof.
  unfold apply_specs. case_match; [by repeat split|].
  destruct (spec_labels _ _) as [labels bad]. by destruct bad.
Qed.
Lemma CheckConnectionErr_same err : mrel (W := W) same_store (CheckConnectionErr err).
Proof.
  apply CheckConnectionErr_mrel. intros t e. unfold checked.
  repeat case_match; by repeat split.
Qed.
Hint Resolve apply_specs_same CheckConnectionErr_same : engine.
Lemma updateSpecs_same : mrel (W := W) same_store updateSpecs.
Proof. unfold updateSpecs, updateClientVersionFromServer. mrel_tac. Qed.
Lemma Disconnect_same : mrel (W := W) same_store Disconnect.
Proof. unfold Disconnect, setState. mrel_tac. Qed.
Lemma CheckConnectionErr_wf err : WF (CheckConnectionErr err).
Proof. apply wf_of_mrel, CheckConnectionErr_same. Qed.
Lemma updateSpecs_wf : WF updateSpecs.
Proof. apply wf_of_mrel, updateSpecs_same. Qed.
Lemma emitEvent_wf ev : WF (emitEvent ev).
Proof. apply wf_of_mrel, mrel_emitEvent, _. Qed.
Hint Resolve CheckConnectionErr_wf updateSpecs_wf emitEvent_wf minv_get : wf.
Lemma updateContainer_wf c containers full :
  good_map s containers →
  minv (W := W) (engine_wf s) (updateContainer c containers full)
    (λ r, match r with inl m => good_map s m | inr _ => True end).
Proof.
  intros Hm. unfold updateContainer. eapply minv_bind; [apply minv_get|]. intros e He.
  assert (∀ cfg info, is_Some cfg →
    ∀ (k : Container), ctr_Engine k = s →
    minv (W := W) (engine_wf s)
      (section (λ e', (match e_containers e !! lc_ID (adjust_created e c) with
        | Some _ => set_containers (<[lc_ID (adjust_created e c) :=
            {| ctr_Container := adjust_created e c; ctr_Config := cfg; ctr_Info := info;
               ctr_Engine := ctr_Engine k |}]> (e_containers e')) e'
        | None => e'
        end, inl (<[lc_ID (adjust_created e c) :=
          {| ctr_Container := adjust_created e c; ctr_Config := cfg; ctr_Info := info;
             ctr_Engine := ctr_Engine k |}]> containers))))
      (λ r : gmap string Container + error, match r with inl m => good_map s m | inr _ => True end))
    as Hstore.
  { intros cfg info Hcfg k Hk. apply minv_section. intros e' He'.
    split; [|by apply good_map_insert].
    simpl. case_match; [|done]. apply engine_wf_set_containers; [done|].
    apply good_map_insert; [by apply wf_containers|done]. }
  destruct (known_container e c full) as [k full'] eqn:Hk.
  assert (ctr_Engine k = s ∧ (full' = true ∨ is_Some (ctr_Config k))) as [Hke Hkc].
  { unfold known_container in Hk. destruct (e_containers e !! lc_ID c) as [k'|] eqn:Hl.
    - injection Hk as <- <-. destruct (wf_containers _ _ He _ _ Hl) as (_&?&?). auto.
    - injection Hk as <- <-. simpl. split; [apply (wf_self _ _ He)|by left]. }
  destruct full'.
  - eapply minv_bind; [apply minv_call|]. intros info _.
    eapply minv_bind; [apply CheckConnectionErr_wf|]. intros _ _.
    destruct info as [info|err]; [|by apply minv_ret]. by apply Hstore.
  - destruct Hkc as [[=]|Hkc]. by apply Hstore.
Qed.
Lemma update_all_wf l merged full :
  good_map s merged → minv (W := W) (engine_wf s) (update_all l merged full) (good_map s).
Proof.
  revert merged. induction l as [|c l IH]; intros merged Hm; simpl; [by apply minv_ret|].
  eapply minv_bind; [by apply updateContainer_wf|]. intros [m|err] Hr; by apply IH.
Qed.
Lemma RefreshContainers_wf full : WF (RefreshContainers full).
Proof.
  unfold RefreshContainers. eapply minv_bind; [apply minv_call|]. intros r _.
  eapply minv_bind; [apply CheckConnectionErr_wf|]. intros _ _. destruct r as [l|err]; [|minv_tac].
  eapply minv_bind; [apply update_all_wf, good_map_empty|]. intros m Hm. minv_tac.
Qed.
Hint Resolve RefreshContainers_wf : wf.
Lemma refreshContainer_wf ID full : WF (refreshContainer ID full).
Proof.
  unfold refreshContainer. eapply minv_bind; [apply minv_call|]. intros r _.
  eapply minv_bind; [apply CheckConnectionErr_wf|]. intros _ _.
  destruct r as [[|c [|c' l]]|err]; [minv_tac| |minv_tac|minv_tac].
  eapply minv_bind; [apply minv_get|]. intros e He.
  eapply minv_bind; [apply updateContainer_wf, (wf_containers _ _ He)|].
  intros [m|err] Hr; minv_tac.
Qed.
Lemma RefreshImages_wf : WF RefreshImages.
Proof.
  unfold RefreshImages. minv_tac. match goal with H : engine_wf _ _ |- _ => destruct H end.
  split; try done. simpl. by apply Forall_fmap, Forall_true.
Qed.
Lemma RefreshNetworks_wf : WF RefreshNetworks.
Proof.
  unfold RefreshNetworks. minv_tac. apply engine_wf_set_networks; [done|].
  apply networks_of_wf; [by apply wf_self|apply map_Forall_empty].
Qed.
Lemma RefreshVolumes_wf : WF RefreshVolumes.
Proof.
  unfold RefreshVolumes. minv_tac. apply engine_wf_set_volumes; [done|].
  apply volumes_of_wf; [by apply wf_self|apply map_Forall_empty].
Qed.
Lemma refreshNetwork_wf ID : WF (refreshNetwork ID).
Proof.
  unfold refreshNetwork. minv_tac.
  - apply engine_wf_set_networks; [done|]. apply map_Forall_insert_2; [|by apply wf_networks].
    by apply wf_self.
  - apply engine_wf_set_networks; [done|]. apply map_Forall_delete. by eapply wf_networks.
Qed.
Lemma refreshVolume_wf ID : WF (refreshVolume ID).
Proof.
  unfold refreshVolume. minv_tac.
  - apply engine_wf_set_volumes; [done|]. apply map_Forall_insert_2; [|by apply wf_volumes].
    split; [done|]. by apply wf_self.
  - apply engine_wf_set_volumes; [done|]. apply map_Forall_delete. by eapply wf_volumes.
Qed.
Hint Resolve refreshContainer_wf RefreshImages_wf RefreshNetworks_wf RefreshVolumes_wf
  refreshNetwork_wf refreshVolume_wf : wf.
Lemma Pull_wf image auth : WF (Pull image auth).
Proof. unfold Pull. minv_tac. Qed.
Hint Resolve Pull_wf : wf.
Lemma DeleteNetwork_wf id e : engine_wf s e → engine_wf s (DeleteNetwork id e).
Proof.
  intros He. apply engine_wf_set_networks; [done|]. apply map_Forall_delete. by apply wf_networks.
Qed.
Lemma AddNetwork_wf n e : engine_wf s e → engine_wf s (AddNetwork n e).
Proof.
  intros He. apply engine_wf_set_networks; [done|].
  apply map_Forall_insert_2; [by apply wf_self|by apply wf_networks].
Qed.
Hint Resolve DeleteNetwork_wf AddNetwork_wf : wf.
Lemma ValidationComplete_same e : same_store e (ValidationComplete e).
Proof. unfold ValidationComplete. case_bool_decide; by repeat split. Qed.
Lemma simple_ops_same o :
  match o with
  | op_RegisterEventHandler | op_Disconnect | op_ValidationComplete | op_HandleIDConflict _ =>
      mrel (W := W) same_store (run_op o)
  | _ => True
  end.
Proof.
  pose proof ValidationComplete_same. pose proof Disconnect_same.
  destruct o; try done; unfold run_op, RegisterEventHandler, HandleIDConflict, setErrMsg; mrel_tac.
Qed.
Lemma run_op_wf o : WF (run_op o).
Proof.
  pose proof (simple_ops_same o) as Hs.
  destruct o; try (by apply wf_of_mrel); clear Hs; simpl; unfold ConnectWithClient,
    refresh_turn, RefreshEngine, CreateContainer, RemoveContainer, StartContainer, RenameContainer,
    TagImage, RemoveImage, CreateNetwork, RemoveNetwork, NetworkDisconnect, CreateVolume,
    RemoveVolume, handler, react; minv_tac;
    try (eapply engine_wf_same; [|done]; by repeat split).
  apply engine_wf_set_volumes; [done|]. apply map_Forall_delete. by apply wf_volumes.
Qed.
End keeps_wf.

(** ** What every reachable engine satisfies *)

Section reachable.
Context {W : Type} `{DockerAPI W} `{GoJson} `{MapRange}.
Implicit Types st : EngineSt W.
Lemma steps_mrel (R : Engine → Engine → Prop) `{!PreOrder R} st st' :
  (∀ o, mrel (W := W) R (run_op o)) → engine_steps st st' → R (st_engine st) (st_engine st').
Proof.
  intros HR. induction 1 as [st|st o st' _ IH]; [reflexivity|]. etrans; [apply (HR o)|exact IH].
Qed.
Lemma steps_minv I st st' :
  (∀ o, minv (W := W) I (run_op o) (λ _, True)) → engine_steps st st' →
  I (st_engine st) → I (st_engine st').
Proof. intros HI. induction 1 as [st|st o st' _ IH]; [done|]. intros Hst. apply IH. by apply HI. Qed.
Lemma NewEngine_wf self addr percent retry now : engine_wf self (NewEngine self addr percent retry now).
Proof. split; try done; simpl; (apply map_Forall_empty || apply good_map_empty). Qed.
(** The configuration of a container that has one. *)
Definition config_of (c : Container) : ContainerConfig :=
  default zero_ContainerConfig (ctr_Config c).
Lemma config_sum_Ret (f : ContainerConfig → Z) s e :
  engine_wf s e →
  omapM (λ c, cfg ← deref (ctr_Config c); Ret (f cfg)) (Containers e)
  = Ret ((f ∘ config_of) <$> Containers e).
Proof.
  intros He. apply omapM_Ret. intros c Hc. apply list_elem_of_fmap in Hc as ([id c'] & -> & Hc).
  apply elem_of_range_map, (wf_containers _ _ He) in Hc as (_ & _ & [cfg Hcfg]).
  unfold config_of, compose. simpl. by rewrite Hcfg.
Qed.
Lemma Used_returns s e : engine_wf s e → returns (UsedMemory e) ∧ returns (UsedCpus e).
Proof.
  intros He. unfold UsedMemory, UsedCpus.
  rewrite (config_sum_Ret (λ cfg, hc_Memory (cc_HostConfig cfg)) s e He),
    (config_sum_Ret (λ cfg, hc_CPUShares (cc_HostConfig cfg)) s e He).
  split; by eexists.
Qed.
(** C5: whatever sequence of refreshes, events, failures, validations and
    commands an engine goes through, it is healthy only while its failure counter
    is below the threshold, so its health degree is then positive. *)
Theorem engine_health_reachable self addr percent retry now w evs st :
  0 < retry < 2^56 →
  engine_steps (mkSt w (NewEngine self addr percent retry now) evs) st →
  let e := st_engine st in
  e_FailureRetry e = retry ∧
  (IsHealthy e = true → 0 ≤ e_failureCount e < retry ∧ ∃ h, HealthIndicator e = Ret h ∧ 0 < h ≤ 100) ∧
  (IsHealthy e = false → HealthIndicator e = Ret 0).
Proof.
  intros Hretry Hsteps e.
  destruct (steps_mrel keeps_health _ _ run_op_keeps_health Hsteps) as [HR Hok].
  simpl in HR, Hok. fold e in HR, Hok. split; [done|].
  assert (health_ok e) as Hh by (apply Hok; [lia|done]). unfold IsHealthy. split; intros Hs.
  - apply bool_decide_eq_true in Hs. specialize (Hh Hs). rewrite HR in Hh. split; [done|].
    unfold HealthIndicator. rewrite bool_decide_eq_false_2 by auto. simpl.
    destruct (e_FailureRetry e <=? e_failureCount e) eqn:E; [apply Z.leb_le in E; lia|].
    unfold go_div. rewrite decide_False by lia. simpl. eexists. split; [done|].
    rewrite HR. rewrite (wrap64_id (_ * 100)) by (unfold int64_range; lia).
    rewrite Z.quot_div_nonneg by lia.
    assert (0 ≤ e_failureCount e * 100 / retry < 100).
    { split; [apply Z.div_pos; lia|]. apply Z.div_lt_upper_bound; lia. }
    rewrite !wrap64_id; unfold int64_range; [lia|lia|rewrite wrap64_id; unfold int64_range; lia].
  - apply bool_decide_eq_false in Hs. unfold HealthIndicator. by rewrite bool_decide_eq_true_2.
Qed.
End reachable.

(** ** A concrete history *)

(** The engine connects to the quiet daemon, then loses it. *)
Section concrete.
Existing Instances json_strings canonical_range.
Definition quiet_history : EngineSt unit :=
  let st := mkSt tt (NewEngine 0 "a:1" 5 3 0) [] in
  let st := (@run_op unit (quiet_daemon quiet_info) _ _ op_Connect st).2 in
  (@run_op unit (quiet_daemon quiet_info) _ _ op_ValidationComplete st).2.
Lemma quiet_history_steps :
  @engine_steps unit (quiet_daemon quiet_info) _ _ (mkSt tt (NewEngine 0 "a:1" 5 3 0) []) quiet_history.
Proof. do 2 eapply steps_op. apply steps_refl. Qed.
Lemma engine_health_reachable_witness :
  IsHealthy (st_engine quiet_history) = true ∧
  ∃ h, HealthIndicator (st_engine quiet_history) = Ret h ∧ 0 < h ≤ 100.
Proof.
  split; [by vm_compute|].
  destruct (@engine_health_reachable unit (quiet_daemon quiet_info) _ _ 0%nat "a:1" 5 3 0 tt [] quiet_history)
    as (_ & Hh & _); [done|apply quiet_history_steps|].
  apply Hh. by vm_compute.
Defined.
End concrete.
