(* ===== verification/NopClient.v ===== *)
(** * The client of an engine that is gone ([api/nopclient/nop.go])

    The client that takes the place of the daemon's when an engine is disconnected: every
    method is an error.  The engines' operations call their daemon through [call], which
    looks whether the engine is connected; here is why that is the same. *)
From S2P Require Import Prelude GoStrings Json Config Container Inventory EngineState.

Section nop.
Context {W : Type}.

Definition nop_Info : W → W * (SysInfo + error) := λ w, (w, inr errNoEngine).
Definition nop_ServerVersion : W → W * (string + error) := λ w, (w, inr errNoEngine).
Definition nop_ContainerList : option string → W → W * (list ListedContainer + error) := λ _ w, (w, inr errNoEngine).
Definition nop_ContainerInspect : string → W → W * (Inspect + error) := λ _ w, (w, inr errNoEngine).
Definition nop_ContainerCreate : ContainerConfig → string → W → W * (string + error) := λ _ _ w, (w, inr errNoEngine).
Definition nop_ContainerRemove : string → bool → bool → W → W * (unit + error) := λ _ _ _ w, (w, inr errNoEngine).
Definition nop_ContainerStart : string → W → W * (unit + error) := λ _ w, (w, inr errNoEngine).
Definition nop_ContainerStop : string → Z → W → W * (unit + error) := λ _ _ w, (w, inr errNoEngine).
Definition nop_ContainerRename : string → string → W → W * (unit + error) := λ _ _ w, (w, inr errNoEngine).
Definition nop_ImageList : W → W * (list ImageSummary + error) := λ w, (w, inr errNoEngine).
Definition nop_ImageRemove : string → bool → W → W * (list string + error) := λ _ _ w, (w, inr errNoEngine).
Definition nop_ImagePull : string → string → W → W * ((list (gmap string string) * option error) + error) := λ _ _ w, (w, inr errNoEngine).
Definition nop_ImageTag : string → string → W → W * (unit + error) := λ _ _ w, (w, inr errNoEngine).
Definition nop_ImageLoad : string → W → W * ((list (gmap string string) * option error) + error) := λ _ w, (w, inr errNoEngine).
Definition nop_ImageImport : string → string → string → string → W → W * (unit + error) := λ _ _ _ _ w, (w, inr errNoEngine).
Definition nop_ImageBuild : ImageBuildOptions → string → W → W * (string + error) := λ _ _ w, (w, inr errNoEngine).
Definition nop_NetworkList : W → W * (list NetworkResource + error) := λ w, (w, inr errNoEngine).
Definition nop_NetworkInspect : string → W → W * (NetworkResource + error) := λ _ w, (w, inr errNoEngine).
Definition nop_NetworkCreate : string → W → W * (string + error) := λ _ w, (w, inr errNoEngine).
Definition nop_NetworkRemove : string → W → W * (unit + error) := λ _ w, (w, inr errNoEngine).
Definition nop_NetworkDisconnect : string → string → bool → W → W * (unit + error) := λ _ _ _ w, (w, inr errNoEngine).
Definition nop_NetworkConnect : string → string → EndpointSettings → W → W * (unit + error) := λ _ _ _ w, (w, inr errNoEngine).
Definition nop_VolumeList : W → W * (list VolumeInfo + error) := λ w, (w, inr errNoEngine).
Definition nop_VolumeInspect : string → W → W * (VolumeInfo + error) := λ _ w, (w, inr errNoEngine).
Definition nop_VolumeCreate : string → string → W → W * (VolumeInfo + error) := λ _ _ w, (w, inr errNoEngine).
Definition nop_VolumeRemove : string → W → W * (unit + error) := λ _ w, (w, inr errNoEngine).

(** The methods that no operation of an engine calls; the types of the Docker client that the
    program does not look at are left open. *)
Definition nop_CheckpointCreate {CheckpointCreateOptions : Type} : string → CheckpointCreateOptions → W → W * (unit + error) := λ _ _ w, (w, inr errNoEngine).
Definition nop_CheckpointDelete : string → string → W → W * (unit + error) := λ _ _ w, (w, inr errNoEngine).
Definition nop_CheckpointList {Checkpoint : Type} : string → W → W * (list Checkpoint + error) := λ _ w, (w, inr errNoEngine).
Definition nop_ContainerAttach {ContainerAttachOptions HijackedResponse : Type} : string → ContainerAttachOptions → W → W * (HijackedResponse + error) := λ _ _ w, (w, inr errNoEngine).
Definition nop_ContainerCommit {ContainerCommitOptions IDResponse : Type} : string → ContainerCommitOptions → W → W * (IDResponse + error) := λ _ _ w, (w, inr errNoEngine).
Definition nop_ContainerDiff {ContainerChange : Type} : string → W → W * (list ContainerChange + error) := λ _ w, (w, inr errNoEngine).
Definition nop_ContainerExecAttach {ExecConfig HijackedResponse : Type} : string → ExecConfig → W → W * (HijackedResponse + error) := λ _ _ w, (w, inr errNoEngine).
Definition nop_ContainerExecCreate {ExecConfig IDResponse : Type} : string → ExecConfig → W → W * (IDResponse + error) := λ _ _ w, (w, inr errNoEngine).
Definition nop_ContainerExecInspect {ContainerExecInspect : Type} : string → W → W * (ContainerExecInspect + error) := λ _ w, (w, inr errNoEngine).
Definition nop_ContainerExecResize {ResizeOptions : Type} : string → ResizeOptions → W → W * (unit + error) := λ _ _ w, (w, inr errNoEngine).
Definition nop_ContainerExecStart {ExecStartCheck : Type} : string → ExecStartCheck → W → W * (unit + error) := λ _ _ w, (w, inr errNoEngine).
Definition nop_ContainerExport {ReadCloser : Type} : string → W → W * (ReadCloser + error) := λ _ w, (w, inr errNoEngine).
Definition nop_ContainerInspectWithRaw {ContainerJSON : Type} : string → bool → W → W * ((ContainerJSON * string) + error) := λ _ _ w, (w, inr errNoEngine).
Definition nop_ContainerKill : string → string → W → W * (unit + error) := λ _ _ w, (w, inr errNoEngine).
Definition nop_ContainerLogs {ContainerLogsOptions ReadCloser : Type} : string → ContainerLogsOptions → W → W * (ReadCloser + error) := λ _ _ w, (w, inr errNoEngine).
Definition nop_ContainerPause : string → W → W * (unit + error) := λ _ w, (w, inr errNoEngine).
Definition nop_ContainerResize {ResizeOptions : Type} : string → ResizeOptions → W → W * (unit + error) := λ _ _ w, (w, inr errNoEngine).
Definition nop_ContainerRestart {Duration : Type} : string → Duration → W → W * (unit + error) := λ _ _ w, (w, inr errNoEngine).
Definition nop_ContainerStatPath {ContainerPathStat : Type} : string → string → W → W * (ContainerPathStat + error) := λ _ _ w, (w, inr errNoEngine).
Definition nop_ContainerStats {ContainerStats : Type} : string → bool → W → W * (ContainerStats + error) := λ _ _ w, (w, inr errNoEngine).
Definition nop_ContainerTop {ContainerProcessList : Type} : string → list string → W → W * (ContainerProcessList + error) := λ _ _ w, (w, inr errNoEngine).
Definition nop_ContainerUnpause : string → W → W * (unit + error) := λ _ w, (w, inr errNoEngine).
Definition nop_ContainerUpdate {UpdateConfig ContainerUpdateOKBody : Type} : string → UpdateConfig → W → W * (ContainerUpdateOKBody + error) := λ _ _ w, (w, inr errNoEngine).
Definition nop_ContainerWait : string → W → W * (Z + error) := λ _ w, (w, inr errNoEngine).
Definition nop_CopyFromContainer {ReadCloser ContainerPathStat : Type} : string → string → W → W * ((ReadCloser * ContainerPathStat) + error) := λ _ _ w, (w, inr errNoEngine).
Definition nop_CopyToContainer {Reader CopyToContainerOptions : Type} : string → string → Reader → CopyToContainerOptions → W → W * (unit + error) := λ _ _ _ _ w, (w, inr errNoEngine).
Definition nop_ContainersPrune {ContainersPruneConfig ContainersPruneReport : Type} : ContainersPruneConfig → W → W * (ContainersPruneReport + error) := λ _ w, (w, inr errNoEngine).
Definition nop_ImageCreate {ImageCreateOptions ReadCloser : Type} : string → ImageCreateOptions → W → W * (ReadCloser + error) := λ _ _ w, (w, inr errNoEngine).
Definition nop_ImageHistory {ImageHistory : Type} : string → W → W * (list ImageHistory + error) := λ _ w, (w, inr errNoEngine).
Definition nop_ImageInspectWithRaw {ImageInspect : Type} : string → W → W * ((ImageInspect * string) + error) := λ _ w, (w, inr errNoEngine).
Definition nop_ImagePush {ImagePushOptions ReadCloser : Type} : string → ImagePushOptions → W → W * (ReadCloser + error) := λ _ _ w, (w, inr errNoEngine).
Definition nop_ImageSearch {ImageSearchOptions SearchResult : Type} : string → ImageSearchOptions → W → W * (list SearchResult + error) := λ _ _ w, (w, inr errNoEngine).
Definition nop_ImageSave {ReadCloser : Type} : list string → W → W * (ReadCloser + error) := λ _ w, (w, inr errNoEngine).
Definition nop_ImagesPrune {ImagesPruneConfig ImagesPruneReport : Type} : ImagesPruneConfig → W → W * (ImagesPruneReport + error) := λ _ w, (w, inr errNoEngine).
Definition nop_NetworkInspectWithRaw {NetworkResource : Type} : string → W → W * ((NetworkResource * string) + error) := λ _ w, (w, inr errNoEngine).
Definition nop_NetworksPrune {NetworksPruneConfig NetworksPruneReport : Type} : NetworksPruneConfig → W → W * (NetworksPruneReport + error) := λ _ w, (w, inr errNoEngine).
Definition nop_RegistryLogin {AuthConfig AuthenticateOKBody : Type} : AuthConfig → W → W * (AuthenticateOKBody + error) := λ _ w, (w, inr errNoEngine).
Definition nop_DiskUsage {DiskUsage : Type} : W → W * (DiskUsage + error) := λ w, (w, inr errNoEngine).
Definition nop_Ping {Ping : Type} : W → W * (Ping + error) := λ w, (w, inr errNoEngine).
Definition nop_VolumeInspectWithRaw {Volume : Type} : string → W → W * ((Volume * string) + error) := λ _ w, (w, inr errNoEngine).
Definition nop_VolumesPrune {VolumesPruneConfig VolumesPruneReport : Type} : VolumesPruneConfig → W → W * (VolumesPruneReport + error) := λ _ w, (w, inr errNoEngine).
Definition nop_ClientVersion : string := "".
Definition nop_UpdateClientVersion : string → W → W := λ _ w, w.

(** [NewNopClient()]; the clock and the times are the host's. *)
Definition NopClient (host : DockerAPI W) : DockerAPI W := {|
  clock := clock; ParseTime := ParseTime; ShiftTime := ShiftTime;
  api_Info := nop_Info;
  api_ServerVersion := nop_ServerVersion;
  api_ContainerList := nop_ContainerList;
  api_ContainerInspect := nop_ContainerInspect;
  api_ContainerCreate := nop_ContainerCreate;
  api_ContainerRemove := nop_ContainerRemove;
  api_ContainerStart := nop_ContainerStart;
  api_ContainerStop := nop_ContainerStop;
  api_ContainerRename := nop_ContainerRename;
  api_ImageList := nop_ImageList;
  api_ImageRemove := nop_ImageRemove;
  api_ImagePull := nop_ImagePull;
  api_ImageTag := nop_ImageTag;
  api_ImageLoad := nop_ImageLoad;
  api_ImageImport := nop_ImageImport;
  api_ImageBuild := nop_ImageBuild;
  api_NetworkList := nop_NetworkList;
  api_NetworkInspect := nop_NetworkInspect;
  api_NetworkCreate := nop_NetworkCreate;
  api_NetworkRemove := nop_NetworkRemove;
  api_NetworkDisconnect := nop_NetworkDisconnect;
  api_NetworkConnect := nop_NetworkConnect;
  api_VolumeList := nop_VolumeList;
  api_VolumeInspect := nop_VolumeInspect;
  api_VolumeCreate := nop_VolumeCreate;
  api_VolumeRemove := nop_VolumeRemove |}.

(** [e.apiClient]: what [ConnectWithClient] and [Disconnect] leave there. *)
Definition apiClient (daemon : DockerAPI W) (e : Engine) : DockerAPI W :=
  if e_connected e then daemon else NopClient daemon.
(** A call of a method of a client. *)
Definition direct {A} (f : W → W * (A + error)) : M W (A + error) := λ st,
  let '(w, r) := f (st_world st) in (r, mkSt w (st_engine st) (st_events st)).

Lemma call_connected {A} (f : W → W * (A + error)) st :
  e_connected (st_engine st) = true → call f st = direct f st.
Proof. unfold call. by intros ->. Qed.
Lemma call_disconnected {A} (f : W → W * (A + error)) st :
  e_connected (st_engine st) = false → call f st = direct (λ w, (w, inr errNoEngine)) st.
Proof. unfold call. intros ->. by destruct st. Qed.

(** Each call of an operation of an engine is that of the client that the engine has: the
    daemon's, or the one of this file. *)
Theorem call_apiClient (daemon : DockerAPI W) st :
  let client := apiClient daemon (st_engine st) in
  call (@api_Info W daemon) st = direct (@api_Info W client) st ∧
  call (@api_ServerVersion W daemon) st = direct (@api_ServerVersion W client) st ∧
  (∀ x0, call (@api_ContainerList W daemon x0) st = direct (@api_ContainerList W client x0) st) ∧
  (∀ x0, call (@api_ContainerInspect W daemon x0) st = direct (@api_ContainerInspect W client x0) st) ∧
  (∀ x0 x1, call (@api_ContainerCreate W daemon x0 x1) st = direct (@api_ContainerCreate W client x0 x1) st) ∧
  (∀ x0 x1 x2, call (@api_ContainerRemove W daemon x0 x1 x2) st = direct (@api_ContainerRemove W client x0 x1 x2) st) ∧
  (∀ x0, call (@api_ContainerStart W daemon x0) st = direct (@api_ContainerStart W client x0) st) ∧
  (∀ x0 x1, call (@api_ContainerStop W daemon x0 x1) st = direct (@api_ContainerStop W client x0 x1) st) ∧
  (∀ x0 x1, call (@api_ContainerRename W daemon x0 x1) st = direct (@api_ContainerRename W client x0 x1) st) ∧
  call (@api_ImageList W daemon) st = direct (@api_ImageList W client) st ∧
  (∀ x0 x1, call (@api_ImageRemove W daemon x0 x1) st = direct (@api_ImageRemove W client x0 x1) st) ∧
  (∀ x0 x1, call (@api_ImagePull W daemon x0 x1) st = direct (@api_ImagePull W client x0 x1) st) ∧
  (∀ x0 x1, call (@api_ImageTag W daemon x0 x1) st = direct (@api_ImageTag W client x0 x1) st) ∧
  (∀ x0, call (@api_ImageLoad W daemon x0) st = direct (@api_ImageLoad W client x0) st) ∧
  (∀ x0 x1 x2 x3, call (@api_ImageImport W daemon x0 x1 x2 x3) st = direct (@api_ImageImport W client x0 x1 x2 x3) st) ∧
  (∀ x0 x1, call (@api_ImageBuild W daemon x0 x1) st = direct (@api_ImageBuild W client x0 x1) st) ∧
  call (@api_NetworkList W daemon) st = direct (@api_NetworkList W client) st ∧
  (∀ x0, call (@api_NetworkInspect W daemon x0) st = direct (@api_NetworkInspect W client x0) st) ∧
  (∀ x0, call (@api_NetworkCreate W daemon x0) st = direct (@api_NetworkCreate W client x0) st) ∧
  (∀ x0, call (@api_NetworkRemove W daemon x0) st = direct (@api_NetworkRemove W client x0) st) ∧
  (∀ x0 x1 x2, call (@api_NetworkDisconnect W daemon x0 x1 x2) st = direct (@api_NetworkDisconnect W client x0 x1 x2) st) ∧
  (∀ x0 x1 x2, call (@api_NetworkConnect W daemon x0 x1 x2) st = direct (@api_NetworkConnect W client x0 x1 x2) st) ∧
  call (@api_VolumeList W daemon) st = direct (@api_VolumeList W client) st ∧
  (∀ x0, call (@api_VolumeInspect W daemon x0) st = direct (@api_VolumeInspect W client x0) st) ∧
  (∀ x0 x1, call (@api_VolumeCreate W daemon x0 x1) st = direct (@api_VolumeCreate W client x0 x1) st) ∧
  (∀ x0, call (@api_VolumeRemove W daemon x0) st = direct (@api_VolumeRemove W client x0) st).
Proof.
  unfold apiClient. destruct (e_connected (st_engine st)) eqn:Hc; split_and!; intros;
    first [by apply call_connected | by apply call_disconnected].
Qed.
End nop.

(** ** [Events] *)

(** Where a call of [Events] is: before each of its two sends, on channels that it has just
    made without a buffer, and at its end.  [receivers] are the goroutines that wait on each
    channel: a send goes on with one of them only. *)
Inductive events_at := at_message | at_error | at_return.
Definition nop_Events (receivers : nat * nat) (at_ : events_at) : option events_at :=
  match at_, receivers with
  | at_message, (S _, _) => Some at_error
  | at_error, (_, S _) => Some at_return
  | _, _ => None
  end.
(** Nobody else knows the channels before [Events] returns: it never does. *)
Lemma nop_Events_blocks : nop_Events (0, 0)%nat at_message = None.
Proof. done. Qed.
