(* ===== verification/HttpClient.v ===== *)
(** * The HTTP client of an engine ([cluster/httpclient.go])

    The address of a daemon is made into a URL that the HTTP library accepts and a way to
    dial; [url.Parse] is an argument. *)
From S2P Require Import Prelude GoStrings.

(** What of a [url.URL] is looked at. *)
Record URL := mkURL { u_Scheme : string; u_Host : string; u_Path : string }.
(** A transport: its TLS configuration, and [Dial], as the network and the address that
    [net.DialTimeout] is called with, and whether [setUserTimeout] is called on a TCP
    connection. *)
Record Transport := { tr_tls : bool; tr_Dial : string → string → string * string; tr_user_timeout : bool }.

(** [newHTTPClient(u, tlsConfig, timeout, setUserTimeout)], with the URL as it leaves it. *)
Definition newHTTPClient (u : URL) (tls setUserTimeout : bool) : Transport * URL :=
  if String.eqb (u_Scheme u) "unix" then
    ({| tr_tls := tls; tr_Dial := λ _ _, ("unix", u_Path u); tr_user_timeout := false |}, mkURL "http" "unix.sock" "")
  else ({| tr_tls := tls; tr_Dial := λ proto addr, (proto, addr); tr_user_timeout := setUserTimeout |}, u).
(** [NewHTTPClientTimeout(daemonURL, tlsConfig, timeout, setUserTimeout)] *)
Definition NewHTTPClientTimeout (Parse : string → URL + string) (daemonURL : string) (tls setUserTimeout : bool)
    : (Transport * URL) + string :=
  match Parse daemonURL with
  | inr err => inr err
  | inl u =>
      let u := if String.eqb (u_Scheme u) "" || String.eqb (u_Scheme u) "tcp"
               then mkURL (if tls then "https" else "http") (u_Host u) (u_Path u) else u in
      inl (newHTTPClient u tls setUserTimeout)
  end.

(** A URL without a scheme, or of TCP, is one of HTTP, with TLS exactly when there is a
    configuration; a Unix socket is dialled whatever the address, under a URL of HTTP; any
    other URL, and the host and path of the former ones, are kept. *)
Theorem http_client_spec Parse daemonURL tls setUserTimeout tr u' :
  NewHTTPClientTimeout Parse daemonURL tls setUserTimeout = inl (tr, u') →
  ∃ u, Parse daemonURL = inl u ∧ tr_tls tr = tls ∧
    if decide (u_Scheme u = "unix") then
      u' = mkURL "http" "unix.sock" "" ∧ ∀ proto addr, tr_Dial tr proto addr = ("unix", u_Path u)
    else
      u_Scheme u' = (if decide (u_Scheme u = "" ∨ u_Scheme u = "tcp") then (if tls then "https" else "http") else u_Scheme u) ∧
      u_Host u' = u_Host u ∧ u_Path u' = u_Path u ∧ ∀ proto addr, tr_Dial tr proto addr = (proto, addr).
Proof.
  unfold NewHTTPClientTimeout. destruct (Parse daemonURL) as [u|]; [|done]. intros Hn. exists u. split; [done|].
  unfold newHTTPClient in Hn. destruct (String.eqb_spec (u_Scheme u) "") as [He|He]; simpl in Hn.
  - rewrite He. destruct tls; simpl in Hn; by injection Hn as <- <-.
  - destruct (String.eqb_spec (u_Scheme u) "tcp") as [Ht|Ht]; simpl in Hn.
    + rewrite Ht. destruct tls; simpl in Hn; by injection Hn as <- <-.
    + rewrite (decide_False (P := u_Scheme u = "" ∨ u_Scheme u = "tcp")) by tauto.
      destruct (String.eqb_spec (u_Scheme u) "unix"); injection Hn as <- <-; case_decide; done.
Qed.
