(* ===== verification/EventsMonitor.v ===== *)
(** * The goroutines that monitor the events of an engine ([cluster/event_monitor.go], [StartMonitorEvents] of [cluster/engine.go])

    Every start of the monitoring makes two goroutines that meet on an unbuffered channel: one
    reads the events of the daemon, the other waits for its report and restarts it. *)
From S2P Require Import Prelude GoStrings Config Container.

(** ** State *)

(** A goroutine.  [ec] is the channel of the report, [m] the [EventsMonitor] object, [ch]
    the stop channel that the [select] has been entered with. *)
Inductive goroutine :=
  | waiting (ec : nat)                 (* the goroutine of [StartMonitorEvents], on [<-ec] *)
  | backing_off (ec : nat)             (* on the delayer *)
  | restarting (ec : nat)              (* before [e.StartMonitorEvents()] *)
  | closing (ec : nat)                 (* before [close(ec)] *)
  | looping (m ec : nat)               (* the goroutine of [Start], before its [select] *)
  | selecting (m ec ch : nat)
  | reporting (ec : nat) (err : option string).

(** One engine with its monitors: its state is [stateDisconnected] or not; [mn_current] is
    [e.eventsMonitor]; [mn_stopChan] holds the field [stopChan] of the monitors that were
    started.  The channels are numbered; [mn_connects] counts the connections that got as
    far as [StartMonitorEvents]. *)
Record Monitoring := mkMon {
  mn_disconnected : bool;
  mn_current : option nat;
  mn_stopChan : gmap nat nat;
  mn_closed : gset nat;
  mn_next : nat;
  mn_connects : nat;
  mn_threads : list goroutine
}.
Definition unconnected : Monitoring := mkMon false None ∅ ∅ 0 0 [].
Definition mn_set_threads (l : list goroutine) (s : Monitoring) : Monitoring :=
  mkMon (mn_disconnected s) (mn_current s) (mn_stopChan s) (mn_closed s) (mn_next s) (mn_connects s) l.

(** [NewEventsMonitor(cli, handler)], assigned to [e.eventsMonitor]: its [stopChan] is nil. *)
Definition NewEventsMonitor (s : Monitoring) : Monitoring :=
  mkMon (mn_disconnected s) (Some (mn_next s)) (mn_stopChan s) (mn_closed s) (S (mn_next s)) (mn_connects s)
        (mn_threads s).

(** [em.Start(ec)] *)
Definition monitor_Start (m ec : nat) (s : Monitoring) : Monitoring :=
  mkMon (mn_disconnected s) (mn_current s) (<[m := mn_next s]> (mn_stopChan s)) (mn_closed s)
        (S (mn_next s)) (mn_connects s) (looping m ec :: mn_threads s).
(** [em.Stop()]: closing a closed channel panics. *)
Definition monitor_Stop (m : nat) (s : Monitoring) : outcome Monitoring :=
  match mn_stopChan s !! m with
  | None => Ret s
  | Some ch =>
      if decide (ch ∈ mn_closed s) then Panic "close of closed channel"
      else Ret (mkMon (mn_disconnected s) (mn_current s) (mn_stopChan s) ({[ch]} ∪ mn_closed s) (mn_next s)
                      (mn_connects s) (mn_threads s))
  end.

(** [e.StartMonitorEvents()] *)
Definition StartMonitorEvents (s : Monitoring) : outcome Monitoring :=
  let ec := mn_next s in
  match mn_current s with
  | None => Panic nil_dereference
  | Some m =>
      Ret (monitor_Start m ec
        (mkMon (mn_disconnected s) (mn_current s) (mn_stopChan s) (mn_closed s) (S ec) (mn_connects s)
               (waiting ec :: mn_threads s)))
  end.

(** [e.Disconnect()], of the monitor and the state only *)
Definition disconnect (s : Monitoring) : outcome Monitoring :=
  if mn_disconnected s then Ret s
  else
    match mn_current s with
    | None => Panic nil_dereference
    | Some m =>
        s ← monitor_Stop m s;
        Ret (mkMon true (mn_current s) (mn_stopChan s) (mn_closed s) (mn_next s) (mn_connects s) (mn_threads s))
    end.
Definition count_connect (s : Monitoring) : Monitoring :=
  mkMon (mn_disconnected s) (mn_current s) (mn_stopChan s) (mn_closed s) (mn_next s) (S (mn_connects s))
        (mn_threads s).

(** What the goroutine of [StartMonitorEvents] does with a report. *)
Definition after_report (ec : nat) (err : option string) : goroutine :=
  match err with
  | None => closing ec
  | Some msg => if Contains msg "EOF" then restarting ec else backing_off ec
  end.

(** ** Steps

    A step makes the outcome: a panic stops the program. *)
Inductive mon_step (s : Monitoring) : outcome Monitoring → Prop :=
  (** [ConnectWithClient], whose [updateSpecs] fails or not *)
  | mon_connect_failed : mon_step s (Ret (NewEventsMonitor s))
  | mon_connect : mon_step s (StartMonitorEvents (count_connect (NewEventsMonitor s)))
  | mon_disconnect : mon_step s (disconnect s)
  (** The [select] of the monitor reads [em.stopChan] when it is entered. *)
  | mon_select m ec ch l :
      mn_threads s ≡ₚ looping m ec :: l → mn_stopChan s !! m = Some ch →
      mon_step s (Ret (mn_set_threads (selecting m ec ch :: l) s))
  | mon_event m ec ch l (handled : option string) :
      mn_threads s ≡ₚ selecting m ec ch :: l →
      mon_step s (Ret (mn_set_threads
        (match handled with None => looping m ec | Some _ => reporting ec handled end :: l) s))
  | mon_stream_error m ec ch l err :
      mn_threads s ≡ₚ selecting m ec ch :: l →
      mon_step s (Ret (mn_set_threads (reporting ec err :: l) s))
  | mon_stopped m ec ch l :
      mn_threads s ≡ₚ selecting m ec ch :: l → ch ∈ mn_closed s →
      mon_step s (Ret (mn_set_threads (reporting ec None :: l) s))
  (** The report is received. *)
  | mon_report ec err l :
      mn_threads s ≡ₚ reporting ec err :: waiting ec :: l →
      mon_step s (Ret (mn_set_threads (after_report ec err :: l) s))
  | mon_report_closed ec err l :
      mn_threads s ≡ₚ reporting ec err :: l → ec ∈ mn_closed s → mon_step s (Panic "send on closed channel")
  | mon_delay ec l :
      mn_threads s ≡ₚ backing_off ec :: l → mon_step s (Ret (mn_set_threads (restarting ec :: l) s))
  | mon_restart ec l :
      mn_threads s ≡ₚ restarting ec :: l →
      mon_step s (StartMonitorEvents (mn_set_threads (closing ec :: l) s))
  (** [close(ec)] *)
  | mon_close ec l :
      mn_threads s ≡ₚ closing ec :: l →
      mon_step s (if decide (ec ∈ mn_closed s) then Panic "close of closed channel"
                  else Ret (mkMon (mn_disconnected s) (mn_current s) (mn_stopChan s) ({[ec]} ∪ mn_closed s)
                                  (mn_next s) (mn_connects s) l)).

Definition mon_next (s s' : Monitoring) : Prop := mon_step s (Ret s').
Definition mon_reachable (s : Monitoring) : Prop := rtc mon_next unconnected s.

(** ** Roles *)

Definition supervisor_of (g : goroutine) : option nat :=
  match g with waiting ec | backing_off ec | restarting ec | closing ec => Some ec | _ => None end.
Definition waiting_on (g : goroutine) : option nat := match g with waiting ec => Some ec | _ => None end.
Definition monitor_of (g : goroutine) : option nat :=
  match g with looping _ ec | selecting _ ec _ | reporting ec _ => Some ec | _ => None end.
(** A goroutine that keeps the monitoring alive: it waits for a report or will restart it. *)
Definition keeping (g : goroutine) : bool :=
  match g with waiting _ | backing_off _ | restarting _ => true | _ => false end.
Definition live (l : list goroutine) : nat := length (List.filter keeping l).

(** Every channel has been made; the monitors report each on its own channel, and each
    has its supervisor waiting on it; report channels, and the stop channels of the monitors,
    differ; the current monitor can be stopped until the engine is disconnected. *)
Record mon_ok (s : Monitoring) : Prop := {
  mk_paired : omap monitor_of (mn_threads s) ≡ₚ omap waiting_on (mn_threads s);
  mk_distinct : NoDup (omap supervisor_of (mn_threads s));
  mk_open : ∀ ec, ec ∈ omap supervisor_of (mn_threads s) → (ec < mn_next s)%nat ∧ ec ∉ mn_closed s;
  mk_closed : ∀ ch, ch ∈ mn_closed s → (ch < mn_next s)%nat;
  mk_stop : ∀ m ch, mn_stopChan s !! m = Some ch →
    ((ch < mn_next s)%nat ∧ (m < mn_next s)%nat) ∧ (ch ∉ omap supervisor_of (mn_threads s)) ∧
    (mn_disconnected s = false → ch ∉ mn_closed s);
  mk_current : ∀ m, mn_current s = Some m → (m < mn_next s)%nat;
  mk_started : mn_threads s ≠ [] → is_Some (mn_current s);
  mk_live : (live (mn_threads s) ≤ mn_connects s)%nat
}.

Lemma mon_ok_unconnected : mon_ok unconnected.
Proof. split; simpl; try done; try lia; try constructor; set_solver. Qed.

Lemma live_perm l l' : l ≡ₚ l' → live l = live l'.
Proof. intros Hl. unfold live. by rewrite (Lfilter_perm _ _ _ Hl). Qed.
Lemma mon_ok_perm s l : mn_threads s ≡ₚ l → mon_ok s → mon_ok (mn_set_threads l s).
Proof.
  intros Hl [A1 A2 A3 A4 A5 A6 A7 A8].
  assert (∀ f : goroutine → option nat, omap f (mn_threads s) ≡ₚ omap f l) as Ho by (intros f; by rewrite Hl).
  split; simpl; try done.
  - by rewrite <- !Ho.
  - by rewrite <- Ho.
  - intros ec. rewrite <- Ho. apply A3.
  - intros m ch Hm. rewrite <- Ho. by apply A5.
  - intros Hne. apply A7. intros Hnil. rewrite Hnil in Hl. apply Hne. symmetry. by apply Permutation_nil_l.
  - by rewrite <- (live_perm _ _ Hl).
Qed.

(** ** Every step keeps them *)

Lemma NewEventsMonitor_ok s : mon_ok s → mon_ok (NewEventsMonitor s).
Proof.
  intros [A1 A2 A3 A4 A5 A6 A7 A8]. split; simpl; try done.
  - intros ec Hec. destruct (A3 ec Hec). split; [lia|done].
  - intros ch Hch. specialize (A4 ch Hch). lia.
  - intros m ch Hm. destruct (A5 m ch Hm) as ([? ?] & ? & ?). split_and!; try done; lia.
  - intros m [= <-]. lia.
Qed.

Lemma StartMonitorEvents_ok s s' :
  mon_ok s → (live (mn_threads s) < mn_connects s)%nat → StartMonitorEvents s = Ret s' → mon_ok s'.
Proof.
  intros [A1 A2 A3 A4 A5 A6 A7 A8] Hlive. unfold StartMonitorEvents.
  destruct (mn_current s) as [m|] eqn:Hm; [|done]. intros [= <-]. specialize (A6 m eq_refl).
  assert (mn_next s ∉ omap supervisor_of (mn_threads s)) as Hnew.
  { intros Hin. apply A3 in Hin as [? _]. lia. }
  split; simpl.
  - by rewrite A1.
  - by constructor.
  - intros ec [->|Hec]%elem_of_cons.
    + split; [lia|]. intros Hc. apply A4 in Hc. lia.
    + destruct (A3 ec Hec). split; [lia|done].
  - intros ch Hch. specialize (A4 ch Hch). lia.
  - intros m' ch [[<- <-]|[_ Hm']]%lookup_insert_Some.
    + split_and!; [lia..| |].
      * intros [Heq|Hin]%elem_of_cons; [lia|]. apply A3 in Hin as [? _]. lia.
      * intros _ Hc. apply A4 in Hc. lia.
    + destruct (A5 m' ch Hm') as ([? ?] & ? & ?). split_and!; [lia..| |done].
      intros [Heq|Hin]%elem_of_cons; [lia|done].
  - intros m' [= <-]. lia.
  - intros _. by eexists.
  - unfold live in *. simpl. lia.
Qed.

Lemma disconnect_ok s s' : mon_ok s → disconnect s = Ret s' → mon_ok s'.
Proof.
  intros Hok. unfold disconnect. destruct (mn_disconnected s) eqn:Hd; [by intros [= <-]|].
  destruct (mn_current s) as [m|] eqn:Hm; [|done]. unfold monitor_Stop.
  destruct Hok as [A1 A2 A3 A4 A5 A6 A7 A8].
  destruct (mn_stopChan s !! m) as [ch|] eqn:Hch.
  2: { intros [= <-]. split; simpl; try done.
       intros m' ch' H'. destruct (A5 m' ch' H') as (? & ? & ?). done. }
  case_decide; [done|]. intros [= <-]. destruct (A5 m ch Hch) as ([Hlt _] & Hns & _).
  split; simpl; try done.
  - intros ec Hec. destruct (A3 ec Hec). split; [done|]. set_solver.
  - intros ch' [->%elem_of_singleton|Hc]%elem_of_union; [done|by apply A4].
  - intros m' ch' H'. destruct (A5 m' ch' H') as (? & ? & ?). done.
Qed.

(** One goroutine goes on without a change of its role. *)
Lemma same_role_ok s g g' l :
  mon_ok (mn_set_threads (g :: l) s) → monitor_of g' = monitor_of g → waiting_on g' = waiting_on g →
  supervisor_of g' = supervisor_of g → keeping g' = keeping g → mon_ok (mn_set_threads (g' :: l) s).
Proof.
  intros [A1 A2 A3 A4 A5 A6 A7 A8] Hm Hw Hs Hk. split; simpl in *; try done.
  - by rewrite Hm, Hw.
  - by rewrite Hs.
  - by rewrite Hs.
  - by rewrite Hs.
  - intros _. apply A7. discriminate.
  - unfold live in *. simpl in *. rewrite Hk. by destruct (keeping g).
Qed.

Lemma report_ok s ec err l :
  mon_ok (mn_set_threads (reporting ec err :: waiting ec :: l) s) →
  mon_ok (mn_set_threads (after_report ec err :: l) s).
Proof.
  intros [A1 A2 A3 A4 A5 A6 A7 A8]. simpl in *.
  assert (waiting_on (after_report ec err) = None ∧ monitor_of (after_report ec err) = None ∧
    supervisor_of (after_report ec err) = Some ec) as (Hw & Hm & Hs).
  { unfold after_report. destruct err as [msg|]; [by destruct (Contains _ _)|done]. }
  split; simpl; try done.
  - rewrite Hw, Hm. by apply (inj (cons ec)).
  - by rewrite Hs.
  - by rewrite Hs.
  - by rewrite Hs.
  - intros _. apply A7. discriminate.
  - unfold live in *. simpl in *. destruct (keeping _); simpl; lia.
Qed.

Lemma closing_ok s ec l :
  mon_ok (mn_set_threads (restarting ec :: l) s) →
  mon_ok (mn_set_threads (closing ec :: l) s) ∧ (live (closing ec :: l) < mn_connects s)%nat.
Proof.
  intros [A1 A2 A3 A4 A5 A6 A7 A8]. simpl in *. unfold live in *. simpl in *. split; [|lia].
  split; simpl; try done.
  - intros _. apply A7. discriminate.
  - unfold live. simpl. lia.
Qed.

Lemma close_ok s ec l :
  mon_ok (mn_set_threads (closing ec :: l) s) →
  mon_ok (mkMon (mn_disconnected s) (mn_current s) (mn_stopChan s) ({[ec]} ∪ mn_closed s)
            (mn_next s) (mn_connects s) l).
Proof.
  intros [A1 A2 A3 A4 A5 A6 A7 A8]. simpl in *. apply NoDup_cons in A2 as [Hec A2].
  destruct (A3 ec) as [Hlt _]; [by left|]. split; simpl; try done.
  - intros ec' Hin. destruct (A3 ec') as [? ?]; [by right|]. split; [done|]. set_solver.
  - intros ch [->%elem_of_singleton|Hc]%elem_of_union; [done|by apply A4].
  - intros m ch Hm. destruct (A5 m ch Hm) as (? & Hns & Hd). split_and!; [tauto..|set_solver|].
    intros Hdis. specialize (Hd Hdis). set_solver.
  - intros _. apply A7. discriminate.
Qed.

Lemma mon_step_ok s s' : mon_ok s → mon_next s s' → mon_ok s'.
Proof.
  unfold mon_next. intros Hok Hstep. remember (Ret s') as o eqn:Ho.
  destruct Hstep as [| | |m ec ch l Hl Hch|m ec ch l h Hl|m ec ch l err Hl|m ec ch l Hl Hch|ec err l Hl
    |ec err l Hl Hc|ec l Hl|ec l Hl|ec l Hl]; try (apply (mon_ok_perm _ _ Hl) in Hok);
    try (injection Ho as <-).
  - by apply NewEventsMonitor_ok.
  - eapply (StartMonitorEvents_ok (count_connect (NewEventsMonitor s))); [|..|reflexivity]; [|simpl; pose proof (mk_live _ Hok); lia].
    destruct (NewEventsMonitor_ok _ Hok) as [A1 A2 A3 A4 A5 A6 A7 A8]. split; try done. simpl in *. lia.
  - by eapply disconnect_ok.
  - by eapply same_role_ok.
  - eapply same_role_ok; [done|by destruct h..].
  - by eapply same_role_ok.
  - by eapply same_role_ok.
  - by apply report_ok.
  - done.
  - by eapply same_role_ok.
  - apply closing_ok in Hok as [Hok Hlive]. by eapply StartMonitorEvents_ok.
  - case_decide; [done|]. injection Ho as <-. by apply close_ok.
Qed.
Lemma reachable_ok s : mon_reachable s → mon_ok s.
Proof.
  intros Hr. unfold mon_reachable in Hr. remember unconnected as s0 eqn:H0.
  assert (mon_ok s0) as Hok by (rewrite H0; apply mon_ok_unconnected). clear H0.
  induction Hr; [done|]. by eauto using mon_step_ok.
Qed.

(** A goroutine of the list, first. *)
Lemma in_role {A} (f : goroutine → option A) g x l l' : l ≡ₚ g :: l' → f g = Some x → x ∈ omap f l.
Proof. intros Hl Hf. rewrite Hl. simpl. rewrite Hf. by left. Qed.

Lemma reporting_has_reader s ec err :
  mon_ok s → reporting ec err ∈ mn_threads s → ∃ l, mn_threads s ≡ₚ reporting ec err :: waiting ec :: l.
Proof.
  intros Hok [l Hl]%elem_of_Permutation.
  assert (ec ∈ omap waiting_on (mn_threads s)) as Hw.
  { rewrite <- (mk_paired _ Hok). by eapply in_role. }
  apply list_elem_of_omap in Hw as (g & Hg & Hgw). destruct g; try done. injection Hgw as ->.
  rewrite Hl in Hg. apply elem_of_cons in Hg as [Hg|Hg]; [done|].
  apply elem_of_Permutation in Hg as [l' Hl']. exists l'. by rewrite Hl, Hl'.
Qed.

Lemma step_outcome s o :
  mon_ok s → mon_step s o →
  (∃ s', o = Ret s') ∨ (mn_current s = None ∧ mn_disconnected s = false ∧ o = Panic nil_dereference).
Proof.
  intros Hok Hstep.
  destruct Hstep as [| | |m ec ch l Hl Hch|m ec ch l h Hl|m ec ch l err Hl|m ec ch l Hl Hch|ec err l Hl
    |ec err l Hl Hc|ec l Hl|ec l Hl|ec l Hl]; try (left; by eexists).
  - unfold disconnect. destruct (mn_disconnected s) eqn:Hd; [left; by eexists|].
    destruct (mn_current s) as [m|]; [left|by right]. unfold monitor_Stop.
    destruct (mn_stopChan s !! m) as [ch|] eqn:Hch; [|by eexists].
    destruct (mk_stop _ Hok m ch Hch) as (_ & _ & Hopen). rewrite decide_False by auto. by eexists.
  - destruct (reporting_has_reader s ec err) as [l' Hl']; [done|rewrite Hl; by left|].
    destruct (mk_open _ Hok ec) as [_ Hno]; [|done]. rewrite Hl'. simpl. by left.
  - left. unfold StartMonitorEvents. simpl. destruct (mk_started _ Hok) as [m ->]; [|by eexists].
    intros Hnil. rewrite Hnil in Hl. by apply Permutation_nil_cons in Hl.
  - left. destruct (mk_open _ Hok ec) as [_ Hno]; [by eapply in_role|]. rewrite decide_False by done. by eexists.
Qed.

Lemma waiting_keeping l : (length (omap waiting_on l) ≤ live l)%nat.
Proof.
  unfold live. induction l as [|g l IH]; [done|]. cbn [omap list_omap List.filter].
  destruct g; cbn [waiting_on keeping length]; lia.
Qed.


(** ** Monitors that outlive the engine *)

(** A stop channel that is not the current monitor's, of a disconnected engine. *)
Definition never_closed (ch : nat) (s : Monitoring) : Prop :=
  mon_ok s ∧ mn_disconnected s = true ∧ (ch < mn_next s)%nat ∧ ch ∉ mn_closed s ∧
  ch ∉ omap supervisor_of (mn_threads s).
Lemma StartMonitorEvents_frame s s' :
  StartMonitorEvents s = Ret s' →
  mn_disconnected s' = mn_disconnected s ∧ mn_closed s' = mn_closed s ∧ (mn_next s < mn_next s')%nat ∧
  omap supervisor_of (mn_threads s') = mn_next s :: omap supervisor_of (mn_threads s).
Proof.
  unfold StartMonitorEvents. destruct (mn_current s); [|done]. intros [= <-]. simpl. split_and!; [done..|lia|done].
Qed.
Lemma never_closed_step ch s s' : never_closed ch s → mon_next s s' → never_closed ch s'.
Proof.
  intros (Hok & Hd & Hlt & Hc & Hs) Hstep. split; [by eapply mon_step_ok|]. unfold mon_next in Hstep.
  remember (Ret s') as o eqn:Ho.
  destruct Hstep as [| | |m ec ch' l Hl Hch|m ec ch' l h Hl|m ec ch' l err Hl|m ec ch' l Hl Hch|ec err l Hl
    |ec err l Hl Hc'|ec l Hl|ec l Hl|ec l Hl]; try rewrite Hl in Hs; simpl in *.
  - injection Ho as <-. simpl. split_and!; [done|lia|done|done].
  - apply StartMonitorEvents_frame in Ho as (-> & -> & Hn & ->). simpl in *. split_and!; [done|lia|done|].
    apply not_elem_of_cons. split; [lia|done].
  - unfold disconnect in Ho. rewrite Hd in Ho. by injection Ho as <-.
  - by injection Ho as <-.
  - injection Ho as <-. by destruct h.
  - by injection Ho as <-.
  - by injection Ho as <-.
  - injection Ho as <-. simpl. split_and!; try done. unfold after_report.
    destruct err as [msg|]; [destruct (Contains _ _)|]; exact Hs.
  - done.
  - by injection Ho as <-.
  - apply StartMonitorEvents_frame in Ho as (-> & -> & Hn & ->). simpl in *. split_and!; [done|lia|done|].
    apply not_elem_of_cons. split; [lia|done].
  - case_decide; [done|]. injection Ho as <-. simpl. split_and!; try done; set_solver.
Qed.
Lemma never_closed_for_ever ch s s' : never_closed ch s → rtc mon_next s s' → ch ∉ mn_closed s'.
Proof.
  intros Hn Hr. induction Hr as [s|s s1 s2 Hstep _ IH]; [by destruct Hn as (_ & _ & _ & ? & _)|].
  apply IH. by eapply never_closed_step.
Qed.

(** ** Two executions *)

Lemma outcome_next s o s' : mon_step s o → o = Ret s' → mon_next s s'.
Proof. by intros Hs ->. Qed.

Section concrete.
Local Open Scope nat_scope.
Definition refused_stream : option string := Some "connection refused".
(** After a failure of the stream, a disconnection during the back-off, and the restart. *)
Definition restarted : Monitoring :=
  mkMon true (Some 0) {[0 := 4]} {[2]} 5 1 [selecting 0 3 4; waiting 3; closing 1].
Lemma restarted_reachable : mon_reachable restarted.
Proof.
  unfold mon_reachable.
  eapply rtc_l; [apply (mon_connect unconnected)|].
  eapply rtc_l; [by apply (mon_select _ 0 1 2 [waiting 1])|].
  eapply rtc_l; [by apply (mon_stream_error _ 0 1 2 [waiting 1] refused_stream)|].
  eapply rtc_l; [by apply (mon_report _ 1 refused_stream [])|].
  apply (rtc_l _ _ (mkMon true (Some 0) {[0 := 2]} {[2]} 3 1 [backing_off 1])).
  { eapply outcome_next; [apply mon_disconnect|]. by vm_compute. }
  eapply rtc_l; [by apply (mon_delay _ 1 [])|].
  eapply rtc_l; [eapply outcome_next; [by apply (mon_restart _ 1 [])|reflexivity]|].
  eapply rtc_l; [by apply (mon_select _ 0 3 4 [waiting 3; closing 1])|].
  apply rtc_refl.
Qed.
(** After two connections and a disconnection. *)
Definition reconnected : Monitoring :=
  mkMon true (Some 3) {[0 := 2; 3 := 5]} {[5]} 6 2 [selecting 3 4 5; waiting 4; selecting 0 1 2; waiting 1].
Lemma reconnected_reachable : mon_reachable reconnected.
Proof.
  unfold mon_reachable.
  eapply rtc_l; [apply (mon_connect unconnected)|].
  eapply rtc_l; [by apply (mon_select _ 0 1 2 [waiting 1])|].
  eapply rtc_l; [apply mon_connect|].
  eapply rtc_l; [by apply (mon_select _ 3 4 5 [waiting 4; selecting 0 1 2; waiting 1])|].
  apply rtc_once. eapply outcome_next; [apply mon_disconnect|]. by vm_compute.
Qed.

(** Monitors outlive their engine.  An engine disconnected while its monitoring waits to be
    restarted is monitored again: its state is disconnected, and no later step closes the
    stop channel of its monitor.  And when an engine is connected twice, as a pending one
    whose first validation failed is, disconnecting it stops the second monitor only. *)
Theorem monitor_survives_disconnect :
  ∃ s m ec ch s2 m2 ec2 ch2,
    (mon_reachable s ∧ mn_connects s = 1 ∧ mn_disconnected s = true ∧ selecting m ec ch ∈ mn_threads s ∧
     ∀ s', rtc mon_next s s' → ch ∉ mn_closed s') ∧
    (mon_reachable s2 ∧ mn_connects s2 = 2 ∧ mn_disconnected s2 = true ∧ selecting m2 ec2 ch2 ∈ mn_threads s2 ∧
     ∀ s', rtc mon_next s2 s' → ch2 ∉ mn_closed s').
Proof.
  exists restarted, 0, 3, 4, reconnected, 0, 1, 2. split.
  - split; [apply restarted_reachable|]. split; [done|]. split; [done|]. split; [by left|].
    intros s'. apply never_closed_for_ever. split; [apply reachable_ok, restarted_reachable|].
    simpl. split_and!; [done|lia|set_solver|]. rewrite !not_elem_of_cons. split_and!; [lia..|apply not_elem_of_nil].
  - split; [apply reconnected_reachable|]. split; [done|]. split; [done|]. split; [set_solver|].
    intros s'. apply never_closed_for_ever. split; [apply reachable_ok, reconnected_reachable|].
    simpl. split_and!; [done|lia|set_solver|]. rewrite !not_elem_of_cons. split_and!; [lia..|apply not_elem_of_nil].
Qed.
End concrete.
