(* ===== verification/GoFloat.v ===== *)
(** * Floating point

    [float64] is the binary64 format of [SpecFloat].  The conversion of a value that is
    out of range to [int64] is left to the machine. *)
From S2P Require Import Prelude.
From Stdlib Require Import SpecFloat.

Definition float64_of_int (z : Z) : spec_float := binary_normalize 53 1024 z 0 false.
Definition float64_add : spec_float → spec_float → spec_float := SFadd 53 1024.
Definition float64_mul : spec_float → spec_float → spec_float := SFmul 53 1024.
Definition int64_of_float (out_of_range : Z) (f : spec_float) : Z :=
  match f with
  | S754_zero _ => 0
  | S754_finite s m e =>
      let v := if 0 <=? e then Zpos m * 2^e else Zpos m / 2^(- e) in
      let v := if s then - v else v in
      if (- 2^63 <=? v) && (v <? 2^63) then v else out_of_range
  | S754_infinity _ | S754_nan => out_of_range
  end.

