(* ===== verification/GoFmt.v ===== *)
(** * Formatting without arguments

    [fmt.Fprintf(w, s)], in which a text is used as the format: what package [fmt] of Go 1.7
    makes of it. *)
From S2P Require Import Prelude GoStrings Config Json.
From Stdlib Require Import Ascii.

Definition percent : ascii := "%".
(** The flags. *)
Fixpoint skip_flags (s : string) : string :=
  match s with
  | String c s' => if existsb (Ascii.eqb c) ["#"; "0"; "+"; "-"; " "]%char then skip_flags s' else s
  | EmptyString => s
  end.
(** [parsenum]: whether there is a number, and the rest; a number over a million ends the
    format. *)
Fixpoint parsenum (num : Z) (isnum : bool) (s : string) : bool * string :=
  match s with
  | EmptyString => (isnum, EmptyString)
  | String c s' =>
      match digit c with
      | Some d => if 1000000 <? num then (false, EmptyString) else parsenum (num * 10 + d) true s'
      | None => (isnum, s)
      end
  end.
(** [argNumber], of no arguments: whether the index was well formed, whether [goodArgNum]
    is kept, and the rest. *)
Definition arg_number (s : string) : bool * bool * string :=
  match s with
  | String "[" s' =>
      match (if len s' <? 2 then None else cut "]" s') with
      | Some (n, rest) => let '(ok, more) := parsenum 0 false n in (ok && String.eqb more "", false, rest)
      | None => (false, false, s')
      end
  | _ => (false, true, s)
  end.
(** A width, or a precision: what is written, whether there was a number, whether an index
    before it still counts, and the rest. *)
Definition width (bad : string) (s : string) (after : bool) : string * bool * bool * string :=
  match s with
  | String "*" s' => (bad, false, false, s')
  | _ => let '(isnum, rest) := parsenum 0 false s in ("", isnum, after, rest)
  end.
Definition precision (s : string) (after good : bool) : string * bool * bool * string :=
  match s with
  | String "." (String _ _ as s') =>
      let good := good && negb after in
      let '(after, kept, s) := arg_number s' in
      let '(out, _, after, s) := width "%!(BADPREC)" s after in
      (out, after, good && kept, s)
  | _ => ("", after, good, s)
  end.
(** What is written for the directive after a percent sign, and the rest. *)
Definition directive (s : string) : string * string :=
  let s := skip_flags s in
  let '(after, good, s) := arg_number s in
  let '(out, isnum, after', s) := width "%!(BADWIDTH)" s after in
  let good := good && negb (after' && isnum) in
  let '(out', after, good, s) := precision s after' good in
  let '(_, good, s) := if after then (after, good, s) else
    let '(after, kept, s) := arg_number s in (after, good && kept, s) in
  match s with
  | EmptyString => (out +:+ out' +:+ "%!(NOVERB)", EmptyString)
  | String c s' =>
      let '(verb, w) := decode_rune c s' in
      let rest := String.substring w (String.length s) s in
      (out +:+ out' +:+
       (if verb =? byte percent then "%"
        else "%!" +:+ encode_rune verb +:+ (if good then "(MISSING)" else "(BADINDEX)")), rest)
  end.
(** [fmt.Sprintf(s)]; every directive is shorter than what it is read from. *)
Fixpoint format_from (fuel : nat) (s : string) : string :=
  match fuel, s with
  | O, _ | _, EmptyString => EmptyString
  | S fuel, String c s' =>
      if Ascii.eqb c percent then let '(out, rest) := directive s' in out +:+ format_from fuel rest
      else String c (format_from fuel s')
  end.
Definition Sprintf (s : string) : string := format_from (String.length s) s.

Example percent_of : Sprintf "50% off" = "50%!o(MISSING)ff".
Proof. reflexivity. Qed.
Example percent_end : Sprintf "100%" = "100%!(NOVERB)".
Proof. reflexivity. Qed.
Example percent_twice : Sprintf "a%%b%[2]db%*d" = "a%b%!d(BADINDEX)b%!(BADWIDTH)%!d(MISSING)".
Proof. reflexivity. Qed.

(** A text without a percent sign is written as it is. *)
Lemma cut_percent c s :
  cut "%" (String c s) = if Ascii.eqb c percent then Some ("", s)
                         else match cut "%" s with Some (a, b) => Some (String c a, b) | None => None end.
Proof.
  change (cut "%" (String c s)) with (if String.prefix "%" (String c s) then Some ("", s) else
    match cut "%" s with Some (a, b) => Some (String c a, b) | None => None end).
  unfold String.prefix. destruct (Ascii.eqb_spec c percent) as [->|Hne]; [by destruct s|].
  destruct (ascii_dec "%" c) as [<-|]; [by destruct Hne|done].
Qed.
Lemma Sprintf_plain s : Contains s "%" = false → Sprintf s = s.
Proof.
  unfold Sprintf, Contains. induction s as [|c s IH]; [done|]. rewrite cut_percent. cbn [String.length format_from].
  destruct (Ascii.eqb c percent); [done|]. destruct (cut "%" s) as [[a b]|]; [done|]. intros _. by rewrite IH.
Qed.

(** ** Quoting

    [%q] of a text is [strconv.Quote]; [IsPrint] is [strconv.IsPrint] on the runes that are
    not ASCII. *)
Section quote.
Context (IsPrint : Z → bool).
Fixpoint hex_digits (n : nat) (z : Z) : string :=
  match n with O => EmptyString | S n => hex_digits n (z / 16) +:+ String (hex_char (z mod 16)) EmptyString end.
Definition backslash : ascii := "092".
Definition escaped (s : string) : string := String backslash s.
Definition quote_rune (r : Z) : string :=
  if (r =? byte quote) || (r =? byte backslash) then escaped (encode_rune r)
  else if r =? 7 then escaped "a" else if r =? 8 then escaped "b" else if r =? 12 then escaped "f"
  else if r =? 10 then escaped "n" else if r =? 13 then escaped "r" else if r =? 9 then escaped "t"
  else if r =? 11 then escaped "v"
  else if (if r <? 128 then (32 <=? r) && (r <? 127) else IsPrint r) then encode_rune r
  else if r <? 32 then escaped ("x" +:+ hex_digits 2 r)
  else if r <? 65536 then escaped ("u" +:+ hex_digits 4 r)
  else escaped ("U" +:+ hex_digits 8 r).
Fixpoint quote_from (skip : nat) (s : string) : string :=
  match s with
  | EmptyString => EmptyString
  | String c s' =>
      match skip with
      | S k => quote_from k s'
      | O =>
          let '(r, w) := decode_rune c s' in
          (if (r =? 65533) && (w =? 1)%nat then escaped ("x" +:+ hex_digits 2 (byte c)) else quote_rune r)
            +:+ quote_from (Nat.pred w) s'
      end
  end.
Definition Quote (s : string) : string :=
  String quote (quote_from 0 s +:+ String quote EmptyString).
End quote.
