(* ===== verification/Options.v ===== *)
(** * Cluster options ([cluster/options.go], and their use in the two [NewCluster])

    The [key=value] options of the driver, the integers they are read as, and the settings
    that the swarm and the Mesos clusters take from them. *)
From S2P Require Import Prelude GoStrings GoFloat Json.
From Stdlib Require Import Ascii SpecFloat.

(** ** Integers of any base *)

(** [strconv.ParseUint(s, 0, 64)]: the value and whether it is out of range; a text that is
    not a number gives 0. *)
Inductive parsed := number (n : Z) | too_large | not_a_number.
Definition digit_value (c : ascii) : option Z :=
  if between 48 57 c then Some (byte c - 48)
  else if between 97 122 c then Some (byte c - 97 + 10)
  else if between 65 90 c then Some (byte c - 65 + 10) else None.
(** The loop over the digits, in order: what goes wrong first decides. *)
Fixpoint parse_digits (base n : Z) (s : string) : parsed :=
  match s with
  | EmptyString => number n
  | String c s' =>
      match digit_value c with
      | None => not_a_number
      | Some v =>
          if base <=? v then not_a_number
          else if 2^64 <=? n * base + v then too_large
          else parse_digits base (n * base + v) s'
      end
  end.
Definition parse_any_base (s : string) : parsed :=
  match s with
  | EmptyString => not_a_number
  | String "0" (String x s') =>
      if Ascii.eqb x "x" || Ascii.eqb x "X" then
        match s' with EmptyString => not_a_number | _ => parse_digits 16 0 s' end
      else parse_digits 8 0 (String x s')
  | String "0" EmptyString => number 0
  | _ => parse_digits 10 0 s
  end.
Definition ParseUint64 (s : string) : Z :=
  match parse_any_base s with number n => n | too_large => 2^64 - 1 | not_a_number => 0 end.
(** [strconv.ParseInt(s, 0, 64)] *)
Definition ParseInt64 (s : string) : Z :=
  let signed (neg : bool) (t : string) :=
    match parse_any_base t with
    | not_a_number => 0
    | too_large => if neg then - 2^63 else 2^63 - 1
    | number n =>
        if neg then (if 2^63 <? n then - 2^63 else - n) else (if 2^63 <=? n then 2^63 - 1 else n)
    end in
  match s with
  | String "+" t => signed false t
  | String "-" t => signed true t
  | _ => signed false s
  end.
(** [strconv.ParseBool], false when it gives an error *)
Definition ParseBool (s : string) : bool :=
  existsb (String.eqb s) ["1"; "t"; "T"; "true"; "TRUE"; "True"].

(** ** Options *)

Definition DriverOpts : Type := list string.

Section options.
Context (Getenv : string → string) (ParseFloat : string → spec_float) (ParseIP : string → option string).

(** [do.String(key, env)]: an option that is the key alone has no [kv[1]]. *)
Fixpoint opt_String (opts : DriverOpts) (key env : string) : outcome (option string) :=
  match opts with
  | [] => Ret (if negb (String.eqb (Getenv env) "") then Some (Getenv env) else None)
  | opt :: opts =>
      match SplitN2 opt "=" with
      | [k; v] => if String.eqb k key then Ret (Some v) else opt_String opts key env
      | k => if String.eqb (default "" (head k)) key then Panic "index out of range" else opt_String opts key env
      end
  end.
Definition opt_with {A} (f : string → A) (opts : DriverOpts) (key env : string) : outcome (option A) :=
  value ← opt_String opts key env; Ret (option_map f value).
Definition opt_Int : DriverOpts → string → string → outcome (option Z) := opt_with ParseInt64.
Definition opt_Uint : DriverOpts → string → string → outcome (option Z) := opt_with ParseUint64.
Definition opt_Float : DriverOpts → string → string → outcome (option spec_float) := opt_with ParseFloat.
Definition opt_IP : DriverOpts → string → string → outcome (option (option string)) := opt_with ParseIP.
Definition opt_Bool : DriverOpts → string → string → outcome (option bool) := opt_with ParseBool.

(** ** The swarm cluster

    [NewCluster] up to the starting of its goroutines; [log.Fatalf] ends the program. *)
Record SwarmOptions := { so_overcommitRatio : spec_float; so_createRetry : Z }.
(** The [float64] 0.05 *)
Definition default_overcommit : spec_float := S754_finite false 7205759403792794 (-57).
Definition swarm_NewCluster (options : DriverOpts) : outcome SwarmOptions :=
  val ← opt_Float options "swarm.overcommit" "";
  ratio ← match val with
          | None => Ret default_overcommit
          | Some val =>
              if SFleb val (float64_of_int (-1)) then Err "swarm.overcommit should be larger than -1" else Ret val
          end;
  val ← opt_Int options "swarm.createretry" "";
  retry ← match val with
          | None => Ret 0
          | Some val => if val <? 0 then Err "swarm.createretry can not be negative" else Ret val
          end;
  Ret {| so_overcommitRatio := ratio; so_createRetry := retry |}.
(** [int64(overcommitRatio * 100)] of [NewEngine] *)
Definition overcommit_percent (out_of_range : Z) (ratio : spec_float) : Z :=
  int64_of_float out_of_range (float64_mul ratio (float64_of_int 100)).

(** ** The Mesos cluster

    [NewCluster] up to [NewScheduler]: durations are in nanoseconds. *)
Context (ParseDuration : string → Z + string).
Record MesosOptions := {
  mo_user : string;
  mo_dockerEnginePort : string;
  mo_taskCreationTimeout : Z;
  mo_BindingPort : option Z;
  mo_BindingAddress : option string;
  mo_Checkpoint : option bool;
  mo_offerTimeout : Z;
  mo_refuseTimeout : Z
}.
Definition second : Z := 1000000000.
(** A duration, or its default. *)
Definition opt_Duration (options : DriverOpts) (key env : string) (d : Z) : outcome Z :=
  value ← opt_String options key env;
  match value with
  | None => Ret d
  | Some text => match ParseDuration text with inl d => Ret d | inr err => Err err end
  end.
Definition mesos_NewCluster (tls : bool) (options : DriverOpts) : outcome MesosOptions :=
  user ← opt_String options "mesos.user" "SWARM_MESOS_USER";
  taskTimeout ← opt_Duration options "mesos.tasktimeout" "SWARM_MESOS_TASK_TIMEOUT" (5 * second);
  port ← opt_Uint options "mesos.port" "SWARM_MESOS_PORT";
  address ← opt_IP options "mesos.address" "SWARM_MESOS_ADDRESS";
  address ← match address with
            | Some None =>
                value ← opt_String options "mesos.address" "SWARM_MESOS_ADDRESS";
                Err ("invalid IP address for cluster-opt mesos.address: " +:+
                     String quote (default "" value +:+ String quote ""))
            | Some (Some ip) => Ret (Some ip)
            | None => Ret None
            end;
  checkpoint ← opt_Bool options "mesos.checkpointfailover" "SWARM_MESOS_CHECKPOINT_FAILOVER";
  offerTimeout ← opt_Duration options "mesos.offertimeout" "SWARM_MESOS_OFFER_TIMEOUT" (30 * second);
  refuseTimeout ← opt_Duration options "mesos.offerrefusetimeout" "SWARM_MESOS_OFFER_REFUSE_TIMEOUT" (5 * second);
  Ret {| mo_user := default "" user;
         mo_dockerEnginePort := if tls then "2376" else "2375";
         mo_taskCreationTimeout := taskTimeout;
         mo_BindingPort := option_map (λ p, p mod 2^16) port;
         mo_BindingAddress := address;
         mo_Checkpoint := checkpoint;
         mo_offerTimeout := offerTimeout;
         mo_refuseTimeout := refuseTimeout |}.
End options.

Example ints : ParseInt64 <$> ["42"; "-0x1F"; "010"; "9223372036854775808"; "-9223372036854775808"; "3 "; ""; "+7"; "0x"]
  = [42; -31; 8; 2^63 - 1; - 2^63; 0; 0; 7; 0].
Proof. vm_compute. reflexivity. Qed.
(** The default is 5 percent; other ratios lose up to one percent. *)
Example overcommit_default : overcommit_percent 0 default_overcommit = 5.
Proof. vm_compute. reflexivity. Qed.
Example overcommit_029 : overcommit_percent 0 (S754_finite false 5224175567749775 (-54)) = 28.
Proof. vm_compute. reflexivity. Qed.

(** ** What is read back *)

(** A digit is added to what was read so far. *)
Lemma parse_digit base n d s :
  0 ≤ d < 10 → d < base → n * base + d < 2^64 →
  parse_digits base n (String (digit_char d) s) = parse_digits base (n * base + d) s.
Proof.
  intros Hd Hb Hn. simpl. unfold digit_value.
  assert (byte (digit_char d) = 48 + d) as Hbyte.
  { unfold byte, digit_char. rewrite N_ascii_embedding by lia. lia. }
  unfold between. rewrite !Hbyte. rewrite (proj2 (Z.leb_le 48 (48 + d))), (proj2 (Z.leb_le (48 + d) 57)) by lia. simpl.
  replace (48 + d - 48) with d by lia.
  rewrite (proj2 (Z.leb_gt base d)), (proj2 (Z.leb_gt (2^64) (n * base + d))) by lia. done.
Qed.
(** Printing in decimal and reading. *)
Lemma parse_itoa fuel n acc :
  0 ≤ n < 10 ^ Z.of_nat fuel → n < 2^64 → parse_digits 10 0 (itoa_pos fuel n acc) = parse_digits 10 n acc.
Proof.
  revert n acc. induction fuel as [|fuel IH]; intros n acc [Hn Hf] Hm; [simpl in *; by replace n with 0 by lia|].
  assert (0 ≤ n mod 10 < 10) by (apply Z.mod_pos_bound; lia).
  pose proof (Z.div_mod n 10 ltac:(lia)) as Hdm.
  cbn [itoa_pos]. destruct (Z.ltb_spec n 10) as [Hlt|Hge].
  - rewrite Z.mod_small by lia. rewrite parse_digit by lia. done.
  - rewrite IH.
    + rewrite parse_digit by lia. f_equal. lia.
    + split; [apply Z.div_pos; lia|]. apply Z.div_lt_upper_bound; [lia|].
      rewrite Nat2Z.inj_succ, Z.pow_succ_r in Hf by lia. lia.
    + apply Z.div_lt_upper_bound; lia.
Qed.
(** The first digit is not 0, nor a sign. *)
Lemma itoa_head fuel n acc :
  0 < n < 10 ^ Z.of_nat fuel → ∃ d s, itoa_pos fuel n acc = String (digit_char d) s ∧ 1 ≤ d < 10.
Proof.
  revert n acc. induction fuel as [|fuel IH]; intros n acc [Hn Hf]; [simpl in *; lia|].
  cbn [itoa_pos]. destruct (Z.ltb_spec n 10) as [Hlt|Hge].
  - rewrite Z.mod_small by lia. exists n, acc. split; [done|lia].
  - apply IH. split; [apply Z.div_str_pos; lia|]. apply Z.div_lt_upper_bound; [lia|].
    rewrite Nat2Z.inj_succ, Z.pow_succ_r in Hf by lia. lia.
Qed.
Lemma digit_cases (P : Z → Prop) d :
  1 ≤ d < 10 → P 1 → P 2 → P 3 → P 4 → P 5 → P 6 → P 7 → P 8 → P 9 → P d.
Proof.
  intros Hd. assert (d = 1 ∨ d = 2 ∨ d = 3 ∨ d = 4 ∨ d = 5 ∨ d = 6 ∨ d = 7 ∨ d = 8 ∨ d = 9) as Hc by lia.
  repeat destruct Hc as [->|Hc]; try done. by subst.
Qed.
Lemma parse_positive n : 0 < n < 2^64 → parse_any_base (itoa_pos 20 n "") = number n.
Proof.
  intros Hn. destruct (itoa_head 20 n "") as (d & s & Hs & Hd); [simpl; lia|].
  pose proof (parse_itoa 20 n "" ltac:(simpl; lia) ltac:(lia)) as Hp. rewrite Hs in *.
  change (number n) with (parse_digits 10 n ""). rewrite <- Hp. apply (digit_cases (λ d, parse_any_base (String (digit_char d) s) =
    parse_digits 10 0 (String (digit_char d) s)) d Hd); reflexivity.
Qed.
Lemma ParseInt64_Itoa n : int64_range n → ParseInt64 (Itoa n) = n.
Proof.
  unfold int64_range. intros Hn. destruct (decide (n = 0)) as [->|Hz]; [done|].
  unfold Itoa. destruct (Z.ltb_spec n 0) as [Hneg|Hpos].
  - unfold ParseInt64. rewrite parse_positive by lia. rewrite (proj2 (Z.ltb_ge _ _)) by lia. lia.
  - destruct (itoa_head 20 n "") as (d & s & Hs & Hd); [simpl; lia|].
    pose proof (parse_positive n ltac:(lia)) as Hp. rewrite Hs in *.
    assert (ParseInt64 (String (digit_char d) s) = match parse_any_base (String (digit_char d) s) with
      | not_a_number => 0 | too_large => 2^63 - 1 | number n => if 2^63 <=? n then 2^63 - 1 else n end) as ->.
    { apply (digit_cases (λ d, ParseInt64 (String (digit_char d) s) = match parse_any_base (String (digit_char d) s) with
        | not_a_number => 0 | too_large => 2^63 - 1 | number n => if 2^63 <=? n then 2^63 - 1 else n end) d Hd); done. }
    rewrite Hp. by rewrite (proj2 (Z.leb_gt _ _)) by lia.
Qed.

Section options_spec.
Context (Getenv : string → string) (ParseFloat : string → spec_float).

Lemma opt_String_app opts opts' key env :
  Forall (λ o, head (SplitN2 o "=") ≠ Some key) opts →
  opt_String Getenv (opts ++ opts') key env = opt_String Getenv opts' key env.
Proof.
  induction 1 as [|o opts Ho _ IH]; [done|]. simpl. unfold SplitN2 in *.
  destruct (cut "=" o) as [[k v]|]; simpl in *;
    [destruct (String.eqb_spec k key) as [->|]|destruct (String.eqb_spec o key) as [->|]]; done.
Qed.

(** An integer option.  The first option of the key decides: printed with its key and an
    equals sign, any [int64] is read back, whatever the other options and the environment;
    the key alone panics. *)
Theorem opt_Int_print opts1 opts2 key env n :
  "="%char ∉ chars key → int64_range n → Forall (λ o, head (SplitN2 o "=") ≠ Some key) opts1 →
  opt_Int Getenv (opts1 ++ (key +:+ "=" +:+ Itoa n) :: opts2) key env = Ret (Some n) ∧
  opt_Int Getenv (opts1 ++ key :: opts2) key env = Panic "index out of range".
Proof.
  intros Hkey Hn Hopts. unfold opt_Int, opt_with. rewrite !opt_String_app by done. cbn [opt_String]. unfold SplitN2.
  rewrite (cut_app "=" "" key (Itoa n)) by done. rewrite (cut_None_notin "=" "" key) by done. simpl.
  rewrite !String.eqb_refl. simpl. by rewrite ParseInt64_Itoa.
Qed.

(** The settings of a swarm cluster, when there are any. *)
Lemma swarm_NewCluster_range options o :
  swarm_NewCluster Getenv ParseFloat options = Ret o →
  SFleb (so_overcommitRatio o) (float64_of_int (-1)) = false ∧ 0 ≤ so_createRetry o.
Proof.
  unfold swarm_NewCluster. intros (v & _ & (r & Hr & (v' & _ & (n & Hn & [= <-])%bind_Ret_inv)%bind_Ret_inv)%bind_Ret_inv)%bind_Ret_inv.
  simpl. split.
  - destruct v as [f|]; [|by injection Hr as <-]. destruct (SFleb f _) eqn:Hf; [done|]. by injection Hr as <-.
  - destruct v' as [m|]; [|by injection Hn as <-]. destruct (Z.ltb_spec m 0); [done|]. by injection Hn as <-.
Qed.
End options_spec.

Lemma opt_Int_print_witness :
  opt_Int (λ _, "") ["swarm.overcommit=0.1"; "swarm.createretry=-3"] "swarm.createretry" "" = Ret (Some (-3)).
Proof.
  apply (opt_Int_print (λ _, "") ["swarm.overcommit=0.1"] [] "swarm.createretry" "" (-3)).
  - rewrite list_elem_of_In. vm_compute. intuition discriminate.
  - unfold int64_range. lia.
  - constructor; [|constructor]. vm_compute. discriminate.
Defined.
