(* ===== verification/ApiEvents.v ===== *)
(** * The listeners of the events ([cluster/event.go], [api/events.go])

    The handlers of the cluster, and the one of the API, which writes every event to the
    HTTP clients that listen: its two tables, the broadcast, and the goroutines of the
    clients. *)
From S2P Require Import Prelude GoStrings GoFmt Config Container.
From Stdlib Require Import Ascii.

(** ** Event handlers of the cluster *)

Section handlers.
Context {E S : Type} (Handle : nat → E → S → S) (order : gset nat → list nat).

(** [eh.eventHandlers], a set of handlers *)
Definition EventHandlers : Type := gset nat.
Definition eh_RegisterEventHandler (h : nat) (eh : EventHandlers) : EventHandlers * option string :=
  if decide (h ∈ eh) then (eh, Some "event handler already set") else ({[h]} ∪ eh, None).
Definition eh_UnregisterEventHandler (h : nat) (eh : EventHandlers) : EventHandlers := eh ∖ {[h]}.
(** [Handle(e)]; the errors of the handlers are only logged. *)
Definition eh_Handle (eh : EventHandlers) (e : E) (s : S) : S := foldl (λ s h, Handle h e s) s (order eh).
End handlers.

(** ** The text of an event *)

(** The fields of an [Event] that [Handle] touches; the other ones are in [ev_Message]. *)
Record ApiEvent (T : Type) := {
  ev_Message : T;
  ev_From : string;
  ev_Attributes : option (gmap string string);
  ev_Engine : EngineHdr
}.
Arguments ev_Message {T}.
Arguments ev_From {T}.
Arguments ev_Attributes {T}.
Arguments ev_Engine {T}.

Section text.
Context {T : Type} (Marshal : ApiEvent T → string + string) (IsPrint : Z → bool).

(** The event that is marshalled: the attributes of the caller's event are written too. *)
Definition with_node (e : ApiEvent T) : ApiEvent T :=
  let h := ev_Engine e in
  {| ev_Message := ev_Message e;
     ev_From := ev_From e +:+ " node:" +:+ eng_Name h;
     ev_Attributes := Some (<["node.ip" := eng_IP h]> (<["node.addr" := eng_Addr h]> (<["node.id" := eng_ID h]>
                       (<["node.name" := eng_Name h]> (default ∅ (ev_Attributes e))))));
     ev_Engine := h |}.
Definition member (k v : string) : string := Quote IsPrint k +:+ ":" +:+ Quote IsPrint v.
Definition node_field (h : EngineHdr) : string :=
  "," +:+ Quote IsPrint "node" +:+ ":{" +:+ Join [member "Name" (eng_Name h); member "Id" (eng_ID h);
     member "Addr" (eng_Addr h); member "Ip" (eng_IP h)] "," +:+ "}}".
(** [data[:len(data)-1]] and the node *)
Definition event_data (e : ApiEvent T) : outcome (string + string) :=
  match Marshal (with_node e) with
  | inr err => Ret (inr err)
  | inl data => front ← slice_string data 0 (len data - 1); Ret (inl (front +:+ node_field (ev_Engine e)))
  end.
End text.

(** ** The tables *)

(** [type eventsHandler struct]: the writers and the channels of the remote addresses;
    channels are numbered, [lt_closed] are those that have been closed. *)
Record Listeners := mkLt {
  lt_ws : gmap string nat;
  lt_cs : gmap string nat;
  lt_closed : gset nat;
  lt_next : nat
}.
Definition no_listeners : Listeners := mkLt ∅ ∅ ∅ 0.
Definition events_Size (l : Listeners) : nat := size (lt_ws l).
(** [Add(remoteAddr, w)] *)
Definition events_Add (remoteAddr : string) (w : nat) (l : Listeners) : Listeners :=
  mkLt (<[remoteAddr := w]> (lt_ws l)) (<[remoteAddr := lt_next l]> (lt_cs l)) (lt_closed l) (S (lt_next l)).
Definition cleanupHandler (remoteAddr : string) (l : Listeners) : Listeners :=
  mkLt (delete remoteAddr (lt_ws l)) (delete remoteAddr (lt_cs l)) (lt_closed l) (lt_next l).

(** [close(ch)], of a channel that may be nil *)
Definition close_chan (ch : option nat) (l : Listeners) : outcome Listeners :=
  match ch with
  | None => Panic "close of nil channel"
  | Some ch =>
      if decide (ch ∈ lt_closed l) then Panic "close of closed channel"
      else Ret (mkLt (lt_ws l) (lt_cs l) ({[ch]} ∪ lt_closed l) (lt_next l))
  end.
(** What follows a write that failed. *)
Definition drop_failed (key : string) (l : Listeners) : outcome Listeners :=
  l ← (if lt_cs l !! key is Some ch then close_chan (Some ch) l else Ret l);
  Ret (mkLt (lt_ws l) (delete key (lt_cs l)) (lt_closed l) (lt_next l)).
Fixpoint drop_all (failed : list string) (l : Listeners) : outcome Listeners :=
  match failed with [] => Ret l | key :: failed => l ← drop_failed key l; drop_all failed l end.

(** The HTTP clients: a write to one, and whether it failed. *)
Class Writers (W : Type) := { write_to : nat → string → W → W * bool }.

Section broadcast.
Context {W : Type} `{Writers W} `{MapRange}.

(** The loop over the writers: [fmt.Fprintf] takes the event for a format. *)
Fixpoint write_all (data : string) (ws : list (string * nat)) (w : W) : W * list string :=
  match ws with
  | [] => (w, [])
  | (key, i) :: ws =>
      let '(w, failed) := write_to i (Sprintf data) w in
      let '(w, l) := write_all data ws w in
      (w, if failed : bool then key :: l else l)
  end.
(** [Handle(e)] on its own, from the text of the event *)
Definition events_Handle (data : string) (l : Listeners) (w : W) : outcome Listeners * W :=
  let '(w, failed) := write_all data (range_map (lt_ws l)) w in (drop_all failed l, w).
End broadcast.

(** ** The goroutines

    A client's goroutine is in [getEvents], an event's in [Handle].  [ch] is the channel
    that the [select] of [Wait] has been entered with, nil when the table had none. *)
Inductive listener :=
  | entering (remote : string) (timer : bool)
  | listening (remote : string) (ch : option nat) (timer : bool)
  | timed_out (remote : string)
  | leaving (remote : string)
  | writing (data : string) (todo : list (string * nat)) (failed : list string)
  | dropping (failed : list string).

(** [Handle] holds the lock for reading while it writes. *)
Definition is_writing (g : listener) : bool := match g with writing _ _ _ => true | _ => false end.
Record EventsSys (W : Type) := mkEv { es_world : W; es_tables : Listeners; es_threads : list listener }.
Arguments mkEv {W}.
Arguments es_world {W}.
Arguments es_tables {W}.
Arguments es_threads {W}.

Section steps.
Context {W : Type} `{Writers W} `{MapRange}.
Implicit Types (s : EventsSys W) (l : list listener).

Definition unlocked l : Prop := existsb is_writing l = false.

Inductive ev_step s : outcome (EventsSys W) → Prop :=
  (** A client arrives; [timer] tells whether it asked for an end. *)
  | ev_add remote w timer :
      unlocked (es_threads s) →
      ev_step s (Ret (mkEv (es_world s) (events_Add remote w (es_tables s)) (entering remote timer :: es_threads s)))
  | ev_enter remote timer l :
      es_threads s ≡ₚ entering remote timer :: l →
      ev_step s (Ret (mkEv (es_world s) (es_tables s)
        (listening remote (lt_cs (es_tables s) !! remote) timer :: l)))
  (** Its channel is closed, or its connection, or its time is over. *)
  | ev_dropped remote ch timer l :
      es_threads s ≡ₚ listening remote (Some ch) timer :: l → ch ∈ lt_closed (es_tables s) →
      ev_step s (Ret (mkEv (es_world s) (es_tables s) (leaving remote :: l)))
  | ev_gone remote ch timer l :
      es_threads s ≡ₚ listening remote ch timer :: l →
      ev_step s (Ret (mkEv (es_world s) (es_tables s) (leaving remote :: l)))
  | ev_timer remote ch l :
      es_threads s ≡ₚ listening remote ch true :: l →
      ev_step s (Ret (mkEv (es_world s) (es_tables s) (timed_out remote :: l)))
  | ev_close remote l :
      es_threads s ≡ₚ timed_out remote :: l →
      ev_step s (t ← close_chan (lt_cs (es_tables s) !! remote) (es_tables s);
                 Ret (mkEv (es_world s) t (leaving remote :: l)))
  | ev_cleanup remote l :
      es_threads s ≡ₚ leaving remote :: l → unlocked l →
      ev_step s (Ret (mkEv (es_world s) (cleanupHandler remote (es_tables s)) l))
  (** An event is broadcast. *)
  | ev_event data :
      ev_step s (Ret (mkEv (es_world s) (es_tables s)
        (writing data (range_map (lt_ws (es_tables s))) [] :: es_threads s)))
  | ev_write data key i todo failed l :
      es_threads s ≡ₚ writing data ((key, i) :: todo) failed :: l →
      ev_step s (let '(w, bad) := write_to i (Sprintf data) (es_world s) in
                 Ret (mkEv w (es_tables s)
                   (writing data todo (if bad : bool then failed ++ [key] else failed) :: l)))
  | ev_written data failed l :
      es_threads s ≡ₚ writing data [] failed :: l →
      ev_step s (Ret (mkEv (es_world s) (es_tables s) (dropping failed :: l)))
  | ev_drop failed l :
      es_threads s ≡ₚ dropping failed :: l → unlocked l →
      ev_step s (t ← drop_all failed (es_tables s); Ret (mkEv (es_world s) t l)).

Definition ev_next s s' : Prop := ev_step s (Ret s').
Definition nobody_listens (w : W) : EventsSys W := mkEv w no_listeners [].
Definition ev_reachable s : Prop := ∃ w, rtc ev_next (nobody_listens w) s.
End steps.

(** ** What holds between the steps *)

Definition client_of (g : listener) : option string :=
  match g with
  | entering r _ | listening r _ _ | timed_out r | leaving r => Some r
  | writing _ _ _ | dropping _ => None
  end.
(** The channels of the table are different ones that have been made. *)
Record channels_ok (l : Listeners) : Prop := {
  co_known : ∀ r, is_Some (lt_cs l !! r) → is_Some (lt_ws l !! r);
  co_made : ∀ r ch, lt_cs l !! r = Some ch → (ch < lt_next l)%nat;
  co_own : ∀ r r' ch, lt_cs l !! r = Some ch → lt_cs l !! r' = Some ch → r = r';
  co_closed : ∀ ch, ch ∈ lt_closed l → (ch < lt_next l)%nat
}.
(** Every address has its goroutine, and one that is leaving if its channel is closed. *)
Record listeners_ok {W} (s : EventsSys W) : Prop := {
  lo_channels : channels_ok (es_tables s);
  lo_client : ∀ r, is_Some (lt_ws (es_tables s) !! r) → r ∈ omap client_of (es_threads s);
  lo_leaving : ∀ r ch, lt_cs (es_tables s) !! r = Some ch → ch ∈ lt_closed (es_tables s) →
    leaving r ∈ es_threads s
}.

Lemma close_chan_Ret ch l l' :
  close_chan ch l = Ret l' → ∃ c, ch = Some c ∧ c ∉ lt_closed l ∧
    lt_ws l' = lt_ws l ∧ lt_cs l' = lt_cs l ∧ lt_closed l' = {[c]} ∪ lt_closed l ∧ lt_next l' = lt_next l.
Proof.
  unfold close_chan. destruct ch as [c|]; [|done]. case_decide; [done|]. intros [= <-]. by exists c.
Qed.
(** Dropping addresses: their channels are closed and leave the table. *)
Record dropped (keys : list string) (l l' : Listeners) : Prop := {
  dr_ws : lt_ws l' = lt_ws l;
  dr_cs : ∀ r, lt_cs l' !! r = if decide (r ∈ keys) then None else lt_cs l !! r;
  dr_closed : ∀ ch, ch ∈ lt_closed l' ↔ ch ∈ lt_closed l ∨ ∃ r, r ∈ keys ∧ lt_cs l !! r = Some ch;
  dr_next : lt_next l' = lt_next l
}.
Lemma drop_failed_dropped key l l' : drop_failed key l = Ret l' → dropped [key] l l'.
Proof.
  unfold drop_failed. destruct (lt_cs l !! key) as [ch|] eqn:Hk.
  - destruct (close_chan (Some ch) l) as [l1| |] eqn:Hc; [|done..]. intros [= <-].
    apply close_chan_Ret in Hc as (c & [= <-] & _ & Hw & Hcs & Hcl & Hn).
    split; simpl; [done| | |done].
    + intros r. rewrite Hcs. case_decide as Hr.
      * apply list_elem_of_singleton in Hr as ->. by rewrite lookup_delete_eq.
      * rewrite lookup_delete_ne; [done|]. set_solver.
    + intros c. rewrite Hcl. split; [|set_solver].
      intros [->%elem_of_singleton|?]%elem_of_union; [right; exists key; set_solver|by left].
  - intros [= <-]. split; simpl; [done| | |done].
    + intros r. case_decide as Hr.
      * apply list_elem_of_singleton in Hr as ->. by rewrite lookup_delete_eq.
      * rewrite lookup_delete_ne; [done|]. set_solver.
    + intros c. split; [by left|]. intros [?|(r & ->%list_elem_of_singleton & ?)]; [done|congruence].
Qed.
Lemma drop_all_dropped keys l l' : drop_all keys l = Ret l' → dropped keys l l'.
Proof.
  revert l. induction keys as [|key keys IH]; intros l; simpl.
  { intros [= <-]. split; simpl; [done|done| |done]. intros ch. set_solver. }
  intros (l1 & H1 & H2)%bind_Ret_inv. apply drop_failed_dropped in H1 as [A1 A2 A3 A4].
  apply IH in H2 as [B1 B2 B3 B4]. split; [congruence| | |congruence].
  - intros r. rewrite B2, A2. repeat case_decide; set_solver.
  - intros ch. rewrite B3, A3. setoid_rewrite A2. split.
    + intros [[?|(r & ? & ?)]|(r & ? & Hr)]; [by left|right; exists r; set_solver|].
      case_decide; [done|]. right. exists r. set_solver.
    + intros [?|(r & Hr & Hch)]; [by left; left|].
      destruct (decide (r ∈ [key])) as [Hk|Hk]; [left; right; by exists r|].
      right. exists r. rewrite decide_False by done. set_solver.
Qed.
Lemma dropped_ok keys l l' :
  dropped keys l l' → channels_ok l →
  channels_ok l' ∧ ∀ r ch, lt_cs l' !! r = Some ch → ch ∈ lt_closed l' → lt_cs l !! r = Some ch ∧ ch ∈ lt_closed l.
Proof.
  intros [A1 A2 A3 A4] [O1 O2 O3 O4]. split.
  - split.
    + intros r. rewrite A2, A1. case_decide; [by intros []|apply O1].
    + intros r ch. rewrite A2, A4. case_decide; [done|apply O2].
    + intros r r' ch. rewrite !A2. repeat case_decide; try done. apply O3.
    + intros ch. rewrite A3, A4. intros [?|(r & _ & ?)]; eauto.
  - intros r ch. rewrite A2, A3. case_decide as Hr; [done|]. intros Hch [?|(r' & Hr' & Hch')]; [done|].
    by rewrite (O3 _ _ _ Hch Hch') in Hr.
Qed.
(** It works when none of the channels was closed. *)
Lemma drop_all_Ret keys l :
  channels_ok l → (∀ r ch, lt_cs l !! r = Some ch → ch ∉ lt_closed l) → ∃ l', drop_all keys l = Ret l'.
Proof.
  revert l. induction keys as [|key keys IH]; intros l Hok Hopen; simpl; [by eexists|].
  assert (∃ l1, drop_failed key l = Ret l1) as [l1 H1].
  { unfold drop_failed. destruct (lt_cs l !! key) as [ch|] eqn:Hk; [|by eexists].
    unfold close_chan. rewrite decide_False by (by eapply Hopen). by eexists. }
  rewrite H1. simpl. apply drop_failed_dropped in H1.
  destruct (dropped_ok _ _ _ H1 Hok) as [Hok1 Hcl]. apply IH; [done|].
  intros r ch Hch Hin. destruct (Hcl r ch Hch Hin) as [Hl Hc]. by eapply Hopen.
Qed.

Section broadcast_spec.
Context {W : Type} `{Writers W} `{MapRange}.

Lemma write_all_failed data ws (w : W) : (write_all data ws w).2 ⊆ ws.*1.
Proof.
  revert w. induction ws as [|[key i] ws IH]; intros w; simpl; [done|].
  destruct (write_to i (Sprintf data) w) as [w1 bad]. specialize (IH w1).
  destruct (write_all data ws w1) as [w2 l2]. simpl in *. destruct bad; set_solver.
Qed.

(** Broadcasting, on its own.  Every listener is sent the event once, as [fmt] formats it;
    those whose write failed lose their channel, which is closed, but stay in the table of
    the writers; nothing else changes. *)
Theorem events_Handle_spec data l (w : W) :
  channels_ok l → (∀ r ch, lt_cs l !! r = Some ch → ch ∉ lt_closed l) →
  let r := write_all data (range_map (lt_ws l)) w in let failed := r.2 in
  ∃ l', events_Handle data l w = (Ret l', r.1) ∧ dropped failed l l' ∧ channels_ok l' ∧
    (∀ r ch, lt_cs l' !! r = Some ch → ch ∉ lt_closed l') ∧ failed ⊆ (range_map (lt_ws l)).*1.
Proof.
  intros Hok Hopen. unfold events_Handle.
  pose proof (write_all_failed data (range_map (lt_ws l)) w) as Hsub.
  destruct (write_all data (range_map (lt_ws l)) w) as [w' failed]. simpl.
  destruct (drop_all_Ret failed l Hok Hopen) as [l' Hl']. exists l'. rewrite Hl'.
  apply drop_all_dropped in Hl'. destruct (dropped_ok _ _ _ Hl' Hok) as [Hok' Hcl].
  split; [done|]. split; [done|]. split; [done|]. split; [|done].
  intros r ch Hch Hin. destruct (Hcl r ch Hch Hin) as [Hl Hc]. by eapply Hopen.
Qed.
End broadcast_spec.

(** ** The goroutines *)

Section reachable.
Context {W : Type} `{Writers W} `{MapRange}.
Implicit Types (s : EventsSys W) (l : list listener).

Lemma listeners_ok_perm (w : W) t l ts :
  ts ≡ₚ l → listeners_ok (mkEv w t ts) → listeners_ok (mkEv w t l).
Proof.
  intros Hl [A1 A2 A3]. simpl in *. split; simpl; [done| |].
  - intros r. rewrite <- Hl. apply A2.
  - intros r ch. rewrite <- Hl. apply A3.
Qed.
(** A client's goroutine goes on; what is not one comes, goes on or goes. *)
Lemma client_goes_on (w : W) t g g' l r :
  listeners_ok (mkEv w t (g :: l)) → client_of g = Some r → client_of g' = Some r → g ≠ leaving r →
  listeners_ok (mkEv w t (g' :: l)).
Proof.
  intros [A1 A2 A3] Hg Hg' Hne. simpl in *. rewrite Hg in A2. split; simpl; [done|by rewrite Hg'|].
  intros r' ch Hch Hin. specialize (A3 r' ch Hch Hin). apply elem_of_cons in A3 as [<-|?]; [|by right].
  simpl in Hg. congruence.
Qed.
Lemma no_clients gs : Forall (λ g, client_of g = None) gs → omap client_of gs = [].
Proof. induction 1 as [|g gs Hg _ IH]; [done|]. simpl. by rewrite Hg. Qed.
Lemma others_go_on (w w' : W) t gs gs' l :
  Forall (λ g, client_of g = None) gs →
  listeners_ok (mkEv w t (gs ++ l)) → listeners_ok (mkEv w' t (gs' ++ l)).
Proof.
  intros Hgs [A1 A2 A3]. simpl in *.
  pose proof (no_clients gs Hgs) as Hno.
  split; simpl; [done| |].
  - intros r Hr. apply A2 in Hr. rewrite omap_app, Hno in Hr. rewrite omap_app. apply elem_of_app. by right.
  - intros r ch Hch Hin. specialize (A3 r ch Hch Hin). apply elem_of_app in A3 as [Hg|?]; [|set_solver].
    rewrite Forall_forall in Hgs. by specialize (Hgs _ Hg).
Qed.

Lemma ev_add_ok (w : W) t ts remote i timer :
  listeners_ok (mkEv w t ts) →
  listeners_ok (mkEv w (events_Add remote i t) (entering remote timer :: ts)).
Proof.
  intros [[O1 O2 O3 O4] A2 A3]. simpl in *. split; simpl.
  - split; simpl.
    + intros r. rewrite !lookup_insert_is_Some'. naive_solver.
    + intros r ch [[<- <-]|[_ Hch]]%lookup_insert_Some; [lia|]. specialize (O2 r ch Hch). lia.
    + intros r r' ch [[<- <-]|[_ Hch]]%lookup_insert_Some [[<- Heq]|[_ Hch']]%lookup_insert_Some; try done.
      * apply O2 in Hch'. lia.
      * subst. apply O2 in Hch. lia.
      * by eapply O3.
    + intros ch Hch. specialize (O4 ch Hch). lia.
  - intros r [<-|Hr]%lookup_insert_is_Some'; [by left|]. right. by apply A2.
  - intros r ch [[<- <-]|[_ Hch]]%lookup_insert_Some Hin; [apply O4 in Hin; lia|]. right. by eapply A3.
Qed.
Lemma ev_cleanup_ok (w : W) t remote l :
  listeners_ok (mkEv w t (leaving remote :: l)) → listeners_ok (mkEv w (cleanupHandler remote t) l).
Proof.
  intros [[O1 O2 O3 O4] A2 A3]. simpl in *. split; simpl.
  - split; simpl; [| | |done].
    + intros r [ch [Hne Hch]%lookup_delete_Some]. rewrite lookup_delete_ne by done. apply O1. by eexists.
    + intros r ch [_ Hch]%lookup_delete_Some. by eapply O2.
    + intros r r' ch [_ Hch]%lookup_delete_Some [_ Hch']%lookup_delete_Some. by eapply O3.
  - intros r [i [Hne Hr]%lookup_delete_Some].
    assert (r ∈ remote :: omap client_of l) as [->|?]%elem_of_cons by (apply A2; by eexists); done.
  - intros r ch [Hne Hch]%lookup_delete_Some Hin. specialize (A3 r ch Hch Hin).
    apply elem_of_cons in A3 as [[= ->]|?]; done.
Qed.
Lemma ev_close_ok (w : W) t t' remote l :
  listeners_ok (mkEv w t (timed_out remote :: l)) → close_chan (lt_cs t !! remote) t = Ret t' →
  listeners_ok (mkEv w t' (leaving remote :: l)).
Proof.
  intros [[O1 O2 O3 O4] A2 A3] (c & Hc & _ & Hw & Hcs & Hcl & Hn)%close_chan_Ret. simpl in *.
  split; simpl.
  - split; rewrite ?Hw, ?Hcs, ?Hn; try done. intros ch. rewrite Hcl.
    intros [->%elem_of_singleton|?]%elem_of_union; [by eapply O2|by apply O4].
  - by rewrite Hw.
  - intros r ch. rewrite Hcs, Hcl. intros Hch [->%elem_of_singleton|Hin]%elem_of_union.
    + rewrite (O3 _ _ _ Hch Hc). by left.
    + specialize (A3 r ch Hch Hin). apply elem_of_cons in A3 as [?|?]; [done|by right].
Qed.
Lemma ev_drop_ok (w : W) t t' failed l :
  listeners_ok (mkEv w t (dropping failed :: l)) → drop_all failed t = Ret t' → listeners_ok (mkEv w t' l).
Proof.
  intros [A1 A2 A3] Hd%drop_all_dropped. simpl in *. destruct (dropped_ok _ _ _ Hd A1) as [Hok' Hcl].
  split; simpl; [done|by rewrite (dr_ws _ _ _ Hd)|].
  intros r ch Hch Hin. destruct (Hcl r ch Hch Hin) as [Hl Hc].
  specialize (A3 r ch Hl Hc). apply elem_of_cons in A3 as [?|?]; done.
Qed.

Lemma ev_step_ok s s' : listeners_ok s → ev_next s s' → listeners_ok s'.
Proof.
  unfold ev_next. intros Hok Hstep. destruct s as [w t ts]. remember (Ret s') as o eqn:Ho.
  destruct Hstep as [remote i timer _|remote timer l Hl|remote ch timer l Hl Hch|remote ch timer l Hl
    |remote ch l Hl|remote l Hl|remote l Hl Hlock|data|data key i todo failed l Hl|data failed l Hl
    |failed l Hl Hlock]; simpl in *; try (apply (listeners_ok_perm _ _ _ _ Hl) in Hok).
  - injection Ho as <-. by apply ev_add_ok.
  - injection Ho as <-. eapply client_goes_on; [exact Hok|reflexivity|reflexivity|discriminate].
  - injection Ho as <-. eapply client_goes_on; [exact Hok|reflexivity|reflexivity|discriminate].
  - injection Ho as <-. eapply client_goes_on; [exact Hok|reflexivity|reflexivity|discriminate].
  - injection Ho as <-. eapply client_goes_on; [exact Hok|reflexivity|reflexivity|discriminate].
  - destruct (close_chan _ t) as [t'| |] eqn:Hc; [|done..]. injection Ho as <-. by eapply ev_close_ok.
  - injection Ho as <-. by apply ev_cleanup_ok.
  - injection Ho as <-. by eapply (others_go_on w w t [] [_] ts).
  - destruct (write_to _ _ _) as [w' bad]. injection Ho as <-.
    eapply (others_go_on w w' t [writing data ((key, i) :: todo) failed] [_] l); [by constructor|exact Hok].
  - injection Ho as <-. eapply (others_go_on w w t [writing data [] failed] [_] l); [by constructor|exact Hok].
  - destruct (drop_all failed t) as [t'| |] eqn:Hd; [|done..]. injection Ho as <-. by eapply ev_drop_ok.
Qed.
Lemma ev_reachable_ok s : ev_reachable s → listeners_ok s.
Proof.
  intros [w Hr]. remember (nobody_listens w) as s0 eqn:Hs0.
  assert (listeners_ok s0) as Hok.
  { assert (∀ A (r : string), ¬ is_Some ((∅ : gmap string A) !! r)) as Hno.
    { intros A r [x Hx]. by rewrite lookup_empty in Hx. }
    rewrite Hs0. split; simpl; [|by intros r ?%Hno|done].
    split; simpl; [by intros r ?%Hno|done|done|set_solver]. }
  clear Hs0. induction Hr; [done|]. by eauto using ev_step_ok.
Qed.
End reachable.

Section safety.
Context {W : Type} `{Writers W} `{MapRange}.

(** A client whose time was over. *)
Definition was_timed_out (s : EventsSys W) : Prop :=
  (∃ r, timed_out r ∈ es_threads s) ∨
  ∃ r ch, leaving r ∈ es_threads s ∧ lt_cs (es_tables s) !! r = Some ch ∧ ch ∈ lt_closed (es_tables s).

(** C28: the listeners.  Whatever the order of arrivals, events, failed writes, departures and
    ends: the addresses with a channel have a writer; each entry has the goroutine that will
    remove it; a channel in the table is closed only while its goroutine leaves; and a step
    panics only when some client's time was over. *)
Theorem listeners_reachable (s : EventsSys W) :
  ev_reachable s → listeners_ok s ∧ ∀ o, ev_step s o → (∃ s', o = Ret s') ∨ was_timed_out s.
Proof.
  intros Hok%ev_reachable_ok. split; [done|]. intros o Hstep.
  destruct Hstep as [| | | | |remote l Hl| | |data key i todo failed l Hl| |failed l Hl Hlock]; try (left; by eexists).
  - right. left. exists remote. rewrite Hl. by left.
  - left. destruct (write_to _ _ _) as [w' bad]. by eexists.
  - destruct (decide (map_Forall (λ _ ch, ch ∉ lt_closed (es_tables s)) (lt_cs (es_tables s)))) as [Hopen|Hopen].
    + left. destruct (drop_all_Ret failed (es_tables s)) as [t' ->]; [by apply lo_channels|done|by eexists].
    + right. right. apply map_not_Forall in Hopen as (r & ch & Hch & Hin%dec_stable); [|apply _].
      exists r, ch. split; [|done]. by eapply lo_leaving.
Qed.
End safety.

(** ** A client whose time is over, and an event with a percent sign *)

Section concrete.
Existing Instance canonical_range.
Definition gone_client : Writers unit := {| write_to := λ _ _ w, (w, true) |}.
Definition recording : Writers (list string) := {| write_to := λ _ text w, (w ++ [text], false) |}.
Existing Instances gone_client recording.

Definition dropped_in_time : EventsSys unit :=
  mkEv tt (mkLt {["10.0.0.1:5000" := 0%nat]} ∅ {[0%nat]} 1) [timed_out "10.0.0.1:5000"].
Lemma ev_outcome (s s' : EventsSys unit) o : ev_step s o → o = Ret s' → ev_next s s'.
Proof. by intros Hs ->. Qed.
Lemma dropped_in_time_reachable : ev_reachable dropped_in_time.
Proof.
  exists tt. set (a := "10.0.0.1:5000"). set (T := mkLt {[a := 0%nat]} {[a := 0%nat]} ∅ 1).
  set (waiter := listening a (Some 0%nat) true).
  apply (rtc_l _ _ (mkEv tt T [entering a true])).
  { eapply ev_outcome; [by apply (ev_add _ a 0 true)|by vm_compute]. }
  apply (rtc_l _ _ (mkEv tt T [waiter])).
  { eapply ev_outcome; [by apply (ev_enter _ a true [])|by vm_compute]. }
  apply (rtc_l _ _ (mkEv tt T [writing "{}" [(a, 0%nat)] []; waiter])).
  { eapply ev_outcome; [apply (ev_event _ "{}")|by vm_compute]. }
  apply (rtc_l _ _ (mkEv tt T [writing "{}" [] [a]; waiter])).
  { eapply ev_outcome; [by apply (ev_write _ "{}" a 0 [] [] [waiter])|by vm_compute]. }
  apply (rtc_l _ _ (mkEv tt T [dropping [a]; waiter])).
  { eapply ev_outcome; [by apply (ev_written _ "{}" [a] [waiter])|by vm_compute]. }
  apply (rtc_l _ _ (mkEv tt T [timed_out a; dropping [a]])).
  { eapply ev_outcome; [by apply (ev_timer _ a (Some 0%nat) [dropping [a]]), Permutation_swap|by vm_compute]. }
  apply rtc_once. eapply ev_outcome; [apply (ev_drop _ [a] [timed_out a]); [apply Permutation_swap|done]|by vm_compute].
Qed.

(** The end of a client's time races with a write that fails: [Handle] closes the channel of
    the client and takes it out of the table, and the goroutine of the client, whose timer
    has fired, closes what it finds there, a nil channel. *)
Theorem timeout_race_panics :
  ∃ s : EventsSys unit, ev_reachable s ∧ ev_step s (Panic "close of nil channel").
Proof.
  exists dropped_in_time. split; [apply dropped_in_time_reachable|].
  apply (ev_close dropped_in_time "10.0.0.1:5000" []). reflexivity.
Qed.
Lemma listeners_reachable_witness : listeners_ok dropped_in_time.
Proof. apply (listeners_reachable dropped_in_time dropped_in_time_reachable). Defined.

Definition one_listener : Listeners := events_Add "10.0.0.1:5000" 0 no_listeners.
Lemma events_Handle_spec_witness :
  ∃ l', events_Handle "{}" one_listener [] = (Ret l', ["{}"]) ∧ channels_ok l'.
Proof.
  replace ["{}"] with (write_all "{}" (range_map (lt_ws one_listener)) []).1 by (by vm_compute).
  destruct (events_Handle_spec "{}" one_listener []) as (l' & Hl' & _ & Hok & _).
  - split; simpl.
    + intros r [ch [<- _]%lookup_singleton_Some]. by eexists.
    + intros r ch [_ <-]%lookup_singleton_Some. lia.
    + intros r r' ch [<- _]%lookup_singleton_Some [<- _]%lookup_singleton_Some. done.
    + set_solver.
  - set_solver.
  - exists l'. split; [exact Hl'|exact Hok].
Defined.

(** The text of an event is taken for a format: a percent sign in it is not written as it
    is, and what the clients receive is not the event. *)
Theorem event_is_a_format :
  (events_Handle "{'from':'50% off node:n'}" one_listener []).2 = ["{'from':'50%!o(MISSING)ff node:n'}"].
Proof. vm_compute. reflexivity. Qed.
End concrete.
