(* ===== verification/Leadership.v ===== *)
(** * The election of the primary manager ([cli/manage.go], [api/replica.go], [api/server.go])

    A manager that replicates runs for election and follows it.  What it does with the
    outcome is to register or drop its watchdog, and to change the handler of its HTTP
    server: the API when it is the leader, a proxy to the leader otherwise. *)
From S2P Require Import Prelude GoStrings ApiEvents.

(** ** The replica's handler *)

(** Who answers a request. *)
Inductive reply :=
  | by_router
  | forwarded_to (addr : string)
  | failed (status : Z) (text : string).

Definition localRoutes : list string := ["/_ping"; "/info"; "/debug"].
(** The address that [hijack] dials: without the protocol. *)
Definition hijack_addr (addr : string) : string :=
  match SplitN2 addr "://" with [_; a] => a | _ => addr end.
(** [Replica.ServeHTTP], [hijack] being the error of the forwarding. *)
Definition Replica_ServeHTTP (hijack : string → option string) (primary path : string) : reply :=
  if existsb (HasSuffix path) localRoutes then by_router
  else if String.eqb primary "" then failed 500 "No elected primary cluster manager"
  else match hijack (hijack_addr primary) with
       | None => forwarded_to (hijack_addr primary)
       | Some err =>
           failed 500 ("Unable to reach primary cluster manager (" +:+ err +:+ "): " +:+ primary)
       end.

(** ** The state of a manager *)

Inductive handler := primary_api | replica_api.
(** The handler of the dispatcher, which is nil until one is set. *)
Definition dispatcher_ServeHTTP (h : option handler) (hijack : string → option string)
    (primary path : string) : reply :=
  match h with
  | None => failed 500 "No dispatcher defined"
  | Some primary_api => by_router
  | Some replica_api => Replica_ServeHTTP hijack primary path
  end.

(** What the library's candidate is doing: it has not been started, or its election
    failed; it has been started; it has announced [false]; it has announced [true]. *)
Inductive campaign := idle | started | following | leading.

(** [rp_watchdogs]: the watchdogs among the event handlers of the cluster; [rp_watchdog]:
    the variable of [run]; [rp_primary]: the field of the replica; [rp_ready]: whether
    [setupReplication] has reached its end. *)
Record Replication := mkRep {
  rp_handler : option handler;
  rp_watchdogs : gset nat;
  rp_next : nat;
  rp_watchdog : option nat;
  rp_primary : string;
  rp_campaign : campaign;
  rp_ready : bool
}.
Definition not_set_up : Replication := mkRep None ∅ 0 None "" idle false.

(** [server.SetHandler(handler)] *)
Definition SetHandler (h : handler) (s : Replication) : Replication :=
  mkRep (Some h) (rp_watchdogs s) (rp_next s) (rp_watchdog s) (rp_primary s) (rp_campaign s) (rp_ready s).
(** [replica.SetPrimary(primary)] *)
Definition SetPrimary (primary : string) (s : Replication) : Replication :=
  mkRep (rp_handler s) (rp_watchdogs s) (rp_next s) (rp_watchdog s) primary (rp_campaign s) (rp_ready s).
(** [watchdog = cluster.NewWatchdog(cl)]: the refusal of the registration is not looked at. *)
Definition NewWatchdog (s : Replication) : Replication :=
  mkRep (rp_handler s) (eh_RegisterEventHandler (rp_next s) (rp_watchdogs s)).1 (S (rp_next s))
        (Some (rp_next s)) (rp_primary s) (rp_campaign s) (rp_ready s).
(** [cl.UnregisterEventHandler(watchdog)]; a nil watchdog is no key of the table. *)
Definition UnregisterWatchdog (s : Replication) : Replication :=
  mkRep (rp_handler s)
        (match rp_watchdog s with
         | Some w => eh_UnregisterEventHandler w (rp_watchdogs s) | None => rp_watchdogs s end)
        (rp_next s) (rp_watchdog s) (rp_primary s) (rp_campaign s) (rp_ready s).
Definition set_campaign (c : campaign) (s : Replication) : Replication :=
  mkRep (rp_handler s) (rp_watchdogs s) (rp_next s) (rp_watchdog s) (rp_primary s) c (rp_ready s).

(** ** The loops of [run] and of [follow] *)

(** The start of [run]: a new election, and a nil watchdog. *)
Definition run_start (s : Replication) : Replication :=
  mkRep (rp_handler s) (rp_watchdogs s) (rp_next s) None (rp_primary s) started (rp_ready s).
(** A value received from [electedCh]. *)
Definition run_elected (isElected : bool) (s : Replication) : Replication :=
  if isElected then SetHandler primary_api (NewWatchdog s)
  else SetHandler replica_api (UnregisterWatchdog s).
(** A value received from [leaderCh]. *)
Definition follow_leader (addr leader : string) (s : Replication) : Replication :=
  if String.eqb leader "" then s
  else if String.eqb leader addr then SetPrimary "" s
  else SetPrimary leader s.
(** The last statement of [setupReplication]. *)
Definition setup_done (s : Replication) : Replication :=
  let s := SetHandler primary_api s in
  mkRep (rp_handler s) (rp_watchdogs s) (rp_next s) (rp_watchdog s) (rp_primary s) (rp_campaign s) true.

(** The steps of the two goroutines and of [setupReplication], which started them.  The
    candidate, as its documentation says, announces that it is not the leader, then that
    it is, and so on; its election fails while it is not the leader, and [run] is then
    called again.  [timely]: whether [setupReplication] ends before the first
    announcement is received. *)
Inductive rep_step (timely : bool) (addr : string) (s : Replication) : Replication → Prop :=
  | rep_run : rp_campaign s = idle → rep_step timely addr s (run_start s)
  | rep_lost : rp_campaign s = started ∨ rp_campaign s = leading →
      rep_step timely addr s (run_elected false (set_campaign following s))
  | rep_won : rp_campaign s = following → rep_step timely addr s (run_elected true (set_campaign leading s))
  | rep_error : rp_campaign s = following → rep_step timely addr s (set_campaign idle s)
  | rep_leader leader : rep_step timely addr s (follow_leader addr leader s)
  | rep_setup : rp_ready s = false → (timely = true → rp_handler s = None) →
      rep_step timely addr s (setup_done s).

(** [Status()] of the status handler: the role of the manager, then the cluster's lines;
    without an election, the manager is the primary. *)
Definition statusHandler_Status (IsLeader : option bool) (Leader : string) (info : list (string * string))
    : list (string * string) :=
  match IsLeader with
  | Some false => [("Role", "replica"); ("Primary", Leader)]
  | _ => [("Role", "primary")]
  end ++ info.

(** ** Invariant *)

Record replication_ok (addr : string) (s : Replication) : Prop := {
  ok_fresh : ∀ w, w ∈ rp_watchdogs s → (w < rp_next s)%nat;
  ok_watchdogs : rp_watchdogs s = match rp_campaign s, rp_watchdog s with leading, Some w => {[w]} | _, _ => ∅ end;
  ok_leading : rp_campaign s = leading → is_Some (rp_watchdog s);
  ok_primary : rp_primary s ≠ addr;
  ok_handler : match rp_campaign s with
               | following => rp_handler s = Some replica_api
               | leading => rp_handler s = Some primary_api
               | started | idle => True
               end
}.
Lemma replication_ok_step addr s s' :
  addr ≠ "" → replication_ok addr s → rep_step true addr s s' → replication_ok addr s'.
Proof.
  intros Haddr [Hf Hw Hl Hp Hh] [Hc|[Hc|Hc]|Hc|Hc|leader|Hr Ht].
  - rewrite Hc in Hw. constructor; simpl; [done|done|done|done|done].
  - rewrite Hc in Hw. assert (rp_watchdogs (UnregisterWatchdog s) = ∅) as Hu.
    { simpl. rewrite Hw. unfold eh_UnregisterEventHandler. clear. destruct (rp_watchdog s); set_solver. }
    constructor; simpl in *; rewrite ?Hu; [clear; set_solver|done..].
  - rewrite Hc in Hw, Hl. destruct (Hl eq_refl) as [w Hsome]. rewrite Hsome in Hw.
    assert (rp_watchdogs (UnregisterWatchdog s) = ∅) as Hu.
    { simpl. rewrite Hsome, Hw. unfold eh_UnregisterEventHandler. clear. set_solver. }
    constructor; simpl in *; rewrite ?Hu; [clear; set_solver|done..].
  - rewrite Hc in Hw. assert (rp_watchdogs (NewWatchdog s) = {[rp_next s]}) as Hn.
    { simpl. unfold eh_RegisterEventHandler. rewrite Hw, decide_False by (clear; set_solver).
      simpl. clear. set_solver. }
    constructor; simpl in *; rewrite ?Hn; [|done|by eexists|done..].
    intros w ->%elem_of_singleton. lia.
  - rewrite Hc in Hw. constructor; simpl; [by rewrite Hw|done..].
  - unfold follow_leader. destruct (String.eqb_spec leader ""); [done|].
    destruct (String.eqb_spec leader addr); by constructor; simpl.
  - specialize (Ht eq_refl). constructor; simpl; [done..|].
    destruct (rp_campaign s); [done..|congruence|done].
Qed.

Definition elected_after_a_loss : Replication :=
  run_elected true (set_campaign leading (run_elected false (set_campaign following
    (run_elected true (set_campaign leading (run_elected false (set_campaign following
      (run_start (setup_done not_set_up))))))))).

(** [setupReplication] sets the handler of the API after it has started the two
    goroutines: when the first announcement comes before, a manager that has not been
    elected answers every request itself, for as long as another one is the leader. *)
Theorem late_setup_serves :
  ∃ s, rtc (rep_step false "a:1") not_set_up s ∧ rp_ready s = true ∧ rp_campaign s = following ∧
    rp_primary s = "b:1" ∧ rp_watchdogs s = ∅ ∧
    ∀ hijack path, dispatcher_ServeHTTP (rp_handler s) hijack (rp_primary s) path = by_router.
Proof.
  exists (follow_leader "a:1" "b:1" (setup_done (run_elected false (set_campaign following (run_start not_set_up))))).
  split; [|by split_and!].
  eapply rtc_l; [by apply rep_run|]. eapply rtc_l; [apply rep_lost; by left|].
  eapply rtc_l; [by apply rep_setup|]. eapply rtc_l; [apply rep_leader|]. apply rtc_refl.
Qed.
(** The address and the error change places in the message. *)
Example unreachable_message :
  Replica_ServeHTTP (λ _, Some "connection refused") "10.0.0.2:3375" "/containers/json" =
  failed 500 "Unable to reach primary cluster manager (connection refused): 10.0.0.2:3375".
Proof. reflexivity. Qed.
