(* ===== verification/Node.v ===== *)
(** * Scheduler nodes ([scheduler/node/node.go])

    The snapshot of an engine that the filters and strategies look at. *)
From S2P Require Import Prelude GoStrings Json Config Container Inventory EngineState EngineOps.

(** [type Node struct] *)
Record Node := {
  nd_ID : string;
  nd_IP : string;
  nd_Addr : string;
  nd_Name : string;
  nd_Labels : gmap string string;
  nd_Containers : list Container;
  nd_Images : list Image;
  nd_UsedMemory : Z;
  nd_UsedCpus : Z;
  nd_TotalMemory : Z;
  nd_TotalCpus : Z;
  nd_HealthIndicator : Z
}.

Definition nd_set_Containers (l : list Container) (n : Node) : Node := {|
  nd_ID := nd_ID n; nd_IP := nd_IP n; nd_Addr := nd_Addr n; nd_Name := nd_Name n;
  nd_Labels := nd_Labels n; nd_Containers := l; nd_Images := nd_Images n;
  nd_UsedMemory := nd_UsedMemory n; nd_UsedCpus := nd_UsedCpus n;
  nd_TotalMemory := nd_TotalMemory n; nd_TotalCpus := nd_TotalCpus n;
  nd_HealthIndicator := nd_HealthIndicator n |}.
Definition nd_set_Used (memory cpus : Z) (n : Node) : Node := {|
  nd_ID := nd_ID n; nd_IP := nd_IP n; nd_Addr := nd_Addr n; nd_Name := nd_Name n;
  nd_Labels := nd_Labels n; nd_Containers := nd_Containers n; nd_Images := nd_Images n;
  nd_UsedMemory := memory; nd_UsedCpus := cpus;
  nd_TotalMemory := nd_TotalMemory n; nd_TotalCpus := nd_TotalCpus n;
  nd_HealthIndicator := nd_HealthIndicator n |}.

(** [NewNode(e)]: the sums dereference the configuration of every container. *)
Definition NewNode `{MapRange} (e : Engine) : outcome Node :=
  usedMemory ← UsedMemory e;
  usedCpus ← UsedCpus e;
  health ← HealthIndicator e;
  Ret {| nd_ID := eng_ID (e_hdr e); nd_IP := eng_IP (e_hdr e); nd_Addr := eng_Addr (e_hdr e);
         nd_Name := eng_Name (e_hdr e); nd_Labels := eng_Labels (e_hdr e);
         nd_Containers := Containers e; nd_Images := Images e;
         nd_UsedMemory := usedMemory; nd_UsedCpus := usedCpus;
         nd_TotalMemory := TotalMemory e; nd_TotalCpus := TotalCpus e;
         nd_HealthIndicator := health |}.

Definition Node_IsHealthy (n : Node) : bool := 0 <? nd_HealthIndicator n.

(** [E] gives the engines that the containers point to. *)
Definition Node_Container (E : ptr → EngineHdr) (n : Node) (IDOrName : string)
  : outcome (option Container) :=
  Containers_Get E (nd_Containers n) IDOrName.

(** [AddContainer]: the request is compared with the node's total resources. *)
Definition Node_AddContainer (container : Container) (n : Node) : Node * option string :=
  match ctr_Config container with
  | Some config =>
      let memory := hc_Memory (cc_HostConfig config) in
      let cpus := hc_CPUShares (cc_HostConfig config) in
      if (wrap64 (nd_TotalMemory n - memory) <? 0) || (wrap64 (nd_TotalCpus n - cpus) <? 0)
      then (n, Some "not enough resources")
      else
        (nd_set_Containers (nd_Containers n ++ [container])
           (nd_set_Used (wrap64 (nd_UsedMemory n + memory)) (wrap64 (nd_UsedCpus n + cpus)) n), None)
  | None => (nd_set_Containers (nd_Containers n ++ [container]) n, None)
  end.

(** ** What the scheduler may assume of a node *)

(** The quantities of a node whose arithmetic stays far from the 64-bit limits. *)
Definition sane (z : Z) : Prop := 0 ≤ z < 2^55.
Record node_sane (n : Node) : Prop := {
  sane_UsedMemory : sane (nd_UsedMemory n);
  sane_UsedCpus : sane (nd_UsedCpus n);
  sane_TotalMemory : sane (nd_TotalMemory n);
  sane_TotalCpus : sane (nd_TotalCpus n);
  sane_Health : 0 ≤ nd_HealthIndicator n ≤ 100
}.

(** What a container configuration asks for. *)
Record request_sane (c : ContainerConfig) : Prop := {
  sane_Memory : sane (hc_Memory (cc_HostConfig c));
  sane_CPUShares : sane (hc_CPUShares (cc_HostConfig c))
}.

(** A node for concrete runs: 1000 bytes, 4 CPUs, no container. *)
Definition node_of (name : string) (used health : Z) : Node :=
  {| nd_ID := name; nd_IP := ""; nd_Addr := ""; nd_Name := name; nd_Labels := ∅; nd_Containers := [];
     nd_Images := []; nd_UsedMemory := used; nd_UsedCpus := 0; nd_TotalMemory := 1000; nd_TotalCpus := 4;
     nd_HealthIndicator := health |}.
