(* ===== verification/Strategy.v ===== *)
(** * Placement strategies ([scheduler/strategy])

    [weighted_node.go], [spread.go], [binpack.go], [random.go] and
    [strategy.go]. *)
From S2P Require Import Prelude GoStrings Json Config Container Inventory EngineState EngineOps Node.

Record weightedNode := { wn_Node : Node; wn_Weight : Z }.

(** [Less(i, j)] on the elements themselves. *)
Definition Less (ip jp : weightedNode) : bool :=
  if wn_Weight ip =? wn_Weight jp
  then (length (nd_Containers (wn_Node ip)) <? length (nd_Containers (wn_Node jp)))%nat
  else wn_Weight ip <? wn_Weight jp.

Definition ErrNoResourcesAvailable : string := "no resources available to schedule container".
Definition ErrNotSupported : string := "strategy not supported".

(** The score of one resource: the percentage used if the container is added,
    100 when the container asks for none. *)
Definition score (used requested total : Z) : outcome Z :=
  if 0 <? requested then go_div (wrap64 (wrap64 (used + requested) * 100)) total else Ret 100.

(** One iteration of the loop of [weighNodes]. *)
Definition weigh (config : ContainerConfig) (healthinessFactor : Z) (node : Node)
  : outcome (option weightedNode) :=
  let h := cc_HostConfig config in
  if (nd_TotalMemory node <? hc_Memory h) || (nd_TotalCpus node <? hc_CPUShares h) then Ret None
  else
    cpuScore ← score (nd_UsedCpus node) (hc_CPUShares h) (nd_TotalCpus node);
    memoryScore ← score (nd_UsedMemory node) (hc_Memory h) (nd_TotalMemory node);
    Ret (if (cpuScore <=? 100) && (memoryScore <=? 100)
         then Some {| wn_Node := node;
                      wn_Weight := wrap64 (wrap64 (cpuScore + memoryScore) +
                        wrap64 (healthinessFactor * nd_HealthIndicator node)) |}
         else None).

Definition weighNodes (config : ContainerConfig) (nodes : list Node) (healthinessFactor : Z)
  : outcome (list weightedNode) :=
  l ← omapM (weigh config healthinessFactor) nodes;
  match omap id l with
  | [] => Err ErrNoResourcesAvailable
  | weightedNodes => Ret weightedNodes
  end.

(** [strategies]: the implementations of [PlacementStrategy]. *)
Inductive PlacementStrategy := SpreadPlacementStrategy | BinpackPlacementStrategy | RandomPlacementStrategy.
#[export] Instance PlacementStrategy_eq_dec : EqDecision PlacementStrategy.
Proof. solve_decision. Defined.
Definition strategies : list PlacementStrategy :=
  [SpreadPlacementStrategy; BinpackPlacementStrategy; RandomPlacementStrategy].

Definition strategy_Name (p : PlacementStrategy) : string :=
  match p with
  | SpreadPlacementStrategy => "spread"
  | BinpackPlacementStrategy => "binpack"
  | RandomPlacementStrategy => "random"
  end.

Definition New (name : string) : outcome PlacementStrategy :=
  let name := if String.eqb name "binpacking" then "binpack" else name in
  match List.find (λ s, String.eqb (strategy_Name s) name) strategies with
  | Some strategy => Ret strategy
  | None => Err ErrNotSupported
  end.

Definition List : list string := strategy_Name <$> strategies.

(** [nodes[i], nodes[j] = nodes[j], nodes[i]] *)
Definition swap {A} (i j : nat) (l : list A) : list A :=
  match l !! i, l !! j with
  | Some x, Some y => <[j := x]> (<[i := y]> l)
  | _, _ => l
  end.

(** The loop of the random strategy, for [i] down to 1; [Intn (i + 1)] is the draw. *)
Fixpoint shuffle {A} (Intn : Z → Z) (i : nat) (l : list A) : list A :=
  match i with
  | O => l
  | S i' => shuffle Intn i' (swap i (Z.to_nat (Intn (Z.of_nat i + 1))) l)
  end.

Section strategies.
Context `{GoSort} (Intn : Z → Z).

Definition spread_RankAndSort (config : ContainerConfig) (nodes : list Node) : outcome (list Node) :=
  weightedNodes ← weighNodes config nodes (-10);
  Ret (wn_Node <$> go_sort Less weightedNodes).

Definition binpack_RankAndSort (config : ContainerConfig) (nodes : list Node) : outcome (list Node) :=
  weightedNodes ← weighNodes config nodes 10;
  Ret (wn_Node <$> go_sort (λ i j, Less j i) weightedNodes).

Definition random_RankAndSort (config : ContainerConfig) (nodes : list Node) : outcome (list Node) :=
  Ret (shuffle Intn (length nodes - 1) nodes).

Definition RankAndSort (p : PlacementStrategy) : ContainerConfig → list Node → outcome (list Node) :=
  match p with
  | SpreadPlacementStrategy => spread_RankAndSort
  | BinpackPlacementStrategy => binpack_RankAndSort
  | RandomPlacementStrategy => random_RankAndSort
  end.
End strategies.

(** A strategy returns nodes it was given. *)
Lemma weighNodes_sub config nodes factor l w :
  weighNodes config nodes factor = Ret l → w ∈ l → wn_Node w ∈ nodes.
Proof.
  unfold weighNodes. destruct (omapM _ nodes) as [os| |] eqn:Hos; simpl; [|done..].
  intros Hl Hw. assert (Some w ∈ os) as Hin.
  { assert (w ∈ omap id os) as (o & Ho & Hid)%list_elem_of_omap by (destruct (omap id os); by simplify_eq).
    by rewrite <- Hid. }
  destruct (omapM_elem _ _ _ _ Hos Hin) as (n & Hn & Hwn). unfold weigh in Hwn.
  destruct ((_ <? _) || _); [done|].
  destruct (score (nd_UsedCpus n) _ _); simpl in Hwn; [|done..].
  destruct (score (nd_UsedMemory n) _ _); simpl in Hwn; [|done..]. injection Hwn as Hwn.
  case_match; [|done]. by injection Hwn as <-.
Qed.
Lemma sorted_weights_sub `{GoSort} less config nodes factor l n :
  weighNodes config nodes factor = Ret l → n ∈ wn_Node <$> go_sort less l → n ∈ nodes.
Proof.
  intros Hl. rewrite (go_sort_perm less l). intros (w & -> & Hw)%list_elem_of_fmap.
  by eapply weighNodes_sub.
Qed.

(** ** What the strategies promise *)

(** The exact score, and whether a node has room for a request of one resource:
    the integer percentage lets the total be exceeded by less than one percent. *)
Definition exact_score (used requested total : Z) : Z :=
  if 0 <? requested then (used + requested) * 100 / total else 100.
Definition room (used requested total : Z) : bool :=
  (requested <=? total) && ((requested =? 0) || ((used + requested) * 100 <? 101 * total)).

Section weigh.
Context (config : ContainerConfig).
Abbreviation mem := (hc_Memory (cc_HostConfig config)).
Abbreviation cpu := (hc_CPUShares (cc_HostConfig config)).

(** The node has room for the memory and the CPUs of [config]. *)
Definition fits (n : Node) : bool :=
  room (nd_UsedMemory n) mem (nd_TotalMemory n) && room (nd_UsedCpus n) cpu (nd_TotalCpus n).
Definition exact_weight (factor : Z) (n : Node) : Z :=
  exact_score (nd_UsedCpus n) cpu (nd_TotalCpus n) + exact_score (nd_UsedMemory n) mem (nd_TotalMemory n)
  + factor * nd_HealthIndicator n.

Lemma score_exact used requested total :
  sane used → sane requested → sane total → requested ≤ total →
  score used requested total = Ret (exact_score used requested total) ∧
  0 ≤ exact_score used requested total < 2^62 ∧
  (exact_score used requested total ≤ 100 ↔ room used requested total = true).
Proof.
  unfold sane, score, exact_score, room. intros Hu Hr Ht Hle.
  assert (requested <=? total = true) as -> by (by apply Z.leb_le).
  destruct (0 <? requested) eqn:Hpos; [apply Z.ltb_lt in Hpos|apply Z.ltb_ge in Hpos].
  - assert (requested =? 0 = false) as -> by (apply Z.eqb_neq; lia). simpl.
    unfold go_div. rewrite decide_False by lia.
    rewrite (wrap64_id (used + requested)) by (unfold int64_range; lia).
    rewrite (wrap64_id (_ * 100)) by (unfold int64_range; lia).
    rewrite Z.quot_div_nonneg by lia.
    assert (0 ≤ (used + requested) * 100 / total < 2^62) as Hb.
    { split; [apply Z.div_pos; lia|]. apply Z.div_lt_upper_bound; [lia|]. nia. }
    split; [rewrite wrap64_id by (unfold int64_range; lia); done|]. split; [done|].
    rewrite Z.ltb_lt. split; intros Hq.
    + assert ((used + requested) * 100 / total < 101) as Hq' by lia.
      pose proof (Z.mul_succ_div_gt ((used + requested) * 100) total). nia.
    + apply Z.lt_succ_r. apply Z.div_lt_upper_bound; lia.
  - assert (requested = 0) as -> by lia. simpl. split; [done|]. split; [lia|]. done.
Qed.

Lemma weigh_exact factor n :
  request_sane config → node_sane n → -10 ≤ factor ≤ 10 →
  weigh config factor n =
    Ret (if fits n then Some {| wn_Node := n; wn_Weight := exact_weight factor n |} else None).
Proof.
  intros [Hm Hc] [Hum Huc Htm Htc Hh] Hf. unfold weigh, fits.
  destruct (nd_TotalMemory n <? mem) eqn:Em; simpl.
  { unfold room. apply Z.ltb_lt in Em. by rewrite (proj2 (Z.leb_gt mem _) Em). }
  destruct (nd_TotalCpus n <? cpu) eqn:Ec; simpl.
  { unfold room at 2. apply Z.ltb_lt in Ec. rewrite (proj2 (Z.leb_gt cpu _) Ec).
    by rewrite andb_false_r. }
  apply Z.ltb_ge in Em, Ec.
  destruct (score_exact _ _ _ Huc Hc Htc Ec) as (-> & Hbc & Hrc).
  destruct (score_exact _ _ _ Hum Hm Htm Em) as (-> & Hbm & Hrm). simpl.
  destruct (exact_score (nd_UsedCpus n) cpu (nd_TotalCpus n) <=? 100) eqn:Lc.
  2: { apply Z.leb_gt in Lc. destruct (room (nd_UsedCpus n) cpu (nd_TotalCpus n)).
       - lia. - by rewrite andb_false_r. }
  destruct (exact_score (nd_UsedMemory n) mem (nd_TotalMemory n) <=? 100) eqn:Lm.
  2: { apply Z.leb_gt in Lm. destruct (room (nd_UsedMemory n) mem (nd_TotalMemory n)); [lia|done]. }
  apply Z.leb_le in Lc, Lm. rewrite (proj1 Hrc Lc), (proj1 Hrm Lm). simpl.
  unfold exact_weight. rewrite !(wrap64_id _); [done|..];
    unfold int64_range; rewrite ?wrap64_id; unfold int64_range; nia.
Qed.

Definition weighted (factor : Z) (n : Node) : weightedNode :=
  {| wn_Node := n; wn_Weight := exact_weight factor n |}.

Lemma weighNodes_exact factor nodes :
  request_sane config → Forall node_sane nodes → -10 ≤ factor ≤ 10 →
  weighNodes config nodes factor =
    match List.filter fits nodes with
    | [] => Err ErrNoResourcesAvailable
    | l => Ret (weighted factor <$> l)
    end.
Proof.
  intros Hc Hn Hf. unfold weighNodes.
  rewrite (omapM_Ret _ (λ n, if fits n then Some (weighted factor n) else None)).
  - simpl. assert (omap id ((λ n, if fits n then Some (weighted factor n) else None) <$> nodes)
      = weighted factor <$> List.filter fits nodes) as ->.
    { clear Hn. induction nodes as [|n nodes IH]; simpl; [done|].
      destruct (fits n); simpl; [by f_equal|done]. }
    by destruct (List.filter fits nodes).
  - intros n Hin. apply weigh_exact; [done| |done]. by eapply Forall_forall in Hn.
Qed.
End weigh.

(** ** Ranking *)

(** [a] may come before [b]: by weight, then by number of containers. *)
Definition ranked_before (weight : Node → Z) (a b : Node) : Prop :=
  weight a < weight b ∨
  (weight a = weight b ∧ (length (nd_Containers a) ≤ length (nd_Containers b))%nat).

Lemma Less_false a b :
  Less a b = false ↔
  wn_Weight b < wn_Weight a ∨
  (wn_Weight b = wn_Weight a ∧
   (length (nd_Containers (wn_Node b)) ≤ length (nd_Containers (wn_Node a)))%nat).
Proof.
  unfold Less. destruct (wn_Weight a =? wn_Weight b) eqn:E.
  - apply Z.eqb_eq in E. rewrite Nat.ltb_ge. lia.
  - apply Z.eqb_neq in E. rewrite Z.ltb_ge. lia.
Qed.
Lemma Less_true a b :
  Less a b = true ↔
  wn_Weight a < wn_Weight b ∨
  (wn_Weight a = wn_Weight b ∧
   (length (nd_Containers (wn_Node a)) < length (nd_Containers (wn_Node b)))%nat).
Proof.
  unfold Less. destruct (wn_Weight a =? wn_Weight b) eqn:E.
  - apply Z.eqb_eq in E. rewrite Nat.ltb_lt. lia.
  - apply Z.eqb_neq in E. rewrite Z.ltb_lt. lia.
Qed.
Lemma Less_asym a b : Less a b = true → Less b a = false.
Proof. rewrite Less_true, Less_false. lia. Qed.
Lemma Less_neg_trans a b c : Less b a = false → Less c b = false → Less c a = false.
Proof. rewrite !Less_false. lia. Qed.

Lemma sorted_by_fmap {A B} (f : A → B) (less : B → B → bool) (R : A → A → Prop) l :
  (∀ a b, less (f b) (f a) = false → R a b) → sorted_by less (f <$> l) → StronglySorted R l.
Proof.
  intros HR. induction l as [|a l IH]; intros Hs; [constructor|].
  inversion Hs as [|?? Hs' Hall]; subst. constructor; [by apply IH|].
  apply Forall_forall. intros b Hb. apply HR. eapply Forall_forall in Hall; [done|].
  apply list_elem_of_fmap. eauto.
Qed.

(** Sorting weighted nodes is sorting nodes. *)
Lemma go_sort_weighted `{GoSort} (weight : Node → Z) (less : weightedNode → weightedNode → bool)
    (R : Node → Node → Prop) l :
  let wn n := {| wn_Node := n; wn_Weight := weight n |} in
  (∀ x y, less x y = true → less y x = false) →
  (∀ x y z, less y x = false → less z y = false → less z x = false) →
  (∀ a b, less (wn b) (wn a) = false → R a b) →
  let out := wn_Node <$> go_sort less (wn <$> l) in
  out ≡ₚ l ∧ StronglySorted R out.
Proof.
  intros wn Has Htr HR out.
  assert (∃ l', go_sort less (wn <$> l) = wn <$> l') as [l' Hl'].
  { pose proof (go_sort_perm less (wn <$> l)) as Hp.
    apply Permutation_map_inv in Hp as (l' & Hl' & _). by exists l'. }
  assert (out = l') as Hout.
  { unfold out. rewrite Hl', <- list_fmap_compose. unfold compose. simpl. apply list_fmap_id. }
  split.
  - unfold out. rewrite go_sort_perm, <- list_fmap_compose. unfold compose. simpl.
    by rewrite list_fmap_id.
  - rewrite Hout. eapply sorted_by_fmap; [exact HR|]. rewrite <- Hl'. by apply go_sort_sorted.
Qed.

(** A ranking strategy: the nodes with room, the best first; an error when there
    are none. *)
Definition ranks (R : Node → Node → Prop) (config : ContainerConfig) (nodes : list Node)
    (r : outcome (list Node)) : Prop :=
  (∃ out, r = Ret out ∧ out ≠ [] ∧ out ≡ₚ List.filter (fits config) nodes ∧ StronglySorted R out) ∨
  (r = Err ErrNoResourcesAvailable ∧ ∀ n, n ∈ nodes → fits config n = false).

Lemma rank_with `{GoSort} factor less R config nodes :
  request_sane config → Forall node_sane nodes → -10 ≤ factor ≤ 10 →
  (∀ x y, less x y = true → less y x = false) →
  (∀ x y z, less y x = false → less z y = false → less z x = false) →
  (∀ a b, less (weighted config factor b) (weighted config factor a) = false → R a b) →
  ranks R config nodes
    (weightedNodes ← weighNodes config nodes factor; Ret (wn_Node <$> go_sort less weightedNodes)).
Proof.
  intros Hc Hn Hf Has Htr HR. rewrite weighNodes_exact by done.
  destruct (List.filter (fits config) nodes) as [|n l] eqn:Hl.
  - right. split; [done|]. intros n Hin. apply not_true_is_false. intros Hfit.
    assert (n ∈ List.filter (fits config) nodes) as Hx by (by apply list_elem_of_Lfilter).
    rewrite Hl in Hx. by apply not_elem_of_nil in Hx.
  - left. cbn [mbind outcome_bind]. unfold ranks. rewrite Hl.
    destruct (go_sort_weighted (exact_weight config factor) less R (n :: l) Has Htr HR) as [Hp Hs].
    eexists. split; [reflexivity|]. split; [|by split]. intros Hnil.
    fold (weighted config factor) in Hnil, Hp. unfold weighted in *.
    rewrite Hnil in Hp. by apply Permutation_nil_cons in Hp.
Qed.

(** C7: [spread] returns, for any set of nodes, exactly the nodes with room for the
    request, the smallest weight first, and among equal weights the one with fewer
    containers first; it fails only when no node has room.  The weight is the sum of
    the CPU and memory percentages minus ten times the health degree. *)
Theorem spread_RankAndSort_spec `{GoSort} config nodes :
  request_sane config → Forall node_sane nodes →
  ranks (ranked_before (exact_weight config (-10))) config nodes (spread_RankAndSort config nodes).
Proof.
  intros Hc Hn. apply (rank_with (-10)); try done.
  - apply Less_asym.
  - apply Less_neg_trans.
  - intros a b. rewrite Less_false. unfold ranked_before. simpl. done.
Qed.

(** C8: [binpack] returns exactly the nodes with room, the largest weight first
    (percentages plus ten times the health degree), and among equal weights the one
    with more containers first. *)
Theorem binpack_RankAndSort_spec `{GoSort} config nodes :
  request_sane config → Forall node_sane nodes →
  ranks (λ a b, ranked_before (exact_weight config 10) b a) config nodes
    (binpack_RankAndSort config nodes).
Proof.
  intros Hc Hn. apply (rank_with 10); try done.
  - intros x y. apply Less_asym.
  - intros x y z H1 H2. by eapply Less_neg_trans.
  - intros a b. rewrite Less_false. unfold ranked_before. simpl. done.
Qed.

(** ** Shuffling *)

(** The draws of [Intn(n)] are in range. *)
Definition Intn_ok (Intn : Z → Z) : Prop := ∀ n, 0 < n → 0 ≤ Intn n < n.

Section shuffle.
Context {A : Type}.
Implicit Types l : list A.

Lemma swap_length i j l : length (swap i j l) = length l.
Proof. unfold swap. repeat case_match; by rewrite ?length_insert. Qed.

Lemma swap_perm i j l : swap i j l ≡ₚ l.
Proof.
  unfold swap. destruct (l !! i) as [x|] eqn:Hi; [|done]. destruct (l !! j) as [y|] eqn:Hj; [|done].
  by apply Permutation_insert_swap.
Qed.

Lemma shuffle_perm Intn i l : shuffle Intn i l ≡ₚ l.
Proof. revert l. induction i as [|i IH]; intros l; simpl; [done|]. by rewrite IH, swap_perm. Qed.

Lemma shuffle_ext f g i l :
  (∀ n, n ≤ Z.of_nat i + 1 → f n = g n) → shuffle f i l = shuffle g i l.
Proof.
  revert l. induction i as [|i IH]; intros l Hfg; [done|]. cbn [shuffle].
  rewrite (Hfg (Z.of_nat (S i) + 1)) by lia. apply IH. intros n Hn. apply Hfg. lia.
Qed.

Lemma drop_S_cons i l x : l !! i = Some x → drop i l = x :: drop (S i) l.
Proof. intros Hx. by apply drop_S. Qed.

(** Every order of the first [i + 1] elements is reached by some draws. *)
Lemma shuffle_reaches i l target :
  (i < length l)%nat → target ≡ₚ l → drop (S i) target = drop (S i) l →
  ∃ Intn, Intn_ok Intn ∧ shuffle Intn i l = target.
Proof.
  revert l. induction i as [|i IH]; intros l Hi Hp Hd.
  - exists (λ _, 0). split; [intros n Hn; lia|]. simpl.
    destruct l as [|x l]; simpl in *; [lia|]. destruct target as [|y target].
    { by apply Permutation_nil_cons in Hp. }
    simpl in Hd. rewrite !drop_0 in Hd. subst target.
    assert ([y] ≡ₚ [x]) as Hxy by (apply (Permutation_app_inv_r l); exact Hp).
    by apply Permutation_singleton_inj in Hxy as ->.
  - assert (length target = length l) as Hlen by (by apply Permutation_length).
    destruct (lookup_lt_is_Some_2 target (S i)) as [x Hx]; [lia|].
    assert (take (S (S i)) target ≡ₚ take (S (S i)) l) as Ht.
    { apply (Permutation_app_inv_r (drop (S (S i)) l)). rewrite take_drop, <- Hd, take_drop. done. }
    assert (x ∈ take (S (S i)) l) as Hin.
    { rewrite <- Ht. apply list_elem_of_lookup. exists (S i). by rewrite lookup_take_lt by lia. }
    apply list_elem_of_lookup in Hin as [j Hj].
    assert (j < S (S i))%nat as Hji.
    { apply lookup_lt_Some in Hj. rewrite length_take in Hj. lia. }
    rewrite lookup_take_lt in Hj by done.
    destruct (lookup_lt_is_Some_2 l (S i)) as [y Hy]; [lia|].
    assert (swap (S i) j l !! S i = Some x) as Hs.
    { unfold swap. rewrite Hy, Hj. destruct (decide (S i = j)) as [<-|Hne].
      - rewrite list_lookup_insert_eq by (rewrite length_insert; lia). congruence.
      - rewrite list_lookup_insert_ne by done. by rewrite list_lookup_insert_eq by lia. }
    destruct (IH (swap (S i) j l)) as (Intn & Hok & Heq).
    { rewrite swap_length. lia. }
    { by rewrite swap_perm. }
    { rewrite (drop_S_cons _ _ _ Hx), (drop_S_cons _ _ _ Hs), Hd. f_equal.
      unfold swap. rewrite Hy, Hj. by rewrite !drop_insert_lt by lia. }
    exists (λ n, if n =? Z.of_nat (S i) + 1 then Z.of_nat j else Intn n). split.
    + intros n Hn. destruct (n =? Z.of_nat (S i) + 1) eqn:E; [apply Z.eqb_eq in E; lia|by apply Hok].
    + cbn [shuffle]. rewrite Z.eqb_refl, Nat2Z.id. rewrite <- Heq. apply shuffle_ext.
      intros n Hn. destruct (n =? Z.of_nat (S i) + 1) eqn:E; [apply Z.eqb_eq in E; lia|done].
Qed.
End shuffle.

Lemma RankAndSort_sub `{GoSort} Intn p config nodes l n :
  RankAndSort Intn p config nodes = Ret l → n ∈ l → n ∈ nodes.
Proof.
  destruct p; simpl; unfold spread_RankAndSort, binpack_RankAndSort, random_RankAndSort.
  3: { intros [= <-]. by rewrite shuffle_perm. }
  all: destruct (weighNodes config nodes _) eqn:Hw; simpl; [|done..]; intros [= <-];
    by eapply sorted_weights_sub.
Qed.

(** [random] keeps all the nodes and returns them in some order; every order is
    the outcome of some sequence of draws. *)
Theorem random_RankAndSort_spec config nodes target :
  target ≡ₚ nodes ↔
  ∃ Intn, Intn_ok Intn ∧ random_RankAndSort Intn config nodes = Ret target.
Proof.
  unfold random_RankAndSort. split.
  - intros Hp. destruct nodes as [|n nodes].
    + exists (λ _, 0). split; [intros n Hn; lia|]. by apply Permutation_nil_r in Hp as ->.
    + destruct (shuffle_reaches (length (n :: nodes) - 1) (n :: nodes) target) as (Intn & Hok & Heq).
      * simpl. lia.
      * done.
      * rewrite !drop_ge; [done|simpl; lia|]. rewrite (Permutation_length Hp). simpl. lia.
      * exists Intn. by rewrite Heq.
  - intros (Intn & _ & [= <-]). apply shuffle_perm.
Qed.

(** ** Health against resources *)

Lemma fits_scores config n :
  request_sane config → node_sane n → fits config n = true →
  0 ≤ exact_score (nd_UsedCpus n) (hc_CPUShares (cc_HostConfig config)) (nd_TotalCpus n)
    + exact_score (nd_UsedMemory n) (hc_Memory (cc_HostConfig config)) (nd_TotalMemory n) ≤ 200.
Proof.
  intros [Hm Hc] [Hum Huc Htm Htc _] Hf. unfold fits in Hf.
  apply andb_true_iff in Hf as [Hrm Hrc].
  assert (hc_Memory (cc_HostConfig config) ≤ nd_TotalMemory n) as Lm.
  { unfold room in Hrm. apply andb_true_iff in Hrm as [Hle _]. by apply Z.leb_le. }
  assert (hc_CPUShares (cc_HostConfig config) ≤ nd_TotalCpus n) as Lc.
  { unfold room in Hrc. apply andb_true_iff in Hrc as [Hle _]. by apply Z.leb_le. }
  destruct (score_exact _ _ _ Huc Hc Htc Lc) as (_ & Hb1 & Hr1).
  destruct (score_exact _ _ _ Hum Hm Htm Lm) as (_ & Hb2 & Hr2).
  apply Hr1 in Hrc. apply Hr2 in Hrm. lia.
Qed.

Lemma StronglySorted_lookup {A} (R : A → A → Prop) l i j a b :
  StronglySorted R l → (i < j)%nat → l !! i = Some a → l !! j = Some b → R a b.
Proof.
  intros Hs. revert i j. induction Hs as [|x l Hs IH Hall]; intros i j Hij Ha Hb; [done|].
  destruct i as [|i], j as [|j]; try lia; simpl in *.
  - injection Ha as ->. eapply Forall_forall; [exact Hall|]. by eapply list_elem_of_lookup_2.
  - eapply IH; [|done..]. lia.
Qed.

(** How far health outweighs the resources: with [spread] and [binpack] alike a
    node is never ranked before one whose health degree is more than 20 higher.  Nearer
    degrees can be outweighed. *)
Theorem health_outweighs_resources `{GoSort} config nodes out i j a b :
  request_sane config → Forall node_sane nodes →
  spread_RankAndSort config nodes = Ret out ∨ binpack_RankAndSort config nodes = Ret out →
  (i < j)%nat → out !! i = Some a → out !! j = Some b →
  nd_HealthIndicator b ≤ nd_HealthIndicator a + 20.
Proof.
  intros Hc Hn Hout Hij Ha Hb.
  assert (∃ f R, (f = -10 ∨ f = 10) ∧ R = exact_weight config f ∧
    out ≡ₚ List.filter (fits config) nodes ∧
    ((f = -10 ∧ ranked_before R a b) ∨ (f = 10 ∧ ranked_before R b a))) as (f & R & Hf & -> & Hp & Hr).
  { destruct Hout as [Hout|Hout].
    - destruct (rank_with (-10) Less (ranked_before (exact_weight config (-10))) config nodes)
        as [(o & Ho & _ & Hp & Hs)|[Ho _]]; try done; [apply Less_asym|apply Less_neg_trans| | |].
      + intros x y. by rewrite Less_false.
      + unfold spread_RankAndSort in Hout. rewrite Hout in Ho. injection Ho as <-.
        exists (-10), (exact_weight config (-10)). split; [by left|]. split; [done|]. split; [done|].
        left. split; [done|]. by eapply StronglySorted_lookup.
      + unfold spread_RankAndSort in Hout. congruence.
    - destruct (rank_with 10 (λ i j, Less j i) (λ a b, ranked_before (exact_weight config 10) b a)
        config nodes) as [(o & Ho & _ & Hp & Hs)|[Ho _]]; try done.
      + intros x y. apply Less_asym.
      + intros x y z H1 H2. by eapply Less_neg_trans.
      + intros x y. by rewrite Less_false.
      + unfold binpack_RankAndSort in Hout. rewrite Hout in Ho. injection Ho as <-.
        exists 10, (exact_weight config 10). split; [by right|]. split; [done|]. split; [done|].
        right. split; [done|]. by apply (StronglySorted_lookup _ _ _ _ _ _ Hs Hij Ha Hb).
      + unfold binpack_RankAndSort in Hout. congruence. }
  assert (∀ x, x ∈ out → node_sane x ∧ fits config x = true) as Hx.
  { intros x. rewrite Hp. rewrite list_elem_of_Lfilter. intros [Hin Hfit].
    split; [by eapply Forall_forall in Hn|done]. }
  destruct (Hx a) as [Hsa Hfa]; [by eapply list_elem_of_lookup_2|].
  destruct (Hx b) as [Hsb Hfb]; [by eapply list_elem_of_lookup_2|].
  pose proof (fits_scores config a Hc Hsa Hfa). pose proof (fits_scores config b Hc Hsb Hfb).
  unfold ranked_before, exact_weight in Hr. lia.
Qed.

(** ** Names *)

(** The strategies are exactly the listed ones, each selected by its own name;
    [binpacking] is an alias, and any other name is refused. *)
Lemma New_spec name :
  New name =
    match List.find (λ s, String.eqb (strategy_Name s) name) strategies with
    | Some s => Ret s
    | None => if String.eqb name "binpacking" then Ret BinpackPlacementStrategy
              else Err ErrNotSupported
    end ∧
  (name ∈ List ↔ ∃ s, List.find (λ s, String.eqb (strategy_Name s) name) strategies = Some s) ∧
  (∀ s, New (strategy_Name s) = Ret s).
Proof.
  unfold New. split; [|split].
  - destruct (String.eqb_spec name "binpacking") as [->|Hne]; [done|].
    destruct (List.find _ _) eqn:E; by rewrite ?E.
  - unfold List, strategies. cbn [fmap list_fmap strategy_Name List.find]. rewrite !elem_of_cons, elem_of_nil.
    destruct (String.eqb_spec "spread" name) as [<-|?]; [split; [by eexists|auto]|].
    destruct (String.eqb_spec "binpack" name) as [<-|?]; [split; [by eexists|auto]|].
    destruct (String.eqb_spec "random" name) as [<-|?]; [split; [by eexists|auto]|].
    split; [intros [?|[?|[?|[]]]]; congruence|]. by intros [??].
  - by intros [].
Qed.

(** ** Concrete nodes *)

Section concrete.
Existing Instance insertion_sort.
Definition three_nodes : list Node := [node_of "full" 950 100; node_of "busy" 500 100; node_of "idle" 100 100].
Definition request (memory : Z) : ContainerConfig :=
  {| cc_Config := zero_DockerConfig;
     cc_HostConfig := {| hc_Memory := memory; hc_MemorySwap := 0; hc_CPUShares := 1; hc_CpusetCpus := "";
       hc_NetworkMode := ""; hc_VolumesFrom := []; hc_Links := []; hc_PortBindings := ∅ |};
     cc_NetworkingConfig := {| EndpointsConfig := ∅ |} |}.
Lemma request_is_sane : request_sane (request 100).
Proof. by split. Qed.
Lemma three_nodes_sane : Forall node_sane three_nodes.
Proof. repeat constructor; done. Qed.

Lemma spread_RankAndSort_spec_witness :
  spread_RankAndSort (request 100) three_nodes = Ret [node_of "idle" 100 100; node_of "busy" 500 100] ∧
  ranks (ranked_before (exact_weight (request 100) (-10))) (request 100) three_nodes
    (Ret [node_of "idle" 100 100; node_of "busy" 500 100]).
Proof.
  split; [by vm_compute|]. exact (spread_RankAndSort_spec (request 100) three_nodes request_is_sane three_nodes_sane).
Defined.
Lemma binpack_RankAndSort_spec_witness :
  binpack_RankAndSort (request 100) three_nodes = Ret [node_of "busy" 500 100; node_of "idle" 100 100] ∧
  ranks (λ a b, ranked_before (exact_weight (request 100) 10) b a) (request 100) three_nodes
    (Ret [node_of "busy" 500 100; node_of "idle" 100 100]).
Proof.
  split; [by vm_compute|]. exact (binpack_RankAndSort_spec (request 100) three_nodes request_is_sane three_nodes_sane).
Defined.
(** A node whose health degree is slightly lower comes first when it is less used. *)
Lemma health_outweighs_resources_witness :
  spread_RankAndSort (request 100) [node_of "busy" 850 100; node_of "sick" 0 98]
    = Ret [node_of "sick" 0 98; node_of "busy" 850 100] ∧ (100 ≤ 98 + 20).
Proof.
  assert (spread_RankAndSort (request 100) [node_of "busy" 850 100; node_of "sick" 0 98]
    = Ret [node_of "sick" 0 98; node_of "busy" 850 100]) as Hr by (by vm_compute).
  split; [exact Hr|].
  apply (health_outweighs_resources (request 100) [node_of "busy" 850 100; node_of "sick" 0 98] _ 0 1 (node_of "sick" 0 98) (node_of "busy" 850 100)
    request_is_sane ltac:(repeat constructor; done) (or_introl Hr)); [lia|done|done].
Defined.
End concrete.
