(* ===== verification/Expr.v ===== *)
(** * Constraint and affinity expressions ([scheduler/filter/expr.go]) *)
From S2P Require Import Prelude GoStrings Regexp.
From Stdlib Require Import Ascii.

(** ** The two fixed patterns

    [(?i)] folds the letters; in RE2 the fold orbits of [s] and [k] also hold
    U+017F and U+212A. *)
Definition fold_alpha (c : Z) : bool := is_alpha c || (c =? 383) || (c =? 8490).

(** [^(?i)[a-z_][a-z0-9\-_.]+$] *)
Definition key_first (c : Z) : bool := fold_alpha c || (c =? 95).
Definition key_rest (c : Z) : bool :=
  fold_alpha c || is_digit c || (c =? 45) || (c =? 95) || (c =? 46).
Definition key_ok_runes (l : list Z) : bool :=
  match l with
  | c :: ((_ :: _) as l') => key_first c && forallb key_rest l'
  | _ => false
  end.

(** [^(?i)[=!\/]?(~)?[a-z0-9:\-_\s\.\*/\(\)\?\+\[\]\\\^\$\|]+$] *)
Definition value_char (c : Z) : bool :=
  fold_alpha c || is_digit c || is_space c
  || bool_decide (c ∈ [58; 45; 95; 46; 42; 47; 40; 41; 63; 43; 91; 93; 92; 94; 36; 124]).
Definition rest_ok (l : list Z) : bool := negb (bool_decide (l = [])) && forallb value_char l.
Definition after_lead (l : list Z) : bool :=
  rest_ok l || match l with c :: l' => (c =? 126) && rest_ok l' | [] => false end.
Definition value_ok_runes (l : list Z) : bool :=
  after_lead l ||
  match l with c :: l' => ((c =? 61) || (c =? 33) || (c =? 47)) && after_lead l' | [] => false end.

Definition rune_values (s : string) : list Z := (runes s).*2.
Definition key_ok (s : string) : bool := key_ok_runes (rune_values s).
Definition value_ok (s : string) : bool := value_ok_runes (rune_values s).

(** ** Parsing *)

(** [EQ] and [NOTEQ], and [OPERATORS]. *)
Inductive operator := EQ | NOTEQ.
#[export] Instance operator_eq_dec : EqDecision operator.
Proof. solve_decision. Defined.
Definition op_text (o : operator) : string := match o with EQ => "==" | NOTEQ => "!=" end.

(** [type expr struct] *)
Record expr := { ex_key : string; ex_operator : operator; ex_value : string; ex_isSoft : bool }.

(** [value[0] == '~'] *)
Definition isSoft (value : string) : outcome bool :=
  c ← index_byte value 0; Ret (Ascii.eqb c "~").

(** The body of the inner loop once the operator [op] has been found in [e]. *)
Definition parse_with (op : operator) (e : string) : outcome expr :=
  match SplitN2 e (op_text op) with
  | [k; v] =>
      if negb (key_ok k) then Err ("Key '" +:+ k +:+ "' is invalid")
      else if negb (value_ok v) then Err ("Value '" +:+ v +:+ "' is invalid")
      else soft ← isSoft v;
           Ret {| ex_key := k; ex_operator := op; ex_value := TrimLeft_char "~" v; ex_isSoft := soft |}
  | k :: _ =>
      if negb (key_ok k) then Err ("Key '" +:+ k +:+ "' is invalid")
      else Ret {| ex_key := k; ex_operator := op; ex_value := ""; ex_isSoft := false |}
  | [] => Panic "index out of range"
  end.

(** The operators are tried in the order of [OPERATORS]. *)
Definition parseExpr (e : string) : outcome expr :=
  if Contains e (op_text EQ) then parse_with EQ e
  else if Contains e (op_text NOTEQ) then parse_with NOTEQ e
  else Err "One of operator ==, != is expected".

Definition parseExprs (env : list string) : outcome (list expr) := omapM parseExpr env.

(** ** Matching *)

Section match_.
Context `{GoRegexp}.

(** [e.value] between slashes is a regular expression, anything else a glob. *)
Definition pattern_of (value : string) : outcome string :=
  first ← index_byte value 0;
  let glob := "^" +:+ Replace_char "*" ".*" value +:+ "$" in
  if Ascii.eqb first "/" then
    last ← index_byte value (len value - 1);
    if Ascii.eqb last "/" then slice_string value 1 (len value - 1) else Ret glob
  else Ret glob.

(** Some of the texts match; a pattern that does not compile matches nothing. *)
Definition matches_any (pattern : string) (whats : list string) : bool :=
  match Compile pattern with
  | Some re => existsb (MatchRe re) whats
  | None => false
  end.

Definition Match (e : expr) (whats : list string) : outcome bool :=
  pattern ← pattern_of (ex_value e);
  let m := matches_any pattern whats in
  Ret (match ex_operator e with EQ => m | NOTEQ => negb m end).
End match_.

(** [fmt.Sprintf("%s%s%s (soft=%t)", ...)] and the form without the suffix. *)
Definition expr_text (e : expr) : string := ex_key e +:+ op_text (ex_operator e) +:+ ex_value e.
Definition expr_soft_text (e : expr) : string :=
  expr_text e +:+ " (soft=" +:+ (if ex_isSoft e then "true" else "false") +:+ ")".

(** ** Runes of ASCII texts *)

Lemma runes_from_values i j k s : (runes_from i k s).*2 = (runes_from j k s).*2.
Proof.
  revert i j k. induction s as [|c s IH]; intros i j k; simpl; [done|].
  destruct k as [|k]; [|apply IH]. destruct (decode_rune c s) as [r w]. simpl. f_equal. apply IH.
Qed.

Lemma rune_values_ascii c s :
  byte c < 128 → rune_values (String c s) = byte c :: rune_values s.
Proof.
  intros Hc. unfold rune_values, runes. simpl. unfold decode_rune.
  apply Z.ltb_lt in Hc. rewrite Hc. simpl. f_equal. apply runes_from_values.
Qed.

(** The first [k] bytes are not ASCII. *)
Fixpoint high (k : nat) (s : string) : Prop :=
  match k, s with
  | S k', String c s' => 128 ≤ byte c ∧ high k' s'
  | _, _ => True
  end.

Lemma between_high lo hi c : between lo hi c = true → 128 ≤ lo → 128 ≤ byte c.
Proof. unfold between. rewrite andb_true_iff, Z.leb_le. lia. Qed.

Lemma decode_rune_high c s : 128 ≤ byte c → high (Nat.pred (decode_rune c s).2) s.
Proof.
  intros Hc. unfold decode_rune. destruct (byte c <? 128) eqn:E; [apply Z.ltb_lt in E; lia|].
  repeat case_match; simpl; try done; repeat match goal with
    | H : (_ && _) = true |- _ => apply andb_true_iff in H as [? ?]
    | H : between _ _ _ = true |- _ => apply between_high in H; [|repeat case_match; lia]
    end; repeat split; done || lia.
Qed.

Lemma ascii_rune_from c s k i :
  high k s → c ∈ chars s → byte c < 128 → byte c ∈ (runes_from i k s).*2.
Proof.
  intros Hh Hin Hc. revert k i Hh. induction s as [|d s IH]; intros k i Hh; [by apply not_elem_of_nil in Hin|].
  change (chars (String d s)) with (d :: chars s) in Hin.
  destruct k as [|k]; simpl in Hh |- *.
  - destruct (decode_rune d s) as [r w] eqn:Hd. simpl.
    destruct (decide (byte d < 128)) as [Hlt|Hge].
    + unfold decode_rune in Hd. rewrite (proj2 (Z.ltb_lt _ _) Hlt) in Hd. injection Hd as <- <-.
      apply elem_of_cons in Hin as [->|Hin]; [left|right]. by apply IH.
    + apply elem_of_cons in Hin as [->|Hin]; [lia|]. right. apply IH; [done|].
      pose proof (decode_rune_high d s) as Hw. rewrite Hd in Hw. apply Hw. lia.
  - destruct Hh as [Hd Hh]. apply elem_of_cons in Hin as [->|Hin]; [lia|]. by apply IH.
Qed.

Lemma ascii_rune c s : c ∈ chars s → byte c < 128 → byte c ∈ rune_values s.
Proof. intros Hin Hc. by apply ascii_rune_from. Qed.

(** ** Parsed expressions *)

Lemma value_ok_not_tildes v : value_ok v = true → TrimLeft_char "~" v ≠ EmptyString.
Proof.
  intros Hv Hnil.
  assert (∃ n, rune_values v = replicate n 126) as [n Hn].
  { clear Hv. induction v as [|c v IH]; [by exists 0%nat|]. simpl in Hnil.
    destruct (Ascii.eqb_spec c "~") as [->|]; [|done]. destruct (IH Hnil) as [n Hn].
    exists (S n). rewrite rune_values_ascii by (vm_compute; done). by rewrite Hn. }
  unfold value_ok in Hv. rewrite Hn in Hv. destruct n as [|[|n]]; done.
Qed.

Lemma value_ok_nonempty v : value_ok v = true → v ≠ EmptyString.
Proof. intros Hv ->. done. Qed.

Lemma TrimLeft_head c s : TrimLeft_char c s = EmptyString ∨
  ∃ d t, TrimLeft_char c s = String d t ∧ d ≠ c.
Proof.
  induction s as [|d s IH]; simpl; [by left|].
  destruct (Ascii.eqb_spec d c) as [->|Hd]; [done|]. right. eauto.
Qed.

Lemma index_0 c s : index_byte (String c s) 0 = Ret c.
Proof. done. Qed.

Lemma HasPrefix_char c d s : HasPrefix (String d s) (String c EmptyString) = Ascii.eqb d c.
Proof.
  unfold HasPrefix. cbn [String.prefix]. destruct (ascii_dec c d) as [->|Hne].
  - rewrite Ascii.eqb_refl. by destruct s.
  - symmetry. apply Ascii.eqb_neq. congruence.
Qed.

Lemma isSoft_spec v : v ≠ EmptyString → isSoft v = Ret (HasPrefix v "~").
Proof. destruct v as [|c v]; [done|]. intros _. by rewrite HasPrefix_char. Qed.

(** What the parser guarantees of an expression. *)
Record expr_ok (x : expr) : Prop := {
  ok_key : key_ok (ex_key x) = true;
  ok_value : ex_value x ≠ EmptyString;
  ok_no_tilde : HasPrefix (ex_value x) "~" = false
}.

Lemma parse_with_spec op e x :
  parse_with op e = Ret x → Contains e (op_text op) = true →
  expr_ok x ∧ ex_operator x = op ∧
  ∃ v, e = ex_key x +:+ op_text op +:+ v ∧ value_ok v = true ∧
       ex_value x = TrimLeft_char "~" v ∧ ex_isSoft x = HasPrefix v "~".
Proof.
  unfold parse_with, Contains, SplitN2. destruct (cut (op_text op) e) as [[k v]|] eqn:Hcut; [|done].
  apply cut_Some in Hcut. destruct (key_ok k) eqn:Hk; [|done]. simpl.
  destruct (value_ok v) eqn:Hv; [|done]. cbn [negb]. rewrite isSoft_spec by by apply value_ok_nonempty.
  intros [= <-] _. cbn [ex_key ex_operator ex_value ex_isSoft]. split; [split|by eauto 6].
  - done.
  - by apply value_ok_not_tildes.
  - cbn [ex_value]. destruct (TrimLeft_head "~" v) as [->|(d & t & -> & Hd)]; [done|].
    rewrite HasPrefix_char. by apply Ascii.eqb_neq.
Qed.

Lemma parseExpr_inv e x :
  parseExpr e = Ret x →
  expr_ok x ∧
  ∃ v, e = ex_key x +:+ op_text (ex_operator x) +:+ v ∧ value_ok v = true ∧
       ex_value x = TrimLeft_char "~" v ∧ ex_isSoft x = HasPrefix v "~".
Proof.
  unfold parseExpr. intros Hp.
  destruct (Contains e (op_text EQ)) eqn:HE; [|destruct (Contains e (op_text NOTEQ)) eqn:HN; [|done]].
  - apply parse_with_spec in Hp as (? & -> & ?); eauto.
  - apply parse_with_spec in Hp as (? & -> & ?); eauto.
Qed.

Lemma parse_with_no_panic op e : no_panic (parse_with op e).
Proof.
  unfold parse_with, SplitN2. destruct (cut _ e) as [[k v]|]; [|by destruct (key_ok e)].
  destruct (key_ok k); [|done]. simpl. destruct (value_ok v) eqn:Hv; [|done].
  destruct v as [|c v]; [done|]. done.
Qed.

Lemma parseExpr_no_panic e : no_panic (parseExpr e).
Proof. unfold parseExpr. repeat case_match; try done; apply parse_with_no_panic. Qed.

Lemma omapM_no_panic {A B} (f : A → outcome B) l :
  (∀ x, no_panic (f x)) → no_panic (omapM f l).
Proof.
  intros Hf. induction l as [|x l IH]; simpl; [done|].
  apply no_panic_bind; [done|]. intros y _. apply no_panic_bind; [done|]. done.
Qed.

Lemma omapM_Forall2 {A B} (f : A → outcome B) l ys :
  omapM f l = Ret ys → Forall2 (λ x y, f x = Ret y) l ys.
Proof.
  revert ys. induction l as [|x l IH]; intros ys; simpl.
  - intros [= <-]. constructor.
  - intros (y & Hy & (ys' & Hys & [= <-])%bind_Ret_inv)%bind_Ret_inv. constructor; auto.
Qed.

(** Parsing a list of expressions never panics; when it succeeds there is one
    expression per text, made of a valid key, the operator and a valid value whose
    leading tildes mark it as soft and are dropped; the value left is not empty. *)
Theorem parseExprs_spec env :
  no_panic (parseExprs env) ∧
  ∀ exprs, parseExprs env = Ret exprs →
    Forall2 (λ e x, expr_ok x ∧
      ∃ v, e = ex_key x +:+ op_text (ex_operator x) +:+ v ∧ value_ok v = true ∧
           ex_value x = TrimLeft_char "~" v ∧ ex_isSoft x = HasPrefix v "~") env exprs.
Proof.
  split; [apply omapM_no_panic, parseExpr_no_panic|].
  intros exprs Hp. eapply Forall2_impl; [by apply omapM_Forall2|].
  intros e x. apply parseExpr_inv.
Qed.

(** ** Printing and parsing again *)

Lemma runes_exclude (ok : Z → bool) s c :
  forallb ok (rune_values s) = true → byte c < 128 → ok (byte c) = false → c ∉ chars s.
Proof.
  intros Hall Hc Hf Hin. apply (ascii_rune c s Hin) in Hc.
  eapply forallb_forall in Hall; [|by apply list_elem_of_In]. congruence.
Qed.

Lemma forallb_impl {A} (p q : A → bool) l :
  (∀ x, p x = true → q x = true) → forallb p l = true → forallb q l = true.
Proof. intros Hpq. rewrite !forallb_forall. auto. Qed.

Lemma key_ok_no_eq k : key_ok k = true → "="%char ∉ chars k ∧ "!"%char ∉ chars k.
Proof.
  intros Hk. assert (forallb (λ c, key_first c || key_rest c) (rune_values k) = true) as Hall.
  { unfold key_ok in Hk. destruct (rune_values k) as [|a [|b l]]; [done..|].
    cbn [key_ok_runes] in Hk. apply andb_true_iff in Hk as [Ha Hl]. cbn [forallb].
    rewrite Ha. cbn [orb andb]. apply (forallb_impl key_rest (λ c, key_first c || key_rest c) (b :: l)); [|exact Hl].
    intros c ->. apply orb_true_r. }
  split; by apply (runes_exclude _ _ _ Hall).
Qed.

(** A value without a leading mark. *)
Definition plain_value (v : string) : bool := rest_ok (rune_values v).

Lemma plain_value_no c v :
  plain_value v = true → byte c < 128 → value_char (byte c) = false → c ∉ chars v.
Proof.
  unfold plain_value, rest_ok. rewrite andb_true_iff. intros [_ Hv]. by apply runes_exclude.
Qed.

Lemma plain_value_ok soft v :
  plain_value v = true → value_ok ((if soft : bool then "~" else "") +:+ v) = true.
Proof.
  intros Hv. destruct soft; unfold value_ok.
  - change ("~" +:+ v) with (String "~" v). rewrite rune_values_ascii by (vm_compute; done).
    unfold value_ok_runes, after_lead. unfold plain_value in Hv. rewrite Hv.
    by rewrite !orb_true_r.
  - change ("" +:+ v) with v. unfold value_ok_runes, after_lead. unfold plain_value in Hv.
    by rewrite Hv.
Qed.

Lemma TrimLeft_notin c s : c ∉ chars s → TrimLeft_char c s = s.
Proof.
  destruct s as [|d s]; [done|]. intros Hc. simpl.
  destruct (Ascii.eqb_spec d c) as [->|]; [|done]. destruct Hc. left.
Qed.

Lemma TrimLeft_soft (soft : bool) v :
  "~"%char ∉ chars v → TrimLeft_char "~" ((if soft then "~" else "") +:+ v) = v.
Proof. intros Hv. destruct soft; simpl; by apply TrimLeft_notin. Qed.

Lemma HasPrefix_soft (soft : bool) v :
  "~"%char ∉ chars v → HasPrefix ((if soft then "~" else "") +:+ v) "~" = soft.
Proof.
  intros Hv. destruct soft; cbn [String.append]; [by rewrite HasPrefix_char|].
  destruct v as [|c v]; [done|]. rewrite HasPrefix_char. apply Ascii.eqb_neq.
  intros ->. apply Hv. left.
Qed.

(** The occurrences of a byte. *)
Definition occurs (c : ascii) (s : string) : nat := length (List.filter (Ascii.eqb c) (chars s)).
Lemma occurs_app c a b : occurs c (a +:+ b) = (occurs c a + occurs c b)%nat.
Proof. unfold occurs. by rewrite chars_app, List.filter_app, length_app. Qed.
Lemma occurs_notin c s : c ∉ chars s → occurs c s = 0%nat.
Proof.
  unfold occurs. intros Hc. rewrite (proj2 (Lfilter_nil _ _)); [done|]. intros d Hd.
  apply Ascii.eqb_neq. by intros ->.
Qed.

Lemma no_double_eq k t :
  "="%char ∉ chars k → "="%char ∉ chars t → cut "==" (k +:+ "!=" +:+ t) = None.
Proof.
  intros Hk Ht. destruct (cut "==" (k +:+ "!=" +:+ t)) as [[a b]|] eqn:Hcut; [|done].
  apply cut_Some in Hcut. apply (f_equal (occurs "=")) in Hcut.
  rewrite !occurs_app, (occurs_notin _ k Hk), (occurs_notin _ t Ht) in Hcut.
  change (occurs "=" "!=") with 1%nat in Hcut. change (occurs "=" "==") with 2%nat in Hcut. lia.
Qed.

(** An expression printed as [key op value], with a tilde before the value when
    it is soft, is read back as it was. *)
Theorem parseExpr_print k op (soft : bool) v :
  key_ok k = true → plain_value v = true →
  parseExpr (k +:+ op_text op +:+ (if soft then "~" else "") +:+ v)
  = Ret {| ex_key := k; ex_operator := op; ex_value := v; ex_isSoft := soft |}.
Proof.
  intros Hk Hv. destruct (key_ok_no_eq k Hk) as [Heq Hbang].
  pose proof (plain_value_no "~" v Hv eq_refl eq_refl) as Htilde.
  pose proof (plain_value_no "=" v Hv eq_refl eq_refl) as Hveq.
  set (w := (if soft then "~" else "") +:+ v).
  assert (parse_with op (k +:+ op_text op +:+ w)
    = Ret {| ex_key := k; ex_operator := op; ex_value := v; ex_isSoft := soft |}) as Hparse.
  { unfold parse_with, SplitN2.
    assert (cut (op_text op) (k +:+ op_text op +:+ w) = Some (k, w)) as ->.
    { destruct op; [exact (cut_app "=" "=" k w Heq)|exact (cut_app "!" "=" k w Hbang)]. }
    rewrite Hk. cbn [negb]. unfold w. rewrite plain_value_ok by done. cbn [negb].
    rewrite isSoft_spec by (by apply value_ok_nonempty, plain_value_ok).
    cbn [mbind outcome_bind]. rewrite TrimLeft_soft by done. by rewrite HasPrefix_soft. }
  unfold parseExpr, Contains. destruct op; cbn [op_text] in *.
  - by rewrite (cut_app "=" "=" k w Heq).
  - rewrite no_double_eq; [|done|].
    + by rewrite (cut_app "!" "=" k w Hbang).
    + unfold w. rewrite chars_app. destruct soft; simpl; set_solver.
Qed.

(** The pattern of a value other than [/] exists. *)
Lemma pattern_of_Ret value :
  value ≠ EmptyString → value ≠ "/" → ∃ pattern, pattern_of value = Ret pattern.
Proof.
  intros Hne Hv. destruct value as [|c v]; [done|].
  unfold pattern_of. rewrite index_0. cbn [mbind outcome_bind].
  destruct (Ascii.eqb_spec c "/") as [->|]; [|by eexists].
  destruct v as [|d v]; [done|].
  assert (∃ l, index_byte (String "/" (String d v)) (len (String "/" (String d v)) - 1) = Ret l)
    as [l ->].
  { unfold index_byte, len. rewrite bool_decide_eq_true_2 by (simpl; lia).
    destruct (String.get _ _) eqn:Hg; [by eexists|]. exfalso. revert Hg.
    generalize ("/"%char). intros c0. clear.
    replace (Z.to_nat (Z.of_nat (String.length (String c0 (String d v))) - 1))
      with (String.length (String d v)) by (simpl; lia).
    revert c0 d. induction v as [|d' v IH]; intros c0 d; [done|]. exact (IH d d'). }
  cbn [mbind outcome_bind]. destruct (Ascii.eqb l "/"); [|by eexists].
  unfold slice_string, len. rewrite bool_decide_eq_true_2; [by eexists|]. simpl. lia.
Qed.

(** Matching a parsed expression panics on the value [/], which the parser
    accepts, and on no other; otherwise [==] holds when some text matches the pattern
    and [!=] when none does, a pattern that does not compile matching nothing. *)
Theorem Match_spec `{GoRegexp} e x whats :
  parseExpr e = Ret x →
  (ex_value x = "/" → Match x whats = Panic "slice bounds out of range") ∧
  (ex_value x ≠ "/" → ∃ pattern, pattern_of (ex_value x) = Ret pattern ∧
    Match x whats = Ret (match ex_operator x with
                         | EQ => matches_any pattern whats
                         | NOTEQ => negb (matches_any pattern whats)
                         end)) ∧
  parseExpr "key==/" = Ret {| ex_key := "key"; ex_operator := EQ; ex_value := "/"; ex_isSoft := false |}.
Proof.
  intros Hp. apply parseExpr_inv in Hp as [[_ Hne _] _]. split; [|split].
  - intros Hv. unfold Match. by rewrite Hv.
  - intros Hv. destruct (pattern_of_Ret _ Hne Hv) as [pattern Hpat].
    exists pattern. split; [done|]. unfold Match. rewrite Hpat. by destruct (ex_operator x).
  - by vm_compute.
Qed.

(** ** Concrete expressions *)

Lemma parseExpr_print_witness :
  key_ok "storage" = true ∧
  parseExpr "storage!=~ssd*" = Ret {| ex_key := "storage"; ex_operator := NOTEQ; ex_value := "ssd*"; ex_isSoft := true |}.
Proof. split; [done|]. by apply (parseExpr_print "storage" NOTEQ true "ssd*"). Defined.

Lemma Match_spec_witness :
  let x := {| ex_key := "node"; ex_operator := EQ; ex_value := "node*"; ex_isSoft := false |} in
  parseExpr "node==node*" = Ret x ∧
  ∃ pattern, @Match re2 x ["node1"] = Ret (@matches_any re2 pattern ["node1"]).
Proof.
  intros x. assert (parseExpr "node==node*" = Ret x) as Hp by done. split; [exact Hp|].
  destruct (@Match_spec re2 "node==node*" x ["node1"] Hp) as (_ & Hm & _).
  destruct Hm as (pattern & _ & Hm); [done|]. by exists pattern.
Defined.
