(* ===== verification/Filters.v ===== *)
(** * Filters ([scheduler/filter])

    [filter.go] and the seven filters: health, port, containerslots, dependency,
    affinity, constraint and whitelist. *)
From S2P Require Import Prelude GoStrings Regexp Json Config Container Inventory EngineState EngineOps Node Expr.
From Stdlib Require Import Ascii.

(** ** Addresses

    [net.ParseIP(s)] is a non-nil unspecified address ([0.0.0.0] or [::]). *)
Class GoNet := { IsUnspecified : string → bool }.

(** An instance for witnesses: the dotted form with zeros only and the shortest and
    full forms of [::]. *)
Definition zeros (s : string) : bool :=
  negb (String.eqb s "") && forallb (Ascii.eqb "0") (chars s).
Definition net_zero : GoNet := {| IsUnspecified := λ s,
  String.eqb s "::" ||
  (let l := Split_char "." s in bool_decide (length l = 4%nat) && forallb zeros l) ||
  (let l := Split_char ":" s in bool_decide (length l = 8%nat) && forallb zeros l) |}.

(** [type Filter interface], by its implementations. *)
Inductive Filter :=
  HealthFilter | PortFilter | SlotsFilter | DependencyFilter | AffinityFilter | ConstraintFilter
  | WhitelistFilter.
#[export] Instance Filter_eq_dec : EqDecision Filter.
Proof. solve_decision. Defined.
Definition filters : list Filter :=
  [HealthFilter; PortFilter; SlotsFilter; DependencyFilter; AffinityFilter; ConstraintFilter;
   WhitelistFilter].

Definition filter_Name (f : Filter) : string :=
  match f with
  | HealthFilter => "health"
  | PortFilter => "port"
  | SlotsFilter => "containerslots"
  | DependencyFilter => "dependency"
  | AffinityFilter => "affinity"
  | ConstraintFilter => "constraint"
  | WhitelistFilter => "whitelist"
  end.

Definition filter_ErrNotSupported : string := "filter not supported".

(** [New(names)] *)
Definition filter_New (names : list string) : outcome (list Filter) :=
  omapM (λ name, match List.find (λ f, String.eqb (filter_Name f) name) filters with
                 | Some f => Ret f
                 | None => Err filter_ErrNotSupported
                 end) names.
Definition filter_List : list string := filter_Name <$> filters.

(** The loop that keeps the candidates, and the error when there are none. *)
Definition narrow (p : Node → outcome bool) (err : string) (nodes : list Node) : outcome (list Node) :=
  candidates ← ofilter p nodes;
  match candidates with [] => Err err | _ => Ret candidates end.

(** A loop over requirements, each narrowing the nodes left by the previous ones. *)
Fixpoint narrow_all {A} (p : A → Node → outcome bool) (err : A → string) (l : list A)
    (nodes : list Node) : outcome (list Node) :=
  match l with
  | [] => Ret nodes
  | x :: l' => candidates ← narrow (p x) (err x) nodes; narrow_all p err l' candidates
  end.

Section filters.
Context `{GoRegexp} `{GoJson} `{GoNet} `{MapRange} (E : ptr → EngineHdr).

(** ** Health *)

Definition ErrNoHealthyNodeAvailable : string := "No healthy node available in the cluster".
Definition health_Filter (nodes : list Node) : outcome (list Node) :=
  narrow (λ n, Ret (Node_IsHealthy n)) ErrNoHealthyNodeAvailable nodes.

(** ** Ports *)

Definition bindsAllInterfaces (b : PortBinding) : bool :=
  String.eqb (pb_HostIP b) "" || IsUnspecified (pb_HostIP b).

Definition binding_conflict (requested b : PortBinding) : bool :=
  negb (String.eqb (pb_HostPort b) "") && String.eqb (pb_HostPort b) (pb_HostPort requested) &&
  (String.eqb (pb_HostIP requested) (pb_HostIP b) || bindsAllInterfaces requested
   || bindsAllInterfaces b).

(** [compare(requested, bindings)] *)
Definition compare (requested : PortBinding) (bindings : PortMap) : bool :=
  existsb (λ x, existsb (binding_conflict requested) x.2) (range_map bindings).

(** [portAlreadyInUse], for one container of the node. *)
Definition container_uses (requested : PortBinding) (c : Container) : bool :=
  if negb (String.eqb (ctr_ID c) "") then
    match ci_HostConfig (ctr_Info c) with
    | Some h => compare requested (hc_PortBindings h) | None => false end ||
    match ci_NetworkSettings (ctr_Info c) with
    | Some ns => compare requested (ns_Ports ns) | None => false end
  else
    match ctr_Config c with
    | Some config => compare requested (hc_PortBindings (cc_HostConfig config)) | None => false end.
Definition portAlreadyInUse (n : Node) (requested : PortBinding) : bool :=
  existsb (container_uses requested) (nd_Containers n).

(** [portAlreadyExposed]: the configuration of a container in host mode is
    dereferenced. *)
Definition container_exposes (requestedPort : string) (c : Container) : outcome bool :=
  match ci_HostConfig (ctr_Info c) with
  | Some h =>
      if String.eqb (hc_NetworkMode h) "host" then
        config ← deref (ci_Config (ctr_Info c));
        Ret (existsb (λ x, String.eqb x.1 requestedPort) (range_map (dc_ExposedPorts config)))
      else Ret false
  | None => Ret false
  end.
Definition portAlreadyExposed (n : Node) (requestedPort : string) : outcome bool :=
  oexistsb (container_exposes requestedPort) (nd_Containers n).

Definition filterHost (config : ContainerConfig) (nodes : list Node) : outcome (list Node) :=
  narrow_all (λ port n, b ← portAlreadyExposed n port; Ret (negb b))
    (λ port, "unable to find a node with port " +:+ port +:+ " available in the Host mode")
    (range_map (cc_ExposedPorts config)).*1 nodes.

(** The bindings requested, in the order of the two nested loops. *)
Definition requested_bindings (config : ContainerConfig) : list PortBinding :=
  mjoin (range_map (hc_PortBindings (cc_HostConfig config))).*2.

Definition filterBridge (config : ContainerConfig) (nodes : list Node) : outcome (list Node) :=
  narrow_all (λ binding n, Ret (negb (portAlreadyInUse n binding)))
    (λ binding, "unable to find a node with port " +:+ pb_HostPort binding +:+ " available")
    (requested_bindings config) nodes.

Definition host_mode (config : ContainerConfig) : bool :=
  String.eqb (hc_NetworkMode (cc_HostConfig config)) "host".

Definition port_Filter (config : ContainerConfig) (nodes : list Node) : outcome (list Node) :=
  if host_mode config then filterHost config nodes else filterBridge config nodes.

Definition port_GetFilters (config : ContainerConfig) : list string :=
  if host_mode config
  then (λ port, "port " +:+ port +:+ " (Host mode)") <$> (range_map (cc_ExposedPorts config)).*1
  else (λ b, "port " +:+ pb_HostPort b +:+ " (Bridge mode)") <$> requested_bindings config.

(** ** Slots *)

Definition ErrNoNodeWithFreeSlotsAvailable : string :=
  "No node with enough open slots available in the cluster".
Definition free_slot (n : Node) : bool :=
  match nd_Labels n !! "containerslots" with
  | Some slotsString =>
      let '(slots, ok) := Atoi slotsString in
      negb ok || (Z.of_nat (length (nd_Containers n)) <? slots)
  | None => true
  end.
Definition slots_Filter (nodes : list Node) : outcome (list Node) :=
  narrow (λ n, Ret (free_slot n)) ErrNoNodeWithFreeSlotsAvailable nodes.

(** ** Dependencies *)

(** [strings.SplitN(s, ":", 2)[0]] *)
Definition before_colon (s : string) : string := default "" (head (SplitN2 s ":")).

(** [check(dependencies, node)]: stops at the first container that is missing. *)
Fixpoint check (dependencies : list string) (n : Node) : outcome bool :=
  match dependencies with
  | [] => Ret true
  | d :: l =>
      c ← Node_Container E n d;
      match c with Some _ => check l n | None => Ret false end
  end.

Definition container_net (config : ContainerConfig) : list string :=
  let mode := hc_NetworkMode (cc_HostConfig config) in
  if HasPrefix mode "container:" then [TrimPrefix mode "container:"] else [].

Definition dependency_GetFilters (config : ContainerConfig) : list string :=
  let h := cc_HostConfig config in
  ((λ v, "--volumes-from=" +:+ v) <$> hc_VolumesFrom h) ++
  ((λ l, "--link=" +:+ l) <$> hc_Links h) ++
  (if HasPrefix (hc_NetworkMode h) "container:" then ["--net=" +:+ hc_NetworkMode h] else []).

(** [check(volumes) && check(links) && check(net)] *)
Definition dependencies_met (config : ContainerConfig) (n : Node) : outcome bool :=
  let h := cc_HostConfig config in
  v ← check (before_colon <$> hc_VolumesFrom h) n;
  if v : bool then
    l ← check (before_colon <$> hc_Links h) n;
    if l : bool then check (container_net config) n else Ret false
  else Ret false.

Definition dependency_Filter (config : ContainerConfig) (nodes : list Node) : outcome (list Node) :=
  match nodes with
  | [] => Ret nodes
  | _ => narrow (dependencies_met config)
           ("Unable to find a node fulfilling all dependencies: " +:+
            Join (dependency_GetFilters config) " ") nodes
  end.

(** ** Expressions *)

(** The expressions a pass looks at: the hard pass skips the soft ones. *)
Definition considered (soft : bool) (exprs : list expr) : list expr :=
  List.filter (λ e, soft || negb (ex_isSoft e)) exprs.

Definition container_whats (n : Node) : list string :=
  mjoin ((λ c, match ctr_Names c with
               | name :: _ => [ctr_ID c; TrimPrefix name "/"]
               | [] => []
               end) <$> nd_Containers n).
Definition image_whats (n : Node) : list string :=
  mjoin ((λ i, img_ID i :: img_RepoTags i ++ ((λ tag, (ParseRepositoryTag tag).1) <$> img_RepoTags i))
         <$> nd_Images n).
Definition label_whats (key : string) (n : Node) : list string :=
  (λ c, default "" (ctr_Labels c !! key)) <$> nd_Containers n.

Definition affinity_holds (e : expr) (n : Node) : outcome bool :=
  Match e (if String.eqb (ex_key e) "container" then container_whats n
           else if String.eqb (ex_key e) "image" then image_whats n
           else label_whats (ex_key e) n).
Definition affinity_Filter (config : ContainerConfig) (nodes : list Node) (soft : bool)
    : outcome (list Node) :=
  affinities ← parseExprs (Affinities config);
  narrow_all affinity_holds (λ e, "unable to find a node that satisfies the affinity " +:+ expr_text e)
    (considered soft affinities) nodes.

Definition constraint_holds (e : expr) (n : Node) : outcome bool :=
  Match e (if String.eqb (ex_key e) "node" then [nd_ID n; nd_Name n]
           else [default "" (nd_Labels n !! ex_key e)]).
Definition constraint_Filter (config : ContainerConfig) (nodes : list Node) (soft : bool)
    : outcome (list Node) :=
  constraints ← parseExprs (Constraints config);
  narrow_all constraint_holds
    (λ e, "unable to find a node that satisfies the constraint " +:+ expr_text e)
    (considered soft constraints) nodes.

(** The operator of a whitelist is not looked at. *)
Definition whitelisted (e : expr) (n : Node) : outcome bool :=
  Ret (existsb (String.eqb (nd_Name n)) (Split_char "|" (ex_value e))).
Definition whitelist_Filter (config : ContainerConfig) (nodes : list Node) (soft : bool)
    : outcome (list Node) :=
  whitelists ← parseExprs (Whitelists config);
  narrow_all whitelisted (λ e, "unable to find a node that satisfies the whitelist " +:+ expr_text e)
    (considered soft whitelists) nodes.

(** ** All of them *)

Definition filter_Filter (f : Filter) (config : ContainerConfig) (nodes : list Node) (soft : bool)
    : outcome (list Node) :=
  match f with
  | HealthFilter => health_Filter nodes
  | PortFilter => port_Filter config nodes
  | SlotsFilter => slots_Filter nodes
  | DependencyFilter => dependency_Filter config nodes
  | AffinityFilter => affinity_Filter config nodes soft
  | ConstraintFilter => constraint_Filter config nodes soft
  | WhitelistFilter => whitelist_Filter config nodes soft
  end.

Definition GetFilters (f : Filter) (config : ContainerConfig) : outcome (list string) :=
  match f with
  | HealthFilter => Ret []
  | PortFilter => Ret (port_GetFilters config)
  | SlotsFilter => Ret ["available container slots"]
  | DependencyFilter => Ret (dependency_GetFilters config)
  | AffinityFilter => l ← parseExprs (Affinities config); Ret (map expr_soft_text l)
  | ConstraintFilter => l ← parseExprs (Constraints config); Ret (map expr_text l)
  | WhitelistFilter => l ← parseExprs (Whitelists config); Ret (map expr_soft_text l)
  end.

(** [listAllFilters]: up to the filter that failed; [%v] of a list of strings. *)
Fixpoint listAllFilters (fs : list Filter) (config : ContainerConfig) (lastFilter allFilters : string)
    : string :=
  match fs with
  | [] => allFilters
  | f :: fs' =>
      let allFilters :=
        match GetFilters f config with
        | Ret (_ :: _ as l) => allFilters +:+ String "010" ("[" +:+ Join l " " +:+ "]")
        | _ => allFilters
        end in
      if String.eqb (filter_Name f) lastFilter then allFilters
      else listAllFilters fs' config lastFilter allFilters
  end.

Fixpoint apply_from (all fs : list Filter) (config : ContainerConfig) (candidates : list Node)
    (soft : bool) : outcome (list Node) :=
  match fs with
  | [] => Ret candidates
  | f :: fs' =>
      match filter_Filter f config candidates soft with
      | Err err =>
          if String.eqb (filter_Name f) "health" then Err err
          else Err ("Unable to find a node that satisfies the following conditions " +:+
                    listAllFilters all config (filter_Name f) "")
      | Panic why => Panic why
      | Ret candidates => apply_from all fs' config candidates soft
      end
  end.
Definition ApplyFilters (fs : list Filter) (config : ContainerConfig) (nodes : list Node) (soft : bool)
    : outcome (list Node) :=
  apply_from fs fs config nodes soft.
End filters.

(** ** A filter is a predicate on nodes *)

Definition yes (o : outcome bool) : bool := match o with Ret b => b | _ => false end.
Definition no_err {A} (o : outcome A) : Prop := ∀ e, o ≠ Err e.

(** [r] is the outcome of keeping the nodes on which [p] holds: an error means that
    there are none. *)
Definition selects (p : Node → bool) (nodes : list Node) (r : outcome (list Node)) : Prop :=
  match r with
  | Ret l => l = List.filter p nodes
  | Err _ => List.filter p nodes = []
  | Panic _ => True
  end.

Lemma ofilter_yes {A} (p : A → outcome bool) l l' :
  ofilter p l = Ret l' → l' = List.filter (λ x, yes (p x)) l.
Proof.
  revert l'. induction l as [|x l IH]; intros l'; simpl; [by intros [= <-]|].
  intros (b & -> & (ys & Hys & [= <-])%bind_Ret_inv)%bind_Ret_inv.
  rewrite <- (IH ys Hys). by destruct b.
Qed.

Lemma ofilter_no_err {A} (p : A → outcome bool) l : (∀ x, no_err (p x)) → no_err (ofilter p l).
Proof.
  intros Hp. induction l as [|x l IH]; intros e; simpl; [done|].
  specialize (Hp x). destruct (p x) as [b|e'|w]; simpl; [|by destruct (Hp e')|done].
  specialize (IH e). by destruct (ofilter p l).
Qed.

Lemma narrow_selects p err nodes :
  (∀ n, no_err (p n)) → selects (λ n, yes (p n)) nodes (narrow p err nodes).
Proof.
  intros Hp. unfold narrow. pose proof (ofilter_no_err p nodes Hp) as Hne.
  destruct (ofilter p nodes) as [l|e|w] eqn:Hl; simpl; [|by destruct (Hne e)|done].
  apply ofilter_yes in Hl. by destruct l.
Qed.

Lemma selects_ext p q nodes r : (∀ n, p n = q n) → selects p nodes r → selects q nodes r.
Proof.
  intros Hpq. assert (List.filter p nodes = List.filter q nodes) as Heq.
  { induction nodes as [|n nodes IH]; simpl; [done|]. by rewrite Hpq, IH. }
  unfold selects. by rewrite Heq.
Qed.

(** One narrowing after another. *)
Lemma selects_bind p q nodes r (f : list Node → outcome (list Node)) :
  selects p nodes r → (∀ l, selects q l (f l)) → selects (λ n, p n && q n) nodes (r ≫= f).
Proof.
  intros Hr Hf. destruct r as [l|e|w]; simpl in *; [|rewrite <- Lfilter_Lfilter, Hr; done|done].
  specialize (Hf l). unfold selects in *. destruct (f l) as [l'|e|w]; [| |done];
    by rewrite <- Lfilter_Lfilter, <- Hr.
Qed.

Lemma narrow_all_selects {A} (p : A → Node → outcome bool) err l nodes :
  (∀ x n, no_err (p x n)) →
  selects (λ n, forallb (λ x, yes (p x n)) l) nodes (narrow_all p err l nodes).
Proof.
  intros Hp. revert nodes. induction l as [|x l IH]; intros nodes; simpl.
  - symmetry. by apply Lfilter_true.
  - apply selects_bind; [by apply narrow_selects|]. intros l'. apply IH.
Qed.

Section filter_specs.
Context `{GoRegexp} `{GoJson} `{GoNet} `{MapRange} (E : ptr → EngineHdr).

(** The expressions are read and all those considered hold. *)
Definition exprs_hold (exprs : outcome (list expr)) (soft : bool) (holds : expr → outcome bool) : bool :=
  match exprs with Ret l => forallb (λ e, yes (holds e)) (considered soft l) | _ => false end.

(** What each filter asks of a node. *)
Definition accepts (f : Filter) (config : ContainerConfig) (soft : bool) (n : Node) : bool :=
  match f with
  | HealthFilter => Node_IsHealthy n
  | PortFilter =>
      if host_mode config
      then forallb (λ port, yes (b ← portAlreadyExposed n port; Ret (negb b)))
             (range_map (cc_ExposedPorts config)).*1
      else forallb (λ binding, negb (portAlreadyInUse n binding)) (requested_bindings config)
  | SlotsFilter => free_slot n
  | DependencyFilter => yes (dependencies_met E config n)
  | AffinityFilter => exprs_hold (parseExprs (Affinities config)) soft (λ e, affinity_holds e n)
  | ConstraintFilter => exprs_hold (parseExprs (Constraints config)) soft (λ e, constraint_holds e n)
  | WhitelistFilter => exprs_hold (parseExprs (Whitelists config)) soft (λ e, whitelisted e n)
  end.

Lemma no_err_bind {A B} (m : outcome A) (f : A → outcome B) :
  no_err m → (∀ a, no_err (f a)) → no_err (m ≫= f).
Proof.
  intros Hm Hf e. destruct m as [a|e'|w]; simpl; [apply Hf| |done]. by destruct (Hm e').
Qed.
Lemma no_err_Ret {A} (a : A) : no_err (Ret a).
Proof. done. Qed.
Lemma no_err_deref {A} (o : option A) : no_err (deref o).
Proof. by destruct o. Qed.
Lemma oexistsb_no_err {A} (p : A → outcome bool) l : (∀ x, no_err (p x)) → no_err (oexistsb p l).
Proof.
  intros Hp. induction l as [|x l IH]; simpl; [done|].
  apply no_err_bind; [done|]. by intros [].
Qed.
Lemma ofind_no_err {A} (p : A → outcome bool) l : (∀ x, no_err (p x)) → no_err (ofind p l).
Proof.
  intros Hp. induction l as [|x l IH]; simpl; [done|].
  apply no_err_bind; [done|]. by intros [].
Qed.
Lemma index_byte_no_err s i : no_err (index_byte s i).
Proof. unfold index_byte. repeat case_match; done. Qed.
Lemma slice_string_no_err s i j : no_err (slice_string s i j).
Proof. unfold slice_string. by case_match. Qed.
Hint Resolve no_err_bind no_err_Ret no_err_deref oexistsb_no_err ofind_no_err ofilter_no_err
  index_byte_no_err slice_string_no_err : cattle.
Ltac no_err_tac :=
  repeat (first [ progress intros | solve [auto with cattle] | apply no_err_bind
                | apply ofind_no_err | apply ofilter_no_err | apply oexistsb_no_err | case_match ]).

Lemma Node_Container_no_err n x : no_err (Node_Container E n x).
Proof. unfold Node_Container, Containers_Get, swarm_match, container_SwarmID. no_err_tac. Qed.
Lemma check_no_err l n : no_err (check E l n).
Proof.
  induction l as [|d l IH]; simpl; [done|]. apply no_err_bind; [apply Node_Container_no_err|].
  intros [c|]; [exact IH|done].
Qed.
Hint Resolve check_no_err : cattle.
Lemma dependencies_met_no_err config n : no_err (dependencies_met E config n).
Proof. unfold dependencies_met. no_err_tac. Qed.
Lemma portAlreadyExposed_no_err n port : no_err (portAlreadyExposed n port).
Proof. unfold portAlreadyExposed, container_exposes. no_err_tac. Qed.
Lemma Match_no_err e whats : no_err (Match e whats).
Proof. unfold Match, pattern_of. no_err_tac. Qed.
Hint Resolve dependencies_met_no_err portAlreadyExposed_no_err Match_no_err : cattle.

Lemma exprs_selects (exprs : outcome (list expr)) soft (holds : expr → Node → outcome bool) err nodes :
  (∀ e n, no_err (holds e n)) →
  selects (λ n, exprs_hold exprs soft (λ e, holds e n)) nodes
    (l ← exprs; narrow_all holds err (considered soft l) nodes).
Proof.
  intros Hh. destruct exprs as [l|e|w]; simpl; [by apply narrow_all_selects| |done].
  by apply Lfilter_nil.
Qed.

Lemma filter_selects f config nodes soft :
  selects (accepts f config soft) nodes (filter_Filter E f config nodes soft).
Proof.
  destruct f; simpl.
  - by apply narrow_selects.
  - unfold port_Filter, accepts. destruct (host_mode config).
    + apply narrow_all_selects. no_err_tac.
    + by apply narrow_all_selects.
  - by apply narrow_selects.
  - unfold dependency_Filter. destruct nodes as [|n nodes]; [done|].
    apply narrow_selects. auto with cattle.
  - apply exprs_selects. unfold affinity_holds. auto with cattle.
  - apply exprs_selects. unfold constraint_holds. auto with cattle.
  - by apply exprs_selects.
Qed.

Lemma apply_from_selects all fs config nodes soft :
  selects (λ n, forallb (λ f, accepts f config soft n) fs) nodes
    (apply_from E all fs config nodes soft).
Proof.
  revert nodes. induction fs as [|f fs IH]; intros nodes; simpl.
  - symmetry. by apply Lfilter_true.
  - pose proof (filter_selects f config nodes soft) as Hf.
    assert (selects (λ n, accepts f config soft n && forallb (λ f, accepts f config soft n) fs) nodes
      (filter_Filter E f config nodes soft ≫= λ l, apply_from E all fs config l soft)) as Hb.
    { by apply selects_bind. }
    destruct (filter_Filter E f config nodes soft); simpl in *; [done| |done].
    by destruct (String.eqb _ _).
Qed.
End filter_specs.

Section apply_filters.
Context `{GoRegexp} `{GoJson} `{GoNet} `{MapRange} (E : ptr → EngineHdr).

(** C9: whatever the filters, their order and the nodes, a successful filtering
    returns exactly the nodes that every filter accepts, in their order, and a failed
    one means that no node is accepted by all; so the order of the filters does not
    matter when they succeed. *)
Theorem ApplyFilters_spec fs config nodes soft :
  selects (λ n, forallb (λ f, accepts E f config soft n) fs) nodes (ApplyFilters E fs config nodes soft) ∧
  ∀ fs' l l', fs ≡ₚ fs' → ApplyFilters E fs config nodes soft = Ret l →
    ApplyFilters E fs' config nodes soft = Ret l' → l = l'.
Proof.
  unfold ApplyFilters. split; [apply apply_from_selects|].
  intros fs' l l' Hp Hl Hl'.
  pose proof (apply_from_selects E fs fs config nodes soft) as S1. rewrite Hl in S1.
  pose proof (apply_from_selects E fs' fs' config nodes soft) as S2. rewrite Hl' in S2.
  simpl in S1, S2. subst. clear Hl Hl'.
  induction nodes as [|n nodes IH]; simpl; [done|].
  assert (forallb (λ f, accepts E f config soft n) fs = forallb (λ f, accepts E f config soft n) fs')
    as ->; [|by rewrite IH].
  clear IH. induction Hp; simpl; [done|congruence| |congruence].
  by rewrite !andb_assoc, (andb_comm (accepts _ x _ _ _)).
Qed.

(** What the filters dereference is there, and no value is a lone slash. *)
Record filterable (n : Node) : Prop := {
  fb_config : Forall has_config (nd_Containers n);
  fb_host : ∀ c h, c ∈ nd_Containers n → ci_HostConfig (ctr_Info c) = Some h →
    hc_NetworkMode h = "host" → is_Some (ci_Config (ctr_Info c))
}.
Definition no_lone_slash (config : ContainerConfig) : Prop :=
  ∀ e x, e ∈ Affinities config ++ Constraints config → parseExpr e = Ret x → ex_value x ≠ "/".

Lemma narrow_no_panic p err nodes :
  (∀ n, n ∈ nodes → no_panic (p n)) → no_panic (narrow p err nodes).
Proof.
  intros Hp. unfold narrow. apply no_panic_bind; [by apply ofilter_no_panic|].
  by intros [] _.
Qed.
Lemma narrow_sub p err nodes l : narrow p err nodes = Ret l → ∀ n, n ∈ l → n ∈ nodes.
Proof.
  unfold narrow. intros (c & Hc & Hl)%bind_Ret_inv n Hn.
  destruct (ofilter_spec _ _ _ Hc) as (Hin & _). destruct c; [done|]. injection Hl as <-.
  by apply Hin in Hn as [??].
Qed.
Lemma narrow_all_no_panic {A} (p : A → Node → outcome bool) err l nodes :
  (∀ x n, x ∈ l → n ∈ nodes → no_panic (p x n)) → no_panic (narrow_all p err l nodes).
Proof.
  revert nodes. induction l as [|x l IH]; intros nodes Hp; simpl; [done|].
  apply no_panic_bind.
  - apply narrow_no_panic. intros n Hn. apply Hp; [left|done].
  - intros l' Hl'. apply IH. intros y n Hy Hn. apply Hp; [by right|]. by eapply narrow_sub.
Qed.

Lemma Containers_Get_no_panic l x : Forall has_config l → no_panic (Containers_Get E l x).
Proof. intros Hc. by rewrite Containers_Get_pure. Qed.
Lemma check_no_panic l n : Forall has_config (nd_Containers n) → no_panic (check E l n).
Proof.
  intros Hc. induction l as [|d l IH]; simpl; [done|].
  apply no_panic_bind; [by apply Containers_Get_no_panic|]. by intros [c|] _.
Qed.
Lemma oexistsb_no_panic {A} (p : A → outcome bool) l :
  (∀ x, x ∈ l → no_panic (p x)) → no_panic (oexistsb p l).
Proof.
  induction l as [|x l IH]; intros Hp; simpl; [done|].
  apply no_panic_bind; [apply Hp; left|]. intros [] _; [done|]. apply IH. intros y Hy. apply Hp. by right.
Qed.

Lemma Match_no_panic e x whats : parseExpr e = Ret x → ex_value x ≠ "/" → no_panic (Match x whats).
Proof.
  intros Hp Hv. apply parseExpr_inv in Hp as [[_ Hne _] _].
  destruct (pattern_of_Ret _ Hne Hv) as [pattern Hpat]. unfold Match. by rewrite Hpat.
Qed.

Lemma exprs_no_panic (env : list string) soft (holds : expr → Node → outcome bool) err nodes :
  (∀ e x n, e ∈ env → parseExpr e = Ret x → no_panic (holds x n)) →
  no_panic (l ← parseExprs env; narrow_all holds err (considered soft l) nodes).
Proof.
  intros Hh. apply no_panic_bind; [apply omapM_no_panic, parseExpr_no_panic|].
  intros l Hl. apply narrow_all_no_panic. intros x n Hx _.
  unfold considered in Hx. apply list_elem_of_Lfilter in Hx as [Hx _].
  apply omapM_Forall2 in Hl. apply list_elem_of_lookup in Hx as [i Hi].
  destruct (Forall2_lookup_r _ _ _ _ _ Hl Hi) as (e & He & Hp).
  eapply Hh; [|done]. by eapply list_elem_of_lookup_2.
Qed.

Lemma filter_no_panic f config nodes soft :
  Forall filterable nodes → no_lone_slash config → no_panic (filter_Filter E f config nodes soft).
Proof.
  intros Hn Hs. rewrite Forall_forall in Hn. destruct f; simpl.
  - by apply narrow_no_panic.
  - unfold port_Filter. destruct (host_mode config); apply narrow_all_no_panic; [|done].
    intros port n _ Hin. apply no_panic_bind; [|done]. apply oexistsb_no_panic. intros c Hc.
    unfold container_exposes. destruct (ci_HostConfig (ctr_Info c)) as [h|] eqn:Hh; [|done].
    destruct (String.eqb_spec (hc_NetworkMode h) "host") as [Hm|]; [|done].
    by destruct (fb_host _ (Hn _ Hin) c h Hc Hh Hm) as [cfg ->].
  - by apply narrow_no_panic.
  - unfold dependency_Filter. destruct nodes as [|n nodes]; [done|]. apply narrow_no_panic.
    intros m Hm. pose proof (fb_config _ (Hn _ Hm)) as Hc. unfold dependencies_met.
    apply no_panic_bind; [by apply check_no_panic|]. intros [] _; [|done].
    apply no_panic_bind; [by apply check_no_panic|]. intros [] _; [|done]. by apply check_no_panic.
  - apply exprs_no_panic. intros e x n He Hp. eapply Match_no_panic; [done|]. eapply Hs; [|done].
    apply elem_of_app. by left.
  - apply exprs_no_panic. intros e x n He Hp. eapply Match_no_panic; [done|]. eapply Hs; [|done].
    apply elem_of_app. by right.
  - by apply exprs_no_panic.
Qed.

Lemma filter_sub f config nodes soft l :
  filter_Filter E f config nodes soft = Ret l → ∀ n, n ∈ l → n ∈ nodes.
Proof.
  intros Hl n Hn. pose proof (filter_selects E f config nodes soft) as Hs. rewrite Hl in Hs.
  simpl in Hs. subst l. by apply list_elem_of_Lfilter in Hn as [??].
Qed.

Lemma apply_filters_total fs config nodes soft :
  Forall filterable nodes → no_lone_slash config → no_panic (ApplyFilters E fs config nodes soft).
Proof.
  unfold ApplyFilters. generalize fs at 1 as all. intros all. revert nodes.
  induction fs as [|f fs IH]; intros nodes Hn Hs; simpl; [done|].
  pose proof (filter_no_panic f config nodes soft Hn Hs) as Hf.
  destruct (filter_Filter E f config nodes soft) as [l| |] eqn:Hl; [|by case_match|done].
  apply IH; [|done]. apply Forall_forall. intros n Hin. eapply Forall_forall; [done|].
  by eapply filter_sub.
Qed.

(** C10: filtering never panics when every container of the nodes carries a
    configuration, those in host mode an inspected one, and no affinity or constraint
    has the value [/]. *)
Theorem ApplyFilters_no_panic fs config nodes soft :
  Forall filterable nodes → no_lone_slash config → no_panic (ApplyFilters E fs config nodes soft).
Proof. apply apply_filters_total. Qed.

(** The host ports a container holds or asks for. *)
Definition bindings_in (m : PortMap) : list PortBinding := mjoin (range_map m).*2.
Definition bindings_of (c : Container) : list PortBinding :=
  if String.eqb (ctr_ID c) "" then
    match ctr_Config c with Some config => requested_bindings config | None => [] end
  else
    match ci_HostConfig (ctr_Info c) with Some h => bindings_in (hc_PortBindings h) | None => [] end ++
    match ci_NetworkSettings (ctr_Info c) with Some ns => bindings_in (ns_Ports ns) | None => [] end.

(** Two bindings of the same defined port on a common interface. *)
Definition clash (a b : PortBinding) : Prop :=
  pb_HostPort a = pb_HostPort b ∧ pb_HostPort a ≠ "" ∧
  (pb_HostIP a = pb_HostIP b ∨ bindsAllInterfaces a = true ∨ bindsAllInterfaces b = true).

Lemma existsb_mjoin {A B} (p : B → bool) (l : list (A * list B)) :
  existsb (λ x, existsb p x.2) l = existsb p (mjoin l.*2).
Proof. induction l as [|[a l'] l IH]; simpl; [done|]. by rewrite List.existsb_app, IH. Qed.

Lemma compare_existsb r m : compare r m = existsb (binding_conflict r) (bindings_in m).
Proof. apply existsb_mjoin. Qed.

Lemma container_uses_existsb r c : container_uses r c = existsb (binding_conflict r) (bindings_of c).
Proof.
  unfold container_uses, bindings_of. destruct (String.eqb (ctr_ID c) ""); simpl.
  - destruct (ctr_Config c); [|done]. apply compare_existsb.
  - rewrite List.existsb_app. f_equal; case_match; try done; apply compare_existsb.
Qed.

Lemma binding_conflict_clash a b : binding_conflict a b = true ↔ clash a b.
Proof.
  unfold binding_conflict, clash. rewrite !andb_true_iff, !orb_true_iff, negb_true_iff.
  rewrite String.eqb_neq, !String.eqb_eq. split; intros; destruct_and?; split_and?; try done; try congruence; tauto.
Qed.


(** A node accepted with the soft expressions is accepted without them. *)
Lemma exprs_hold_soft exprs holds : exprs_hold exprs true holds = true → exprs_hold exprs false holds = true.
Proof.
  unfold exprs_hold, considered. destruct exprs as [l| |]; [|done..].
  rewrite !forallb_forall. intros Hall e He. apply Hall.
  apply filter_In in He as [He _]. apply filter_In. by split.
Qed.
Lemma accepts_soft f config n : accepts E f config true n = true → accepts E f config false n = true.
Proof. destruct f; simpl; try done; apply exprs_hold_soft. Qed.
End apply_filters.

(** ** Concrete nodes *)

Section concrete.
Existing Instances re2 json_strings net_zero canonical_range.
Definition published (ip port : string) : PortMap := {["80/tcp" := [{| pb_HostIP := ip; pb_HostPort := port |}]]}.
Definition publishing (m : PortMap) : HostConfig :=
  {| hc_Memory := 0; hc_MemorySwap := 0; hc_CPUShares := 0; hc_CpusetCpus := ""; hc_NetworkMode := "";
     hc_VolumesFrom := []; hc_Links := []; hc_PortBindings := m |}.
Definition publish_request (ip port : string) (env : list string) : ContainerConfig :=
  BuildContainerConfig (dc_set_Env env zero_DockerConfig) (publishing (published ip port)) {| EndpointsConfig := ∅ |}.
(** A node with one container that publishes port 8080 of the address 10.0.0.1. *)
Definition port_node : Node :=
  let c := {| ctr_Container := {| lc_ID := "c1"; lc_Names := ["/web"]; lc_Labels := ∅; lc_State := "running"; lc_Created := 0; lc_Image := ""; lc_Ports := [] |};
              ctr_Config := Some (publish_request "10.0.0.1" "8080" []);
              ctr_Info := {| ci_Name := "/web"; ci_HostConfig := Some (publishing (published "10.0.0.1" "8080"));
                             ci_State := None; ci_Config := None; ci_NetworkSettings := None; ci_Created := ""; ci_ExecIDs := []; ci_Mounts := [] |};
              ctr_Engine := 0%nat |} in
  nd_set_Containers [c] (node_of "node1" 0 100).
Lemma port_node_filterable : Forall filterable [port_node].
Proof.
  apply Forall_singleton. split.
  - apply Forall_singleton. by eexists.
  - intros c h ->%list_elem_of_singleton [= <-]. done.
Qed.
Definition constrained_request : ContainerConfig := publish_request "" "8081" ["constraint:node==node*"].
Lemma constrained_request_no_slash : no_lone_slash constrained_request.
Proof.
  intros e x He. assert (Affinities constrained_request ++ Constraints constrained_request = ["node==node*"]) as Hl.
  { by vm_compute. }
  rewrite Hl in He. apply list_elem_of_singleton in He as ->. intros Hx. vm_compute in Hx. by injection Hx as <-.
Qed.

Lemma ApplyFilters_no_panic_witness :
  no_panic (ApplyFilters node1 [HealthFilter; PortFilter; ConstraintFilter] constrained_request [port_node] true) ∧
  ApplyFilters node1 [HealthFilter; PortFilter; ConstraintFilter] constrained_request [port_node] true = Ret [port_node].
Proof.
  split; [|by vm_compute].
  exact (ApplyFilters_no_panic node1 _ constrained_request _ true port_node_filterable constrained_request_no_slash).
Defined.
End concrete.
