(* ===== verification/Scheduler.v ===== *)
(** * The scheduler ([scheduler/scheduler.go]) *)
From S2P Require Import Prelude GoStrings Regexp Json Config Container Inventory EngineState EngineOps Node Strategy Expr Filters.

Definition errNoNodeAvailable : string := "No nodes available in the cluster".

(** [type Scheduler struct] *)
Record Scheduler := { sch_strategy : PlacementStrategy; sch_filters : list Filter }.

(** [Filters()] *)
Definition Scheduler_Filters (s : Scheduler) : string := Join (filter_Name <$> sch_filters s) ", ".

Section scheduler.
Context `{GoRegexp} `{GoJson} `{GoNet} `{MapRange} `{GoSort} (Intn : Z → Z) (E : ptr → EngineHdr).

Definition selectNodesForContainer (s : Scheduler) (nodes : list Node) (config : ContainerConfig)
    (soft : bool) : outcome (list Node) :=
  accepted ← ApplyFilters E (sch_filters s) config nodes soft;
  match accepted with
  | [] => Err errNoNodeAvailable
  | _ => RankAndSort Intn (sch_strategy s) config accepted
  end.

(** A first pass with the soft expressions, a second one without them when the first
    returned an error. *)
Definition SelectNodesForContainer (s : Scheduler) (nodes : list Node) (config : ContainerConfig)
    : outcome (list Node) :=
  match selectNodesForContainer s nodes config true with
  | Err _ => selectNodesForContainer s nodes config false
  | r => r
  end.

(** ** What a selection promises *)

(** The node is accepted by all the filters and, unless the strategy is [random], has
    room for the request. *)
Definition eligible (s : Scheduler) (config : ContainerConfig) (soft : bool) (n : Node) : bool :=
  forallb (λ f, accepts E f config soft n) (sch_filters s) &&
  (bool_decide (sch_strategy s = RandomPlacementStrategy) || fits config n).

(** The outcome of one pass. *)
Definition pass_ok (s : Scheduler) (config : ContainerConfig) (soft : bool) (nodes : list Node)
    (r : outcome (list Node)) : Prop :=
  match r with
  | Ret l => l ≠ [] ∧ l ≡ₚ List.filter (eligible s config soft) nodes
  | Err _ => List.filter (eligible s config soft) nodes = []
  | Panic _ => ¬ no_panic (ApplyFilters E (sch_filters s) config nodes soft)
  end.

Lemma ranks_selected R config nodes r :
  ranks R config nodes r →
  match r with
  | Ret l => l ≠ [] ∧ l ≡ₚ List.filter (fits config) nodes
  | Err _ => List.filter (fits config) nodes = []
  | Panic _ => False
  end.
Proof.
  intros [(out & -> & Hne & Hp & _)|[-> Hn]]; [done|]. by apply Lfilter_nil.
Qed.

Lemma RankAndSort_eligible s config nodes :
  request_sane config → Forall node_sane nodes → nodes ≠ [] →
  let ok n := bool_decide (sch_strategy s = RandomPlacementStrategy) || fits config n in
  match RankAndSort Intn (sch_strategy s) config nodes with
  | Ret l => l ≠ [] ∧ l ≡ₚ List.filter ok nodes
  | Err _ => List.filter ok nodes = []
  | Panic _ => False
  end.
Proof.
  intros Hc Hn Hne. simpl. destruct (sch_strategy s); simpl.
  - apply (ranks_selected (λ _ _, True)). apply (rank_with (-10) Less (λ _ _, True)); try done.
    + apply Less_asym.
    + apply Less_neg_trans.
  - apply (ranks_selected (λ _ _, True)). apply (rank_with 10 (λ i j, Less j i) (λ _ _, True)); try done.
    + intros x y. apply Less_asym.
    + intros x y z Hxy Hyz. by eapply Less_neg_trans.
  - rewrite (Lfilter_true (λ n, true || fits config n)) by done. split; [|apply shuffle_perm].
    intros Hnil. pose proof (shuffle_perm Intn (length nodes - 1) nodes) as Hp.
    rewrite Hnil in Hp. by apply Permutation_nil in Hp.
Qed.

Lemma Forall_Lfilter {A} (P : A → Prop) b l : Forall P l → Forall P (List.filter b l).
Proof. rewrite !Forall_forall. intros Hl x Hx. apply Hl. by apply list_elem_of_Lfilter in Hx as [??]. Qed.

Lemma selectNodes_pass s config soft nodes :
  request_sane config → Forall node_sane nodes →
  pass_ok s config soft nodes (selectNodesForContainer s nodes config soft).
Proof.
  intros Hc Hn. unfold selectNodesForContainer.
  pose proof (apply_from_selects E (sch_filters s) (sch_filters s) config nodes soft) as Hsel.
  fold (ApplyFilters E (sch_filters s) config nodes soft) in Hsel.
  set (acc n := forallb (λ f, accepts E f config soft n) (sch_filters s)) in *.
  assert (∀ ok, List.filter (λ n, acc n && ok n) nodes = List.filter ok (List.filter acc nodes)) as Heq.
  { intros ok. by rewrite Lfilter_Lfilter. }
  unfold pass_ok, eligible. fold acc.
  destruct (ApplyFilters E (sch_filters s) config nodes soft) as [l|e|w] eqn:Ha; simpl in Hsel |- *.
  - destruct l as [|n l]; [by rewrite Heq, <- Hsel|].
    pose proof (RankAndSort_eligible s config (n :: l) Hc) as Hr. rewrite Hsel in Hr at 1.
    specialize (Hr (Forall_Lfilter _ _ _ Hn) ltac:(done)). simpl in Hr. rewrite Heq, <- Hsel.
    by destruct (RankAndSort Intn (sch_strategy s) config (n :: l)).
  - by rewrite Heq, Hsel.
  - tauto.
Qed.

Lemma eligible_soft s config n : eligible s config true n = true → eligible s config false n = true.
Proof.
  unfold eligible. rewrite !andb_true_iff, !forallb_forall. intros [Hf Hr]. split; [|done].
  intros f Hin. by apply accepts_soft, Hf.
Qed.

(** Whatever the input, a node that is selected is one of the candidates and every filter
    accepted it. *)
Lemma SelectNodes_accepted s nodes config l n :
  SelectNodesForContainer s nodes config = Ret l → n ∈ l →
  n ∈ nodes ∧ ∃ soft, ∀ f, f ∈ sch_filters s → accepts E f config soft n = true.
Proof.
  assert (∀ soft l, selectNodesForContainer s nodes config soft = Ret l → n ∈ l →
    n ∈ nodes ∧ ∃ soft, ∀ f, f ∈ sch_filters s → accepts E f config soft n = true) as Hone.
  { intros soft l'. unfold selectNodesForContainer.
    pose proof (apply_from_selects E (sch_filters s) (sch_filters s) config nodes soft) as Hsel.
    fold (ApplyFilters E (sch_filters s) config nodes soft) in Hsel.
    destruct (ApplyFilters E (sch_filters s) config nodes soft) as [a| |]; simpl; [|done..].
    destruct a as [|a0 a]; [done|]. intros Hr Hn.
    apply (RankAndSort_sub _ _ _ _ _ _ Hr) in Hn. simpl in Hsel. rewrite Hsel in Hn.
    apply list_elem_of_Lfilter in Hn as [Hin Hacc]. split; [done|]. exists soft.
    rewrite forallb_forall in Hacc. intros f Hf. apply Hacc. by apply list_elem_of_In. }
  unfold SelectNodesForContainer.
  destruct (selectNodesForContainer s nodes config true) as [l'| |] eqn:Ht; [|by apply Hone|done].
  intros [= <-]. by eapply Hone.
Qed.

(** ** What scheduling does not look at *)

Lemma listAllFilters_Env fs env config lastFilter acc :
  listAllFilters fs (cc_set_Env env config) lastFilter acc = listAllFilters fs config lastFilter acc.
Proof.
  revert acc. induction fs as [|f fs IH]; intros acc; simpl; [done|].
  assert (GetFilters f (cc_set_Env env config) = GetFilters f config) as -> by (by destruct f).
  case_match; [done|apply IH].
Qed.
Lemma apply_from_Env all fs env config nodes soft :
  apply_from E all fs (cc_set_Env env config) nodes soft = apply_from E all fs config nodes soft.
Proof.
  revert nodes. induction fs as [|f fs IH]; intros nodes; simpl; [done|].
  assert (filter_Filter E f (cc_set_Env env config) nodes soft = filter_Filter E f config nodes soft) as ->
    by (by destruct f).
  destruct (filter_Filter E f config nodes soft); [apply IH| |done].
  by rewrite listAllFilters_Env.
Qed.

(** C38: scheduling does not read the environment: whatever is in it, the selection is the
    same; constraints and affinities count only once they are in the labels. *)
Theorem scheduling_ignores_Env s nodes env config :
  SelectNodesForContainer s nodes (cc_set_Env env config) = SelectNodesForContainer s nodes config.
Proof.
  assert (∀ soft, selectNodesForContainer s nodes (cc_set_Env env config) soft
    = selectNodesForContainer s nodes config soft) as Hone.
  { intros soft. unfold selectNodesForContainer, ApplyFilters. rewrite apply_from_Env.
    destruct (apply_from E _ _ config nodes soft) as [l| |]; simpl; [|done..].
    by destruct l, (sch_strategy s). }
  unfold SelectNodesForContainer. by rewrite !Hone.
Qed.

(** C1: scheduling.  The nodes returned are all the nodes that the filters accept and
    that have room, with the soft expressions if some node satisfies those too, without
    them otherwise; they are never none; an error means that no node is eligible even
    without the soft expressions; and nothing panics on well-formed input. *)
Theorem SelectNodesForContainer_spec s nodes config :
  request_sane config → Forall node_sane nodes → Forall filterable nodes → no_lone_slash config →
  match SelectNodesForContainer s nodes config with
  | Ret l =>
      l ≠ [] ∧ (∀ n, n ∈ l → n ∈ nodes ∧ eligible s config false n = true) ∧
      (l ≡ₚ List.filter (eligible s config true) nodes ∨
       (List.filter (eligible s config true) nodes = [] ∧
        l ≡ₚ List.filter (eligible s config false) nodes))
  | Err _ => ∀ n, n ∈ nodes → eligible s config false n = false
  | Panic _ => False
  end.
Proof.
  intros Hc Hn Hf Hs.
  pose proof (selectNodes_pass s config true nodes Hc Hn) as Ht.
  pose proof (selectNodes_pass s config false nodes Hc Hn) as Hh.
  assert (∀ soft, no_panic (ApplyFilters E (sch_filters s) config nodes soft)) as Hnp.
  { intros soft. by apply apply_filters_total. }
  unfold SelectNodesForContainer, pass_ok in *.
  destruct (selectNodesForContainer s nodes config true) as [l|e|w]; [| |by destruct Ht].
  - destruct Ht as [Hne Hp]. split; [done|]. split; [|by left].
    intros n Hin. rewrite Hp in Hin. apply list_elem_of_Lfilter in Hin as [Hin He].
    split; [done|]. by apply eligible_soft.
  - destruct (selectNodesForContainer s nodes config false) as [l|e'|w]; [| |by destruct Hh].
    + destruct Hh as [Hne Hp]. split; [done|]. split; [|by right].
      intros n Hin. rewrite Hp in Hin. by apply list_elem_of_Lfilter in Hin as [Hin He].
    + by apply Lfilter_nil.
Qed.
End scheduler.

(** ** A concrete selection *)

Section concrete.
Existing Instances re2 json_strings net_zero canonical_range insertion_sort.
Definition spread_scheduler : Scheduler :=
  {| sch_strategy := SpreadPlacementStrategy; sch_filters := [HealthFilter; PortFilter; ConstraintFilter] |}.
Lemma port_node_sane : Forall node_sane [port_node].
Proof. apply Forall_singleton. by split. Qed.
Lemma constrained_request_sane : request_sane constrained_request.
Proof. split; by vm_compute. Qed.
Lemma SelectNodesForContainer_spec_witness :
  SelectNodesForContainer (λ _, 0) node1 spread_scheduler [port_node] constrained_request = Ret [port_node] ∧
  eligible node1 spread_scheduler constrained_request false port_node = true.
Proof.
  assert (SelectNodesForContainer (λ _, 0) node1 spread_scheduler [port_node] constrained_request
    = Ret [port_node]) as Hr by (by vm_compute).
  split; [exact Hr|].
  pose proof (SelectNodesForContainer_spec (λ _, 0) node1 spread_scheduler [port_node] constrained_request
    constrained_request_sane port_node_sane port_node_filterable constrained_request_no_slash) as Hs.
  rewrite Hr in Hs. destruct Hs as (_ & Hs & _). apply Hs. left.
Defined.
End concrete.
