(* ===== verification/SwarmRegistry.v ===== *)
(** * The engine registry of the swarm cluster ([cluster/swarm/cluster.go])

    The state of a [Cluster], running an engine's methods inside it, and the life
    of an engine in the two tables: [addEngine], [validatePendingEngine],
    [removeEngine] and the goroutines that interleave them. *)
From S2P Require Import Prelude GoStrings Json Config Container Inventory EngineState EngineOps.

(** ** State *)

(** [type pendingContainer struct] *)
Record pendingContainer := { pc_Config : ContainerConfig; pc_Name : string; pc_Engine : ptr }.

(** [type Cluster struct], the tables as maps to the engine objects, which live in
    [cl_heap]; [cl_locked] is the scheduler's mutex. *)
Record Cluster := mkCluster {
  cl_heap : gmap nat Engine;
  cl_engines : gmap string ptr;
  cl_pendingEngines : gmap string ptr;
  cl_pendingContainers : gmap string pendingContainer;
  cl_locked : bool
}.

Definition cl_set_heap (h : gmap nat Engine) (c : Cluster) : Cluster :=
  mkCluster h (cl_engines c) (cl_pendingEngines c) (cl_pendingContainers c) (cl_locked c).
Definition cl_set_engines (m : gmap string ptr) (c : Cluster) : Cluster :=
  mkCluster (cl_heap c) m (cl_pendingEngines c) (cl_pendingContainers c) (cl_locked c).
Definition cl_set_pendingEngines (m : gmap string ptr) (c : Cluster) : Cluster :=
  mkCluster (cl_heap c) (cl_engines c) m (cl_pendingContainers c) (cl_locked c).
Definition cl_set_pendingContainers (m : gmap string pendingContainer) (c : Cluster) : Cluster :=
  mkCluster (cl_heap c) (cl_engines c) (cl_pendingEngines c) m (cl_locked c).
Definition cl_set_locked (b : bool) (c : Cluster) : Cluster :=
  mkCluster (cl_heap c) (cl_engines c) (cl_pendingEngines c) (cl_pendingContainers c) b.

Definition empty_cluster : Cluster := mkCluster ∅ ∅ ∅ ∅ false.

Definition zero_hdr : EngineHdr :=
  {| eng_ID := ""; eng_IP := ""; eng_Addr := ""; eng_Name := ""; eng_Labels := ∅ |}.
(** The fields of the engine object at [p]. *)
Definition hdr_at (c : Cluster) (p : ptr) : EngineHdr :=
  match cl_heap c !! p with Some e => e_hdr e | None => zero_hdr end.

(** ** Computations on the cluster

    The world is shared by all the daemons; [cs_events] records what the event
    handlers received, with the engine it came from.  A panic keeps the state
    reached. *)
Record ClusterSt (W : Type) := mkCS {
  cs_world : W;
  cs_cluster : Cluster;
  cs_events : list (ptr * string)
}.
Arguments mkCS {W}.
Arguments cs_world {W}.
Arguments cs_cluster {W}.
Arguments cs_events {W}.

Definition C (W A : Type) : Type := ClusterSt W → outcome A * ClusterSt W.
#[export] Instance C_ret W : MRet (C W) := λ A a st, (Ret a, st).
#[export] Instance C_bind W : MBind (C W) := λ A B f m st,
  match m st with
  | (Ret a, st') => f a st'
  | (Err e, st') => (Err e, st')
  | (Panic w, st') => (Panic w, st')
  end.

Definition get_cluster {W} : C W Cluster := λ st, (Ret (cs_cluster st), st).
Definition modify_cluster {W} (f : Cluster → Cluster) : C W unit := λ st,
  (Ret tt, mkCS (cs_world st) (f (cs_cluster st)) (cs_events st)).
Definition lift {W A} (o : outcome A) : C W A := λ st, (o, st).

(** The method [m] of the engine object at [p], with its daemon [api p]. *)
Definition on {W A} (api : ptr → DockerAPI W) (p : ptr) (m : DockerAPI W → M W A) : C W A := λ st,
  match cl_heap (cs_cluster st) !! p with
  | None => (Panic nil_dereference, st)
  | Some e =>
      let '(a, st') := m (api p) (mkSt (cs_world st) e []) in
      (Ret a, mkCS (st_world st')
                   (cl_set_heap (<[p := st_engine st']> (cl_heap (cs_cluster st))) (cs_cluster st))
                   (cs_events st ++ ((λ s, (p, s)) <$> st_events st')))
  end.

(** [for _, x := range l { f(x) }] *)
Fixpoint for_each {W A} (f : A → C W unit) (l : list A) : C W unit :=
  match l with
  | [] => mret tt
  | x :: l' => f x ;; for_each f l'
  end.

Section registry.
Context {W : Type} (api : ptr → DockerAPI W) `{GoJson} `{MapRange}.
Context (percent FailureRetry : Z).

(** [getEngineByAddr(addr)] *)
Definition getEngineByAddr (c : Cluster) (addr : string) : option ptr :=
  match cl_pendingEngines c !! addr with
  | Some p => Some p
  | None =>
      List.find (λ p, String.eqb (eng_Addr (hdr_at c p)) addr) (range_map (cl_engines c)).*2
  end.
Definition hasEngineByAddr (c : Cluster) (addr : string) : bool :=
  bool_decide (is_Some (getEngineByAddr c addr)).

(** An address that no object has. *)
Definition fresh_ptr (c : Cluster) : ptr := fresh (dom (cl_heap c) : gset nat).

(** [addEngine(addr)] up to the starting of the validation of the new engine. *)
Definition addEngine (addr : string) (now : Z) : C W bool :=
  c ← get_cluster;
  if hasEngineByAddr c addr then mret false
  else
    let p := fresh_ptr c in
    modify_cluster (cl_set_heap (<[p := NewEngine p addr percent FailureRetry now]> (cl_heap c))) ;;
    on api p (λ _, RegisterEventHandler) ;;
    modify_cluster (λ c, cl_set_pendingEngines (<[addr := p]> (cl_pendingEngines c)) c) ;;
    mret true.

(** The critical section of [validatePendingEngine], once [Connect] succeeded. *)
Definition validatePendingEngine (p : ptr) : C W bool :=
  c ← get_cluster;
  let addr := eng_Addr (hdr_at c p) in
  let id := eng_ID (hdr_at c p) in
  match cl_pendingEngines c !! addr with
  | None => mret false
  | Some _ =>
      match cl_engines c !! id with
      | Some old =>
          (if negb (String.eqb (eng_Addr (hdr_at c old)) addr) then
             on api p (λ _, HandleIDConflict (eng_Addr (hdr_at c old)))
           else
             r ← on api p (λ _, Disconnect);
             lift r ;;
             modify_cluster (λ c, cl_set_pendingEngines (delete addr (cl_pendingEngines c)) c)) ;;
          mret false
      | None =>
          modify_cluster (λ c, cl_set_pendingEngines (delete addr (cl_pendingEngines c)) c) ;;
          on api p (λ _, modify ValidationComplete) ;;
          modify_cluster (λ c, cl_set_engines (<[id := p]> (cl_engines c)) c) ;;
          mret true
      end
  end.

(** The critical section of [removeEngine(addr)], [p] being the engine found. *)
Definition removeEngine_commit (addr : string) (p : ptr) : C W unit :=
  r ← on api p (λ _, Disconnect);
  lift r ;;
  c ← get_cluster;
  match cl_pendingEngines c !! addr with
  | Some _ => modify_cluster (cl_set_pendingEngines (delete addr (cl_pendingEngines c)))
  | None => modify_cluster (cl_set_engines (delete (eng_ID (hdr_at c p)) (cl_engines c)))
  end.

(** [removeEngine(addr)], run without interruption. *)
Definition removeEngine (addr : string) : C W bool :=
  c ← get_cluster;
  match getEngineByAddr c addr with
  | None => mret false
  | Some p => removeEngine_commit addr p ;; mret true
  end.

(** ** Goroutines

    The discovery goroutine runs [addEngine] and [removeEngine] one after the
    other; between the lookup of [removeEngine] and its critical section other
    goroutines may run.  Every pending engine may be under validation, by several
    goroutines; [sy_validating] holds those of them whose [Connect] has not yet been
    followed by the critical section. *)
Record system := mkSys {
  sy_st : ClusterSt W;
  sy_removing : option (string * ptr);
  sy_validating : list ptr
}.

Inductive step : system → system → Prop :=
  | step_add st v addr now r st' :
      addEngine addr now st = (Ret r, st') →
      step (mkSys st None v)
           (mkSys st' None (match r, cl_pendingEngines (cs_cluster st') !! addr with
                            | true, Some p => p :: v | _, _ => v end))
  | step_validate_again st rm v addr p :
      cl_pendingEngines (cs_cluster st) !! addr = Some p →
      step (mkSys st rm v) (mkSys st rm (p :: v))
  | step_connect_failed st rm v1 v2 p :
      step (mkSys st rm (v1 ++ p :: v2)) (mkSys st rm (v1 ++ v2))
  | step_validate st rm v1 v2 p r st' :
      validatePendingEngine p st = (Ret r, st') →
      step (mkSys st rm (v1 ++ p :: v2)) (mkSys st' rm (v1 ++ v2))
  | step_remove st v addr p :
      getEngineByAddr (cs_cluster st) addr = Some p →
      step (mkSys st None v) (mkSys st (Some (addr, p)) v)
  | step_remove_commit st v addr p st' :
      removeEngine_commit addr p st = (Ret tt, st') →
      step (mkSys st (Some (addr, p)) v) (mkSys st' None v)
  | step_engine st rm v p o st' :
      on api p (λ _, run_op o) st = (Ret tt, st') →
      step (mkSys st rm v) (mkSys st' rm v).

Inductive reachable : system → Prop :=
  | reach_init w evs : reachable (mkSys (mkCS w empty_cluster evs) None [])
  | reach_step s s' : reachable s → step s s' → reachable s'.
End registry.

(** ** What engines keep *)

(** The address never changes, nor the identifier once it is known. *)
Definition keeps_name (e e' : Engine) : Prop :=
  e_self e' = e_self e ∧ eng_Addr (e_hdr e') = eng_Addr (e_hdr e) ∧
  (eng_ID (e_hdr e) ≠ "" → eng_ID (e_hdr e') = eng_ID (e_hdr e)).
#[export] Instance keeps_name_preorder : PreOrder keeps_name.
Proof.
  split; [by intros e|]. intros e1 e2 e3 (H1&H2&H3) (K1&K2&K3). split_and!; try congruence.
  intros Hid. rewrite K3; [auto|]. by rewrite H3.
Qed.
Lemma keeps_name_hdr e e' : e_self e' = e_self e → e_hdr e' = e_hdr e → keeps_name e e'.
Proof. intros Hs Hh. unfold keeps_name. by rewrite Hs, Hh. Qed.

Lemma checked_keeps_name err t e : keeps_name e (checked err t e).
Proof. unfold checked. apply keeps_name_hdr; repeat case_match; done. Qed.
Lemma CheckConnectionErr_keeps_name {W} `{DockerAPI W} err :
  mrel (W := W) keeps_name (CheckConnectionErr err).
Proof. apply CheckConnectionErr_mrel. intros. apply checked_keeps_name. Qed.
Lemma apply_specs_keeps_name {W} `{DockerAPI W} now info e : keeps_name e (apply_specs now info e).1.
Proof.
  unfold apply_specs. case_match; [by split|].
  destruct (spec_labels _ _) as [labels bad].
  assert (keeps_name e (set_hdr (hdr_set_Labels labels (hdr_set_Name (si_Name info)
    (if String.eqb (eng_ID (e_hdr e)) "" then hdr_set_ID (si_ID info) (e_hdr e) else e_hdr e)))
    (set_Memory (si_MemTotal info) (set_Cpus (si_NCPU info)
      (set_DeltaDuration (delta_duration now info) e))))) as Hk.
  { split_and!; [done| |]; simpl; destruct (String.eqb_spec (eng_ID (e_hdr e)) ""); simpl; done. }
  by destruct bad.
Qed.
#[export] Hint Resolve CheckConnectionErr_keeps_name apply_specs_keeps_name : engine.
#[export] Hint Extern 4 (keeps_name _ _) => (by apply keeps_name_hdr) : engine.

Section keeps_name.
Context {W : Type} `{DockerAPI W} `{GoJson} `{MapRange}.
Lemma updateSpecs_keeps_name : mrel (W := W) keeps_name updateSpecs.
Proof. unfold updateSpecs, updateClientVersionFromServer. mrel_tac. Qed.
Lemma updateContainer_keeps_name c containers full :
  mrel (W := W) keeps_name (updateContainer c containers full).
Proof. unfold updateContainer. mrel_tac. Qed.
Hint Resolve updateSpecs_keeps_name updateContainer_keeps_name : engine.
Lemma update_all_keeps_name l merged full : mrel (W := W) keeps_name (update_all l merged full).
Proof. revert merged. induction l; intros; simpl; mrel_tac. Qed.
Hint Resolve update_all_keeps_name : engine.
Lemma run_op_keeps_name o : mrel (W := W) keeps_name (run_op o).
Proof.
  assert (∀ e, keeps_name e (ValidationComplete e)) as Hv.
  { intros e. unfold ValidationComplete. case_bool_decide; by apply keeps_name_hdr. }
  destruct o; simpl; unfold RegisterEventHandler, ConnectWithClient, HandleIDConflict, setErrMsg,
    refresh_turn, RefreshEngine, CreateContainer, RemoveContainer, StartContainer, RenameContainer,
    TagImage, RemoveImage, CreateNetwork, RemoveNetwork, NetworkDisconnect, CreateVolume,
    RemoveVolume, handler, react, Disconnect, setState, Pull, Load, Import, BuildImage, refreshContainer, RefreshContainers,
    RefreshImages, RefreshNetworks, RefreshVolumes, refreshNetwork, refreshVolume; mrel_tac.
Qed.
End keeps_name.

(** ** Frames *)

(** Same tables; the objects are the same and keep their names. *)
Record same_tables (c c' : Cluster) : Prop := {
  st_engines_eq : cl_engines c' = cl_engines c;
  st_pending_eq : cl_pendingEngines c' = cl_pendingEngines c;
  st_containers_eq : cl_pendingContainers c' = cl_pendingContainers c;
  st_locked_eq : cl_locked c' = cl_locked c;
  st_heap_le : ∀ p e, cl_heap c !! p = Some e → ∃ e', cl_heap c' !! p = Some e' ∧ keeps_name e e';
  st_heap_ge : ∀ p e', cl_heap c' !! p = Some e' → ∃ e, cl_heap c !! p = Some e ∧ keeps_name e e'
}.

Lemma same_tables_refl c : same_tables c c.
Proof. split; try done; intros p e He; exists e; (split; [done|reflexivity]). Qed.

Section frames.
Context {W : Type} (api : ptr → DockerAPI W) `{GoJson} `{MapRange}.

Lemma on_same_tables {A} p (m : DockerAPI W → M W A) st r st' :
  mrel keeps_name (m (api p)) → on api p m st = (r, st') →
  same_tables (cs_cluster st) (cs_cluster st').
Proof.
  intros Hm. unfold on. destruct (cl_heap (cs_cluster st) !! p) as [e|] eqn:He.
  2: { intros [= <- <-]. apply same_tables_refl. }
  specialize (Hm (mkSt (cs_world st) e [])). destruct (m (api p) _) as [a est] eqn:Hrun.
  simpl in Hm. intros [= <- <-]. split; try done; simpl; intros q eq Hq.
  - destruct (decide (p = q)) as [<-|Hne].
    + rewrite lookup_insert_eq. exists (st_engine est). split; [done|].
      by assert (eq = e) as -> by congruence.
    + rewrite lookup_insert_ne by done. exists eq. split; [done|reflexivity].
  - destruct (decide (p = q)) as [<-|Hne].
    + rewrite lookup_insert_eq in Hq. injection Hq as <-. by exists e.
    + rewrite lookup_insert_ne in Hq by done. exists eq. split; [done|reflexivity].
Qed.
Lemma on_Ret {A} p (m : DockerAPI W → M W A) st a st' :
  on api p m st = (Ret a, st') →
  ∃ e, cl_heap (cs_cluster st) !! p = Some e ∧
    a = (m (api p) (mkSt (cs_world st) e [])).1 ∧
    cl_heap (cs_cluster st') !! p = Some (st_engine (m (api p) (mkSt (cs_world st) e [])).2).
Proof.
  unfold on. destruct (cl_heap (cs_cluster st) !! p) as [e|] eqn:He; [|done].
  destruct (m (api p) _) as [a' est] eqn:Hrun. intros [= <- <-]. exists e. split; [done|].
  rewrite Hrun. simpl. by rewrite lookup_insert_eq.
Qed.
End frames.

(** ** The registry invariant *)

Record registry_ok (c : Cluster) : Prop := {
  ro_self : ∀ p e, cl_heap c !! p = Some e → e_self e = p;
  ro_pending : ∀ addr p, cl_pendingEngines c !! addr = Some p →
    ∃ e, cl_heap c !! p = Some e ∧ eng_Addr (e_hdr e) = addr;
  ro_engines : ∀ id p, cl_engines c !! id = Some p →
    ∃ e, cl_heap c !! p = Some e ∧ (id ≠ "" → eng_ID (e_hdr e) = id);
  ro_disjoint : ∀ addr p id q, cl_pendingEngines c !! addr = Some p → cl_engines c !! id = Some q →
    eng_Addr (hdr_at c q) ≠ addr;
  ro_unique : ∀ id p id' q, cl_engines c !! id = Some p → cl_engines c !! id' = Some q →
    eng_Addr (hdr_at c p) = eng_Addr (hdr_at c q) → p = q
}.

Lemma registry_ok_empty : registry_ok empty_cluster.
Proof. by split. Qed.

Lemma hdr_at_Some c p e : cl_heap c !! p = Some e → hdr_at c p = e_hdr e.
Proof. intros He. unfold hdr_at. by rewrite He. Qed.

(** Fewer entries in the tables, and the same objects, keep the invariant. *)
Lemma registry_ok_sub c c' :
  cl_engines c' ⊆ cl_engines c → cl_pendingEngines c' ⊆ cl_pendingEngines c →
  (∀ p e, cl_heap c !! p = Some e → ∃ e', cl_heap c' !! p = Some e' ∧ keeps_name e e') →
  (∀ p e', cl_heap c' !! p = Some e' → ∃ e, cl_heap c !! p = Some e ∧ keeps_name e e') →
  registry_ok c → registry_ok c'.
Proof.
  intros Hes Hps Hle Hge [Hself Hpend Heng Hdis Huniq].
  assert (∀ id p, cl_engines c' !! id = Some p → cl_engines c !! id = Some p) as He.
  { intros id p Hid. by eapply lookup_weaken. }
  assert (∀ a p, cl_pendingEngines c' !! a = Some p → cl_pendingEngines c !! a = Some p) as Hp.
  { intros a p Hap. by eapply lookup_weaken. }
  assert (∀ id p, cl_engines c' !! id = Some p → eng_Addr (hdr_at c' p) = eng_Addr (hdr_at c p)) as Ha.
  { intros id p Hid. destruct (Heng id p (He _ _ Hid)) as (e & Hpe & _).
    destruct (Hle p e Hpe) as (e' & Hpe' & (_ & Haddr & _)).
    by rewrite (hdr_at_Some _ _ _ Hpe), (hdr_at_Some _ _ _ Hpe'). }
  split.
  - intros p e' Hpe'. destruct (Hge p e' Hpe') as (e & Hpe & (Hs & _)). rewrite Hs. by apply Hself.
  - intros a p Hap. destruct (Hpend a p (Hp _ _ Hap)) as (e & Hpe & Haddr).
    destruct (Hle p e Hpe) as (e' & Hpe' & (_ & Haddr' & _)). exists e'. split; [done|congruence].
  - intros id p Hid. destruct (Heng id p (He _ _ Hid)) as (e & Hpe & Hide).
    destruct (Hle p e Hpe) as (e' & Hpe' & (_ & _ & Hid')). exists e'. split; [done|].
    intros Hne. rewrite Hid'; rewrite (Hide Hne); done.
  - intros a p id q Hap Hidq. rewrite (Ha _ _ Hidq). eapply Hdis; eauto.
  - intros id p id' q Hid Hid'. rewrite (Ha _ _ Hid), (Ha _ _ Hid'). eapply Huniq; eauto.
Qed.

Lemma registry_ok_same c c' : same_tables c c' → registry_ok c → registry_ok c'.
Proof.
  intros [Hes Hps _ _ Hle Hge]. apply registry_ok_sub; try done; by rewrite ?Hes, ?Hps.
Qed.

Section registry_invariant.
Context {W : Type} (api : ptr → DockerAPI W) `{GoJson} `{MapRange} (percent FailureRetry : Z).

(** Steps over a computation that ended in [Ret]. *)
Lemma C_bind_Ret {A B} (m : C W A) (f : A → C W B) st b st' :
  (m ≫= f) st = (Ret b, st') → ∃ a st1, m st = (Ret a, st1) ∧ f a st1 = (Ret b, st').
Proof.
  unfold mbind, C_bind. destruct (m st) as [[a|e|w] st1]; [|done..]. intros Hf. eauto.
Qed.
Lemma modify_cluster_Ret f (st : ClusterSt W) r st' :
  modify_cluster f st = (r, st') → cs_cluster st' = f (cs_cluster st).
Proof. by intros [= <- <-]. Qed.

(** A registered engine has the address it was looked up by. *)
Lemma getEngineByAddr_None c addr :
  registry_ok c → getEngineByAddr c addr = None →
  cl_pendingEngines c !! addr = None ∧
  ∀ id q, cl_engines c !! id = Some q → eng_Addr (hdr_at c q) ≠ addr.
Proof.
  intros Hok. unfold getEngineByAddr. destruct (cl_pendingEngines c !! addr) as [p|]; [done|].
  intros Hf. split; [done|]. intros id q Hq Haddr.
  eapply List.find_none in Hf; [|apply list_elem_of_In, elem_of_range_snd; eauto].
  simpl in Hf. rewrite Haddr, String.eqb_refl in Hf. done.
Qed.
Lemma getEngineByAddr_Some c addr p :
  registry_ok c → getEngineByAddr c addr = Some p →
  (cl_pendingEngines c !! addr = Some p ∨ (cl_pendingEngines c !! addr = None ∧
    ∃ id, cl_engines c !! id = Some p)) ∧ eng_Addr (hdr_at c p) = addr.
Proof.
  intros Hok. unfold getEngineByAddr. destruct (cl_pendingEngines c !! addr) as [p'|] eqn:Hp.
  - intros [= ->]. split; [by left|]. destruct (ro_pending _ Hok _ _ Hp) as (e & He & Haddr).
    by rewrite (hdr_at_Some _ _ _ He).
  - intros Hf. apply List.find_some in Hf as [Hin Haddr]. apply String.eqb_eq in Haddr.
    apply list_elem_of_In, elem_of_range_snd in Hin. auto.
Qed.

(** A new object, pending at an address that no registered engine has. *)
Lemma registry_ok_add c p e :
  cl_heap c !! p = None → e_self e = p → getEngineByAddr c (eng_Addr (e_hdr e)) = None →
  registry_ok c →
  registry_ok (cl_set_pendingEngines (<[eng_Addr (e_hdr e) := p]> (cl_pendingEngines c))
                 (cl_set_heap (<[p := e]> (cl_heap c)) c)).
Proof.
  intros Hfresh Hself Hnone Hok. destruct (getEngineByAddr_None _ _ Hok Hnone) as [Hnp Hne].
  destruct Hok as [Hs Hpend Heng Hdis Huniq].
  assert (∀ q c', p ≠ q → cl_heap c' = <[p := e]> (cl_heap c) → hdr_at c' q = hdr_at c q) as Hh.
  { intros q c' Hq Hc'. unfold hdr_at. by rewrite Hc', lookup_insert_ne. }
  assert (∀ id q, cl_engines c !! id = Some q → p ≠ q) as Hpq.
  { intros id q Hid <-. destruct (Heng id p Hid) as (e' & He & _). congruence. }
  split; simpl.
  - intros q e'. destruct (decide (p = q)) as [<-|Hpq'].
    + rewrite lookup_insert_eq. by intros [= <-].
    + rewrite lookup_insert_ne by done. apply Hs.
  - intros a q. destruct (decide (eng_Addr (e_hdr e) = a)) as [<-|Ha].
    + rewrite lookup_insert_eq. intros [= <-]. rewrite lookup_insert_eq. by eexists.
    + rewrite lookup_insert_ne by done. intros Haq. destruct (Hpend a q Haq) as (e' & He & Haddr).
      exists e'. rewrite lookup_insert_ne; [done|]. intros <-. congruence.
  - intros id q Hid. destruct (Heng id q Hid) as (e' & He & Hide). exists e'.
    rewrite lookup_insert_ne; [done|]. by eapply Hpq.
  - intros a q id q' Haq Hid. rewrite (Hh q'); [|by eapply Hpq|done].
    destruct (decide (eng_Addr (e_hdr e) = a)) as [<-|Ha]; [by eapply Hne|].
    rewrite lookup_insert_ne in Haq by done. by eapply Hdis.
  - intros id q id' q' Hq Hq'. rewrite (Hh q), (Hh q'); try done; [|by eapply Hpq..].
    by eapply Huniq.
Qed.

(** Moving an engine from the pending table to the other one. *)
Lemma registry_ok_move c p e :
  cl_heap c !! p = Some e → cl_pendingEngines c !! eng_Addr (e_hdr e) = Some p ∨
    is_Some (cl_pendingEngines c !! eng_Addr (e_hdr e)) →
  registry_ok c →
  registry_ok (cl_set_engines (<[eng_ID (e_hdr e) := p]> (cl_engines c))
                 (cl_set_pendingEngines (delete (eng_Addr (e_hdr e)) (cl_pendingEngines c)) c)).
Proof.
  intros He Hp [Hs Hpend Heng Hdis Huniq].
  assert (is_Some (cl_pendingEngines c !! eng_Addr (e_hdr e))) as [p' Hp'] by (destruct Hp; [by eexists|done]).
  assert (∀ c' q, cl_heap c' = cl_heap c → hdr_at c' q = hdr_at c q) as Hh.
  { intros c' q Hc'. unfold hdr_at. by rewrite Hc'. }
  assert (hdr_at c p = e_hdr e) as Hhp by (by apply hdr_at_Some).
  split; simpl.
  - done.
  - intros a q [_ Haq]%lookup_delete_Some. by apply Hpend.
  - intros id q [[<- <-]|[Hne Hid]]%lookup_insert_Some; [by exists e|by apply Heng].
  - intros a q id q' [Hna Haq]%lookup_delete_Some Hid. rewrite Hh by done.
    apply lookup_insert_Some in Hid as [[<- <-]|[Hne Hid]]; [by rewrite Hhp|by eapply Hdis].
  - intros id q id' q' Hq Hq'. rewrite (Hh _ q), (Hh _ q') by done.
    apply lookup_insert_Some in Hq as [[<- <-]|[Hne Hq]];
      apply lookup_insert_Some in Hq' as [[<- <-]|[Hne' Hq']]; try done.
    + rewrite Hhp. intros Heq. by destruct (Hdis _ _ _ _ Hp' Hq').
    + rewrite Hhp. intros Heq. by destruct (Hdis _ _ _ _ Hp' Hq).
    + by eapply Huniq.
Qed.

Lemma addEngine_ok addr now st r st' :
  addEngine api percent FailureRetry addr now st = (Ret r, st') →
  registry_ok (cs_cluster st) → registry_ok (cs_cluster st').
Proof.
  unfold addEngine. intros Hrun Hok. apply C_bind_Ret in Hrun as (c & st1 & [= <- <-] & Hrun).
  unfold hasEngineByAddr in Hrun. case_bool_decide as Hhas; [by injection Hrun as <- <-|].
  set (p := fresh_ptr (cs_cluster st)) in *. set (c := cs_cluster st) in *.
  apply C_bind_Ret in Hrun as (? & st1 & H1 & Hrun).
  apply C_bind_Ret in Hrun as (? & st2 & H2 & Hrun).
  apply C_bind_Ret in Hrun as (? & st3 & H3 & [= <- <-]).
  apply modify_cluster_Ret in H1, H3.
  assert (getEngineByAddr c addr = None) as Hnone.
  { destruct (getEngineByAddr c addr); [destruct Hhas; by eexists|done]. }
  assert (cl_heap c !! p = None) as Hfresh.
  { apply (not_elem_of_dom (D := gset nat)). apply (is_fresh (dom (cl_heap c))). }
  pose proof (registry_ok_add c p (NewEngine p addr percent FailureRetry now) Hfresh eq_refl Hnone Hok)
    as Hnew.
  apply on_same_tables in H2; [|unfold RegisterEventHandler; mrel_tac]. destruct H2.
  rewrite H1 in *. rewrite H3. refine (registry_ok_sub _ _ _ _ _ _ Hnew); simpl; try done.
  - by rewrite st_engines_eq0.
  - by rewrite st_pending_eq0.
Qed.

Lemma on_ok {A} p (m : DockerAPI W → M W A) st r st' :
  mrel keeps_name (m (api p)) → on api p m st = (r, st') →
  registry_ok (cs_cluster st) → registry_ok (cs_cluster st').
Proof. intros Hm Hon. apply registry_ok_same. by eapply on_same_tables. Qed.

Lemma Disconnect_keeps_name `{DockerAPI W} : mrel (W := W) keeps_name Disconnect.
Proof. unfold Disconnect, setState. mrel_tac. Qed.
Lemma on_Disconnect_ok p st r st' :
  on api p (λ _, Disconnect) st = (r, st') → registry_ok (cs_cluster st) → registry_ok (cs_cluster st').
Proof. intros Hon. eapply on_ok; [|exact Hon]. exact (@Disconnect_keeps_name (api p)). Qed.
Lemma HandleIDConflict_keeps_name `{DockerAPI W} a : mrel (W := W) keeps_name (HandleIDConflict a).
Proof. unfold HandleIDConflict, setErrMsg. mrel_tac. Qed.
Lemma ValidationComplete_keeps_name : mrel (W := W) keeps_name (modify ValidationComplete).
Proof.
  apply mrel_modify. intros e. unfold ValidationComplete. case_bool_decide; by apply keeps_name_hdr.
Qed.

Lemma validatePendingEngine_ok p st r st' :
  validatePendingEngine api p st = (Ret r, st') →
  is_Some (cl_heap (cs_cluster st) !! p) →
  registry_ok (cs_cluster st) → registry_ok (cs_cluster st').
Proof.
  unfold validatePendingEngine. intros Hrun [e He] Hok.
  apply C_bind_Ret in Hrun as (c & st0 & [= <- <-] & Hrun). rewrite (hdr_at_Some _ _ _ He) in Hrun.
  destruct (cl_pendingEngines (cs_cluster st) !! _) as [p'|] eqn:Hp; [|by injection Hrun as <- <-].
  destruct (cl_engines (cs_cluster st) !! eng_ID (e_hdr e)) as [old|].
  - apply C_bind_Ret in Hrun as (? & st1 & Hrun & [= <- <-]).
    destruct (negb _).
    + eapply on_ok; [|exact Hrun|done]. apply HandleIDConflict_keeps_name.
    + apply C_bind_Ret in Hrun as (d & st2 & Hd & Hrun).
      apply C_bind_Ret in Hrun as (? & st3 & Hl & Hm). injection Hl as Hl <-.
      apply modify_cluster_Ret in Hm. rewrite Hm.
      apply on_Disconnect_ok in Hd; [|done].
      apply (registry_ok_sub (cs_cluster st2)); simpl; try done;
        [apply delete_subseteq|intros q y Hy; exists y; (split; [done|reflexivity])..].
  - apply C_bind_Ret in Hrun as (? & st1 & H1 & Hrun).
    apply C_bind_Ret in Hrun as (? & st2 & H2 & Hrun).
    apply C_bind_Ret in Hrun as (? & st3 & H3 & [= <- <-]).
    apply modify_cluster_Ret in H1, H3. rewrite H3.
    apply on_same_tables in H2; [|apply ValidationComplete_keeps_name]. destruct H2.
    assert (registry_ok (cl_set_engines (<[eng_ID (e_hdr e) := p]> (cl_engines (cs_cluster st)))
      (cl_set_pendingEngines (delete (eng_Addr (e_hdr e)) (cl_pendingEngines (cs_cluster st)))
         (cs_cluster st)))) as Hnew.
    { apply registry_ok_move; [done|right; by eexists|done]. }
    rewrite H1 in *. refine (registry_ok_sub _ _ _ _ _ _ Hnew); simpl; try done.
    + by rewrite st_engines_eq0.
    + by rewrite st_pending_eq0.
Qed.

Lemma removeEngine_commit_ok addr p st st' :
  removeEngine_commit api addr p st = (Ret tt, st') →
  registry_ok (cs_cluster st) → registry_ok (cs_cluster st').
Proof.
  unfold removeEngine_commit. intros Hrun Hok.
  apply C_bind_Ret in Hrun as (d & st1 & Hd & Hrun).
  apply C_bind_Ret in Hrun as (? & st2 & Hl & Hrun). injection Hl as Hl <-.
  apply C_bind_Ret in Hrun as (c & st2 & [= <- <-] & Hrun).
  apply on_Disconnect_ok in Hd; [|done].
  destruct (cl_pendingEngines (cs_cluster st1) !! addr); apply modify_cluster_Ret in Hrun; rewrite Hrun;
    (apply (registry_ok_sub (cs_cluster st1)); simpl; try done;
      [apply delete_subseteq|intros q y Hy; exists y; (split; [done|reflexivity])..]).
Qed.

Definition in_heap (c : Cluster) (p : ptr) : Prop := is_Some (cl_heap c !! p).

Lemma same_tables_in_heap c c' p : same_tables c c' → in_heap c p → in_heap c' p.
Proof. intros Hs [e He]. destruct (st_heap_le _ _ Hs p e He) as (e' & He' & _). by exists e'. Qed.

Lemma addEngine_heap addr now st r st' p :
  addEngine api percent FailureRetry addr now st = (Ret r, st') →
  in_heap (cs_cluster st) p → in_heap (cs_cluster st') p.
Proof.
  unfold addEngine. intros Hrun Hp. apply C_bind_Ret in Hrun as (c & st1 & [= <- <-] & Hrun).
  destruct (hasEngineByAddr _ _); [by injection Hrun as <- <-|].
  apply C_bind_Ret in Hrun as (? & st1 & Ha & Hrun).
  apply C_bind_Ret in Hrun as (? & st2 & Hb & Hrun).
  apply C_bind_Ret in Hrun as (? & st3 & Hc & [= <- <-]).
  apply modify_cluster_Ret in Ha, Hc. rewrite Hc.
  apply on_same_tables in Hb; [|unfold RegisterEventHandler; mrel_tac].
  apply (same_tables_in_heap _ _ _ Hb). rewrite Ha. unfold in_heap. simpl.
  apply lookup_insert_is_Some'. by right.
Qed.

Lemma validatePendingEngine_heap p st r st' q :
  validatePendingEngine api p st = (Ret r, st') →
  in_heap (cs_cluster st) q → in_heap (cs_cluster st') q.
Proof.
  unfold validatePendingEngine. intros Hrun Hq.
  apply C_bind_Ret in Hrun as (c & st0 & [= <- <-] & Hrun).
  destruct (cl_pendingEngines (cs_cluster st) !! _) as [p'|] eqn:Hp; [|by injection Hrun as <- <-].
  destruct (cl_engines (cs_cluster st) !! _) as [old|].
  - apply C_bind_Ret in Hrun as (? & st1 & Hrun & [= <- <-]). destruct (negb _).
    + eapply same_tables_in_heap; [|done]. eapply on_same_tables; [|exact Hrun].
      apply HandleIDConflict_keeps_name.
    + apply C_bind_Ret in Hrun as (d & st2 & Hd & Hrun).
      apply C_bind_Ret in Hrun as (? & st3 & Hl & Hm). injection Hl as Hl <-.
      apply modify_cluster_Ret in Hm. rewrite Hm.
      apply (same_tables_in_heap (cs_cluster st) (cs_cluster st2)); [|done].
      eapply on_same_tables; [|exact Hd]. exact (@Disconnect_keeps_name (api p)).
  - apply C_bind_Ret in Hrun as (? & st1 & H1 & Hrun).
    apply C_bind_Ret in Hrun as (? & st2 & H2 & Hrun).
    apply C_bind_Ret in Hrun as (? & st3 & H3 & [= <- <-]).
    apply modify_cluster_Ret in H1, H3. rewrite H3.
    apply (same_tables_in_heap (cs_cluster st1) (cs_cluster st2)).
    + eapply on_same_tables; [|exact H2]. apply ValidationComplete_keeps_name.
    + by rewrite H1.
Qed.

Lemma removeEngine_commit_heap addr p st st' q :
  removeEngine_commit api addr p st = (Ret tt, st') →
  in_heap (cs_cluster st) q → in_heap (cs_cluster st') q.
Proof.
  unfold removeEngine_commit. intros Hrun Hq.
  apply C_bind_Ret in Hrun as (d & st1 & Hd & Hrun).
  apply C_bind_Ret in Hrun as (? & st2 & Hl & Hrun). injection Hl as Hl <-.
  apply C_bind_Ret in Hrun as (c & st2 & [= <- <-] & Hrun).
  assert (in_heap (cs_cluster st1) q).
  { eapply same_tables_in_heap; [|done]. eapply on_same_tables; [|exact Hd].
    exact (@Disconnect_keeps_name (api p)). }
  destruct (cl_pendingEngines (cs_cluster st1) !! addr); apply modify_cluster_Ret in Hrun; by rewrite Hrun.
Qed.

Lemma reachable_registry_ok s :
  reachable api percent FailureRetry s →
  registry_ok (cs_cluster (sy_st s)) ∧ Forall (in_heap (cs_cluster (sy_st s))) (sy_validating s).
Proof.
  induction 1 as [w evs|s s' _ [Hok Hv] Hstep]; [by split; [apply registry_ok_empty|constructor]|].
  destruct Hstep as [st v addr now r st' Hrun|st rm v addr p Hp|st rm v1 v2 p|st rm v1 v2 p r st' Hrun
    |st v addr p Hp|st v addr p st' Hrun|st rm v p o st' Hrun]; simpl in *.
  - pose proof (addEngine_ok _ _ _ _ _ Hrun Hok) as Hok'. split; [done|].
    assert (Forall (in_heap (cs_cluster st')) v) as Hv'.
    { eapply Forall_impl; [exact Hv|]. intros q. by eapply addEngine_heap. }
    destruct r; [|done]. destruct (cl_pendingEngines (cs_cluster st') !! addr) as [p|] eqn:Hp; [|done].
    constructor; [|done]. destruct (ro_pending _ Hok' _ _ Hp) as (e & He & _). by exists e.
  - split; [done|]. constructor; [|done]. destruct (ro_pending _ Hok _ _ Hp) as (e & He & _). by exists e.
  - split; [done|]. apply Forall_app in Hv as [Hv1 Hv2]. inversion Hv2; subst. by apply Forall_app.
  - apply Forall_app in Hv as [Hv1 Hv2]. inversion Hv2 as [|? ? Hp Hv2']; subst.
    split; [by eapply validatePendingEngine_ok|].
    apply Forall_app; split; (eapply Forall_impl; [eassumption|]); intros q; by eapply validatePendingEngine_heap.
  - done.
  - split; [by eapply removeEngine_commit_ok|].
    eapply Forall_impl; [exact Hv|]. intros q. by eapply removeEngine_commit_heap.
  - assert (same_tables (cs_cluster st) (cs_cluster st')) as Hs.
    { eapply on_same_tables; [|exact Hrun]. exact (@run_op_keeps_name W (api p) _ _ o). }
    split; [by eapply registry_ok_same|]. eapply Forall_impl; [exact Hv|].
    intros q. by apply same_tables_in_heap.
Qed.

(** C4: the engine registry.  However additions, removals, validations (several at once,
    late ones included) and the engines' own activity interleave, an address is
    registered at most once, pending or validated, a pending engine is filed under its
    address, and a validated one under its identifier, which no later refresh changes. *)
Theorem registry_reachable s :
  reachable api percent FailureRetry s →
  registry_ok (cs_cluster (sy_st s)) ∧ Forall (in_heap (cs_cluster (sy_st s))) (sy_validating s).
Proof. apply reachable_registry_ok. Qed.

(** ** Removal *)

Lemma getEngineByAddr_iff c a q :
  registry_ok c →
  getEngineByAddr c a = Some q ↔
  cl_pendingEngines c !! a = Some q ∨ (∃ id, cl_engines c !! id = Some q ∧ eng_Addr (hdr_at c q) = a).
Proof.
  intros Hok. split.
  - intros Hf. apply getEngineByAddr_Some in Hf as [[Hp|[_ [id Hid]]] Ha]; eauto.
  - intros [Hp|(id & Hid & Ha)]; [unfold getEngineByAddr; by rewrite Hp|].
    destruct (getEngineByAddr c a) as [q'|] eqn:Hf.
    + apply getEngineByAddr_Some in Hf as [[Hp|[_ [id' Hid']]] Ha']; [| |done].
      * by destruct (ro_disjoint _ Hok _ _ _ _ Hp Hid).
      * f_equal. apply (ro_unique _ Hok _ _ _ _ Hid' Hid). congruence.
    + apply getEngineByAddr_None in Hf as [_ Hn]; [|done]. by destruct (Hn _ _ Hid).
Qed.

Lemma getEngineByAddr_same c c' a :
  same_tables c c' → registry_ok c → getEngineByAddr c' a = getEngineByAddr c a.
Proof.
  intros Hs Hok. pose proof (registry_ok_same _ _ Hs Hok) as Hok'. apply option_eq. intros q.
  rewrite !getEngineByAddr_iff by done. destruct Hs as [-> -> _ _ Hle _].
  assert (∀ id, cl_engines c !! id = Some q → eng_Addr (hdr_at c' q) = eng_Addr (hdr_at c q)) as Ha.
  { intros id Hid. destruct (ro_engines _ Hok _ _ Hid) as (e & He & _).
    destruct (Hle q e He) as (e' & He' & (_ & Haddr & _)).
    by rewrite (hdr_at_Some _ _ _ He), (hdr_at_Some _ _ _ He'). }
  split; (intros [?|(id & Hid & Haddr)]; [by left|right; exists id; split; [done|]]);
    rewrite (Ha id) in * by done; done.
Qed.

Lemma Disconnect_result `{DockerAPI W} (st : EngineSt W) :
  e_state (st_engine st) = stateDisconnected ∨ is_Some (e_monitor (st_engine st)) →
  (Disconnect st).1 = Ret tt ∧ e_state (st_engine (Disconnect st).2) = stateDisconnected.
Proof.
  destruct st as [w e evs]. simpl. intros Hd. unfold Disconnect, get_engine, mbind, M_bind. simpl.
  destruct (decide (e_state e = stateDisconnected)) as [Hs|Hs].
  - by rewrite bool_decide_eq_true_2.
  - rewrite bool_decide_eq_false_2 by done. destruct Hd as [?|[b Hb]]; [done|]. rewrite Hb.
    unfold emitEvent, modify, setState, modify, get_engine, mbind, M_bind, emit. simpl.
    by destruct (e_hasHandler e).
Qed.
Lemma Disconnect_panic `{DockerAPI W} (st : EngineSt W) :
  e_state (st_engine st) ≠ stateDisconnected → e_monitor (st_engine st) = None →
  (Disconnect st).1 = Panic nil_dereference.
Proof.
  destruct st as [w e evs]. simpl. intros Hs Hm. unfold Disconnect, get_engine, mbind, M_bind. simpl.
  rewrite bool_decide_eq_false_2 by done. by rewrite Hm.
Qed.

Lemma on_run {A} p (m : DockerAPI W → M W A) st e :
  cl_heap (cs_cluster st) !! p = Some e →
  ∃ st', on api p m st = (Ret (m (api p) (mkSt (cs_world st) e [])).1, st') ∧
    cl_heap (cs_cluster st') !! p = Some (st_engine (m (api p) (mkSt (cs_world st) e [])).2).
Proof.
  intros He. unfold on. rewrite He. destruct (m (api p) _) as [a est]. eexists. split; [done|].
  simpl. by rewrite lookup_insert_eq.
Qed.

(** The table after a removal: the address is free, the others are as before. *)
Lemma remove_from_tables c c' addr p :
  registry_ok c → cl_engines c !! "" = None → getEngineByAddr c addr = Some p →
  c' = match cl_pendingEngines c !! addr with
       | Some _ => cl_set_pendingEngines (delete addr (cl_pendingEngines c)) c
       | None => cl_set_engines (delete (eng_ID (hdr_at c p)) (cl_engines c)) c
       end →
  getEngineByAddr c' addr = None ∧ ∀ a, a ≠ addr → getEngineByAddr c' a = getEngineByAddr c a.
Proof.
  intros Hok Hkey Hp Hc'.
  assert (registry_ok c') as Hok'.
  { rewrite Hc'. destruct (cl_pendingEngines c !! addr); (apply (registry_ok_sub c); simpl; try done;
      [apply delete_subseteq|intros q y Hy; exists y; (split; [done|reflexivity])..]). }
  assert (∀ q, hdr_at c' q = hdr_at c q) as Hh.
  { intros q. unfold hdr_at. rewrite Hc'. by destruct (cl_pendingEngines c !! addr). }
  assert (∀ a q, getEngineByAddr c' a = Some q ↔ getEngineByAddr c a = Some q ∧ a ≠ addr) as Hiff.
  { intros a q. rewrite !getEngineByAddr_iff by done. rewrite Hh, Hc'.
    apply getEngineByAddr_Some in Hp as [Hp Haddr]; [|done].
    destruct Hp as [Hp|[Hp [id Hid]]]; rewrite Hp; simpl.
    - rewrite lookup_delete_Some. split.
      + intros [[? ?]|(id & Hid & Ha)]; [split; [by left|congruence]|]. split; [by right; eauto|].
        intros ->. by destruct (ro_disjoint _ Hok _ _ _ _ Hp Hid).
      + intros [[?|?] ?]; auto.
    - destruct (ro_engines _ Hok _ _ Hid) as (e & He & Hide).
      assert (id ≠ "") as Hne by (intros ->; congruence).
      rewrite (hdr_at_Some _ _ _ He), (Hide Hne). setoid_rewrite lookup_delete_Some. split.
      + intros [Hpa|(id' & [Hne' Hid'] & Ha)].
        * split; [by left|]. intros ->. congruence.
        * split; [by right; eauto|]. intros ->.
          assert (p = q) as <- by (eapply (ro_unique _ Hok _ _ _ _ Hid Hid'); congruence).
          destruct (ro_engines _ Hok _ _ Hid') as (e' & He' & Hide').
          assert (id' ≠ "") by (intros ->; congruence).
          rewrite He in He'. injection He' as <-. rewrite Hide in Hide' by done. naive_solver.
      + intros [[?|(id' & Hid' & Ha)] Hna]; [by left|right]. exists id'. split; [|done].
        split; [|done]. intros <-. congruence. }
  split.
  - destruct (getEngineByAddr c' addr) as [q|] eqn:Hq; [|done]. by apply Hiff in Hq as [_ ?].
  - intros a Ha. apply option_eq. intros q. rewrite Hiff. tauto.
Qed.

(** Removing an address.  An unknown address changes nothing.  The engine at a
    registered one is disconnected and leaves the tables, nothing else does; but an
    engine whose connection never got as far as its events monitor makes the removal
    panic. *)
Theorem removeEngine_spec addr st :
  registry_ok (cs_cluster st) → cl_engines (cs_cluster st) !! "" = None →
  match getEngineByAddr (cs_cluster st) addr with
  | None => removeEngine api addr st = (Ret false, st)
  | Some p =>
      ∃ e, cl_heap (cs_cluster st) !! p = Some e ∧
        if decide (e_state e = stateDisconnected ∨ is_Some (e_monitor e)) then
          ∃ st' e', removeEngine api addr st = (Ret true, st') ∧
            cl_heap (cs_cluster st') !! p = Some e' ∧ e_state e' = stateDisconnected ∧
            getEngineByAddr (cs_cluster st') addr = None ∧
            ∀ a, a ≠ addr → getEngineByAddr (cs_cluster st') a = getEngineByAddr (cs_cluster st) a
        else (removeEngine api addr st).1 = Panic nil_dereference
  end.
Proof.
  intros Hok Hkey. destruct (getEngineByAddr (cs_cluster st) addr) as [p|] eqn:Hp.
  2: { unfold removeEngine, get_cluster, mbind, C_bind. by rewrite Hp. }
  assert (∃ e, cl_heap (cs_cluster st) !! p = Some e) as [e He].
  { apply getEngineByAddr_iff in Hp as [Hp|(id & Hid & _)]; [|by eapply ro_engines in Hid as (e & ? & _); eauto|done].
    eapply ro_pending in Hp as (e & ? & _); eauto. }
  exists e. split; [done|].
  destruct (on_run p (λ _, Disconnect) st e He) as (st1 & Hon & He1).
  unfold removeEngine, removeEngine_commit, get_cluster, mbind, C_bind. rewrite Hp, Hon.
  case_decide as Hd.
  - destruct (@Disconnect_result (api p) (mkSt (cs_world st) e []) Hd) as [Hr Hs]. rewrite Hr. simpl.
    apply on_same_tables in Hon; [|exact (@Disconnect_keeps_name (api p))].
    pose proof (registry_ok_same _ _ Hon Hok) as Hok1.
    destruct (remove_from_tables (cs_cluster st1)
      (match cl_pendingEngines (cs_cluster st1) !! addr with
       | Some _ => cl_set_pendingEngines (delete addr (cl_pendingEngines (cs_cluster st1))) (cs_cluster st1)
       | None => cl_set_engines (delete (eng_ID (hdr_at (cs_cluster st1) p)) (cl_engines (cs_cluster st1))) (cs_cluster st1)
       end) addr p Hok1) as [Hnone Hsame]; [by rewrite (st_engines_eq _ _ Hon)| |done|].
    { by rewrite (getEngineByAddr_same _ _ _ Hon Hok). }
    assert (∀ a, getEngineByAddr (cs_cluster st1) a = getEngineByAddr (cs_cluster st) a) as Hst1.
    { intros a. by apply getEngineByAddr_same. }
    destruct (cl_pendingEngines (cs_cluster st1) !! addr); simpl; eexists _, _;
      (split; [done|]); (split; [exact He1|]); (split; [done|]); (split; [done|]);
      intros a Ha; rewrite <- Hst1; by apply Hsame.
  - pose proof (@Disconnect_panic (api p) (mkSt (cs_world st) e [])) as Hpan. simpl in Hpan.
    rewrite Hpan; [done|by intros ?; apply Hd; left|].
    destruct (e_monitor e); [destruct Hd; right; by eexists|done].
Qed.
End registry_invariant.

(** ** A late validation *)

Section late.
Existing Instances json_strings canonical_range.
Definition quiet_api (p : ptr) : DockerAPI unit := quiet_daemon quiet_info.
Notation "'add' st" := (addEngine quiet_api 5 3 "a:1" 0 st).2 (at level 30).
Definition late_added : ClusterSt unit := add (mkCS tt empty_cluster []).
Definition late_connected : ClusterSt unit := (on quiet_api 0%nat (λ _, run_op op_Connect) late_added).2.
Definition late_removed : ClusterSt unit := (removeEngine_commit quiet_api "a:1" 0%nat late_connected).2.
Definition late_again : ClusterSt unit := add late_removed.
Definition late_validated : ClusterSt unit := (validatePendingEngine quiet_api 0%nat late_again).2.

Lemma late_again_reachable : reachable quiet_api 5 3 (mkSys late_again None [1%nat; 0%nat]).
Proof.
  apply (reach_step _ _ _ (mkSys late_removed None [0%nat])).
  2: { apply (step_add _ _ _ _ [0%nat] "a:1" 0 true). by vm_compute. }
  apply (reach_step _ _ _ (mkSys late_connected (Some ("a:1", 0%nat)) [0%nat])).
  2: { apply step_remove_commit. by vm_compute. }
  apply (reach_step _ _ _ (mkSys late_connected None [0%nat])).
  2: { apply step_remove. by vm_compute. }
  apply (reach_step _ _ _ (mkSys late_added None [0%nat])).
  2: { apply (step_engine _ _ _ _ _ _ 0%nat op_Connect). by vm_compute. }
  apply (reach_step _ _ _ (mkSys (mkCS tt empty_cluster []) None [])).
  2: { apply (step_add _ _ _ _ [] "a:1" 0 true). by vm_compute. }
  apply reach_init.
Qed.
Lemma late_reachable : reachable quiet_api 5 3 (mkSys late_validated None [1%nat]).
Proof.
  apply (reach_step _ _ _ (mkSys late_again None [1%nat; 0%nat])); [apply late_again_reachable|].
  apply (step_validate _ _ _ _ _ [1%nat] [] 0%nat true). by vm_compute.
Qed.

(** A validation that ends after its engine was removed and its address added again
    takes the place of the new engine: the engine registered for the address is then a
    disconnected one, and the live one is in no table. *)
Theorem late_validation_registers_removed_engine :
  ∃ s p e, reachable quiet_api 5 3 s ∧ sy_removing s = None ∧
    cl_engines (cs_cluster (sy_st s)) !! "X" = Some p ∧
    cl_heap (cs_cluster (sy_st s)) !! p = Some e ∧ eng_Addr (e_hdr e) = "a:1" ∧
    e_state e = stateDisconnected ∧ e_connected e = false ∧
    cl_pendingEngines (cs_cluster (sy_st s)) = ∅.
Proof.
  exists (mkSys late_validated None [1%nat]), 0%nat.
  destruct (cl_heap (cs_cluster late_validated) !! 0%nat) as [e|] eqn:He; [|by vm_compute in He].
  exists e. split; [apply late_reachable|]. split; [done|]. split; [by vm_compute|].
  split; [exact He|]. vm_compute in He. injection He as <-. by vm_compute.
Qed.

Lemma registry_reachable_witness :
  registry_ok (cs_cluster late_validated) ∧ Forall (in_heap (cs_cluster late_validated)) [1%nat].
Proof. exact (registry_reachable quiet_api 5 3 _ late_reachable). Defined.

(** The pending engine of [late_again] was never connected. *)
Lemma removeEngine_spec_witness : (removeEngine quiet_api "a:1" late_again).1 = Panic nil_dereference.
Proof.
  destruct (reachable_registry_ok quiet_api 5 3 _ late_again_reachable) as [Hok _].
  pose proof (removeEngine_spec quiet_api "a:1" late_again Hok ltac:(by vm_compute)) as Hs.
  assert (getEngineByAddr (cs_cluster late_again) "a:1" = Some 1%nat) as Hg by (by vm_compute).
  rewrite Hg in Hs. destruct Hs as (e & He & Hr). vm_compute in He. injection He as <-.
  destruct (decide _) as [Hd|]; [|exact Hr]. exfalso. clear - Hd.
  destruct Hd as [Hd|[b Hd]]; vm_compute in Hd; discriminate Hd.
Defined.
End late.
