(* ===== verification/RegistrySpec.v ===== *)
(** * What the engine registry promises

    An abstract directory of engines, which knows of each address whether its engine is
    awaited or registered, and under which identifier; and the refinement theorem: as long
    as no validation is late, the goroutines of [SwarmRegistry] implement it. *)
From S2P Require Import Prelude GoStrings Json Config Container Inventory EngineState EngineOps SwarmRegistry.

(** ** The specification *)

Inductive entry := awaited | registered (id : string).
Definition Directory : Type := string → option entry.
Definition nobody : Directory := λ _, None.

(** [d'] is [d] with the entry [x] at [a]. *)
Definition updated (d : Directory) (a : string) (x : option entry) (d' : Directory) : Prop :=
  d' a = x ∧ ∀ b, b ≠ a → d' b = d b.

(** The same addresses are known. *)
Definition same_known (d d' : Directory) : Prop := ∀ a, is_Some (d' a) ↔ is_Some (d a).

(** An unknown address may be added, an awaited engine registered under an identifier that
    no other one has, and a known address removed. *)
Inductive dir_step (d d' : Directory) : Prop :=
  | dir_same : (∀ a, d' a = d a) → dir_step d d'
  | dir_add a : d a = None → updated d a (Some awaited) d' → dir_step d d'
  | dir_register a id :
      d a = Some awaited → id ≠ "" → (∀ b, d b ≠ Some (registered id)) →
      updated d a (Some (registered id)) d' → dir_step d d'
  | dir_remove a : is_Some (d a) → updated d a None d' → dir_step d d'.

(** An identifier designates one address, whatever the directory went through. *)
Lemma directory_injective d :
  rtc dir_step nobody d → ∀ a b id, d a = Some (registered id) → d b = Some (registered id) → a = b.
Proof.
  intros Hr. remember nobody as d0 eqn:H0.
  assert (∀ a b id, d0 a = Some (registered id) → d0 b = Some (registered id) → a = b) as Hd0 by (by rewrite H0).
  clear H0. induction Hr as [d|d d1 d2 Hs _ IH]; [done|]. apply IH. clear IH. intros a b id Ha Hb.
  destruct Hs as [Hsame|c Hc [Hu Hn]|c id' Hc _ Hnew [Hu Hn]|c Hc [Hu Hn]].
  - rewrite Hsame in Ha, Hb. by eapply Hd0.
  - assert (a ≠ c ∧ b ≠ c) as [Hac Hbc] by (split; congruence). rewrite Hn in Ha, Hb by done. by eapply Hd0.
  - destruct (decide (a = c)) as [->|Hac], (decide (b = c)) as [->|Hbc]; try done.
    + rewrite Hn in Hb by done. rewrite Hu in Ha. injection Ha as ->. by destruct (Hnew b).
    + rewrite Hn in Ha by done. rewrite Hu in Hb. injection Hb as ->. by destruct (Hnew a).
    + rewrite Hn in Ha, Hb by done. by eapply Hd0.
  - assert (a ≠ c ∧ b ≠ c) as [Hac Hbc] by (split; congruence). rewrite Hn in Ha, Hb by done. by eapply Hd0.
Qed.

(** ** The directory of a cluster *)

Section directory.
Context `{MapRange}.

Definition directory (c : Cluster) : Directory := λ a,
  match cl_pendingEngines c !! a with
  | Some _ => Some awaited
  | None =>
      (λ x, registered x.1) <$>
        List.find (λ x, String.eqb (eng_Addr (hdr_at c x.2)) a) (range_map (cl_engines c))
  end.

(** The tables, without an engine registered under the empty identifier. *)
Definition tables_ok (c : Cluster) : Prop := registry_ok c ∧ cl_engines c !! "" = None.

Lemma directory_awaited c a : directory c a = Some awaited ↔ is_Some (cl_pendingEngines c !! a).
Proof.
  unfold directory. destruct (cl_pendingEngines c !! a) as [p|]; [split; [by eexists|done]|].
  split; [by destruct (List.find _ _)|by intros [? ?]].
Qed.
Lemma directory_registered c a id :
  tables_ok c →
  directory c a = Some (registered id) ↔ ∃ p, cl_engines c !! id = Some p ∧ eng_Addr (hdr_at c p) = a.
Proof.
  intros [Hok Hempty]. unfold directory. split.
  - destruct (cl_pendingEngines c !! a); [done|]. destruct (List.find _ _) as [[id' p]|] eqn:Hf; [|done].
    intros [= <-]. apply List.find_some in Hf as [Hin Ha]. apply list_elem_of_In, elem_of_range_map in Hin.
    exists p. split; [done|]. by apply String.eqb_eq.
  - intros (p & Hid & Ha). destruct (cl_pendingEngines c !! a) as [q|] eqn:Hp.
    { by destruct (ro_disjoint _ Hok _ _ _ _ Hp Hid). }
    destruct (List.find _ _) as [[id' p']|] eqn:Hf.
    + apply List.find_some in Hf as [Hin Ha']. apply list_elem_of_In, elem_of_range_map in Hin.
      apply String.eqb_eq in Ha'. simpl in *.
      assert (p' = p) as -> by (eapply (ro_unique _ Hok _ _ _ _ Hin Hid); congruence).
      destruct (ro_engines _ Hok _ _ Hin) as (e & He & Hide), (ro_engines _ Hok _ _ Hid) as (e' & He' & Hide').
      assert (e' = e) as -> by congruence.
      by rewrite <- (Hide ltac:(by intros ->; congruence)), <- (Hide' ltac:(by intros ->; congruence)).
    + eapply List.find_none in Hf; [|by apply list_elem_of_In, elem_of_range_map]. simpl in Hf.
      by rewrite Ha, String.eqb_refl in Hf.
Qed.
Lemma directory_None c a : registry_ok c → directory c a = None ↔ getEngineByAddr c a = None.
Proof.
  intros Hok. unfold directory, getEngineByAddr. destruct (cl_pendingEngines c !! a) as [p|]; [done|].
  induction (range_map (cl_engines c)) as [|[id p] l IH]; simpl; [done|]. by destruct (String.eqb _ _).
Qed.
(** An entry is known by the engines behind it. *)
Lemma directory_eq c d a :
  tables_ok c → (d a = Some awaited ↔ is_Some (cl_pendingEngines c !! a)) →
  (∀ id, d a = Some (registered id) ↔ ∃ p, cl_engines c !! id = Some p ∧ eng_Addr (hdr_at c p) = a) →
  directory c a = d a.
Proof.
  intros Hok Hp He. apply option_eq. intros [|id]; [by rewrite directory_awaited, Hp|].
  by rewrite directory_registered, He.
Qed.

Lemma same_tables_addr c c' id p :
  registry_ok c → same_tables c c' → cl_engines c !! id = Some p → eng_Addr (hdr_at c' p) = eng_Addr (hdr_at c p).
Proof.
  intros Hok Hs Hid. destruct (ro_engines _ Hok _ _ Hid) as (e & He & _).
  destruct (st_heap_le _ _ Hs p e He) as (e' & He' & (_ & Ha & _)).
  by rewrite (hdr_at_Some _ _ _ He), (hdr_at_Some _ _ _ He').
Qed.
Lemma tables_ok_same c c' : same_tables c c' → tables_ok c → tables_ok c'.
Proof. intros Hs [Hok He]. split; [by eapply registry_ok_same|by rewrite (st_engines_eq _ _ Hs)]. Qed.
Lemma directory_same c c' a : same_tables c c' → tables_ok c → directory c' a = directory c a.
Proof.
  intros Hs Hok. apply directory_eq; [by eapply tables_ok_same|..].
  - by rewrite directory_awaited, (st_pending_eq _ _ Hs).
  - intros id. rewrite directory_registered, (st_engines_eq _ _ Hs) by done.
    split; intros (p & Hid & Ha); exists p; (split; [done|]);
      by rewrite (same_tables_addr _ _ _ _ (proj1 Hok) Hs Hid) in *.
Qed.
End directory.

(** ** What the operations do to the tables *)

Definition objects_kept (c c' : Cluster) : Prop :=
  ∀ p e, cl_heap c !! p = Some e → ∃ e', cl_heap c' !! p = Some e' ∧ keeps_name e e'.
Lemma objects_kept_addr c c' id p :
  registry_ok c → objects_kept c c' → cl_engines c !! id = Some p →
  eng_Addr (hdr_at c' p) = eng_Addr (hdr_at c p).
Proof.
  intros Hok Hk Hid. destruct (ro_engines _ Hok _ _ Hid) as (e & He & _).
  destruct (Hk p e He) as (e' & He' & (_ & Ha & _)). by rewrite (hdr_at_Some _ _ _ He), (hdr_at_Some _ _ _ He').
Qed.

Section operations.
Context {W : Type} (api : ptr → DockerAPI W) `{GoJson} `{MapRange} (percent FailureRetry : Z).

Lemma addEngine_tables addr now st r st' :
  addEngine api percent FailureRetry addr now st = (Ret r, st') →
  if r then getEngineByAddr (cs_cluster st) addr = None ∧ objects_kept (cs_cluster st) (cs_cluster st') ∧
    cl_engines (cs_cluster st') = cl_engines (cs_cluster st) ∧
    ∃ p, cl_pendingEngines (cs_cluster st') = <[addr := p]> (cl_pendingEngines (cs_cluster st))
  else st' = st.
Proof.
  unfold addEngine. intros Hrun. apply C_bind_Ret in Hrun as (c & st1 & [= <- <-] & Hrun).
  unfold hasEngineByAddr in Hrun. case_bool_decide as Hhas; [by injection Hrun as <- <-|].
  set (p := fresh_ptr (cs_cluster st)) in *.
  apply C_bind_Ret in Hrun as (? & st1 & H1 & Hrun).
  apply C_bind_Ret in Hrun as (? & st2 & H2 & Hrun).
  apply C_bind_Ret in Hrun as (? & st3 & H3 & [= <- <-]).
  apply modify_cluster_Ret in H1, H3.
  apply on_same_tables in H2; [|unfold RegisterEventHandler; mrel_tac]. destruct H2 as [He Hp _ _ Hle _].
  rewrite H1 in *. rewrite H3. simpl in *. split_and!; [|idtac|by rewrite He|exists p; by rewrite Hp].
  - destruct (getEngineByAddr _ addr); [destruct Hhas; by eexists|done].
  - intros q e Hq. apply Hle. rewrite lookup_insert_ne; [done|]. intros <-.
    assert (cl_heap (cs_cluster st) !! p = None); [|congruence].
    apply (not_elem_of_dom (D := gset nat)). apply (is_fresh (dom (cl_heap (cs_cluster st)))).
Qed.

Lemma addEngine_answer addr now st r st' :
  addEngine api percent FailureRetry addr now st = (Ret r, st') →
  if r then True else is_Some (getEngineByAddr (cs_cluster st) addr).
Proof.
  unfold addEngine. intros Hrun. apply C_bind_Ret in Hrun as (c & st1 & [= <- <-] & Hrun).
  unfold hasEngineByAddr in Hrun. case_bool_decide as Hhas; [by injection Hrun as <- <-|].
  apply C_bind_Ret in Hrun as (? & st1 & _ & Hrun). apply C_bind_Ret in Hrun as (? & st2 & _ & Hrun).
  apply C_bind_Ret in Hrun as (? & st3 & _ & [= <- <-]). done.
Qed.

Lemma validatePendingEngine_tables p st r st' :
  registry_ok (cs_cluster st) → in_heap (cs_cluster st) p →
  validatePendingEngine api p st = (Ret r, st') →
  objects_kept (cs_cluster st) (cs_cluster st') ∧
  let c := cs_cluster st in let h := hdr_at c p in
  if r then is_Some (cl_pendingEngines c !! eng_Addr h) ∧ cl_engines c !! eng_ID h = None ∧
    cl_pendingEngines (cs_cluster st') = delete (eng_Addr h) (cl_pendingEngines c) ∧
    cl_engines (cs_cluster st') = <[eng_ID h := p]> (cl_engines c)
  else same_tables c (cs_cluster st').
Proof.
  intros Hok [e He]. unfold validatePendingEngine. intros Hrun.
  apply C_bind_Ret in Hrun as (c & st0 & [= <- <-] & Hrun). set (c := cs_cluster st) in *.
  assert (∀ c', same_tables c c' → objects_kept c c') as Hsame by (by intros c' []).
  destruct (cl_pendingEngines c !! _) as [p'|] eqn:Hp.
  2: { injection Hrun as <- <-. split; [apply Hsame|]; apply same_tables_refl. }
  destruct (cl_engines c !! eng_ID (hdr_at c p)) as [old|] eqn:Hold.
  - apply C_bind_Ret in Hrun as (? & st1 & Hrun & [= <- <-]).
    destruct (String.eqb_spec (eng_Addr (hdr_at c old)) (eng_Addr (hdr_at c p))) as [Heq|Hne].
    { by destruct (ro_disjoint _ Hok _ _ _ _ Hp Hold). }
    apply on_same_tables in Hrun; [by auto|apply HandleIDConflict_keeps_name].
  - apply C_bind_Ret in Hrun as (? & st1 & H1 & Hrun).
    apply C_bind_Ret in Hrun as (? & st2 & H2 & Hrun).
    apply C_bind_Ret in Hrun as (? & st3 & H3 & [= <- <-]).
    apply modify_cluster_Ret in H1, H3.
    apply on_same_tables in H2; [|apply ValidationComplete_keeps_name]. destruct H2 as [He2 Hp2 _ _ Hle2 _].
    rewrite H1 in *. rewrite H3. simpl in *. split; [exact Hle2|].
    split_and!; [by eexists|done|by rewrite Hp2|by rewrite He2].
Qed.

Lemma removeEngine_commit_tables addr p st st' :
  removeEngine_commit api addr p st = (Ret tt, st') →
  objects_kept (cs_cluster st) (cs_cluster st') ∧ ∃ c1, same_tables (cs_cluster st) c1 ∧
    cs_cluster st' = match cl_pendingEngines c1 !! addr with
                     | Some _ => cl_set_pendingEngines (delete addr (cl_pendingEngines c1)) c1
                     | None => cl_set_engines (delete (eng_ID (hdr_at c1 p)) (cl_engines c1)) c1
                     end.
Proof.
  unfold removeEngine_commit. intros Hrun.
  apply C_bind_Ret in Hrun as (d & st1 & Hd & Hrun).
  apply C_bind_Ret in Hrun as (? & st2 & Hl & Hrun). injection Hl as Hl <-.
  apply C_bind_Ret in Hrun as (c & st2 & [= <- <-] & Hrun).
  apply on_same_tables in Hd; [|exact (@Disconnect_keeps_name W (api p))].
  assert (cs_cluster st' = match cl_pendingEngines (cs_cluster st1) !! addr with
    | Some _ => cl_set_pendingEngines (delete addr (cl_pendingEngines (cs_cluster st1))) (cs_cluster st1)
    | None => cl_set_engines (delete (eng_ID (hdr_at (cs_cluster st1) p)) (cl_engines (cs_cluster st1))) (cs_cluster st1)
    end) as Heq by (by destruct (cl_pendingEngines (cs_cluster st1) !! addr); apply modify_cluster_Ret in Hrun).
  split; [|by exists (cs_cluster st1)]. intros q e Hq.
  destruct (st_heap_le _ _ Hd q e Hq) as (e' & He' & Hk). exists e'. split; [|done].
  rewrite Heq. by destruct (cl_pendingEngines (cs_cluster st1) !! addr).
Qed.

(** ** Refinement *)

(** An engine that the step registers was the pending one of its address and had been
    connected: no validation was late. *)
Definition timely (s s' : system (W := W)) : Prop :=
  ∀ id p, cl_engines (cs_cluster (sy_st s')) !! id = Some p → cl_engines (cs_cluster (sy_st s)) !! id = None →
    id ≠ "" ∧ cl_pendingEngines (cs_cluster (sy_st s)) !! eng_Addr (hdr_at (cs_cluster (sy_st s)) p) = Some p.
Inductive timely_reachable : system → Prop :=
  | timely_init w evs : timely_reachable (mkSys (mkCS w empty_cluster evs) None [])
  | timely_step s s' :
      timely_reachable s → step api percent FailureRetry s s' → timely s s' → timely_reachable s'.

(** What holds between the steps: the engine under removal is still at its address. *)
Record spec_ok (s : system (W := W)) : Prop := {
  sp_tables : tables_ok (cs_cluster (sy_st s));
  sp_heap : Forall (in_heap (cs_cluster (sy_st s))) (sy_validating s);
  sp_removing : ∀ a p, sy_removing s = Some (a, p) → getEngineByAddr (cs_cluster (sy_st s)) a = Some p
}.

(** What an addition makes of the directory. *)
Lemma add_directory addr now st st' r :
  tables_ok (cs_cluster st) → addEngine api percent FailureRetry addr now st = (Ret r, st') →
  tables_ok (cs_cluster st') ∧
  if r then directory (cs_cluster st) addr = None ∧
    updated (directory (cs_cluster st)) addr (Some awaited) (directory (cs_cluster st'))
  else st' = st ∧ is_Some (directory (cs_cluster st) addr).
Proof.
  intros [Hok Hempty] Hrun. pose proof (addEngine_ok _ _ _ _ _ _ _ _ Hrun Hok) as Hok'.
  pose proof (addEngine_answer _ _ _ _ _ Hrun) as Hans.
  apply addEngine_tables in Hrun. destruct r.
  2: { subst. split; [done|]. split; [done|]. destruct (directory _ addr) eqn:Hd; [by eexists|].
       apply directory_None in Hd; [|done]. rewrite Hd in Hans. by destruct Hans. }
  destruct Hrun as (Hnone & Hk & He & p & Hp).
  assert (tables_ok (cs_cluster st')) as Htok by (split; [done|by rewrite He]). split; [done|].
  split; [by apply directory_None|]. split.
  - apply directory_awaited. rewrite Hp, lookup_insert_eq. by eexists.
  - intros b Hb. apply directory_eq; [done|..].
    + by rewrite directory_awaited, Hp, lookup_insert_ne.
    + intros id. rewrite directory_registered, He by done.
      split; intros (q & Hid & Ha); exists q; (split; [done|]);
        by rewrite (objects_kept_addr _ _ _ _ Hok Hk Hid) in *.
Qed.
Lemma add_simulated addr now st st' r :
  tables_ok (cs_cluster st) → addEngine api percent FailureRetry addr now st = (Ret r, st') →
  tables_ok (cs_cluster st') ∧ dir_step (directory (cs_cluster st)) (directory (cs_cluster st')).
Proof.
  intros Hok Hrun. destruct (add_directory _ _ _ _ _ Hok Hrun) as [Hok' Hr]. split; [done|].
  destruct r; [|destruct Hr as [-> _]; by apply dir_same]. destruct Hr. by eapply dir_add.
Qed.

(** A validation in time. *)
Lemma validate_simulated p st st' r :
  tables_ok (cs_cluster st) → in_heap (cs_cluster st) p → validatePendingEngine api p st = (Ret r, st') →
  (∀ id q, cl_engines (cs_cluster st') !! id = Some q → cl_engines (cs_cluster st) !! id = None →
    id ≠ "" ∧ cl_pendingEngines (cs_cluster st) !! eng_Addr (hdr_at (cs_cluster st) q) = Some q) →
  tables_ok (cs_cluster st') ∧ dir_step (directory (cs_cluster st)) (directory (cs_cluster st')) ∧
  same_known (directory (cs_cluster st)) (directory (cs_cluster st')) ∧
  ∀ a q, getEngineByAddr (cs_cluster st) a = Some q → getEngineByAddr (cs_cluster st') a = Some q.
Proof.
  intros [Hok Hempty] Hp Hrun Ht. pose proof (validatePendingEngine_ok _ _ _ _ _ Hrun Hp Hok) as Hok'.
  apply validatePendingEngine_tables in Hrun as [Hk Hr]; [|done..]. set (c := cs_cluster st) in *. simpl in Hr.
  destruct r.
  2: { split_and!; [by eapply tables_ok_same|apply dir_same; intros a; by apply directory_same| |].
       { intros a. by rewrite (directory_same c). }
       intros a q. by rewrite (getEngineByAddr_same _ _ _ Hr Hok). }
  destruct Hr as (Hpa & Hnew & Hp' & He'). set (h := hdr_at c p) in *.
  destruct (Ht (eng_ID h) p) as [Hid Hpend]; [by rewrite He', lookup_insert_eq|done|]. fold h in Hpend.
  assert (∀ id q, cl_engines c !! id = Some q → eng_Addr (hdr_at (cs_cluster st') q) = eng_Addr (hdr_at c q)) as Haddr.
  { intros id q. by apply objects_kept_addr. }
  assert (eng_Addr (hdr_at (cs_cluster st') p) = eng_Addr h) as Hpaddr.
  { destruct Hp as [e He]. destruct (Hk p e He) as (e' & He2 & (_ & Ha & _)).
    unfold h. by rewrite (hdr_at_Some _ _ _ He), (hdr_at_Some _ _ _ He2). }
  assert (tables_ok (cs_cluster st')) as Htok.
  { split; [done|]. by rewrite He', lookup_insert_ne. }
  assert (updated (directory c) (eng_Addr h) (Some (registered (eng_ID h))) (directory (cs_cluster st'))) as Hu.
  { split.
    - apply directory_registered; [done|]. exists p. by rewrite He', lookup_insert_eq.
    - intros b Hb. apply directory_eq; [done|by rewrite directory_awaited, Hp', lookup_delete_ne|].
      intros id. rewrite directory_registered, He' by done. split; intros (q & Hq & Ha); exists q.
      { split; [|by rewrite (Haddr id)]. rewrite lookup_insert_ne; congruence. }
      apply lookup_insert_Some in Hq as [[<- <-]|[_ Hq]]; [congruence|].
      split; [done|]. by rewrite <- (Haddr id). }
  assert (directory c (eng_Addr h) = Some awaited) as Hwas by (by apply directory_awaited).
  split; [done|]. split_and!.
  - eapply (dir_register _ _ (eng_Addr h) (eng_ID h)); [done|done| |done].
    intros b [q [Hq _]]%directory_registered; [congruence|done].
  - intros b. destruct (decide (b = eng_Addr h)) as [->|Hb]; [by rewrite (proj1 Hu), Hwas|].
    by rewrite (proj2 Hu).
  - intros a q. rewrite !getEngineByAddr_iff by done. rewrite Hp', He'. intros [Hq|(id & Hq & Ha)].
    + destruct (decide (a = eng_Addr h)) as [->|Hne]; [|left; by rewrite lookup_delete_ne].
      right. exists (eng_ID h). rewrite lookup_insert_eq. assert (q = p) as -> by congruence. done.
    + right. exists id. rewrite lookup_insert_ne by congruence. split; [done|]. by rewrite (Haddr id).
Qed.

(** What a removal makes of the directory. *)
Lemma remove_directory a p st st' :
  tables_ok (cs_cluster st) → getEngineByAddr (cs_cluster st) a = Some p →
  removeEngine_commit api a p st = (Ret tt, st') →
  tables_ok (cs_cluster st') ∧ is_Some (directory (cs_cluster st) a) ∧
  updated (directory (cs_cluster st)) a None (directory (cs_cluster st')).
Proof.
  intros Hok0 Hp Hrun. pose proof (removeEngine_commit_ok _ _ _ _ _ Hrun (proj1 Hok0)) as Hok'.
  apply removeEngine_commit_tables in Hrun as (_ & c1 & Hs & Hc'). set (c := cs_cluster st) in *.
  pose proof (tables_ok_same _ _ Hs Hok0) as [Hok Hempty].
  rewrite <- (getEngineByAddr_same _ _ _ Hs (proj1 Hok0)) in Hp.
  destruct (remove_from_tables api c1 _ a p Hok Hempty Hp Hc') as [Hnone _].
  assert (tables_ok (cs_cluster st')) as Htok.
  { split; [done|]. rewrite Hc'. destruct (cl_pendingEngines c1 !! a); simpl; [done|].
    apply lookup_delete_None. by right. }
  split; [done|]. split.
  - rewrite <- (directory_same c c1) by done. destruct (directory c1 a) eqn:Hd; [by eexists|].
    apply directory_None in Hd; [congruence|done].
  - split; [by apply directory_None|]. intros b Hb. rewrite <- (directory_same c c1) by done.
    assert (∀ q, hdr_at (cs_cluster st') q = hdr_at c1 q) as Hh.
    { intros q. unfold hdr_at. rewrite Hc'. by destruct (cl_pendingEngines c1 !! a). }
    apply getEngineByAddr_Some in Hp as [Hp Haddr]; [|done].
    apply directory_eq; [done|..].
    + rewrite directory_awaited, Hc'. destruct (cl_pendingEngines c1 !! a); simpl; [|done].
      by rewrite lookup_delete_ne.
    + intros id. rewrite directory_registered by done. setoid_rewrite Hh. rewrite Hc'.
      destruct Hp as [Hp|[Hp [id' Hid]]]; rewrite Hp; simpl; [done|].
      destruct (ro_engines _ Hok _ _ Hid) as (e & He & Hide).
      rewrite (hdr_at_Some _ _ _ He), Hide by (intros ->; congruence).
      split; intros (q & Hq & Ha); exists q; (split; [|done]).
      * rewrite lookup_delete_ne; [done|]. intros <-. congruence.
      * by apply lookup_delete_Some in Hq as [_ ?].
Qed.
Lemma remove_simulated a p st st' :
  tables_ok (cs_cluster st) → getEngineByAddr (cs_cluster st) a = Some p →
  removeEngine_commit api a p st = (Ret tt, st') →
  tables_ok (cs_cluster st') ∧ dir_step (directory (cs_cluster st)) (directory (cs_cluster st')).
Proof.
  intros Hok Hp Hrun. destruct (remove_directory _ _ _ _ Hok Hp Hrun) as (Hok' & Hs & Hu).
  split; [done|]. by eapply dir_remove.
Qed.

Notation dir s := (directory (cs_cluster (sy_st s))).

Lemma step_simulated s s' :
  spec_ok s → step api percent FailureRetry s s' → timely s s' → spec_ok s' ∧ dir_step (dir s) (dir s').
Proof.
  intros [Hok Hv Hrm] Hstep Ht.
  destruct Hstep as [st v addr now r st' Hrun|st rm v addr p Hp|st rm v1 v2 p|st rm v1 v2 p r st' Hrun
    |st v addr p Hp|st v addr p st' Hrun|st rm v p o st' Hrun]; simpl in *.
  - destruct (add_simulated _ _ _ _ _ Hok Hrun) as [Hok' Hd]. split; [|done]. split; simpl; [done| |done].
    assert (Forall (in_heap (cs_cluster st')) v) as Hv'.
    { eapply Forall_impl; [exact Hv|]. intros q. by eapply addEngine_heap. }
    destruct r; [|done]. destruct (cl_pendingEngines (cs_cluster st') !! addr) as [p|] eqn:Hp; [|done].
    constructor; [|done]. destruct (ro_pending _ (proj1 Hok') _ _ Hp) as (e & He & _). by exists e.
  - split; [|by apply dir_same]. split; simpl; [done| |done]. constructor; [|done].
    destruct (ro_pending _ (proj1 Hok) _ _ Hp) as (e & He & _). by exists e.
  - split; [|by apply dir_same]. split; simpl; [done| |done].
    apply Forall_app in Hv as [? [_ ?]%Forall_cons]. by apply Forall_app.
  - apply Forall_app in Hv as [Hv1 [Hp Hv2]%Forall_cons].
    destruct (validate_simulated _ _ _ _ Hok Hp Hrun Ht) as (Hok' & Hd & _ & Hg). split; [|done]. split; simpl; [done| |].
    + apply Forall_app; split; (eapply Forall_impl; [eassumption|]); intros q; by eapply validatePendingEngine_heap.
    + intros a q Ha. by apply Hg, Hrm.
  - split; [|by apply dir_same]. split; simpl; [done..|]. by intros a q [= <- <-].
  - destruct (remove_simulated _ _ _ _ Hok (Hrm _ _ eq_refl) Hrun) as [Hok' Hd].
    split; [|done]. split; simpl; [done| |done].
    eapply Forall_impl; [exact Hv|]. intros q. by eapply removeEngine_commit_heap.
  - assert (same_tables (cs_cluster st) (cs_cluster st')) as Hs.
    { eapply on_same_tables; [|exact Hrun]. exact (@run_op_keeps_name W (api p) _ _ o). }
    split; [|apply dir_same; intros a; by apply directory_same]. split; simpl.
    + by eapply tables_ok_same.
    + eapply Forall_impl; [exact Hv|]. intros q. by apply same_tables_in_heap.
    + intros a q Ha. rewrite (getEngineByAddr_same _ _ _ Hs (proj1 Hok)). by apply Hrm.
Qed.

Lemma timely_spec_ok s : timely_reachable s → spec_ok s ∧ rtc dir_step nobody (dir s).
Proof.
  induction 1 as [w evs|s s' _ [Hok Hd] Hstep Ht].
  - split; [|apply rtc_once, dir_same; intros a; unfold directory; simpl; by rewrite lookup_empty, range_map_empty].
    split; simpl; [by split; [apply registry_ok_empty|]|constructor|done].
  - destruct (step_simulated _ _ Hok Hstep Ht) as [Hok' Hs]. split; [done|]. by eapply rtc_r.
Qed.

(** C14: the registry refines the directory.  However its goroutines interleave, as long as no
    validation is late, the tables are reached from the empty directory by additions of
    unknown addresses, registrations of awaited engines under new identifiers and removals
    of known addresses; every step is at most one of these; and an identifier designates
    one address. *)
Theorem registry_refines s :
  timely_reachable s →
  rtc dir_step nobody (dir s) ∧
  (∀ s', step api percent FailureRetry s s' → timely s s' → dir_step (dir s) (dir s')) ∧
  ∀ a b id, dir s a = Some (registered id) → dir s b = Some (registered id) → a = b.
Proof.
  intros [Hok Hd]%timely_spec_ok. split; [done|]. split.
  - intros s' Hstep Ht. by apply step_simulated.
  - by apply directory_injective.
Qed.
End operations.

(** ** An engine added, connected and validated *)

Section concrete.
Existing Instances json_strings canonical_range.
Definition validated : ClusterSt unit := (validatePendingEngine quiet_api 0%nat late_connected).2.
Definition final : system := mkSys validated None [].
Lemma validated_reachable : timely_reachable quiet_api 5 3 final.
Proof.
  apply (timely_step _ _ _ (mkSys late_connected None [0%nat])).
  2: { apply (step_validate quiet_api 5 3 late_connected None [] [] 0%nat true validated). by vm_compute. }
  2: { intros id p Hid _. change (cl_engines (cs_cluster validated) !! id = Some p) in Hid.
       replace (cl_engines (cs_cluster validated)) with ({["X" := 0%nat]} : gmap string ptr) in Hid by (by vm_compute).
       apply lookup_singleton_Some in Hid as [<- <-]. split; [discriminate|vm_compute; reflexivity]. }
  apply (timely_step _ _ _ (mkSys late_added None [0%nat])).
  2: { apply (step_engine _ _ _ _ _ _ 0%nat op_Connect). by vm_compute. }
  2: { intros id p Hid. by vm_compute in Hid. }
  apply (timely_step _ _ _ (mkSys (mkCS tt empty_cluster []) None [])).
  2: { apply (step_add _ _ _ _ [] "a:1" 0 true). by vm_compute. }
  2: { intros id p Hid. by vm_compute in Hid. }
  apply timely_init.
Qed.
Lemma registry_refines_witness :
  rtc dir_step nobody (directory (cs_cluster (sy_st final))) ∧
  directory (cs_cluster (sy_st final)) "a:1" = Some (registered "X").
Proof.
  split; [exact (proj1 (registry_refines quiet_api 5 3 final validated_reachable))|]. vm_compute. reflexivity.
Defined.
End concrete.
