(* ===== verification/Discovery.v ===== *)
(** * From the discovery service to the engines ([discovery/token], [cluster/swarm/cluster.go])

    The entries of the discovery package, the token service, and the goroutine of the
    cluster that adds and removes engines as the entries come; between two commands of
    that goroutine the others of [SwarmRegistry] run.  Once it has caught up, the engines
    of the cluster are those of the entries. *)
From S2P Require Import Prelude GoStrings Json Config Container Inventory EngineState EngineOps SwarmRegistry RegistrySpec.
From Stdlib Require Import Ascii.

(** ** Entries *)

(** [type Entry struct] *)
Record Entry := { en_Host : string; en_Port : string }.
#[export] Instance Entry_eq_dec : EqDecision Entry.
Proof. solve_decision. Defined.
Abbreviation Entries := (list Entry).

(** [net.JoinHostPort(host, port)] *)
Definition JoinHostPort (host port : string) : string :=
  if Contains host ":" || Contains host "%" then "[" +:+ host +:+ "]:" +:+ port
  else host +:+ ":" +:+ port.
Definition Entry_String (e : Entry) : string := JoinHostPort (en_Host e) (en_Port e).
Definition Entry_Equals (e cmp : Entry) : bool :=
  String.eqb (en_Host e) (en_Host cmp) && String.eqb (en_Port e) (en_Port cmp).
Fixpoint Entries_Equals (e cmp : Entries) : bool :=
  match e, cmp with
  | [], [] => true
  | x :: e, y :: cmp => Entry_Equals x y && Entries_Equals e cmp
  | _, _ => false
  end.
Definition Entries_Contains (e : Entries) (entry : Entry) : bool :=
  existsb (λ curr, Entry_Equals curr entry) e.
Definition Entries_Diff (e cmp : Entries) : Entries * Entries :=
  (List.filter (λ entry, negb (Entries_Contains e entry)) cmp,
   List.filter (λ entry, negb (Entries_Contains cmp entry)) e).

Lemma Entry_Equals_spec e e' : Entry_Equals e e' = true ↔ e = e'.
Proof.
  unfold Entry_Equals. rewrite andb_true_iff, !String.eqb_eq. destruct e, e'; simpl.
  split; [by intros [-> ->]|by intros [= -> ->]].
Qed.
Lemma Entries_Equals_spec l l' : Entries_Equals l l' = true ↔ l = l'.
Proof.
  revert l'. induction l as [|e l IH]; intros [|e' l']; simpl; [done..|].
  rewrite andb_true_iff, Entry_Equals_spec, IH. split; [by intros [-> ->]|by intros [= -> ->]].
Qed.
Lemma Entries_Contains_spec l e : Entries_Contains l e = true ↔ e ∈ l.
Proof.
  unfold Entries_Contains. rewrite existsb_exists. setoid_rewrite Entry_Equals_spec.
  rewrite list_elem_of_In. split; [by intros (? & ? & ->)|]. intros Hin. by exists e.
Qed.

(** [CreateEntries(addrs)] with [net.SplitHostPort]; empty addresses are left out. *)
Section service.
Context (SplitHostPort : string → (string * string) + string).
Fixpoint CreateEntries (addrs : list string) : Entries + string :=
  match addrs with
  | [] => inl []
  | addr :: addrs =>
      if String.eqb addr "" then CreateEntries addrs
      else match SplitHostPort addr with
           | inr err => inr err
           | inl (host, port) =>
               match CreateEntries addrs with
               | inl l => inl ({| en_Host := host; en_Port := port |} :: l)
               | inr err => inr err
               end
           end
  end.

(** ** The token service *)

Definition discoveryURL : string := "https://discovery.hub.docker.com/v1".
(** [type Discovery struct] *)
Record TokenDiscovery := { tk_heartbeat : Z; tk_ttl : Z; tk_url : string; tk_token : string }.
(** [Initialize(urltoken, heartbeat, ttl)]; the interval is not stored on an error. *)
Definition Initialize (urltoken : string) (heartbeat ttl : Z) (s : TokenDiscovery) : TokenDiscovery * option string :=
  let '(url, token) :=
    match cut_last "/" urltoken with
    | Some (url, token) => ("https://" +:+ url, token)
    | None => (discoveryURL, urltoken)
    end in
  if String.eqb token "" then
    ({| tk_heartbeat := tk_heartbeat s; tk_ttl := tk_ttl s; tk_url := url; tk_token := token |}, Some "token is empty")
  else ({| tk_heartbeat := heartbeat; tk_ttl := ttl; tk_url := url; tk_token := token |}, None).

(** An answer of [http.Get] or [http.Post]: the status code and the body. *)
Definition response : Type := (Z * string) + string.
(** [decode]: the body as a list of addresses. *)
Context (decode : string → list string + string).
Definition fetch_url (s : TokenDiscovery) : string := tk_url s +:+ "/clusters/" +:+ tk_token s.
Definition fetch (resp : response) : Entries + string :=
  match resp with
  | inr err => inr err
  | inl (status, body) =>
      if status =? 200 then
        match decode body with
        | inr err => inr ("Failed to decode response: " +:+ err)
        | inl addrs => CreateEntries addrs
        end
      else inr ("Failed to fetch entries, Discovery service returned " +:+ Itoa status +:+ " HTTP status code")
  end.
(** [Register(addr)], the [ttl] being positive: the address posted to, and the error; the status is not looked at. *)
Definition Register_url (s : TokenDiscovery) : string :=
  fetch_url s +:+ "?ttl=" +:+ Itoa (tk_ttl s ÷ 1000000000).
Definition Register (resp : response) : option string :=
  match resp with inl _ => None | inr err => Some err end.
(** [CreateCluster()]: the body is the token, whatever the status. *)
Definition CreateCluster_url (s : TokenDiscovery) : string := tk_url s +:+ "/clusters".
Definition CreateCluster (resp : response) : string + string :=
  match resp with inl (_, body) => inl body | inr err => inr err end.
End service.

(** [Watch]: what is sent, on the channel of the entries or on that of the errors, for
    the results of the successive fetches. *)
Fixpoint watch_from (current : Entries) (fetches : list (Entries + string)) : list (Entries + string) :=
  match fetches with
  | [] => []
  | inr err :: fetches => inr err :: watch_from current fetches
  | inl new :: fetches =>
      (if negb (Entries_Equals new current) then [inl new] else []) ++ watch_from new fetches
  end.
Definition Watch (fetches : list (Entries + string)) : list (Entries + string) :=
  match fetches with
  | [] => []
  | inr err :: fetches => inr err :: watch_from [] fetches
  | inl entries :: fetches => inl entries :: watch_from entries fetches
  end.

Definition received (r : Entries + string) : option Entries := match r with inl l => Some l | inr _ => None end.
Definition reported (r : Entries + string) : option string := match r with inl _ => None | inr e => Some e end.
(** The last entries among some results, none at first. *)
Definition latest (l : list (Entries + string)) : Entries := default [] (last (omap received l)).
(** No two successive entries are the same. *)
Definition all_changes (l : list Entries) : Prop :=
  ∀ i x y, l !! i = Some x → l !! S i = Some y → x ≠ y.

Lemma default_last_cons {A} (d x : A) l : default d (last (x :: l)) = default x (last l).
Proof. rewrite last_cons. by destruct (last l). Qed.
Lemma watch_from_spec current fetches :
  default current (last (omap received (watch_from current fetches))) =
    default current (last (omap received fetches)) ∧
  omap reported (watch_from current fetches) = omap reported fetches ∧
  all_changes (current :: omap received (watch_from current fetches)).
Proof.
  revert current. induction fetches as [|[new|err] fetches IH]; intros current; simpl.
  - split_and!; [done|done|]. by intros [|i].
  - destruct (IH new) as (Hl & Hr & Hc). destruct (Entries_Equals new current) eqn:He; simpl.
    + apply Entries_Equals_spec in He as ->. split_and!; [|done|done].
      by rewrite default_last_cons.
    + split_and!; [|done|].
      * by rewrite !default_last_cons.
      * intros [|i] x y; simpl; [|by apply (Hc i)]. intros [= <-] [= <-] ->.
        assert (Entries_Equals new new = true) by (by apply Entries_Equals_spec). congruence.
  - destruct (IH current) as (Hl & Hr & Hc). split_and!; [done|by apply (f_equal (cons err))|done].
Qed.
(** Whatever the answers of the token service, the watcher has been sent, last, what the
    service listed last; every error is passed on, in order; and after the first one,
    entries are sent only when they differ from the ones sent before. *)
Theorem Watch_spec fetches :
  latest (Watch fetches) = latest fetches ∧
  omap reported (Watch fetches) = omap reported fetches ∧
  all_changes (omap received (Watch fetches)).
Proof.
  unfold latest. destruct fetches as [|[new|err] fetches]; simpl; [by split_and!|..].
  - destruct (watch_from_spec new fetches) as (Hl & Hr & Hc). split_and!; [|done|done].
    by rewrite !default_last_cons.
  - destruct (watch_from_spec [] fetches) as (Hl & Hr & Hc). split_and!; [done|by apply (f_equal (cons err))|].
    intros i x y Hx Hy. by apply (Hc (S i)).
Qed.

(** What [Initialize] splits is what it was given. *)
Lemma Initialize_url url token heartbeat ttl s :
  token ≠ "" → "/"%char ∉ chars token →
  Initialize (url +:+ "/" +:+ token) heartbeat ttl s =
    ({| tk_heartbeat := heartbeat; tk_ttl := ttl; tk_url := "https://" +:+ url; tk_token := token |}, None).
Proof.
  intros Hne Hs. unfold Initialize. change (url +:+ "/" +:+ token) with (url +:+ String "/"%char token).
  rewrite (cut_last_app "/"%char url token Hs).
  by apply String.eqb_neq in Hne as ->.
Qed.

(** ** The names of the entries *)

(** What [SplitHostPort] makes sure of: the port is what follows the last colon. *)
Definition valid_entry (e : Entry) : Prop := ":"%char ∉ chars (en_Port e).
#[export] Instance valid_entry_dec e : Decision (valid_entry e).
Proof. unfold valid_entry. apply _. Defined.
Lemma Contains_app_r c a b : Contains b (String c "") = true → Contains (a +:+ b) (String c "") = true.
Proof. rewrite !Contains_spec. intros (x & y & ->). exists (a +:+ x), y. by rewrite app_assoc_s. Qed.
Lemma Contains_app_l c a b : Contains a (String c "") = true → Contains (a +:+ b) (String c "") = true.
Proof. rewrite !Contains_spec. intros (x & y & ->). exists x, (y +:+ b). by rewrite !app_assoc_s. Qed.
Definition bracketed (host : string) : string :=
  if Contains host ":" || Contains host "%" then "[" +:+ host +:+ "]" else host.
Lemma JoinHostPort_bracketed host port : JoinHostPort host port = bracketed host +:+ String ":" port.
Proof.
  unfold JoinHostPort, bracketed. destruct (_ || _); [|done].
  change ("]:" +:+ port) with ("]" +:+ String ":"%char port).
  by rewrite (app_assoc_s host), (app_assoc_s "[").
Qed.
Lemma bracketed_inj h h' : bracketed h = bracketed h' → h = h'.
Proof.
  unfold bracketed. intros Heq.
  assert (∀ x, Contains x ":" || Contains x "%" = true →
    Contains ("[" +:+ x +:+ "]") ":" || Contains ("[" +:+ x +:+ "]") "%" = true) as Hb.
  { intros x. rewrite !orb_true_iff. intros [Hx|Hx]; [left|right]; by apply Contains_app_r, Contains_app_l. }
  destruct (Contains h ":" || Contains h "%") eqn:Hh, (Contains h' ":" || Contains h' "%") eqn:Hh'; try done.
  - apply app_inj_l in Heq. apply (f_equal (λ s, chars s)) in Heq. rewrite !chars_app in Heq.
    apply (inj (λ l, l ++ chars "]")) in Heq. rewrite <- (String.string_of_list_ascii_of_string h), <- (String.string_of_list_ascii_of_string h'). by f_equal.
  - apply Hb in Hh. rewrite Heq in Hh. congruence.
  - apply Hb in Hh'. rewrite <- Heq in Hh'. congruence.
Qed.
Lemma Entry_String_inj e e' :
  valid_entry e → valid_entry e' → Entry_String e = Entry_String e' → e = e'.
Proof.
  unfold valid_entry, Entry_String. rewrite !JoinHostPort_bracketed. intros He He' Heq.
  pose proof (cut_last_app ":" (bracketed (en_Host e)) (en_Port e) He) as Hc.
  rewrite Heq, cut_last_app in Hc by done. injection Hc as Hh Hp. apply bracketed_inj in Hh.
  destruct e, e'; simpl in *; congruence.
Qed.

(** ** The discovery goroutine of the cluster

    [monitorDiscovery] turns the entries that come into commands, the removals first, and
    runs [removeEngine] and [addEngine] on them one after the other. *)
Inductive command := remove_engine (addr : string) | add_engine (addr : string).
Definition commands (currentEntries entries : Entries) : list command :=
  let '(added, removed) := Entries_Diff currentEntries entries in
  (remove_engine ∘ Entry_String <$> removed) ++ (add_engine ∘ Entry_String <$> added).

Section monitor.
Context {W : Type} (api : ptr → DockerAPI W) `{GoJson} `{MapRange} (percent FailureRetry : Z).

(** The other goroutines. *)
Inductive background : system (W := W) → system (W := W) → Prop :=
  | bg_validate_again st rm v addr p :
      cl_pendingEngines (cs_cluster st) !! addr = Some p →
      background (mkSys st rm v) (mkSys st rm (p :: v))
  | bg_connect_failed st rm v1 v2 p :
      background (mkSys st rm (v1 ++ p :: v2)) (mkSys st rm (v1 ++ v2))
  | bg_validate st rm v1 v2 p r st' :
      validatePendingEngine api p st = (Ret r, st') →
      background (mkSys st rm (v1 ++ p :: v2)) (mkSys st' rm (v1 ++ v2))
  | bg_engine st rm v p o st' :
      on api p (λ _, run_op o) st = (Ret tt, st') →
      background (mkSys st rm v) (mkSys st' rm v).

(** The goroutines, [currentEntries], and the commands left of the last entries. *)
Record discovering := mkD { ds_sys : system (W := W); ds_current : Entries; ds_todo : list command }.

Inductive ds_step : discovering → discovering → Prop :=
  | ds_receive s cur entries :
      Forall valid_entry entries → ds_step (mkD s cur []) (mkD s entries (commands cur entries))
  | ds_remove_unknown st v cur addr todo :
      getEngineByAddr (cs_cluster st) addr = None →
      ds_step (mkD (mkSys st None v) cur (remove_engine addr :: todo)) (mkD (mkSys st None v) cur todo)
  | ds_remove st v cur addr p todo :
      getEngineByAddr (cs_cluster st) addr = Some p →
      ds_step (mkD (mkSys st None v) cur (remove_engine addr :: todo))
              (mkD (mkSys st (Some (addr, p)) v) cur (remove_engine addr :: todo))
  | ds_remove_commit st v cur addr p st' todo :
      removeEngine_commit api addr p st = (Ret tt, st') →
      ds_step (mkD (mkSys st (Some (addr, p)) v) cur (remove_engine addr :: todo))
              (mkD (mkSys st' None v) cur todo)
  | ds_add st v cur addr now r st' todo :
      addEngine api percent FailureRetry addr now st = (Ret r, st') →
      ds_step (mkD (mkSys st None v) cur (add_engine addr :: todo))
              (mkD (mkSys st' None (match r, cl_pendingEngines (cs_cluster st') !! addr with
                                    | true, Some p => p :: v | _, _ => v end)) cur todo)
  | ds_background s s' cur todo :
      background s s' → timely s s' → ds_step (mkD s cur todo) (mkD s' cur todo).
Definition discovery_start (w : W) evs : discovering := mkD (mkSys (mkCS w empty_cluster evs) None []) [] [].

(** The steps of the registry are those of [SwarmRegistry]. *)
Lemma background_step s s' : background s s' → step api percent FailureRetry s s'.
Proof. destruct 1; by econstructor. Qed.

(** *** What the commands will make of the known addresses *)

Definition after (P : Prop) (a : string) (c : command) : Prop :=
  match c with remove_engine b => P ∧ a ≠ b | add_engine b => P ∨ a = b end.
Definition will_be (todo : list command) (P : Prop) (a : string) : Prop := foldl (λ P c, after P a c) P todo.
Lemma will_be_iff todo P Q a : (P ↔ Q) → (will_be todo P a ↔ will_be todo Q a).
Proof.
  unfold will_be. revert P Q. induction todo as [|c todo IH]; intros P Q HPQ; simpl; [done|].
  apply IH. destruct c; simpl; by rewrite HPQ.
Qed.
Lemma will_be_removed l P a : will_be (remove_engine <$> l) P a ↔ P ∧ a ∉ l.
Proof.
  unfold will_be. revert P. induction l as [|b l IH]; intros P; simpl; [rewrite elem_of_nil; tauto|].
  rewrite IH, not_elem_of_cons. tauto.
Qed.
Lemma will_be_added l P a : will_be (add_engine <$> l) P a ↔ P ∨ a ∈ l.
Proof.
  unfold will_be. revert P. induction l as [|b l IH]; intros P; simpl; [rewrite elem_of_nil; tauto|].
  rewrite IH, elem_of_cons. tauto.
Qed.
Lemma will_be_app l l' P a : will_be (l ++ l') P a ↔ will_be l' (will_be l P a) a.
Proof. unfold will_be. by rewrite foldl_app. Qed.

(** The addresses of the current entries become those of the new ones. *)
Lemma will_be_commands cur entries a :
  Forall valid_entry cur → Forall valid_entry entries →
  will_be (commands cur entries) (a ∈ Entry_String <$> cur) a ↔ a ∈ Entry_String <$> entries.
Proof.
  intros Hc He. unfold commands, Entries_Diff. rewrite !list_fmap_compose, will_be_app, will_be_added, will_be_removed.
  rewrite Forall_forall in Hc, He.
  assert (∀ l l' x, x ∈ List.filter (λ entry, negb (Entries_Contains l entry)) l' ↔ x ∈ l' ∧ x ∉ l) as Hd.
  { intros l l' x. rewrite list_elem_of_Lfilter, <- (Entries_Contains_spec l x).
    destruct (Entries_Contains l x); simpl; split; intros []; by split. }
  setoid_rewrite list_elem_of_fmap. setoid_rewrite Hd. split.
  - intros [[(e & -> & Hin) Hn]|(e & -> & Hin & _)]; [|by exists e].
    destruct (decide (e ∈ entries)) as [|Hout]; [by exists e|].
    destruct Hn. by exists e.
  - intros (e & -> & Hin). destruct (decide (e ∈ cur)) as [Hcur|Hout].
    + left. split; [by exists e|]. intros (e' & Heq & Hin' & Hout).
      apply Entry_String_inj in Heq as ->; [done|by apply He|by apply Hc].
    + right. by exists e.
Qed.

(** *** Invariant *)

Abbreviation known s a := (is_Some (directory (cs_cluster (sy_st s)) a)).
Record ds_ok (d : discovering) : Prop := {
  do_spec : spec_ok (ds_sys d);
  do_valid : Forall valid_entry (ds_current d);
  do_removing : sy_removing (ds_sys d) = None ∨
    ∃ a p todo, sy_removing (ds_sys d) = Some (a, p) ∧ ds_todo d = remove_engine a :: todo;
  do_listed : ∀ a, will_be (ds_todo d) (known (ds_sys d) a) a ↔ a ∈ Entry_String <$> ds_current d
}.

Lemma background_known s s' :
  spec_ok s → background s s' → timely s s' → same_known (directory (cs_cluster (sy_st s))) (directory (cs_cluster (sy_st s'))).
Proof.
  intros [Hok Hv _] Hb Ht. destruct Hb as [| |st rm v1 v2 p r st' Hrun|st rm v p o st' Hrun]; simpl in *; [by intros a..| |].
  - apply Forall_app in Hv as [_ [Hp _]%Forall_cons].
    destruct (validate_simulated _ _ _ _ _ Hok Hp Hrun Ht) as (_ & _ & Hk & _). exact Hk.
  - assert (same_tables (cs_cluster st) (cs_cluster st')) as Hs.
    { eapply on_same_tables; [|exact Hrun]. exact (@run_op_keeps_name W (api p) _ _ o). }
    intros a. by rewrite (directory_same _ _ a Hs Hok).
Qed.
Lemma background_removing s s' : background s s' → sy_removing s' = sy_removing s.
Proof. by destruct 1. Qed.
Lemma removal_timely st st' rm v rm' v' addr p :
  tables_ok (cs_cluster st) →
  removeEngine_commit api addr p st = (Ret tt, st') → timely (mkSys st rm v) (mkSys st' rm' v').
Proof.
  intros _ Hrun id q Hid Hnone. simpl in *.
  apply removeEngine_commit_tables in Hrun as (_ & c1 & Hs & Hc). rewrite Hc in Hid.
  destruct (cl_pendingEngines c1 !! addr); simpl in Hid.
  - rewrite (st_engines_eq _ _ Hs) in Hid. congruence.
  - apply lookup_delete_Some in Hid as [_ Hid]. rewrite (st_engines_eq _ _ Hs) in Hid. congruence.
Qed.
Lemma addition_timely st st' rm v rm' v' addr now r :
  addEngine api percent FailureRetry addr now st = (Ret r, st') → timely (mkSys st rm v) (mkSys st' rm' v').
Proof.
  intros Hrun id q Hid Hnone. simpl in *. apply addEngine_tables in Hrun. destruct r; [|congruence].
  destruct Hrun as (_ & _ & He & _). congruence.
Qed.

Lemma ds_ok_step d d' : ds_ok d → ds_step d d' → ds_ok d'.
Proof.
  intros [Hspec Hvalid Hrm Hlist] Hstep.
  destruct Hstep as [s cur entries He|st v cur addr todo Hg|st v cur addr p todo Hg
    |st v cur addr p st' todo Hrun|st v cur addr now r st' todo Hrun|s s' cur todo Hb Ht]; simpl in *.
  - constructor; simpl; [done|done| |].
    { destruct Hrm as [?|(? & ? & ? & _ & ?)]; [by left|done]. }
    intros a. rewrite <- (will_be_commands cur entries a) by done. apply will_be_iff, Hlist.
  - constructor; simpl; [done|done|by left|]. intros a. rewrite <- Hlist. simpl. apply will_be_iff.
    split; [|tauto]. intros Hk. split; [done|]. intros ->. apply directory_None in Hg; [|apply (sp_tables _ Hspec)].
    rewrite Hg in Hk. by destruct Hk.
  - constructor; simpl; [|done|right; by eexists _, _, _|done].
    destruct (step_simulated api percent FailureRetry _ (mkSys st (Some (addr, p)) v) Hspec) as [Hs _];
      [by apply step_remove|intros ? ? ? ?; simpl in *; congruence|done].
  - assert (tables_ok (cs_cluster st)) as Hok by apply (sp_tables _ Hspec).
    pose proof (sp_removing _ Hspec _ _ eq_refl) as Hg. simpl in Hg.
    constructor; simpl; [|done|by left|].
    + destruct (step_simulated api percent FailureRetry _ (mkSys st' None v) Hspec) as [Hs _];
        [by eapply step_remove_commit|by eapply removal_timely|done].
    + destruct (remove_directory _ _ _ _ _ Hok Hg Hrun) as (_ & _ & Hu & Hn).
      intros a. rewrite <- Hlist. simpl. apply will_be_iff.
      destruct (decide (a = addr)) as [->|Hne]; [rewrite Hu; split; [by intros [? ?]|tauto]|].
      rewrite Hn by done. tauto.
  - assert (tables_ok (cs_cluster st)) as Hok by apply (sp_tables _ Hspec).
    constructor; simpl; [|done|by left|].
    + edestruct (step_simulated api percent FailureRetry) as [Hs _];
        [exact Hspec|by eapply step_add|by eapply addition_timely|exact Hs].
    + destruct (add_directory _ _ _ _ _ _ _ _ Hok Hrun) as [_ Hr].
      intros a. rewrite <- Hlist. simpl. apply will_be_iff. destruct r.
      * destruct Hr as [_ [Hu Hn]].
        destruct (decide (a = addr)) as [->|Hne]; [rewrite Hu; split; [by right|by eexists]|].
        rewrite Hn by done. tauto.
      * destruct Hr as [-> Hk]. split; [tauto|]. by intros [?| ->].
  - constructor; simpl; [|done| |].
    + destruct (step_simulated api percent FailureRetry _ s' Hspec) as [Hs _]; [by apply background_step|done..].
    + by rewrite (background_removing _ _ Hb).
    + intros a. rewrite <- Hlist. apply will_be_iff. by apply background_known.
Qed.

End monitor.

(** ** Two entries, of which one goes *)

Section concrete.
Existing Instances json_strings canonical_range.
Definition entry_a : Entry := {| en_Host := "a"; en_Port := "1" |}.
Definition entry_b : Entry := {| en_Host := "fe80::1"; en_Port := "2375" |}.
Example entry_names : Entry_String <$> [entry_a; entry_b] = ["a:1"; "[fe80::1]:2375"].
Proof. reflexivity. Qed.
Definition no_engine : ClusterSt unit := mkCS tt empty_cluster [].
Definition a_added : ClusterSt unit := (addEngine quiet_api 5 3 "a:1" 0 no_engine).2.
Definition both_added : ClusterSt unit := (addEngine quiet_api 5 3 "[fe80::1]:2375" 0 a_added).2.
Definition a_connected : ClusterSt unit := (on quiet_api 0%nat (λ _, run_op op_Connect) both_added).2.
Definition a_removed : ClusterSt unit := (removeEngine_commit quiet_api "a:1" 0%nat a_connected).2.
Definition caught_up : discovering := mkD (mkSys a_removed None [1%nat; 0%nat]) [entry_b] [].
Lemma caught_up_reachable : rtc (ds_step quiet_api 5 3) (discovery_start tt []) caught_up.
Proof.
  eapply rtc_l. { apply ds_receive with (entries := [entry_a; entry_b]). apply (bool_decide_unpack _). by vm_compute. }
  replace (commands [] [entry_a; entry_b]) with [add_engine "a:1"; add_engine "[fe80::1]:2375"] by (by vm_compute).
  eapply rtc_l. { apply (ds_add _ _ _ _ _ _ _ 0 true a_added). by vm_compute. }
  replace (cl_pendingEngines (cs_cluster a_added) !! "a:1") with (Some 0%nat) by (by vm_compute).
  eapply rtc_l. { apply (ds_add _ _ _ _ _ _ _ 0 true both_added). by vm_compute. }
  replace (cl_pendingEngines (cs_cluster both_added) !! "[fe80::1]:2375") with (Some 1%nat) by (by vm_compute).
  eapply rtc_l.
  { apply ds_background; [apply (bg_engine _ _ _ _ 0%nat op_Connect a_connected); by vm_compute|].
    intros id p Hid. by vm_compute in Hid. }
  eapply rtc_l. { apply ds_receive with (entries := [entry_b]). apply (bool_decide_unpack _). by vm_compute. }
  replace (commands [entry_a; entry_b] [entry_b]) with [remove_engine "a:1"] by (by vm_compute).
  eapply rtc_l. { apply (ds_remove _ _ _ _ _ _ _ 0%nat). by vm_compute. }
  eapply rtc_l. { apply (ds_remove_commit _ _ _ _ _ _ _ _ a_removed). by vm_compute. }
  apply rtc_refl.
Qed.
End concrete.
