(* ===== verification/SwarmCluster.v ===== *)
(** * The operations of the swarm cluster ([cluster/swarm/cluster.go])

    Looking up what the engines hold, scheduling and creating containers, and the
    operations that are forwarded to one engine or to several. *)
From S2P Require Import Prelude GoStrings Regexp Json Config Container Inventory EngineState EngineOps Node Strategy Expr Filters Scheduler SwarmRegistry.
From Stdlib Require Import Ascii.

(** ** Pending containers *)

Definition empty_host_info : ContainerJSON :=
  {| ci_Name := ""; ci_HostConfig := Some zero_HostConfig; ci_State := None; ci_Config := None;
     ci_NetworkSettings := None; ci_Created := ""; ci_ExecIDs := []; ci_Mounts := [] |}.

(** [ToContainer()] *)
Definition ToContainer (p : pendingContainer) : Container := {|
  ctr_Container := {| lc_ID := "";
    lc_Names := if String.eqb (pc_Name p) "" then [] else ["/" +:+ pc_Name p];
    lc_Labels := cc_Labels (pc_Config p); lc_State := ""; lc_Created := 0; lc_Image := ""; lc_Ports := [] |};
  ctr_Config := Some (pc_Config p);
  ctr_Info := empty_host_info;
  ctr_Engine := pc_Engine p
|}.

Section views.
Context `{GoJson} `{MapRange}.

(** The engines of [c.engines], in the order of a range loop. *)
Definition engine_list (c : Cluster) : list (ptr * Engine) :=
  omap (λ p, (p,.) <$> cl_heap c !! p) (range_map (cl_engines c)).*2.

(** [Containers()], [Images()], [Networks()] and [Volumes()] of the cluster. *)
Definition cluster_Containers (c : Cluster) : list Container :=
  mjoin ((λ x, Containers x.2) <$> engine_list c).
Definition cluster_Images (c : Cluster) : list Image :=
  mjoin ((λ x, Images x.2) <$> engine_list c).
Definition cluster_Networks (c : Cluster) : list Network :=
  mjoin ((λ x, Networks x.2) <$> engine_list c).
Definition cluster_Volumes (c : Cluster) : list Volume :=
  mjoin ((λ x, Volumes x.2) <$> engine_list c).

(** [Container(IDOrName)] *)
Definition cluster_Container (c : Cluster) (IDOrName : string) : outcome (option Container) :=
  if len IDOrName =? 0 then Ret None
  else Containers_Get (hdr_at c) (cluster_Containers c) IDOrName.

(** [Image(IDOrName)]: the first engine that has one. *)
Definition cluster_Image (c : Cluster) (IDOrName : string) : option Image :=
  if len IDOrName =? 0 then None
  else head (omap (λ x, Engine_Image x.2 IDOrName) (engine_list c)).

Definition cluster_TotalMemory (c : Cluster) : Z := sum64 ((λ x, TotalMemory x.2) <$> engine_list c).
Definition cluster_TotalCpus (c : Cluster) : Z := sum64 ((λ x, TotalCpus x.2) <$> engine_list c).

(** [listEngines()] *)
Definition listEngines (c : Cluster) : list ptr :=
  (range_map (cl_engines c)).*2 ++ (range_map (cl_pendingEngines c)).*2.

(** [checkNameUniqueness(name)] *)
Definition checkNameUniqueness (c : Cluster) (name : string) : bool :=
  if len name =? 0 then true
  else
    negb (existsb (λ x, existsb (λ ctr, existsb (λ cname,
        String.eqb cname name || String.eqb cname ("/" +:+ name)) (ctr_Names ctr)) (Containers x.2))
      (engine_list c)) &&
    negb (existsb (λ pc, String.eqb (pc_Name pc) name) (range_map (cl_pendingContainers c)).*2).

(** The inner loop of [listNodes]: the pending containers of the engine that the node
    does not show yet; [AddContainer]'s refusal is ignored. *)
Fixpoint add_pending (c : Cluster) (id : string) (l : list pendingContainer) (n : Node) : outcome Node :=
  match l with
  | [] => Ret n
  | pc :: l' =>
      if String.eqb (eng_ID (hdr_at c (pc_Engine pc))) id then
        r ← Node_Container (hdr_at c) n (SwarmID (pc_Config pc));
        match r with
        | Some _ => add_pending c id l' n
        | None => add_pending c id l' (Node_AddContainer (ToContainer pc) n).1
        end
      else add_pending c id l' n
  end.

Definition listNodes (c : Cluster) : outcome (list Node) :=
  omapM (λ x, n ← NewNode x.2;
    add_pending c (eng_ID (e_hdr x.2)) (range_map (cl_pendingContainers c)).*2 n) (engine_list c).

(** [generateUniqueID()] over the identifiers drawn: the first that designates no
    container; [None] when all of them do and the loop goes on. *)
Fixpoint generateUniqueID (c : Cluster) (draws : list string) : outcome (option string) :=
  match draws with
  | [] => Ret None
  | id :: draws' =>
      r ← cluster_Container c id;
      match r with None => Ret (Some id) | Some _ => generateUniqueID c draws' end
  end.
End views.

(** The containers of the cluster are those that its engines store. *)
Section stored.
Context `{MapRange}.
Lemma cluster_Containers_elem c y :
  y ∈ cluster_Containers c ↔
  ∃ id q e k, cl_engines c !! id = Some q ∧ cl_heap c !! q = Some e ∧ e_containers e !! k = Some y.
Proof.
  unfold cluster_Containers, engine_list. rewrite list_elem_of_join. split.
  - intros (l & Hy & (x & -> & Hx)%list_elem_of_fmap).
    apply list_elem_of_omap in Hx as (q & [id Hid]%elem_of_range_snd & Hq).
    destruct (cl_heap c !! q) as [e|] eqn:He; simpl in Hq; [|done]. injection Hq as <-.
    apply elem_of_range_snd in Hy as [k Hk]. by exists id, q, e, k.
  - intros (id & q & e & k & Hid & Hq & Hk). exists (Containers e). split.
    + apply elem_of_range_snd. by exists k.
    + apply list_elem_of_fmap. exists (q, e). split; [done|]. apply list_elem_of_omap. exists q.
      split; [apply elem_of_range_snd; by exists id|]. by rewrite Hq.
Qed.
End stored.

Definition name_conflict (name : string) : error := plain_error
  ("Conflict: The name " +:+ name +:+ " is already assigned. You have to delete (or rename) that "
   +:+ "container to be able to assign " +:+ name +:+ " to a container again.").

(** A change of the configuration whose error is ignored. *)
Definition or_unchanged (config : ContainerConfig) (o : outcome ContainerConfig)
    : outcome ContainerConfig :=
  match o with Err _ => Ret config | _ => o end.

(** The random identifiers that one call of [CreateContainer] draws. *)
Record id_draws := { dr_first : list string; dr_second : list string; dr_retry : nat → list string }.

Section cluster.
Context {W : Type} (api : ptr → DockerAPI W).
Context `{GoRegexp} `{GoJson} `{GoNet} `{MapRange} `{GoSort} (Intn : Z → Z).
Context (scheduler : Scheduler) (createRetry : Z).

Definition lock : C W unit := modify_cluster (cl_set_locked true).
Definition unlock : C W unit := modify_cluster (cl_set_locked false).

(** An outcome whose errors are values. *)
Definition attempt {A} (o : outcome A) : C W (A + error) :=
  match o with
  | Ret a => mret (inl a)
  | Err msg => mret (inr (plain_error msg))
  | Panic w => lift (Panic w)
  end.

Definition SelectNodes (config : ContainerConfig) : C W (list Node + error) :=
  c ← get_cluster;
  nodes ← lift (listNodes c);
  attempt (SelectNodesForContainer Intn (hdr_at c) scheduler nodes config).

(** ** Creating a container *)

(** The network mode that names a local network pins the container to its node and
    is replaced by the network's name. *)
Definition pin_to_network (c : Cluster) (config : ContainerConfig) : outcome ContainerConfig :=
  match Networks_Get (hdr_at c) (cluster_Networks c) (hc_NetworkMode (cc_HostConfig config)) with
  | Some network =>
      if String.eqb (net_Scope network) "local" then
        config ← (if HaveNodeConstraint config then Ret config
                  else or_unchanged config
                    (AddConstraint ("node==~" +:+ eng_Name (hdr_at c (net_Engine network))) config));
        Ret (cc_set_HostConfig (hc_set_NetworkMode (net_Name network) (cc_HostConfig config)) config)
      else Ret config
  | None => Ret config
  end.

(** The part of [createContainer] under the scheduler's lock: the engine chosen, the
    Swarm ID under which the container is pending and the configuration, or the
    configuration and the error.  [draws] are the random identifiers. *)
Definition reserve (config : ContainerConfig) (name : string) (withImageAffinity : bool)
    (draws : list string) : C W ((ptr * string * ContainerConfig) + (ContainerConfig * error)) :=
  lock ;;
  c ← get_cluster;
  if negb (checkNameUniqueness c name) then unlock ;; mret (inr (config, name_conflict name)) else
  id ← (if String.eqb (SwarmID config) "" then lift (generateUniqueID c draws)
        else mret (Some (SwarmID config)));
  match id with
  | None => lift (Err "every identifier drawn is taken")
  | Some swarmID =>
      let config := if String.eqb (SwarmID config) "" then SetSwarmID swarmID config else config in
      config ← lift (pin_to_network c config);
      let affinity := "image==" +:+ cc_Image config in
      config ← (if withImageAffinity then lift (or_unchanged config (AddAffinity affinity config))
                else mret config);
      nodes ← SelectNodes config;
      config ← (if withImageAffinity then lift (or_unchanged config (RemoveAffinity affinity config))
                else mret config);
      match nodes with
      | inr err => unlock ;; mret (inr (config, err))
      | inl [] => lift (Panic "index out of range")
      | inl (n :: _) =>
          match cl_engines c !! nd_ID n with
          | None => unlock ;; mret (inr (config, plain_error "error creating container"))
          | Some engine =>
              modify_cluster (λ c, cl_set_pendingContainers
                (<[swarmID := {| pc_Name := name; pc_Config := config; pc_Engine := engine |}]>
                   (cl_pendingContainers c)) c) ;;
              unlock ;;
              mret (inl (engine, swarmID, config))
          end
      end
  end.

(** The end of [createContainer]: the container is no longer pending. *)
Definition release (swarmID : string) : C W unit :=
  lock ;;
  modify_cluster (λ c, cl_set_pendingContainers (delete swarmID (cl_pendingContainers c)) c) ;;
  unlock.

(** [createContainer], with the configuration as it leaves it. *)
Definition createContainer (config : ContainerConfig) (name : string) (withImageAffinity : bool)
    (auth : string) (draws : list string)
    : C W (ContainerConfig * (option Container * option error)) :=
  r ← reserve config name withImageAffinity draws;
  match r with
  | inr (config, err) => mret (config, (None, Some err))
  | inl (engine, swarmID, config) =>
      container ← on api engine (λ _, EngineOps.CreateContainer config name true auth);
      release swarmID ;;
      mret (config, container)
  end.

Definition matches (pattern s : string) : bool := default false (MatchString pattern s).

(** An error that says that the image was not found, in either wording. *)
Definition image_not_found (err : error) : bool :=
  matches "image \S* not found" (err_msg err) || matches "repository \S* not found" (err_msg err)
  || err_image_not_found err.

(** The loop [for ; retries < c.createRetry && err != nil; retries++]. *)
Fixpoint retry (n : nat) (config : ContainerConfig) (name auth : string) (draws : nat → list string)
    (r : option Container * option error) : C W (ContainerConfig * (option Container * option error)) :=
  match n, r.2 with
  | S n', Some _ =>
      x ← createContainer config name false auth (draws n);
      retry n' x.1 name auth draws x.2
  | _, _ => mret (config, r)
  end.

(** [CreateContainer], [draws k] being the identifiers drawn when [k] retries are left
    and [first], [second] those of the first two attempts; with the configuration as it
    leaves it. *)
Definition CreateContainer (config : ContainerConfig) (name auth : string) (first second : list string)
    (draws : nat → list string) : C W (ContainerConfig * (option Container * option error)) :=
  x ← createContainer config name false auth first;
  let '(config, r) := x in
  match r.2 with
  | None => mret (config, r)
  | Some err =>
      c ← get_cluster;
      if image_not_found err && negb (HaveNodeConstraint config)
         && bool_decide (is_Some (cluster_Image c (cc_Image config))) then
        x ← createContainer config name true auth second;
        retry (Z.to_nat (createRetry - 1)) x.1 name auth draws x.2
      else retry (Z.to_nat createRetry) config name auth draws r
  end.

(** ** Operations on one engine *)

Definition StartContainer (container : Container) : C W (option error) :=
  on api (ctr_Engine container) (λ _, EngineOps.StartContainer (ctr_ID container)).

Definition RemoveContainer (container : Container) (force volumes : bool) : C W (option error) :=
  on api (ctr_Engine container) (λ _, EngineOps.RemoveContainer container force volumes).

Definition RenameContainer (container : Container) (newName : string) : C W (option error) :=
  c ← get_cluster;
  if negb (checkNameUniqueness c newName) then mret (Some (name_conflict newName))
  else on api (ctr_Engine container) (λ _, EngineOps.RenameContainer container newName).

(** [RANDOMENGINE()]: the engine of the first node selected for an empty request. *)
Definition RANDOMENGINE : C W (option ptr + error) :=
  nodes ← SelectNodes zero_ContainerConfig;
  match nodes with
  | inr err => mret (inr err)
  | inl [] => lift (Panic "index out of range")
  | inl (n :: _) => c ← get_cluster; mret (inl (cl_engines c !! nd_ID n))
  end.

(** ** Operations on all the engines *)

(** The loop over the engines that stops at the first error. *)
Fixpoint refresh_each (l : list ptr) : C W (option error) :=
  match l with
  | [] => mret None
  | p :: l' =>
      err ← on api p (λ _, RefreshContainers true);
      match err with Some err => mret (Some err) | None => refresh_each l' end
  end.
Definition RefreshEngines : C W (option error) :=
  c ← get_cluster; refresh_each (range_map (cl_engines c)).*2.

Definition cluster_RefreshEngine (hostname : string) : C W (option error) :=
  c ← get_cluster;
  match List.find (λ p, String.eqb (eng_Name (hdr_at c p)) hostname) (range_map (cl_engines c)).*2 with
  | Some p => on api p (λ _, RefreshContainers true)
  | None => mret (Some (plain_error ("no engine found with hostname " +:+ hostname)))
  end.

(** The text of a failure on an engine, and the error made of all of them. *)
Definition failure_text (c : Cluster) (p : ptr) (err : error) : string :=
  eng_Name (hdr_at c p) +:+ ": " +:+ err_msg err.
Definition joined (errs : list string) : option error :=
  match errs with [] => None | _ => Some (plain_error (Join errs (String "010"%char EmptyString))) end.

(** The inner loop of [RemoveImages]: the images removed and the failures so far. *)
Fixpoint remove_images (l : list Image) (name : string) (force : bool) (out errs : list string)
    : C W (list string * list string) :=
  match l with
  | [] => mret (out, errs)
  | image :: l' =>
      if Image_Match image name true then
        r ← on api (img_Engine image) (λ _, RemoveImage name force);
        c ← get_cluster;
        match r with
        | inr err => remove_images l' name force out (errs ++ [failure_text c (img_Engine image) err])
        | inl content => remove_images l' name force (out ++ content) errs
        end
      else remove_images l' name force out errs
  end.

(** The loop over the engines: the images of each are listed when its turn comes. *)
Fixpoint over_images (body : list Image → (list string * list string) → C W (list string * list string))
    (l : list ptr) (acc : list string * list string) : C W (list string * list string) :=
  match l with
  | [] => mret acc
  | p :: l' =>
      c ← get_cluster;
      acc ← body (match cl_heap c !! p with Some e => Images e | None => [] end) acc;
      over_images body l' acc
  end.
Definition RemoveImages (name : string) (force : bool) : C W (list string * option error) :=
  c ← get_cluster;
  r ← over_images (λ l acc, remove_images l name force acc.1 acc.2) (range_map (cl_engines c)).*2 ([], []);
  mret (r.1, joined r.2).

(** The inner loop of [TagImage]; the first component tells the images found. *)
Fixpoint tag_images (l : list Image) (IDOrName ref : string) (found errs : list string)
    : C W (list string * list string) :=
  match l with
  | [] => mret (found, errs)
  | image :: l' =>
      if Image_Match image IDOrName true then
        err ← on api (img_Engine image) (λ _, EngineOps.TagImage IDOrName ref);
        c ← get_cluster;
        match err with
        | Some err =>
            tag_images l' IDOrName ref (img_ID image :: found)
              (errs ++ [failure_text c (img_Engine image) err])
        | None => tag_images l' IDOrName ref (img_ID image :: found) errs
        end
      else tag_images l' IDOrName ref found errs
  end.
Definition TagImage (IDOrName ref : string) : C W (option error) :=
  c ← get_cluster;
  r ← over_images (λ l acc, tag_images l IDOrName ref acc.1 acc.2) (range_map (cl_engines c)).*2 ([], []);
  match r.1 with
  | [] => mret (Some (plain_error ("No such image: " +:+ IDOrName)))
  | _ => mret (joined r.2)
  end.

(** The loop of [RemoveVolumes]. *)
Fixpoint remove_volumes (l : list ptr) (name : string) (found : bool) (errs : list string)
    : C W (bool * list string) :=
  match l with
  | [] => mret (found, errs)
  | p :: l' =>
      c ← get_cluster;
      match Volumes_Get (hdr_at c) (match cl_heap c !! p with Some e => Volumes e | None => [] end) name with
      | None => remove_volumes l' name found errs
      | Some volume =>
          err ← on api (vol_Engine volume) (λ _, RemoveVolume (vol_Name volume));
          match err with
          | Some err => remove_volumes l' name found (errs ++ [failure_text c (vol_Engine volume) err])
          | None => remove_volumes l' name true errs
          end
      end
  end.
Definition RemoveVolumes (name : string) : C W (bool * option error) :=
  c ← get_cluster;
  r ← remove_volumes (range_map (cl_engines c)).*2 name false [];
  mret (r.1, joined r.2).

(** ** Networks *)

Definition delete_everywhere (id : string) (l : list ptr) : C W unit :=
  for_each (λ p, on api p (λ _, modify (DeleteNetwork id))) l.

(** The attempts on the other engines: whether one of them removed the network. *)
Fixpoint remove_network_from (network : Network) (l : list ptr) : C W bool :=
  match l with
  | [] => mret false
  | p :: l' =>
      err ← on api p (λ _, EngineOps.RemoveNetwork network);
      match err with None => mret true | Some _ => remove_network_from network l' end
  end.

Definition RemoveNetwork (network : Network) : C W (option error) :=
  c ← get_cluster;
  let engines := (range_map (cl_engines c)).*2 in
  let global := String.eqb (net_Scope network) "global" in
  err ← on api (net_Engine network) (λ _, EngineOps.RemoveNetwork network);
  match err with
  | None =>
      (if global then delete_everywhere (net_ID network) engines else mret tt) ;; mret None
  | Some err =>
      if err_conn_failed err && global then
        removed ← remove_network_from network engines;
        if removed : bool then delete_everywhere (net_ID network) engines ;; mret None
        else mret (Some err)
      else mret (Some err)
  end.

(** [CreateNetwork]: a name [node/name] constrains the node; a global network is made
    known to the other engines. *)
Definition CreateNetwork (name : string) : C W (option string * option error) :=
  let parts := SplitN2 name "/" in
  let '(name, config) :=
    match parts with
    | [node; name] =>
        (name, BuildContainerConfig (dc_set_Env ["constraint:node==" +:+ node] zero_DockerConfig)
                 zero_HostConfig zero_NetworkingConfig)
    | _ => (name, zero_ContainerConfig)
    end in
  nodes ← SelectNodes config;
  match nodes with
  | inr err => mret (None, Some err)
  | inl [] => lift (Panic "index out of range")
  | inl (n :: _) =>
      c ← get_cluster;
      p ← lift (deref (cl_engines c !! nd_ID n));
      resp ← on api p (λ _, EngineOps.CreateNetwork name);
      match resp with
      | inr err => mret (None, Some err)
      | inl ID =>
          c ← get_cluster;
          match Networks_Get (hdr_at c) (match cl_heap c !! p with Some e => Networks e | None => [] end) ID with
          | Some network =>
              if String.eqb (net_Scope network) "global" then
                for_each (λ x, if String.eqb x.1 (nd_ID n) then mret tt
                               else on api x.2 (λ _, modify (AddNetwork network)))
                  (range_map (cl_engines c))
              else mret tt
          | None => mret tt
          end ;;
          mret (Some ID, None)
      end
  end.
End cluster.

(** ** Reservations *)

Section reservations.
Context {W : Type} (api : ptr → DockerAPI W).
Context `{GoRegexp} `{GoJson} `{GoNet} `{MapRange} `{GoSort} (Intn : Z → Z).
Context (scheduler : Scheduler) (createRetry : Z).
Implicit Types st : ClusterSt W.

Definition set_st_cluster (f : Cluster → Cluster) (st : ClusterSt W) : ClusterSt W :=
  mkCS (cs_world st) (f (cs_cluster st)) (cs_events st).

(** Reading the state does not change it. *)
Definition reads {A} (m : C W A) : Prop := ∀ st, (m st).2 = st.
Lemma reads_ret {A} (a : A) : reads (mret a).
Proof. done. Qed.
Lemma reads_lift {A} (o : outcome A) : reads (lift o).
Proof. done. Qed.
Lemma reads_get : reads get_cluster.
Proof. done. Qed.
Lemma reads_bind {A B} (m : C W A) (f : A → C W B) : reads m → (∀ a, reads (f a)) → reads (m ≫= f).
Proof.
  intros Hm Hf st. unfold mbind, C_bind. specialize (Hm st).
  destruct (m st) as [[a|e|w] st']; simpl in *; subst; [apply Hf|done..].
Qed.
Hint Resolve reads_ret reads_lift reads_get reads_bind : cattle.
Lemma reads_SelectNodes config : reads (SelectNodes (W := W) Intn scheduler config).
Proof.
  unfold SelectNodes, attempt. apply reads_bind; [done|]. intros c. apply reads_bind; [done|].
  intros nodes. case_match; auto with cattle.
Qed.

Lemma bind_reads {A B} (m : C W A) (f : A → C W B) st :
  reads m →
  (m ≫= f) st = match (m st).1 with
                | Ret a => f a st | Err e => (Err e, st) | Panic w => (Panic w, st) end.
Proof.
  intros Hm. unfold mbind, C_bind. specialize (Hm st). destruct (m st) as [o st'].
  simpl in Hm |- *. subst st'. by destruct o.
Qed.

(** What a reservation does: on success a free name is entered in the table, on failure
    nothing changes; in both cases the lock is released. *)
Definition reserved (name : string) (st st' : ClusterSt W)
    (r : (ptr * string * ContainerConfig) + (ContainerConfig * error)) : Prop :=
  match r with
  | inl (engine, swarmID, config) =>
      checkNameUniqueness (cs_cluster st) name = true ∧
      (∃ config' n l, (SelectNodes Intn scheduler config' (set_st_cluster (cl_set_locked true) st)).1 = Ret (inl (n :: l)) ∧
         cl_engines (cs_cluster st) !! nd_ID n = Some engine) ∧
      st' = set_st_cluster (λ c, cl_set_locked false (cl_set_pendingContainers
        (<[swarmID := {| pc_Name := name; pc_Config := config; pc_Engine := engine |}]>
           (cl_pendingContainers c)) c)) st
  | inr _ => st' = set_st_cluster (cl_set_locked false) st
  end.

Lemma set_locked_twice c b b' : cl_set_locked b (cl_set_locked b' c) = cl_set_locked b c.
Proof. done. Qed.

Lemma reserve_result config name aff draws st :
  match reserve Intn scheduler config name aff draws st with
  | (Ret r, st') => reserved name st st' r
  | (_, st') => st' = set_st_cluster (cl_set_locked true) st
  end.
Proof.
  unfold reserve. set (st1 := set_st_cluster (cl_set_locked true) st).
  assert (∀ B (f : unit → C W B), (lock ≫= f) st = f tt st1) as Hlock by done.
  rewrite Hlock. rewrite bind_reads by auto with cattle. simpl.
  destruct (checkNameUniqueness (cl_set_locked true (cs_cluster st)) name) eqn:Hname; [simpl|done].
  rewrite bind_reads by (case_match; auto with cattle).
  match goal with |- context [((if ?b then ?x else ?y) st1).1] =>
    destruct ((if b then x else y) st1).1 as [[swarmID|]| |]; [|done..] end.
  set (config1 := if String.eqb (SwarmID config) "" then SetSwarmID swarmID config else config).
  rewrite bind_reads by auto with cattle. destruct (lift _ st1).1 as [config2| |] eqn:Hc2; [|done..].
  rewrite bind_reads by (destruct aff; auto with cattle).
  match goal with |- context [((if aff then ?x else ?y) st1).1] =>
    destruct ((if aff then x else y) st1).1 as [config3| |]; [|done..] end.
  rewrite bind_reads by apply reads_SelectNodes.
  destruct (SelectNodes Intn scheduler config3 st1).1 as [nodes| |] eqn:Hn; [|done..].
  rewrite bind_reads by (destruct aff; auto with cattle).
  match goal with |- context [((if aff then ?x else ?y) st1).1] =>
    destruct ((if aff then x else y) st1).1 as [config4| |]; [|done..] end.
  destruct nodes as [[|n l]|err]; [done| |done].
  simpl. destruct (cl_engines (cs_cluster st) !! nd_ID n) as [engine|] eqn:He; [|done].
  simpl. split; [exact Hname|]. split; [|done]. exists config3, n, l. split; [exact Hn|done].
Qed.

(** ** Names *)

(** The container bears the name, with or without the leading slash. *)
Definition bears (name : string) (c : Container) : Prop :=
  name ∈ ctr_Names c ∨ "/" +:+ name ∈ ctr_Names c.

Lemma checkNameUniqueness_spec c name :
  checkNameUniqueness c name = true ↔
  name = "" ∨
  ((∀ ctr, ctr ∈ cluster_Containers c → ¬ bears name ctr) ∧
   ∀ id pc, cl_pendingContainers c !! id = Some pc → pc_Name pc ≠ name).
Proof.
  unfold checkNameUniqueness. destruct name as [|a s]; [split; [by left|done]|].
  set (name := String a s). replace (len name =? 0) with false by (unfold len; by destruct s).
  assert (name ≠ "") as Hne by done. rewrite andb_true_iff, !negb_true_iff, <- !not_true_iff_false.
  rewrite !existsb_exists. setoid_rewrite existsb_exists. setoid_rewrite existsb_exists.
  setoid_rewrite orb_true_iff. setoid_rewrite String.eqb_eq. setoid_rewrite <- list_elem_of_In.
  unfold cluster_Containers, bears. split.
  - intros [H1' H2']. right. split.
    + intros ctr Hc Hb. apply H1'. apply list_elem_of_join in Hc as (l & Hc & Hl).
      apply list_elem_of_fmap in Hl as (x & -> & Hx). exists x. split; [done|]. exists ctr.
      split; [done|]. destruct Hb; eauto.
    + intros id pc Hpc Hn. apply H2'. exists pc. split; [|done]. apply elem_of_range_snd. eauto.
  - intros [?|[H1' H2']]; [done|]. split.
    + intros (x & Hx & ctr & Hc & cname & Hcn & Heq). apply (H1' ctr).
      * apply list_elem_of_join. exists (Containers x.2). split; [done|]. apply list_elem_of_fmap. eauto.
      * destruct Heq as [->| ->]; auto.
    + intros (pc & Hpc & Hn). apply elem_of_range_snd in Hpc as [id Hid]. by eapply H2'.
Qed.

(** One step of the creations and of everything that runs beside them: a reservation, the
    end of a creation, a method of an engine, a change of the engine tables. *)
Inductive creation_step : ClusterSt W → ClusterSt W → Prop :=
  | creation_reserve config name aff draws r st st' :
      reserve Intn scheduler config name aff draws st = (Ret r, st') → creation_step st st'
  | creation_release swarmID st st' : release swarmID st = (Ret tt, st') → creation_step st st'
  | creation_engine p o st st' : on api p (λ _, run_op o) st = (Ret tt, st') → creation_step st st'
  | creation_tables engines pending st :
      creation_step st (set_st_cluster (λ c, cl_set_engines engines (cl_set_pendingEngines pending c)) st).

Definition names_distinct (c : Cluster) : Prop :=
  ∀ id1 id2 pc1 pc2, cl_pendingContainers c !! id1 = Some pc1 → cl_pendingContainers c !! id2 = Some pc2 →
    pc_Name pc1 = pc_Name pc2 → pc_Name pc1 ≠ "" → id1 = id2.

Lemma creation_step_names st st' :
  creation_step st st' → names_distinct (cs_cluster st) → names_distinct (cs_cluster st').
Proof.
  intros Hstep Hd. destruct Hstep as [config name aff draws r st st' Hr|swarmID st st' Hr|p o st st' Hr|].
  - pose proof (reserve_result config name aff draws st) as Hres. rewrite Hr in Hres.
    destruct r as [[[engine swarmID] config']|]; [|simpl in Hres; by subst].
    destruct Hres as (Hname & _ & ->). apply checkNameUniqueness_spec in Hname.
    unfold names_distinct. simpl. intros id1 id2 pc1 pc2 H1' H2' Heq Hne.
    apply lookup_insert_Some in H1' as [[<- <-]|[Hn1 H1']];
      apply lookup_insert_Some in H2' as [[<- <-]|[Hn2 H2']]; try done; simpl in *.
    + destruct Hname as [->|[_ Hp]]; [done|]. symmetry in Heq. by destruct (Hp _ _ H2').
    + destruct Hname as [->|[_ Hp]]; [congruence|]. by destruct (Hp _ _ H1').
    + by eapply Hd.
  - injection Hr as <-. unfold names_distinct. simpl.
    intros id1 id2 pc1 pc2 [_ H1']%lookup_delete_Some [_ H2']%lookup_delete_Some. by eapply Hd.
  - apply on_same_tables in Hr; [|exact (@run_op_keeps_name W (api p) _ _ o)].
    unfold names_distinct. by rewrite (st_containers_eq _ _ Hr).
  - done.
Qed.

(** C3: names.  However container creations, engine refreshes and changes of the engine
    tables interleave, two containers under creation never have the same name; and when a
    name is reserved, no container of any engine bears it. *)
Theorem creation_names st0 st :
  cl_pendingContainers (cs_cluster st0) = ∅ → rtc creation_step st0 st →
  names_distinct (cs_cluster st) ∧
  ∀ config name aff draws engine swarmID config' st',
    reserve Intn scheduler config name aff draws st = (Ret (inl (engine, swarmID, config')), st') →
    name ≠ "" → ∀ c, c ∈ cluster_Containers (cs_cluster st) → ¬ bears name c.
Proof.
  intros Hempty Hsteps. split.
  - assert (names_distinct (cs_cluster st0)) as H0'.
    { unfold names_distinct. rewrite Hempty. by intros ????. }
    clear Hempty. induction Hsteps as [|st0 st1 st Hs _ IH]; [done|].
    apply IH. by eapply creation_step_names.
  - intros config name aff draws engine swarmID config' st' Hr Hne.
    pose proof (reserve_result config name aff draws st) as Hres. rewrite Hr in Hres.
    destruct Hres as (Hname & _ & _). by apply checkNameUniqueness_spec in Hname as [?|[? _]].
Qed.

(** ** The scheduler's lock *)

Lemma CreateContainer_one `{DockerAPI W} config name pull auth (st : EngineSt W) :
  let r := (EngineOps.CreateContainer config name pull auth st).1 in
  (∃ c, r = (Some c, None)) ∨ ∃ e, r = (None, Some e).
Proof.
  unfold EngineOps.CreateContainer, mbind, M_bind, mret, M_ret, get_engine. simpl.
  repeat match goal with
  | |- context [let (_, _) := ?x in _] => destruct x
  | |- context [match ?x with _ => _ end] => destruct x
  end; simpl; eauto.
Qed.

(** C2: one attempt at creating a container.  When it returns, it returns either a
    container or an error, the scheduler's lock is free and the reservation is gone; when
    it does not, it panicked while holding the lock, which nothing then releases. *)
Theorem createContainer_spec config name aff auth draws st :
  registry_ok (cs_cluster st) →
  match createContainer api Intn scheduler config name aff auth draws st with
  | (Ret (_, r), st') =>
      ((∃ c, r = (Some c, None)) ∨ ∃ e, r = (None, Some e)) ∧
      cl_locked (cs_cluster st') = false ∧
      (cl_pendingContainers (cs_cluster st') = cl_pendingContainers (cs_cluster st) ∨
       ∃ swarmID, cl_pendingContainers (cs_cluster st')
                  = delete swarmID (cl_pendingContainers (cs_cluster st)))
  | (_, st') => cl_locked (cs_cluster st') = true
  end.
Proof.
  intros Hok. unfold createContainer.
  pose proof (reserve_result config name aff draws st) as Hres. unfold mbind at 1, C_bind at 1.
  destruct (reserve Intn scheduler config name aff draws st) as [[r|e|w] st1]; [|by subst..].
  destruct r as [[[engine swarmID] config']|[config' err]]; simpl in Hres.
  2: { subst st1. simpl. split; [right; by eexists|]. split; [done|by left]. }
  destruct Hres as (_ & (config0 & n & l & _ & Hid) & Hst1).
  destruct (ro_engines _ Hok _ _ Hid) as (e & He & _).
  assert (cl_heap (cs_cluster st1) !! engine = Some e) as He1 by (by rewrite Hst1).
  unfold mbind at 1, C_bind at 1. unfold on. rewrite He1.
  pose proof (@CreateContainer_one (api engine) config' name true auth (mkSt (cs_world st1) e [])) as Hone.
  destruct (EngineOps.CreateContainer config' name true auth _) as [r est]. simpl in Hone |- *.
  split; [exact Hone|]. split; [done|]. right. exists swarmID. rewrite Hst1. simpl.
  by rewrite delete_insert_eq.
Qed.
End reservations.

(** ** A constraint that stops the scheduler *)

Section slash.
Existing Instances re2 json_strings net_zero canonical_range insertion_sort.

(** One healthy engine. *)
Definition one_engine : ClusterSt unit := (validatePendingEngine quiet_api 0%nat late_connected).2.
Definition constraint_scheduler : Scheduler :=
  {| sch_strategy := SpreadPlacementStrategy; sch_filters := [HealthFilter; ConstraintFilter] |}.
Definition constrained (value : string) : ContainerConfig :=
  BuildContainerConfig (dc_set_Env ["constraint:node==" +:+ value] zero_DockerConfig)
    zero_HostConfig zero_NetworkingConfig.
Definition create_constrained (value : string) :=
  createContainer quiet_api (λ _, 0) constraint_scheduler (constrained value) "web" false "" ["id1"]
    one_engine.

Lemma one_engine_reachable : reachable quiet_api 5 3 (mkSys one_engine None []).
Proof.
  apply (reach_step _ _ _ (mkSys late_connected None [0%nat])).
  2: { apply (step_validate _ _ _ _ _ [] [] 0%nat true). by vm_compute. }
  apply (reach_step _ _ _ (mkSys late_added None [0%nat])).
  2: { apply (step_engine _ _ _ _ _ _ 0%nat op_Connect). by vm_compute. }
  apply (reach_step _ _ _ (mkSys (mkCS tt empty_cluster []) None [])).
  2: { apply (step_add _ _ _ _ [] "a:1" 0 true). by vm_compute. }
  apply reach_init.
Qed.

(** On a reachable cluster with one healthy engine, a container with the constraint
    [node==/] makes the creation panic with the scheduler's lock held; with a constraint
    that no node satisfies the creation fails and the lock is free. *)
Theorem slash_constraint_keeps_lock :
  reachable quiet_api 5 3 (mkSys one_engine None []) ∧
  (create_constrained "/").1 = Panic "slice bounds out of range" ∧
  cl_locked (cs_cluster (create_constrained "/").2) = true ∧
  (∃ config err, (create_constrained "other").1 = Ret (config, (None, Some err))) ∧
  cl_locked (cs_cluster (create_constrained "other").2) = false.
Proof.
  split; [apply one_engine_reachable|]. split; [by vm_compute|]. split; [by vm_compute|].
  split; [|by vm_compute].
  destruct (create_constrained "other").1 as [[config [o [err|]]]| |] eqn:Hr; vm_compute in Hr; try done.
  injection Hr as <- <- <-. by eexists _, _.
Qed.

(** A container named [web] under creation. *)
Definition reserve_named (name : string) :=
  reserve (W := unit) (λ _, 0) constraint_scheduler (constrained "node") name false ["id1"].
Definition web_reserved : ClusterSt unit := (reserve_named "web" one_engine).2.
Lemma creation_names_witness :
  names_distinct (cs_cluster web_reserved) ∧
  (∃ r, (reserve_named "db" web_reserved).1 = Ret (inl r)) ∧
  ∀ c, c ∈ cluster_Containers (cs_cluster web_reserved) → ¬ bears "db" c.
Proof.
  assert (∃ r, reserve_named "web" one_engine = (Ret r, web_reserved)) as [r Hr].
  { destruct (reserve_named "web" one_engine) as [o st'] eqn:Hr. unfold web_reserved. rewrite Hr.
    assert (match o with Ret _ => true | _ => false end = true) as Ho.
    { replace o with (reserve_named "web" one_engine).1 by (by rewrite Hr). clear. vm_compute. reflexivity. }
    destruct o as [r| |]; [by exists r|discriminate Ho..]. }
  assert (∃ r st', reserve_named "db" web_reserved = (Ret (inl r), st')) as (r' & st' & Hr').
  { destruct (reserve_named "db" web_reserved) as [o st'] eqn:Hr'.
    assert (match o with Ret (inl _) => true | _ => false end = true) as Ho.
    { replace o with (reserve_named "db" web_reserved).1 by (by rewrite Hr'). clear. vm_compute. reflexivity. }
    destruct o as [[r'|]| |]; [by exists r', st'|discriminate Ho..]. }
  destruct (creation_names quiet_api (λ _, 0) constraint_scheduler one_engine web_reserved) as [Ha Hb].
  - clear. vm_compute. reflexivity.
  - apply rtc_once. exact (creation_reserve _ _ _ (constrained "node") "web" false ["id1"] r _ _ Hr).
  - split; [exact Ha|]. split; [exists r'; by rewrite Hr'|].
    destruct r' as [[engine id] config]. refine (Hb (constrained "node") "db" false ["id1"] engine id config st' Hr' _). discriminate.
Defined.

Lemma createContainer_spec_witness :
  cl_locked (cs_cluster (create_constrained "other").2) = false ∧
  cl_locked (cs_cluster (create_constrained "/").2) = true.
Proof.
  destruct (reachable_registry_ok quiet_api 5 3 _ one_engine_reachable) as [Hok _].
  pose proof (λ v, createContainer_spec quiet_api (λ _, 0) constraint_scheduler (constrained v) "web" false "" ["id1"]
    one_engine Hok) as Hs.
  split.
  - specialize (Hs "other"). fold (create_constrained "other") in Hs.
    destruct (create_constrained "other") as [[[config r]| |] st'] eqn:Hr; [by destruct Hs as (_ & Hl & _)|..];
      apply (f_equal fst) in Hr; by vm_compute in Hr.
  - specialize (Hs "/"). fold (create_constrained "/") in Hs.
    destruct (create_constrained "/") as [[[config r]| |] st'] eqn:Hr; [|exact Hs|exact Hs].
    apply (f_equal fst) in Hr; by vm_compute in Hr.
Defined.
End slash.
