(* ===== verification/SwarmHealth.v ===== *)
(** * What the cluster leaves alone

    Invariants of computations on the cluster, and the first of them: with the health
    filter, creating a container does not touch an engine that is not healthy. *)
From S2P Require Import Prelude GoStrings Regexp Json Config Container Inventory EngineState EngineOps Node Strategy Expr Filters Scheduler SwarmRegistry SwarmCluster.

(** [cinv I m Q]: [m] keeps the invariant [I], and what it returns satisfies [Q]. *)
Definition cinv {W A} (I : Cluster → Prop) (m : C W A) (Q : A → Prop) : Prop :=
  ∀ st, I (cs_cluster st) → I (cs_cluster (m st).2) ∧ ∀ a, (m st).1 = Ret a → Q a.

Section cinv.
Context {W : Type} (I : Cluster → Prop).
Lemma cinv_bind {A B} (m : C W A) (f : A → C W B) Q R :
  cinv I m Q → (∀ a, Q a → cinv I (f a) R) → cinv I (m ≫= f) R.
Proof.
  intros Hm Hf st Hst. unfold mbind, C_bind. destruct (Hm st Hst) as [H1 H2].
  destruct (m st) as [[a|e|w] st']; simpl in *; [|by split..]. by apply (Hf a (H2 a eq_refl) st').
Qed.
Lemma cinv_weaken {A} (m : C W A) (Q R : A → Prop) : cinv I m Q → (∀ a, Q a → R a) → cinv I m R.
Proof. intros Hm HQ st Hst. destruct (Hm st Hst) as [H1 H2]. split; [done|]. auto. Qed.
Lemma cinv_True {A} (m : C W A) Q : cinv I m Q → cinv I m (λ _, True).
Proof. intros Hm. by eapply cinv_weaken. Qed.
Lemma cinv_ret {A} (a : A) (Q : A → Prop) : Q a → cinv (W := W) I (mret a) Q.
Proof. intros HQ st Hst. split; [done|]. by intros ? [= <-]. Qed.
Lemma cinv_lift {A} (o : outcome A) : cinv (W := W) I (lift o) (λ a, o = Ret a).
Proof. intros st Hst. by split. Qed.
Lemma cinv_get : cinv (W := W) I get_cluster I.
Proof. intros st Hst. split; [done|]. by intros ? [= <-]. Qed.
Lemma cinv_modify f : (∀ c, I c → I (f c)) → cinv (W := W) I (modify_cluster f) (λ _, True).
Proof. intros Hf st Hst. split; [by apply Hf|done]. Qed.
Lemma cinv_for_each {A} (f : A → C W unit) l :
  (∀ x, x ∈ l → cinv I (f x) (λ _, True)) → cinv I (for_each f l) (λ _, True).
Proof.
  induction l as [|x l IH]; intros Hf; simpl; [by apply cinv_ret|].
  eapply cinv_bind; [apply Hf; left|]. intros _ _. apply IH. intros y Hy. apply Hf. by right.
Qed.
End cinv.

(** ** Well-formed clusters *)

(** The registry's invariant holds, every engine object is well-formed, and no engine is
    registered under the empty identifier. *)
Record cluster_wf (c : Cluster) : Prop := {
  cw_registry : registry_ok c;
  cw_named : cl_engines c !! "" = None;
  cw_engines : ∀ p e, cl_heap c !! p = Some e → engine_wf p e
}.

(** The object at [p] is [e]. *)
Definition frozen (p : ptr) (e : Engine) (c : Cluster) : Prop :=
  cluster_wf c ∧ cl_heap c !! p = Some e.

(** The scheduler gives it no container: its health degree is not positive. *)
Definition unhealthy (e : Engine) : Prop := ∀ h, HealthIndicator e = Ret h → h ≤ 0.

Lemma cluster_wf_tables c c' :
  cl_heap c' = cl_heap c → cl_engines c' = cl_engines c → cl_pendingEngines c' = cl_pendingEngines c →
  cluster_wf c → cluster_wf c'.
Proof.
  intros Hh He Hp [Hr Hn Hw]. split; [|by rewrite He|rewrite Hh; exact Hw].
  assert (∀ q, hdr_at c' q = hdr_at c q) as Hd by (intros q; unfold hdr_at; by rewrite Hh).
  destruct Hr as [R1 R2 R3 R4 R5].
  split; rewrite ?Hh, ?He, ?Hp; try done; intros; rewrite ?Hd in *; eauto.
Qed.
Lemma frozen_locked p e b c : frozen p e c → frozen p e (cl_set_locked b c).
Proof. intros [Hc He]. split; [|done]. by apply (cluster_wf_tables c). Qed.
Lemma frozen_pending p e m c : frozen p e c → frozen p e (cl_set_pendingContainers m c).
Proof. intros [Hc He]. split; [|done]. by apply (cluster_wf_tables c). Qed.

(** The engine registered under the identifier of an engine of the table is that one. *)
Lemma registered_by_id `{MapRange} c p e :
  cluster_wf c → (p, e) ∈ engine_list c → cl_engines c !! eng_ID (e_hdr e) = Some p ∧ cl_heap c !! p = Some e.
Proof.
  intros [Hr Hn _] Hin. unfold engine_list in Hin.
  apply list_elem_of_omap in Hin as (q & Hq & Hqe).
  destruct (cl_heap c !! q) as [e'|] eqn:He; simpl in Hqe; [|done]. injection Hqe as -> ->.
  apply elem_of_range_snd in Hq as [id Hid].
  destruct (ro_engines _ Hr _ _ Hid) as (e1 & He1 & Hname). assert (e1 = e) as -> by congruence.
  rewrite Hname; [done|]. intros ->. by rewrite Hn in Hid.
Qed.

Section selection.
Context `{GoRegexp} `{GoJson} `{GoNet} `{MapRange} `{GoSort} (Intn : Z → Z) (scheduler : Scheduler).
Context {W : Type}.

(** The pending containers change neither the identity nor the health of a node. *)
Lemma add_pending_same c id l n n' :
  add_pending c id l n = Ret n' →
  nd_ID n' = nd_ID n ∧ nd_HealthIndicator n' = nd_HealthIndicator n.
Proof.
  revert n. induction l as [|pc l IH]; simpl; intros n; [by intros [= <-]|].
  case_match; [|apply IH]. destruct (Node_Container _ _ _) as [[x|]| |]; simpl; [apply IH| |done..].
  intros Hr. apply IH in Hr as [-> ->]. unfold Node_AddContainer. repeat case_match; done.
Qed.

Lemma listNodes_elem c l n :
  listNodes c = Ret l → n ∈ l →
  ∃ p e, (p, e) ∈ engine_list c ∧ nd_ID n = eng_ID (e_hdr e) ∧ HealthIndicator e = Ret (nd_HealthIndicator n).
Proof.
  intros Hl Hn. destruct (omapM_elem _ _ _ _ Hl Hn) as ([p e] & Hin & Hpe). simpl in Hpe.
  exists p, e. split; [done|]. unfold NewNode in Hpe.
  destruct (UsedMemory e); simpl in Hpe; [|done..]. destruct (UsedCpus e); simpl in Hpe; [|done..].
  destruct (HealthIndicator e); simpl in Hpe; [|done..].
  by apply add_pending_same in Hpe as [-> ->].
Qed.

(** The health filter keeps the scheduler away from an unhealthy engine. *)
Lemma SelectNodes_healthy config p e st n l q :
  HealthFilter ∈ sch_filters scheduler → frozen p e (cs_cluster st) → unhealthy e →
  (SelectNodes (W := W) Intn scheduler config st).1 = Ret (inl (n :: l)) →
  cl_engines (cs_cluster st) !! nd_ID n = Some q → q ≠ p.
Proof.
  intros Hf [Hwf Hp] Hu Hsel Hq ->. unfold SelectNodes in Hsel.
  rewrite bind_reads in Hsel by done. simpl in Hsel.
  rewrite bind_reads in Hsel by done. simpl in Hsel.
  destruct (listNodes (cs_cluster st)) as [nodes| |] eqn:Hnodes; [|done..].
  destruct (SelectNodesForContainer _ _ _ _ _) as [l'| |] eqn:Hs; simpl in Hsel; simplify_eq.
  destruct (SelectNodes_accepted _ _ _ _ _ _ n Hs) as (Hn & soft & Hacc); [left|].
  specialize (Hacc _ Hf). simpl in Hacc. unfold Node_IsHealthy in Hacc. apply Z.ltb_lt in Hacc.
  destruct (listNodes_elem _ _ _ Hnodes Hn) as (p' & e' & Hin & Hid & Hh).
  destruct (registered_by_id _ _ _ Hwf Hin) as [Hp' He']. rewrite Hid, Hp' in Hq. simplify_eq.
  specialize (Hu _ Hh). lia.
Qed.
End selection.

Section untouched.
Context {W : Type} (api : ptr → DockerAPI W).
Context `{GoRegexp} `{GoJson} `{GoNet} `{MapRange} `{GoSort} (Intn : Z → Z).
Context (scheduler : Scheduler) (createRetry : Z) (p : ptr) (e : Engine).
Notation kept m Q := (cinv (W := W) (frozen p e) m Q).

(** A method of another engine. *)
Lemma on_frozen {A} q (m : DockerAPI W → M W A) Q :
  q ≠ p → mrel keeps_name (m (api q)) → minv (engine_wf q) (m (api q)) Q → kept (on api q m) Q.
Proof.
  intros Hne Hk Hw st [[Hr Hn Hwf] Hp].
  destruct (on api q m st) as [o st'] eqn:Hon. pose proof (on_same_tables _ _ _ _ _ _ Hk Hon) as Hsame.
  unfold on in Hon. destruct (cl_heap (cs_cluster st) !! q) as [eq|] eqn:Hq.
  2: { injection Hon as <- <-. split; [|done]. by split. }
  specialize (Hw (mkSt (cs_world st) eq []) (Hwf _ _ Hq)).
  destruct (m (api q) _) as [a est] eqn:Hrun. injection Hon as <- <-. destruct Hw as [Hw HQ].
  split; [|by intros ? [= <-]]. split; simpl; [|by rewrite lookup_insert_ne].
  split; [by eapply registry_ok_same|done|]. simpl. intros p' e' [[<- <-]|[_ Hp']]%lookup_insert_Some; auto.
Qed.

Lemma reserve_frozen config name aff draws :
  HealthFilter ∈ sch_filters scheduler → unhealthy e →
  kept (reserve Intn scheduler config name aff draws)
    (λ r, match r with inl (engine, _, _) => engine ≠ p | inr _ => True end).
Proof.
  intros Hf Hu st Hst. pose proof (reserve_result Intn scheduler config name aff draws st) as Hres.
  destruct (reserve _ _ _ _ _ _ st) as [[r|e'|w] st']; simpl.
  2, 3: subst st'; (split; [by apply frozen_locked|done]).
  destruct r as [[[engine swarmID] config']|r]; simpl in Hres.
  2: { subst st'. split; [by apply frozen_locked|by intros ? [= <-]]. }
  destruct Hres as (_ & (config0 & n & l & Hsel & Hid) & ->).
  split; [by apply frozen_locked, frozen_pending|]. intros ? [= <-].
  eapply SelectNodes_healthy; [done| |done|exact Hsel|exact Hid]. by apply frozen_locked.
Qed.

Lemma CreateContainer_engine config name auth q :
  minv (W := W) (engine_wf q) (@EngineOps.CreateContainer W (api q) _ config name true auth)
    (λ r, ∀ c, r.1 = Some c → ctr_Engine c = q).
Proof.
  assert (∀ ID, minv (W := W) (engine_wf q)
    (@refreshContainer W (api q) _ ID true ;; e ← get_engine;
     match e_containers e !! ID with
     | None => mret (None, Some not_reported_back)
     | Some container => mret (Some container, None)
     end) (λ r : option Container * option error, ∀ c, r.1 = Some c → ctr_Engine c = q)) as Hreg.
  { intros ID. eapply minv_bind; [apply (@refreshContainer_wf W (api q))|]. intros _ _.
    eapply minv_bind; [apply minv_get|]. intros e' He'.
    destruct (e_containers e' !! ID) as [c|] eqn:Hc; apply minv_ret; [|done].
    intros ? [= <-]. by destruct (wf_containers _ _ He' _ _ Hc) as (_ & ? & _). }
  unfold EngineOps.CreateContainer. eapply minv_bind; [apply minv_get|]. intros e0 _. cbn zeta.
  eapply minv_bind; [apply minv_call|]. intros r _.
  eapply minv_bind; [apply (@CheckConnectionErr_wf W (api q))|]. intros _ _.
  destruct r as [ID|err]; [apply Hreg|]. case_match; [by apply minv_ret|].
  eapply minv_bind; [apply (@Pull_wf W (api q))|]. intros [err'|] _; [by apply minv_ret|].
  eapply minv_bind; [apply minv_call|]. intros r _.
  eapply minv_bind; [apply (@CheckConnectionErr_wf W (api q))|]. intros _ _.
  destruct r as [ID|err']; [apply Hreg|by apply minv_ret].
Qed.

Lemma CreateContainer_keeps_name config name auth q :
  mrel (W := W) keeps_name (@EngineOps.CreateContainer W (api q) _ config name true auth).
Proof.
  pose proof (@run_op_keeps_name W (api q) _ _ (op_CreateContainer config name true auth)) as Hk.
  cbn [run_op] in Hk. by apply mrel_drop.
Qed.

Lemma release_frozen swarmID : kept (release swarmID) (λ _, True).
Proof.
  unfold release, lock, unlock.
  eapply cinv_bind; [apply cinv_modify; intros; by apply frozen_locked|]. intros _ _.
  eapply cinv_bind; [apply cinv_modify; intros; by apply frozen_pending|]. intros _ _.
  apply cinv_modify. intros. by apply frozen_locked.
Qed.

(** What a creation returns is on another engine. *)
Definition elsewhere (x : ContainerConfig * (option Container * option error)) : Prop :=
  ∀ c, x.2.1 = Some c → ctr_Engine c ≠ p.

Hypothesis (Hf : HealthFilter ∈ sch_filters scheduler) (Hu : unhealthy e).

Lemma createContainer_frozen config name aff auth draws :
  kept (createContainer api Intn scheduler config name aff auth draws) elsewhere.
Proof.
  unfold createContainer. eapply cinv_bind; [by apply reserve_frozen|].
  intros [[[engine swarmID] config']|[config' err]] Hr; [|by apply cinv_ret].
  eapply cinv_bind.
  { apply on_frozen; [exact Hr|apply CreateContainer_keeps_name|apply CreateContainer_engine]. }
  intros r Hr'. eapply cinv_bind; [apply release_frozen|]. intros _ _.
  apply cinv_ret. intros c Hc. by rewrite (Hr' c Hc).
Qed.

Lemma retry_frozen n config name auth draws r :
  (∀ c, r.1 = Some c → ctr_Engine c ≠ p) →
  kept (retry api Intn scheduler n config name auth draws r) elsewhere.
Proof.
  revert config r. induction n as [|n IH]; intros config r Hr; simpl; [apply cinv_ret; exact Hr|].
  destruct r.2; [|apply cinv_ret; exact Hr]. eapply cinv_bind; [apply createContainer_frozen|].
  intros x Hx. apply IH; exact Hx.
Qed.

Lemma CreateContainer_frozen config name auth first second draws :
  kept (CreateContainer api Intn scheduler createRetry config name auth first second draws) elsewhere.
Proof.
  unfold CreateContainer. eapply cinv_bind; [apply createContainer_frozen|].
  intros [config' r] Hr. destruct r.2; [|apply cinv_ret; exact Hr].
  eapply cinv_bind; [apply cinv_get|]. intros c _. case_match; [|apply retry_frozen; exact Hr].
  eapply cinv_bind; [apply createContainer_frozen|]. intros x Hx. apply retry_frozen; exact Hx.
Qed.
End untouched.
