(* ===== verification/Watchdog.v ===== *)
(** * The watchdog ([cluster/watchdog.go])

    Rescheduling the containers of a node that failed, and removing the copies that are
    left when it comes back. *)
From S2P Require Import Prelude GoStrings Regexp Json Config Container Inventory EngineState EngineOps Node Strategy Expr Filters Scheduler SwarmRegistry SwarmCluster SwarmHealth.

(** [type Event struct], as far as the handlers look at it. *)
Record Event := { ev_From : string; ev_Status : string; ev_Engine : ptr }.

(** The goroutine that [Handle] starts. *)
Inductive watchdog_task :=
  | task_removeDuplicateContainers (e : ptr)
  | task_rescheduleContainers (e : ptr).

Definition watchdog_Handle (e : Event) : option watchdog_task :=
  if negb (String.eqb (ev_From e) "swarm") then None
  else if bool_decide (ev_Status e ∈ ["engine_connect"; "engine_reconnect"]) then
    Some (task_removeDuplicateContainers (ev_Engine e))
  else if String.eqb (ev_Status e) "engine_disconnect" then
    Some (task_rescheduleContainers (ev_Engine e))
  else None.

(** The two tasks and what starts them. *)
Lemma watchdog_Handle_spec e t :
  watchdog_Handle e = Some t ↔
  ev_From e = "swarm" ∧
  ((ev_Status e = "engine_connect" ∨ ev_Status e = "engine_reconnect") ∧
     t = task_removeDuplicateContainers (ev_Engine e) ∨
   ev_Status e = "engine_disconnect" ∧ t = task_rescheduleContainers (ev_Engine e)).
Proof.
  unfold watchdog_Handle. destruct (String.eqb_spec (ev_From e) "swarm") as [->|]; simpl; [|naive_solver].
  case_bool_decide as Hin.
  - assert (ev_Status e = "engine_connect" ∨ ev_Status e = "engine_reconnect") as Hs by set_solver. split.
    + intros [= <-]. auto.
    + by intros (_ & [[_ ->]|[Hd _]]); [|rewrite Hd in Hs; destruct Hs].
  - destruct (String.eqb_spec (ev_Status e) "engine_disconnect") as [->|].
    + split; [naive_solver|]. intros (_ & [[[?|?] _]|[_ ->]]); done.
    + split; [done|]. intros (_ & [[[Hs|Hs] _]|[? _]]); [..|done]; destruct Hin; rewrite Hs; set_solver.
Qed.

(** How the rescheduling of one container ended, by the line it logs. *)
Inductive verdict :=
  | Skipped                       (* "Skipping rescheduling of %s based on rescheduling policies" *)
  | Nameless                      (* "container %s has no name" *)
  | NoCleanupEngine               (* "Failed to find an engine to do network cleanup" *)
  | NotCreated                    (* "Failed to reschedule container" *)
  | Rescheduled (new : Container) (* "Rescheduled container %s from %s to %s as %s" *).

Section watchdog.
Context {W : Type} (api : ptr → DockerAPI W).
Context `{GoRegexp} `{GoJson} `{GoNet} `{MapRange} `{GoSort} (Intn : Z → Z).
Context (scheduler : Scheduler) (createRetry : Z).

(** ** A node that comes back *)

(** The inner loop: [container] is removed from [e] once for each container of the
    cluster that has its Swarm ID on an engine with another identifier. *)
Fixpoint remove_copies (e : ptr) (container : Container) (l : list Container) : C W unit :=
  match l with
  | [] => mret tt
  | containerInCluster :: l' =>
      id ← lift (container_SwarmID containerInCluster);
      id' ← lift (container_SwarmID container);
      c ← get_cluster;
      (if String.eqb id id' &&
          negb (String.eqb (eng_ID (hdr_at c (ctr_Engine containerInCluster)))
                  (eng_ID (hdr_at c (ctr_Engine container))))
       then on api e (λ _, EngineOps.RemoveContainer container true true) ;; mret tt
       else mret tt) ;;
      remove_copies e container l'
  end.

Definition remove_duplicate (e : ptr) (container : Container) : C W unit :=
  id ← lift (container_SwarmID container);
  if String.eqb id "" then mret tt
  else c ← get_cluster; remove_copies e container (cluster_Containers c).

Definition removeDuplicateContainers (e : ptr) : C W unit :=
  on api e (λ _, RefreshContainers false) ;;
  c ← get_cluster;
  for_each (remove_duplicate e) (match cl_heap c !! e with Some e => Containers e | None => [] end).

(** ** A node that fails *)

Definition no_name (name : string) : bool :=
  (len name =? 0) || String.eqb name "/".

(** [c.Engine.removeContainer(c)] and [c.Engine.AddContainer(c)], the errors dropped. *)
Definition take_out (c : Container) : C W unit :=
  on api (ctr_Engine c) (λ _, section (removeContainer c)) ;; mret tt.
Definition put_back (c : Container) : C W unit :=
  on api (ctr_Engine c) (λ _, section (AddContainer c)) ;; mret tt.

(** The loop over the endpoints: those on global networks, which are disconnected through
    the random engine, the errors logged. *)
Fixpoint global_endpoints (networks : list Network) (randomEngine : option ptr) (name : string)
    (l : list (string * EndpointSettings)) (globalNetworks : gmap string EndpointSettings)
    : C W (gmap string EndpointSettings) :=
  match l with
  | [] => mret globalNetworks
  | (networkName, endpoint) :: l' =>
      cl ← get_cluster;
      match Networks_Get (hdr_at cl) networks (es_NetworkID endpoint) with
      | Some net =>
          if String.eqb (net_Scope net) "global" then
            engine ← lift (deref randomEngine);
            on api engine (λ d, call (@api_NetworkDisconnect W d networkName name true)) ;;
            global_endpoints networks randomEngine name l' (<[networkName := endpoint]> globalNetworks)
          else global_endpoints networks randomEngine name l' globalNetworks
      | None => global_endpoints networks randomEngine name l' globalNetworks
      end
  end.

(** The endpoints to rebuild; [None] when no engine was found to disconnect them. *)
Definition disconnect_global (c : Container) (name : string) : C W (option (gmap string EndpointSettings)) :=
  match ci_NetworkSettings (ctr_Info c) with
  | Some ns =>
      if 0 <? Z.of_nat (size (ns_Networks ns)) then
        r ← RANDOMENGINE Intn scheduler;
        match r with
        | inr _ => mret None
        | inl randomEngine =>
            cl ← get_cluster;
            g ← global_endpoints (Networks_Uniq (cluster_Networks cl)) randomEngine name
                  (range_map (ns_Networks ns)) ∅;
            mret (Some g)
        end
      else mret (Some ∅)
  | None => mret (Some ∅)
  end.

Definition reconnect_global (newContainer : Container) (name : string)
    (globalNetworks : gmap string EndpointSettings) : C W unit :=
  for_each (λ x, on api (ctr_Engine newContainer)
      (λ d, call (@api_NetworkConnect W d x.1 name x.2)) ;; mret tt)
    (range_map globalNetworks).

Definition restart (c newContainer : Container) : C W unit :=
  st ← lift (deref (ci_State (ctr_Info c)));
  if cst_Running st then StartContainer api newContainer ;; mret tt else mret tt.

(** One iteration of the loop of [rescheduleContainers].  [config] is the configuration
    object that [c.Config] points to, as [CreateContainer] leaves it. *)
Definition reschedule (draws : id_draws) (c : Container) : C W verdict :=
  config ← lift (deref (ctr_Config c));
  if negb (HasReschedulePolicy config "on-node-failure") then mret Skipped else
  take_out c ;;
  if no_name (ci_Name (ctr_Info c)) then mret Nameless else
  let name := TrimPrefix (ci_Name (ctr_Info c)) "/" in
  g ← disconnect_global c name;
  match g with
  | None => put_back c ;; mret NoCleanupEngine
  | Some globalNetworks =>
      r ← CreateContainer api Intn scheduler createRetry config (ci_Name (ctr_Info c)) ""
            (dr_first draws) (dr_second draws) (dr_retry draws);
      let '(config, (newContainer, err)) := r in
      match err with
      | Some _ => put_back (ctr_set_Config config c) ;; mret NotCreated
      | None =>
          newContainer ← lift (deref newContainer);
          reconnect_global newContainer name globalNetworks ;;
          restart c newContainer ;;
          mret (Rescheduled newContainer)
      end
  end.

Fixpoint reschedule_all (draws : nat → id_draws) (l : list Container) : C W (list verdict) :=
  match l with
  | [] => mret []
  | c :: l' =>
      v ← reschedule (draws (length l')) c;
      vs ← reschedule_all draws l';
      mret (v :: vs)
  end.

(** [rescheduleContainers(e)]: the containers of [e] when it starts. *)
Definition rescheduleContainers (draws : nat → id_draws) (e : ptr) : C W (list verdict) :=
  c ← get_cluster;
  reschedule_all draws (match cl_heap c !! e with Some e => Containers e | None => [] end).
End watchdog.

(** ** What rescheduling does to the node that failed *)

(** The containers of the node, once the loop has dealt with [c]. *)
Definition after_verdict (c : Container) (v : verdict) (m m' : gmap string Container) : Prop :=
  match v with
  | Skipped | NoCleanupEngine => m' = m
  | Nameless | Rescheduled _ => m' = delete (ctr_ID c) m
  | NotCreated => ∃ config, m' = <[ctr_ID c := ctr_set_Config config c]> m
  end.

Section steps.
Context {W : Type} (api : ptr → DockerAPI W).
Context `{GoRegexp} `{GoJson} `{GoNet} `{MapRange} `{GoSort} (Intn : Z → Z).
Context (scheduler : Scheduler) (p : ptr) (e : Engine).
Implicit Types st : ClusterSt W.

Lemma frozen_insert_id c q eq :
  cl_heap c !! q = Some eq → frozen p e c → frozen p e (cl_set_heap (<[q := eq]> (cl_heap c)) c).
Proof.
  intros Hq [Hwf Hp]. rewrite insert_id by done. split; [|done]. by apply (cluster_wf_tables c).
Qed.

(** A direct call of the client changes no object. *)
Lemma on_call_frozen {A} q (f : DockerAPI W → W → W * (A + error)) :
  cinv (frozen p e) (on api q (λ d, call (f d))) (λ _, True).
Proof.
  intros st Hst. unfold on. destruct (cl_heap (cs_cluster st) !! q) as [eq|] eqn:Hq; [|by split].
  unfold call. simpl. destruct (e_connected eq).
  - destruct (f (api q) (cs_world st)) as [w r]. split; [|done]. by apply frozen_insert_id.
  - split; [|done]. by apply frozen_insert_id.
Qed.

Lemma RANDOMENGINE_frozen : cinv (frozen p e) (RANDOMENGINE (W := W) Intn scheduler) (λ _, True).
Proof.
  unfold RANDOMENGINE. eapply cinv_bind.
  { intros st Hst. rewrite reads_SelectNodes. split; [done|]. by intros a _; exact I. }
  intros [[|n l]|err] _; [by eapply cinv_True, cinv_lift| |by apply cinv_ret].
  eapply cinv_bind; [apply cinv_get|]. intros c _. by apply cinv_ret.
Qed.

Lemma global_endpoints_frozen networks randomEngine name l g :
  cinv (frozen p e) (global_endpoints api networks randomEngine name l g) (λ _, True).
Proof.
  revert g. induction l as [|[networkName endpoint] l IH]; intros g; simpl; [by apply cinv_ret|].
  eapply cinv_bind; [apply cinv_get|]. intros cl _. case_match; [|apply IH]. case_match; [|apply IH].
  eapply cinv_bind; [apply cinv_lift|]. intros engine _.
  eapply cinv_bind; [apply on_call_frozen|]. intros _ _. apply IH.
Qed.

Lemma disconnect_global_frozen c name :
  cinv (frozen p e) (disconnect_global api Intn scheduler c name) (λ _, True).
Proof.
  unfold disconnect_global. case_match; [|by apply cinv_ret]. case_match; [|by apply cinv_ret].
  eapply cinv_bind; [apply RANDOMENGINE_frozen|]. intros [r|err] _; [|by apply cinv_ret].
  eapply cinv_bind; [apply cinv_get|]. intros cl _.
  eapply cinv_bind; [apply global_endpoints_frozen|]. intros g _. by apply cinv_ret.
Qed.

Lemma reconnect_global_frozen new name g :
  cinv (frozen p e) (reconnect_global api new name g) (λ _, True).
Proof.
  apply cinv_for_each. intros x _. eapply cinv_bind; [apply on_call_frozen|].
  intros _ _. by apply cinv_ret.
Qed.

Lemma restart_frozen c new : ctr_Engine new ≠ p → cinv (frozen p e) (restart api c new) (λ _, True).
Proof.
  intros Hne. unfold restart. eapply cinv_bind; [apply cinv_lift|]. intros s _.
  case_match; [|by apply cinv_ret]. eapply cinv_bind; [|intros _ _; by apply cinv_ret].
  unfold StartContainer. apply on_frozen; [done| |].
  - pose proof (@run_op_keeps_name W (api (ctr_Engine new)) _ _ (op_StartContainer (ctr_ID new))) as Hk.
    cbn [run_op] in Hk. by apply mrel_drop.
  - apply minv_drop.
    exact (@run_op_wf W (api (ctr_Engine new)) _ _ _ (op_StartContainer (ctr_ID new))).
Qed.

End steps.

Section reschedule.
Context {W : Type} (api : ptr → DockerAPI W).
Context `{GoRegexp} `{GoJson} `{GoNet} `{MapRange} `{GoSort} (Intn : Z → Z).
Context (scheduler : Scheduler) (createRetry : Z) (p : ptr) (e : Engine).
Implicit Types st : ClusterSt W.

(** The failed engine at [p], with the containers [m]. *)
Definition failed_with (m : gmap string Container) : Cluster → Prop := frozen p (set_containers m e).

Hypothesis (Hf : HealthFilter ∈ sch_filters scheduler) (Hu : unhealthy e).

Lemma section_failed m m' c (g : Engine → Engine * option error) st o st' :
  ctr_Engine c = p → (g (set_containers m e)).1 = set_containers m' e → good_map p m' →
  failed_with m (cs_cluster st) → (on api (ctr_Engine c) (λ _, section g) ;; mret tt) st = (o, st') →
  failed_with m' (cs_cluster st').
Proof.
  intros -> Hg Hm' [Hwf Hp] Hrun. unfold mbind, C_bind in Hrun.
  destruct (on api p (λ _, section g) st) as [o' st1] eqn:Hon.
  assert (cs_cluster st' = cs_cluster st1) as ->.
  { destruct o'; by injection Hrun as <- <-. }
  clear Hrun. unfold on in Hon. rewrite Hp in Hon. unfold section in Hon. simpl in Hon.
  destruct (g (set_containers m e)) as [e' a]. simpl in Hg. subst e'.
  injection Hon as <- <-. destruct Hwf as [Hr Hn Hw]. split; simpl; [|by rewrite lookup_insert_eq].
  split; [|done|].
  - apply (registry_ok_sub (cs_cluster st)); [done|done| | |exact Hr]; simpl; intros q eq.
    + intros Hq. destruct (decide (p = q)) as [<-|Hne].
      * rewrite lookup_insert_eq. eexists. split; [done|]. rewrite Hp in Hq. injection Hq as <-.
        by apply keeps_name_hdr.
      * rewrite lookup_insert_ne by done. exists eq. by split.
    + intros [[<- <-]|[_ Hq]]%lookup_insert_Some.
      * eexists. split; [exact Hp|]. by apply keeps_name_hdr.
      * exists eq. by split.
  - simpl. intros q eq [[<- <-]|[_ Hq]]%lookup_insert_Some; [|by apply Hw].
    pose proof (engine_wf_set_containers _ _ _ (Hw _ _ Hp) Hm') as Hs. exact Hs.
Qed.

Lemma take_out_failed m c st o st' :
  ctr_Engine c = p → is_Some (m !! ctr_ID c) → good_map p m → failed_with m (cs_cluster st) →
  take_out api c st = (o, st') → failed_with (delete (ctr_ID c) m) (cs_cluster st').
Proof.
  intros Hc [x Hx] Hm Hst Hrun. eapply section_failed; [exact Hc| | |exact Hst|exact Hrun].
  - unfold removeContainer. simpl. by rewrite Hx.
  - by apply good_map_delete.
Qed.

Lemma put_back_failed m c st o st' :
  ctr_Engine c = p → is_Some (ctr_Config c) → good_map p m →
  failed_with (delete (ctr_ID c) m) (cs_cluster st) →
  put_back api c st = (o, st') → failed_with (<[ctr_ID c := c]> m) (cs_cluster st').
Proof.
  intros Hc Hcfg Hm Hst Hrun. eapply section_failed; [exact Hc| | |exact Hst|exact Hrun].
  - unfold AddContainer. simpl. by rewrite lookup_delete_eq, insert_delete_eq.
  - by apply good_map_insert.
Qed.

(** A step that leaves the failed engine as it is. *)
Lemma step_failed {A B} (m : C W A) (f : A → C W B) Q mp st b st' :
  cinv (failed_with mp) m Q → failed_with mp (cs_cluster st) → (m ≫= f) st = (Ret b, st') →
  ∃ a st1, Q a ∧ failed_with mp (cs_cluster st1) ∧ f a st1 = (Ret b, st').
Proof.
  intros Hm Hst (a & st1 & H1' & H2')%C_bind_Ret. destruct (Hm st Hst) as [Hs HQ].
  rewrite H1' in Hs, HQ. exists a, st1. split; [by apply HQ|]. by split.
Qed.

(** One iteration. *)
Definition policy (c : Container) : bool :=
  match ctr_Config c with Some config => HasReschedulePolicy config "on-node-failure" | None => false end.

Definition verdict_ok (c : Container) (v : verdict) : Prop :=
  match v with
  | Skipped => policy c = false
  | Nameless => policy c = true ∧ no_name (ci_Name (ctr_Info c)) = true
  | Rescheduled new => policy c = true ∧ ctr_Engine new ≠ p
  | _ => policy c = true
  end.

Lemma reschedule_failed draws c m st v st' :
  m !! ctr_ID c = Some c → good_map p m → failed_with m (cs_cluster st) →
  reschedule api Intn scheduler createRetry draws c st = (Ret v, st') →
  verdict_ok c v ∧ ∃ m', after_verdict c v m m' ∧ good_map p m' ∧ failed_with m' (cs_cluster st').
Proof.
  intros Hc Hm Hst Hrun. pose proof (Hm _ _ Hc) as (_ & Hp & [config Hcfg]). unfold reschedule in Hrun.
  destruct (step_failed _ _ _ m _ _ _ (cinv_lift _ _) Hst Hrun) as (config' & st0 & Hd & Hst0 & Hrun0).
  clear Hrun. rename Hrun0 into Hrun.
  rewrite Hcfg in Hd. injection Hd as <-. clear Hst.
  assert (policy c = HasReschedulePolicy config "on-node-failure") as Hpol by (unfold policy; by rewrite Hcfg).
  unfold verdict_ok. rewrite Hpol.
  destruct (HasReschedulePolicy config "on-node-failure"); simpl in Hrun.
  2: { injection Hrun as <- <-. simpl. eauto. }
  apply C_bind_Ret in Hrun as ([] & st1 & Hout & Hrun).
  apply (take_out_failed m) in Hout; [|done|by eexists|done|done]. rename Hout into Hst1.
  set (m1 := delete (ctr_ID c) m) in *. assert (good_map p m1) as Hm1 by (by apply good_map_delete).
  destruct (no_name _) eqn:Hname; [injection Hrun as <- <-; simpl; eauto 6|].
  apply (step_failed _ _ (λ _, True) m1) in Hrun as (g & st2 & _ & Hst2 & Hrun);
    [|apply disconnect_global_frozen|done].
  destruct g as [g|].
  2: { apply C_bind_Ret in Hrun as ([] & st3 & Hback & Hrun). injection Hrun as <- <-.
       apply (put_back_failed m) in Hback; [|done|by eexists|done|done].
       rewrite insert_id in Hback by done. simpl. eauto. }
  apply (step_failed _ _ (elsewhere p) m1) in Hrun as (r & st3 & Hr & Hst3 & Hrun);
    [|by apply CreateContainer_frozen|done].
  destruct r as [config' [newContainer [err|]]].
  - apply C_bind_Ret in Hrun as ([] & st4 & Hback & Hrun). injection Hrun as <- <-.
    apply (put_back_failed m (ctr_set_Config config' c)) in Hback; [|done|by eexists|done|done].
    split; [done|]. eexists. split; [by eexists|]. split; [|exact Hback]. apply good_map_insert; [done|].
    split; [done|]. split; [done|]. by eexists.
  - destruct (step_failed _ _ _ m1 _ _ _ (cinv_lift _ _) Hst3 Hrun) as (new & st4 & Hnew & Hst4 & Hrun4).
    clear Hrun. rename Hrun4 into Hrun.
    destruct newContainer as [new'|]; [|done]. injection Hnew as ->. specialize (Hr new eq_refl).
    apply (step_failed _ _ (λ _, True) m1) in Hrun as ([] & st5 & _ & Hst5 & Hrun);
      [|apply reconnect_global_frozen|done].
    apply (step_failed _ _ (λ _, True) m1) in Hrun as ([] & st6 & _ & Hst6 & Hrun);
      [|by apply restart_frozen|done].
    injection Hrun as <- <-. simpl. eauto 6.
Qed.

(** What is left of [c] among the containers of the failed engine. *)
Definition left_of (c : Container) (v : verdict) (o : option Container) : Prop :=
  match v with
  | Skipped | NoCleanupEngine => o = Some c
  | Nameless | Rescheduled _ => o = None
  | NotCreated => ∃ config, o = Some (ctr_set_Config config c)
  end.

Lemma after_verdict_same c v m m' :
  m !! ctr_ID c = Some c → after_verdict c v m m' → left_of c v (m' !! ctr_ID c).
Proof.
  destruct v; simpl; intros Hc; [intros ->|intros ->|intros ->|intros [config ->]|intros ->]; try done.
  - by rewrite lookup_delete_eq.
  - exists config. by rewrite lookup_insert_eq.
  - by rewrite lookup_delete_eq.
Qed.
Lemma after_verdict_other c v m m' k :
  ctr_ID c ≠ k → after_verdict c v m m' → m' !! k = m !! k.
Proof.
  destruct v; simpl; intros Hk; [intros ->|intros ->|intros ->|intros [config ->]|intros ->]; try done.
  - by rewrite lookup_delete_ne.
  - by rewrite lookup_insert_ne.
  - by rewrite lookup_delete_ne.
Qed.
Lemma after_verdict_dom c v m m' :
  m !! ctr_ID c = Some c → after_verdict c v m m' → dom m' ⊆ dom m.
Proof.
  destruct v; simpl; intros Hc; [intros ->|intros ->|intros ->|intros [config ->]|intros ->]; try done.
  - set_solver.
  - apply elem_of_dom_2 in Hc. set_solver.
  - set_solver.
Qed.

Lemma reschedule_all_failed draws l m st vs st' :
  NoDup (ctr_ID <$> l) → Forall (λ c, m !! ctr_ID c = Some c) l → good_map p m →
  failed_with m (cs_cluster st) →
  reschedule_all api Intn scheduler createRetry draws l st = (Ret vs, st') →
  ∃ m', failed_with m' (cs_cluster st') ∧ dom m' ⊆ dom m ∧
    (∀ k, k ∉ ctr_ID <$> l → m' !! k = m !! k) ∧
    Forall2 (λ c v, verdict_ok c v ∧ left_of c v (m' !! ctr_ID c)) l vs.
Proof.
  revert m st vs. induction l as [|c l IH]; intros m st vs Hnd Hl Hm Hst Hrun; simpl in Hrun.
  { injection Hrun as <- <-. exists m. by split_and!. }
  apply C_bind_Ret in Hrun as (v & st1 & Hv & Hrun). apply C_bind_Ret in Hrun as (vs' & st2 & Hvs & Hrun).
  injection Hrun as <- <-. apply Forall_cons in Hl as [Hc Hl]. rewrite fmap_cons in Hnd.
  apply NoDup_cons in Hnd as [Hnew Hnd].
  apply (reschedule_failed _ _ m) in Hv as (Hok & m1 & Hafter & Hm1 & Hst1); [|done..].
  apply (IH m1) in Hvs as (m' & Hst' & Hdom & Hrest & Hall); [|done| |done|done].
  2: { rewrite Forall_forall in Hl |- *. intros c' Hc'. rewrite <- (Hl c' Hc').
       eapply after_verdict_other; [|done]. intros Heq. apply Hnew. rewrite Heq. by apply list_elem_of_fmap_2. }
  exists m'. split; [done|]. split; [by etrans; [|eapply after_verdict_dom]|]. split.
  - intros k Hk. rewrite fmap_cons, not_elem_of_cons in Hk. destruct Hk as [Hk1 Hk2].
    rewrite (Hrest k Hk2). by eapply after_verdict_other.
  - constructor; [|done]. split; [done|]. rewrite (Hrest _ Hnew). by eapply after_verdict_same.
Qed.

Lemma Containers_NoDup m : good_map p m → NoDup (ctr_ID <$> (range_map m).*2).
Proof.
  intros Hm. assert (ctr_ID <$> (range_map m).*2 = (range_map m).*1) as ->.
  { rewrite <- list_fmap_compose. apply list_fmap_ext. intros i [k c] Hi.
    apply list_elem_of_lookup_2 in Hi. rewrite elem_of_range_map in Hi. by destruct (Hm _ _ Hi) as (? & _). }
  apply NoDup_range_map_fst.
Qed.

End reschedule.

(** ** What the removal of duplicates keeps *)

(** A container is lost at most; the daemon stays connected or not. *)
Definition loses (id : string) (e e' : Engine) : Prop :=
  e_hdr e' = e_hdr e ∧ e_connected e' = e_connected e ∧
  (e_containers e' = e_containers e ∨ e_containers e' = delete id (e_containers e)).
#[export] Instance loses_preorder id : PreOrder (loses id).
Proof.
  split; [intros e; split_and!; auto|]. intros e1 e2 e3 (H1&H2&H3) (K1&K2&K3).
  split_and!; [congruence..|]. destruct H3 as [H3|H3], K3 as [K3|K3]; rewrite K3, H3; auto.
  right. by rewrite delete_delete_eq.
Qed.
Lemma RemoveContainer_loses {W} `{DockerAPI W} x force volumes :
  mrel (W := W) (loses (ctr_ID x)) (EngineOps.RemoveContainer x force volumes).
Proof.
  assert (∀ err, mrel (W := W) (loses (ctr_ID x)) (CheckConnectionErr err)) as Hck.
  { intros err. apply CheckConnectionErr_mrel. intros t e. unfold checked. repeat case_match; split_and!; auto. }
  unfold EngineOps.RemoveContainer. mrel_tac; try done. split_and!; auto.
Qed.

Section duplicates.
Context {W : Type} (api : ptr → DockerAPI W).
Context `{GoJson} `{MapRange} (p : ptr) (c0 : Cluster) (e0 : Engine).

(** Since [c0], when the engine at [p] was [e0], only containers of [p] have gone, each of
    them with a copy on an engine of another identifier. *)
Definition copy_elsewhere (c : Cluster) (x : Container) : Prop :=
  ∃ y, y ∈ cluster_Containers c ∧ swarm_of y = swarm_of x ∧
    eng_ID (hdr_at c (ctr_Engine y)) ≠ eng_ID (hdr_at c p).

Record only_copies_gone (c : Cluster) : Prop := {
  oc_engines : cl_engines c = cl_engines c0;
  oc_others : ∀ q, q ≠ p → cl_heap c !! q = cl_heap c0 !! q;
  oc_self : ∃ e, cl_heap c !! p = Some e ∧ e_hdr e = e_hdr e0 ∧ e_connected e = e_connected e0 ∧
    e_containers e ⊆ e_containers e0 ∧
    ∀ k x, e_containers e0 !! k = Some x → e_containers e !! k = None →
      swarm_of x ≠ "" ∧ copy_elsewhere c0 x
}.

Hypothesis (Hwf : ∀ q e, cl_heap c0 !! q = Some e → engine_wf q e) (Hp0 : cl_heap c0 !! p = Some e0).

Lemma only_copies_gone_hdr c q : only_copies_gone c → hdr_at c q = hdr_at c0 q.
Proof.
  intros [_ Ho (e & He & Hh & _)]. unfold hdr_at. destruct (decide (q = p)) as [->|Hne].
  - by rewrite He, Hp0.
  - by rewrite (Ho _ Hne).
Qed.

(** A container of the cluster that is not on [p] was there before. *)
Lemma only_copies_gone_sub c y : only_copies_gone c → y ∈ cluster_Containers c → y ∈ cluster_Containers c0.
Proof.
  intros [He Ho (e & Hpe & _ & _ & Hsub & _)]. rewrite !cluster_Containers_elem.
  intros (id & q & eq & k & Hid & Hq & Hk). rewrite He in Hid. destruct (decide (q = p)) as [->|Hne].
  - assert (eq = e) as -> by congruence. exists id, p, e0, k. split_and!; [done|done|]. by eapply lookup_weaken.
  - rewrite (Ho _ Hne) in Hq. by exists id, q, eq, k.
Qed.

(** Removing from [p] a container that has a copy elsewhere. *)
Lemma remove_copy_ok x :
  (∃ k, e_containers e0 !! k = Some x) → swarm_of x ≠ "" → copy_elsewhere c0 x →
  cinv only_copies_gone (on api p (λ _, EngineOps.RemoveContainer x true true)) (λ _, True).
Proof.
  intros [k Hk] Hs Hcopy st Hoc. pose proof Hoc as [He Ho (e & Hpe & Hh & Hcon & Hsub & Hgone)].
  unfold on. rewrite Hpe. pose proof (@RemoveContainer_loses W (api p) x true true (mkSt (cs_world st) e [])) as Hl.
  destruct (EngineOps.RemoveContainer x true true _) as [r est]. simpl in *. split; [|done].
  destruct Hl as (Hh' & Hc' & Hm'). split; simpl; [done| |].
  - intros q Hne. rewrite lookup_insert_ne by done. by apply Ho.
  - exists (st_engine est). rewrite lookup_insert_eq, Hh', Hc'. do 3 (split; [done|]).
    destruct Hm' as [->| ->]; [done|]. split; [by etrans; [apply delete_subseteq|]|].
    intros k' x' Hk' [<-|Hnone]%lookup_delete_None; [|by eapply Hgone].
    destruct (wf_containers _ _ (Hwf _ _ Hp0) _ _ Hk) as (Hid & _). rewrite Hid, Hk in Hk'.
    by injection Hk' as <-.
Qed.

Lemma container_SwarmID_swarm_of x id : container_SwarmID x = Ret id → id = swarm_of x.
Proof. unfold container_SwarmID, swarm_of. destruct (ctr_Config x); simpl; by intros [= <-]. Qed.

Lemma remove_copies_ok x l :
  (∃ k, e_containers e0 !! k = Some x) → swarm_of x ≠ "" → Forall (λ y, y ∈ cluster_Containers c0) l →
  cinv only_copies_gone (remove_copies api p x l) (λ _, True).
Proof.
  intros Hx Hs Hl. induction Hl as [|y l Hy Hl IH]; simpl; [by apply cinv_ret|].
  eapply cinv_bind; [apply cinv_lift|]. intros id Hid.
  eapply cinv_bind; [apply cinv_lift|]. intros id' Hid'.
  eapply cinv_bind; [apply cinv_get|]. intros c Hc.
  apply (cinv_bind _ _ _ (λ _, True)); [|intros _ _; exact IH].
  apply container_SwarmID_swarm_of in Hid as ->. apply container_SwarmID_swarm_of in Hid' as ->.
  destruct (String.eqb_spec (swarm_of y) (swarm_of x)) as [Heq|]; simpl; [|by apply cinv_ret].
  destruct (String.eqb_spec (eng_ID (hdr_at c (ctr_Engine y))) (eng_ID (hdr_at c (ctr_Engine x))))
    as [|Hne]; simpl; [by apply cinv_ret|].
  eapply cinv_bind; [apply remove_copy_ok|intros _ _; by apply cinv_ret]; [done|done|].
  exists y. split; [done|]. split; [done|].
  destruct Hx as [k Hk]. destruct (wf_containers _ _ (Hwf _ _ Hp0) _ _ Hk) as (_ & Hself & _).
  rewrite Hself, !(only_copies_gone_hdr c) in Hne by done. done.
Qed.

Lemma remove_duplicates_ok l :
  Forall (λ x, ∃ k, e_containers e0 !! k = Some x) l →
  cinv only_copies_gone (for_each (remove_duplicate api p) l) (λ _, True).
Proof.
  rewrite Forall_forall. intros Hl. apply cinv_for_each. intros x Hx. unfold remove_duplicate.
  eapply cinv_bind; [apply cinv_lift|]. intros id Hid. apply container_SwarmID_swarm_of in Hid as ->.
  destruct (String.eqb_spec (swarm_of x) ""); [by apply cinv_ret|].
  eapply cinv_bind; [apply cinv_get|]. intros c Hc. apply remove_copies_ok; [by apply Hl|done|].
  apply Forall_forall. intros y. by apply only_copies_gone_sub.
Qed.

Lemma only_copies_gone_refl : only_copies_gone c0.
Proof. split; [done|done|]. exists e0. split_and!; try done. congruence. Qed.

(** The Swarm IDs of the cluster are still there. *)
Lemma swarm_ids_kept c x :
  only_copies_gone c → x ∈ cluster_Containers c0 → swarm_of x ≠ "" →
  ∃ y, y ∈ cluster_Containers c ∧ swarm_of y = swarm_of x.
Proof.
  intros [He Ho (e & Hpe & _ & _ & Hsub & Hgone)] Hx Hs.
  assert (∀ y, y ∈ cluster_Containers c0 → ctr_Engine y ≠ p → y ∈ cluster_Containers c) as Hothers.
  { intros y. rewrite !cluster_Containers_elem. intros (id & q & eq & k & Hid & Hq & Hk) Hne.
    destruct (wf_containers _ _ (Hwf _ _ Hq) _ _ Hk) as (_ & Hself & _).
    exists id, q, eq, k. rewrite He, Ho by congruence. done. }
  pose proof Hx as (id & q & eq & k & Hid & Hq & Hk)%cluster_Containers_elem.
  destruct (wf_containers _ _ (Hwf _ _ Hq) _ _ Hk) as (_ & Hself & _).
  destruct (decide (q = p)) as [->|Hne]; [|exists x; split; [apply Hothers; [done|congruence]|done]].
  assert (eq = e0) as -> by congruence. destruct (e_containers e !! k) as [x'|] eqn:Hk'.
  - pose proof (lookup_weaken _ _ _ _ Hk' Hsub). assert (x' = x) as -> by congruence.
    exists x. split; [|done]. apply cluster_Containers_elem. exists id, p, e, k. by rewrite He.
  - destruct (Hgone _ _ Hk Hk') as (_ & y & Hy & Heq & Hne). exists y. split; [|done].
    apply Hothers; [done|]. congruence.
Qed.

(** When the daemon removes what it is asked to remove. *)
Hypothesis (Hcon : e_connected e0 = true).
Hypothesis (Haccepts : ∀ id force volumes w, ∃ w', @api_ContainerRemove W (api p) id force volumes w = (w', inl tt)).

(** [x] is no longer on [p], or it has no copy elsewhere. *)
Definition settled (x : Container) (c : Cluster) : Prop :=
  (∀ e, cl_heap c !! p = Some e → e_containers e !! ctr_ID x = None) ∨ ¬ copy_elsewhere c x.

(** Nothing has appeared. *)
Definition shrinks (c c' : Cluster) : Prop :=
  (∀ q, hdr_at c' q = hdr_at c q) ∧
  (∀ y, y ∈ cluster_Containers c' → y ∈ cluster_Containers c) ∧
  ∀ e', cl_heap c' !! p = Some e' → ∃ e, cl_heap c !! p = Some e ∧ e_containers e' ⊆ e_containers e.

Lemma settled_shrinks x c c' : shrinks c c' → settled x c → settled x c'.
Proof.
  intros (Hh & Hin & Hsub) [Hnone|Hno].
  - left. intros e' He'. destruct (Hsub _ He') as (e & He & Hs). specialize (Hnone _ He).
    destruct (e_containers e' !! ctr_ID x) eqn:Hx; [|done]. by rewrite (lookup_weaken _ _ _ _ Hx Hs) in Hnone.
  - right. intros (y & Hy & Hs & Hne). apply Hno. exists y. rewrite !Hh in Hne. auto.
Qed.

Lemma only_copies_gone_shrinks c c' :
  only_copies_gone c → only_copies_gone c' →
  (∀ e e', cl_heap c !! p = Some e → cl_heap c' !! p = Some e' → e_containers e' ⊆ e_containers e) →
  shrinks c c'.
Proof.
  intros Hc Hc' Hle. pose proof Hc as [He Ho (e & Hpe & _)]. pose proof Hc' as [He' Ho' (e' & Hpe' & _)].
  split; [intros q; by rewrite (only_copies_gone_hdr c), (only_copies_gone_hdr c')|]. split.
  - intros y. rewrite !cluster_Containers_elem. intros (id & q & eq & k & Hid & Hq & Hk).
    destruct (decide (q = p)) as [->|Hne].
    + assert (eq = e') as -> by congruence. exists id, p, e, k. split_and!; [congruence|done|].
      eapply lookup_weaken; [done|]. by eapply Hle.
    + exists id, q, eq, k. rewrite He, <- He', Ho by done. by rewrite <- Ho'.
  - intros e1 He1. exists e. split; [done|]. by eapply Hle.
Qed.
Lemma shrinks_refl c : shrinks c c.
Proof. split_and!; try done. intros e He. exists e. done. Qed.
Lemma shrinks_trans c1 c2 c3 : shrinks c1 c2 → shrinks c2 c3 → shrinks c1 c3.
Proof.
  intros (H1&H2&H3) (K1&K2&K3). split_and!; [congruence|auto|].
  intros e He. destruct (K3 _ He) as (e2 & He2 & Hs2). destruct (H3 _ He2) as (e1 & He1 & Hs1).
  exists e1. split; [done|]. by etrans.
Qed.

(** One removal: it takes place. *)
Lemma remove_copy_done x st r st' :
  (∃ k, e_containers e0 !! k = Some x) → swarm_of x ≠ "" → copy_elsewhere c0 x →
  only_copies_gone (cs_cluster st) →
  on api p (λ _, EngineOps.RemoveContainer x true true) st = (r, st') →
  only_copies_gone (cs_cluster st') ∧ shrinks (cs_cluster st) (cs_cluster st') ∧ settled x (cs_cluster st').
Proof.
  intros Hx Hs Hcopy Hoc Hrun. pose proof (remove_copy_ok _ Hx Hs Hcopy st Hoc) as [Hoc' _].
  rewrite Hrun in Hoc'. simpl in Hoc'. split; [done|].
  pose proof Hoc as [_ _ (e & Hpe & _ & Hc & _)]. unfold on in Hrun. rewrite Hpe in Hrun.
  destruct (Haccepts (ctr_ID x) true true (cs_world st)) as [w' Hw'].
  destruct (EngineOps.RemoveContainer x true true _) as [r' est] eqn:Hrem. injection Hrun as <- <-.
  assert (∃ e1, e_containers e1 = e_containers e ∧
    st_engine est = set_containers (delete (ctr_ID x) (e_containers e1)) e1) as (e1 & Hsame & Hest).
  { unfold EngineOps.RemoveContainer, mbind, M_bind, call in Hrem. cbn [st_engine st_world] in Hrem.
    rewrite Hc, Hcon, Hw' in Hrem. cbn [error_of st_engine st_world st_events] in Hrem.
    pose proof (@CheckConnectionErr_same W (api p) None (mkSt w' e [])) as (_ & Hsame & _).
    destruct (CheckConnectionErr None _) as [u est1]. simpl in Hrem, Hsame.
    injection Hrem as <- <-. by exists (st_engine est1). }
  assert (∀ e', cl_heap (cs_cluster (mkCS (st_world est) (cl_set_heap (<[p:=st_engine est]>
    (cl_heap (cs_cluster st))) (cs_cluster st)) (cs_events st ++ ((λ s, (p, s)) <$> st_events est)))) !! p
    = Some e' → e_containers e' = delete (ctr_ID x) (e_containers e)) as Hfinal.
  { simpl. rewrite lookup_insert_eq. intros e' [= <-]. rewrite Hest. simpl. by rewrite Hsame. }
  split.
  - apply only_copies_gone_shrinks; [done..|]. intros e2 e' He2 He'. rewrite (Hfinal _ He').
    assert (e2 = e) as -> by congruence. apply delete_subseteq.
  - left. intros e' He'. rewrite (Hfinal _ He'). apply lookup_delete_eq.
Qed.

(** The inner loop: once it is over, [x] is settled with respect to what it went through. *)
Lemma remove_copies_done x l st st' :
  (∃ k, e_containers e0 !! k = Some x) → swarm_of x ≠ "" →
  Forall (λ y, y ∈ cluster_Containers c0) l → only_copies_gone (cs_cluster st) →
  remove_copies api p x l st = (Ret tt, st') →
  only_copies_gone (cs_cluster st') ∧ shrinks (cs_cluster st) (cs_cluster st') ∧
  (settled x (cs_cluster st') ∨
   ∀ y, y ∈ l → swarm_of y = swarm_of x → eng_ID (hdr_at c0 (ctr_Engine y)) = eng_ID (hdr_at c0 p)).
Proof.
  intros Hx Hs Hl. revert st. induction Hl as [|y l Hy Hl IH]; intros st Hoc Hrun; simpl in Hrun.
  { injection Hrun as <-. split; [done|]. split; [apply shrinks_refl|]. right. by intros y ?%elem_of_nil. }
  apply C_bind_Ret in Hrun as (id & st1 & Hid & Hrun). injection Hid as Hid <-.
  apply C_bind_Ret in Hrun as (id' & st1 & Hid' & Hrun). injection Hid' as Hid' <-.
  apply C_bind_Ret in Hrun as (c & st1 & [= <- <-] & Hrun).
  apply C_bind_Ret in Hrun as ([] & st1 & Hone & Hrun).
  apply container_SwarmID_swarm_of in Hid as ->. apply container_SwarmID_swarm_of in Hid' as ->.
  assert (ctr_Engine x = p) as Hself.
  { destruct Hx as [k Hk]. by destruct (wf_containers _ _ (Hwf _ _ Hp0) _ _ Hk) as (_ & ? & _). }
  rewrite Hself, !(only_copies_gone_hdr (cs_cluster st)) in Hone by done.
  destruct (String.eqb_spec (swarm_of y) (swarm_of x)) as [Heq|Hneq];
    [destruct (String.eqb_spec (eng_ID (hdr_at c0 (ctr_Engine y))) (eng_ID (hdr_at c0 p))) as [Hsame|Hne]|];
    simpl in Hone.
  2: { apply C_bind_Ret in Hone as (r & st2 & Hrem & [= <-]).
       destruct (remove_copy_done _ _ _ _ Hx Hs (ex_intro _ y (conj Hy (conj Heq Hne))) Hoc Hrem)
         as (Hoc1 & Hsh1 & Hset).
       destruct (IH _ Hoc1 Hrun) as (Hoc' & Hsh & _). split; [done|].
       split; [by eapply shrinks_trans|]. left. by eapply settled_shrinks. }
  all: injection Hone as <-; destruct (IH _ Hoc Hrun) as (Hoc' & Hsh & [Hset|Hall]);
    (split; [done|]; split; [done|]); [by left|right; intros y' [->|Hy']%elem_of_cons; auto].
  done.
Qed.

Lemma remove_duplicate_done x st st' :
  (∃ k, e_containers e0 !! k = Some x) → only_copies_gone (cs_cluster st) →
  remove_duplicate api p x st = (Ret tt, st') →
  only_copies_gone (cs_cluster st') ∧ shrinks (cs_cluster st) (cs_cluster st') ∧
  (swarm_of x ≠ "" → settled x (cs_cluster st')).
Proof.
  intros Hx Hoc Hrun. unfold remove_duplicate in Hrun.
  apply C_bind_Ret in Hrun as (id & st1 & Hid & Hrun). injection Hid as Hid <-.
  apply container_SwarmID_swarm_of in Hid as ->.
  destruct (String.eqb_spec (swarm_of x) "") as [|Hs].
  { injection Hrun as <-. split; [done|]. split; [apply shrinks_refl|done]. }
  apply C_bind_Ret in Hrun as (c & st1 & [= <- <-] & Hrun).
  apply remove_copies_done in Hrun as (Hoc' & Hsh & Hset); [|done|done| |done].
  2: { apply Forall_forall. intros y. by apply only_copies_gone_sub. }
  split; [done|]. split; [done|]. intros _. destruct Hset as [Hset|Hall]; [done|].
  right. intros (y & Hy & Heq & Hne). apply Hne.
  rewrite !(only_copies_gone_hdr (cs_cluster st')) by done. apply Hall; [|done]. by apply Hsh.
Qed.

Lemma remove_duplicates_done l st st' :
  Forall (λ x, ∃ k, e_containers e0 !! k = Some x) l → only_copies_gone (cs_cluster st) →
  for_each (remove_duplicate api p) l st = (Ret tt, st') →
  shrinks (cs_cluster st) (cs_cluster st') ∧
  ∀ x, x ∈ l → swarm_of x ≠ "" → settled x (cs_cluster st').
Proof.
  intros Hl. revert st. induction Hl as [|x l Hx Hl IH]; intros st Hoc Hrun; simpl in Hrun.
  { injection Hrun as <-. split; [apply shrinks_refl|]. by intros x ?%elem_of_nil. }
  apply C_bind_Ret in Hrun as ([] & st1 & Hone & Hrun).
  destruct (remove_duplicate_done _ _ _ Hx Hoc Hone) as (Hoc1 & Hsh1 & Hset).
  destruct (IH _ Hoc1 Hrun) as (Hsh & Hall). split; [by eapply shrinks_trans|].
  intros y [->|Hy]%elem_of_cons Hs; [|by apply Hall]. by eapply settled_shrinks; [|apply Hset].
Qed.
End duplicates.

Section duplicates_theorem.
Context {W : Type} (api : ptr → DockerAPI W) `{GoJson} `{MapRange}.

(** C34: removing duplicates.  Once the containers of [p] have been refreshed, only containers
    of [p] that have a Swarm ID and a copy on an engine with another identifier are
    removed, so every Swarm ID of the cluster is still there; and when the daemon removes
    what it is asked to remove, no container left on [p] has a copy elsewhere. *)
Theorem removeDuplicateContainers_spec p st st' :
  cluster_wf (cs_cluster st) →
  removeDuplicateContainers api p st = (Ret tt, st') →
  ∃ st1 e1, (on api p (λ _, RefreshContainers false) st).2 = st1 ∧
    cl_heap (cs_cluster st1) !! p = Some e1 ∧
    only_copies_gone p (cs_cluster st1) e1 (cs_cluster st') ∧
    (∀ x, x ∈ cluster_Containers (cs_cluster st1) → swarm_of x ≠ "" →
       ∃ y, y ∈ cluster_Containers (cs_cluster st') ∧ swarm_of y = swarm_of x) ∧
    (e_connected e1 = true →
     (∀ id f v w, ∃ w', @api_ContainerRemove W (api p) id f v w = (w', inl tt)) →
     ∀ e' k x, cl_heap (cs_cluster st') !! p = Some e' → e_containers e' !! k = Some x →
       swarm_of x ≠ "" → ¬ copy_elsewhere p (cs_cluster st') x).
Proof.
  intros [Hr Hn Hw] Hrun. unfold removeDuplicateContainers in Hrun.
  apply C_bind_Ret in Hrun as (r & st1 & Hon & Hrun).
  apply C_bind_Ret in Hrun as (c & st2 & [= <- <-] & Hrun).
  rewrite Hon. destruct (on_Ret _ _ _ _ _ _ Hon) as (e & He & _ & He1).
  set (e1 := st_engine _) in He1. exists st1, e1. split; [done|]. split; [done|]. rewrite He1 in Hrun.
  assert (∀ q eq, cl_heap (cs_cluster st1) !! q = Some eq → engine_wf q eq) as Hw1.
  { unfold on in Hon. rewrite He in Hon. destruct (RefreshContainers false _) as [a est] eqn:Href.
    pose proof (@RefreshContainers_wf W (api p) _ p false (mkSt (cs_world st) e []) (Hw _ _ He)) as [Hwe _].
    rewrite Href in Hwe. injection Hon as <- <-. simpl.
    intros q eq [[<- <-]|[_ Hq]]%lookup_insert_Some; [done|by apply Hw]. }
  assert (Forall (λ x, ∃ k, e_containers e1 !! k = Some x) (Containers e1)) as Hall.
  { apply Forall_forall. intros x Hx. by apply elem_of_range_snd in Hx. }
  pose proof (only_copies_gone_refl p _ _ He1) as Hrefl.
  pose proof (remove_duplicates_ok api p _ _ Hw1 He1 _ Hall st1 Hrefl) as [Hoc _].
  rewrite Hrun in Hoc. simpl in Hoc. split; [done|].
  split; [intros x Hx Hs; by apply (swarm_ids_kept p _ _ Hw1 He1)|]. intros Hc Hacc e' k x He' Hk Hs Hcopy.
  destruct (remove_duplicates_done api p _ _ Hw1 He1 Hc Hacc _ _ _ Hall Hrefl Hrun) as [_ Hset].
  destruct Hoc as [_ _ (e2 & He2 & _ & _ & Hsub & _)]. assert (e2 = e') as -> by congruence.
  pose proof (lookup_weaken _ _ _ _ Hk Hsub) as Hk1.
  destruct (Hset x) as [Hnone|Hno]; [apply elem_of_range_snd; by exists k|done| |by apply Hno].
  destruct (wf_containers _ _ (Hw1 _ _ He1) _ _ Hk1) as (Hid & _). specialize (Hnone _ He').
  rewrite Hid in Hnone. congruence.
Qed.
End duplicates_theorem.

(** ** A node that fails and comes back *)

Section concrete.
Existing Instances re2 json_strings net_zero canonical_range insertion_sort.

(** A running container that asks to be rescheduled, known to swarm as [S1]. *)
Definition rescheduled_config : ContainerConfig :=
  SetSwarmID "S1" (BuildContainerConfig (dc_set_Env ["reschedule:on-node-failure"] zero_DockerConfig)
    zero_HostConfig zero_NetworkingConfig).
Definition running_state : ContainerState :=
  {| cst_Running := true; cst_Paused := false; cst_Restarting := false; cst_Dead := false;
     cst_ExitCode := 0; cst_StartedAt := ""; cst_FinishedAt := ""; cst_Health := None |}.
Definition web_on (p : ptr) (id : string) : Container := {|
  ctr_Container := {| lc_ID := id; lc_Names := ["/web"]; lc_Labels := ∅; lc_State := "running"; lc_Created := 0; lc_Image := ""; lc_Ports := [] |};
  ctr_Config := Some rescheduled_config;
  ctr_Info := {| ci_Name := "/web"; ci_HostConfig := Some zero_HostConfig; ci_State := Some running_state;
                 ci_Config := Some (cc_Config rescheduled_config); ci_NetworkSettings := None; ci_Created := ""; ci_ExecIDs := []; ci_Mounts := [] |};
  ctr_Engine := p |}.

(** What the other daemon reports once it has created the container. *)
Definition web_inspect : Inspect := {|
  in_Name := "/web"; in_HostConfig := zero_HostConfig; in_State := running_state;
  in_Config := cc_Config rescheduled_config;
  in_NetworkSettings := {| ns_Ports := ∅; ns_Networks := ∅ |};
  in_Created := ""; in_ExecIDs := []; in_Mounts := [] |}.
Definition info_of (id : string) : SysInfo := {|
  si_ID := id; si_Name := id; si_NCPU := 4; si_MemTotal := 1024; si_Driver := "";
  si_KernelVersion := ""; si_OperatingSystem := ""; si_Labels := []; si_SystemTime := "" |}.
Definition two_daemons (p : ptr) : DockerAPI unit :=
  match p with
  | 0%nat => quiet_daemon (info_of "A")
  | _ => holding_daemon (info_of "B") [(ctr_Container (web_on 1%nat "c0"), web_inspect)]
  end.

(** An engine with an identifier, in a state, with containers. *)
Definition engine_at (p : ptr) (id : string) (state : engineState) (m : gmap string Container) : Engine :=
  set_containers m (set_connected true (set_state state
    (set_hdr {| eng_ID := id; eng_IP := ""; eng_Addr := id; eng_Name := id; eng_Labels := ∅ |}
       (NewEngine p id 5 3 0)))).
Definition two_engines (a b : Engine) : ClusterSt unit :=
  mkCS tt (mkCluster (<[0%nat := a]> {[1%nat := b]}) (<["A" := 0%nat]> {["B" := 1%nat]}) ∅ ∅ false) [].

Lemma two_engines_wf a b :
  engine_wf 0 a → engine_wf 1 b → eng_ID (e_hdr a) = "A" → eng_ID (e_hdr b) = "B" →
  eng_Addr (e_hdr a) ≠ eng_Addr (e_hdr b) → cluster_wf (cs_cluster (two_engines a b)).
Proof.
  intros Ha Hb Hida Hidb Hne.
  assert (∀ p e, cl_heap (cs_cluster (two_engines a b)) !! p = Some e →
    (p = 0%nat ∧ e = a) ∨ (p = 1%nat ∧ e = b)) as Hheap.
  { simpl. intros p e [[<- <-]|[_ [<- <-]%lookup_singleton_Some]]%lookup_insert_Some; auto. }
  assert (∀ id p, cl_engines (cs_cluster (two_engines a b)) !! id = Some p →
    (id = "A" ∧ p = 0%nat) ∨ (id = "B" ∧ p = 1%nat)) as Heng.
  { simpl. intros id p [[<- <-]|[_ [<- <-]%lookup_singleton_Some]]%lookup_insert_Some; auto. }
  split; [split|done|].
  - intros p e [[-> ->]|[-> ->]]%Hheap; by apply wf_self.
  - done.
  - intros id p [[-> ->]|[-> ->]]%Heng; eexists; (split; [done|]); by intros _.
  - done.
  - intros id p id' q [[-> ->]|[-> ->]]%Heng [[-> ->]|[-> ->]]%Heng; unfold hdr_at; simpl; try done;
      intros Heq; by destruct Hne.
  - intros p e [[-> ->]|[-> ->]]%Hheap; done.
Qed.

Lemma engine_at_wf p id state m : good_map p m → engine_wf p (engine_at p id state m).
Proof. intros Hm. split; try done; simpl; apply map_Forall_empty. Qed.
Lemma web_on_good p id : good_map p {[id := web_on p id]}.
Proof. intros k c [<- <-]%lookup_singleton_Some. split; [done|]. split; [done|]. by eexists. Qed.

Definition failed_node : Engine := engine_at 0 "A" stateUnhealthy {["c1" := web_on 0 "c1"]}.
Definition before_failure : ClusterSt unit := two_engines failed_node (engine_at 1 "B" stateHealthy ∅).
Definition health_scheduler : Scheduler :=
  {| sch_strategy := SpreadPlacementStrategy; sch_filters := [HealthFilter] |}.
Definition no_draws : nat → id_draws := λ _, {| dr_first := []; dr_second := []; dr_retry := λ _, [] |}.
Definition after_failure :=
  rescheduleContainers two_daemons (λ _, 0) health_scheduler 0 no_draws 0%nat before_failure.

Lemma before_failure_wf : cluster_wf (cs_cluster before_failure).
Proof.
  apply two_engines_wf; [apply engine_at_wf, web_on_good|apply engine_at_wf, map_Forall_empty|done..].
Qed.


(** The node comes back with its copy of the container. *)
Definition back_daemons (p : ptr) : DockerAPI unit :=
  match p with
  | 0%nat => holding_daemon (info_of "A") [(ctr_Container (web_on 0%nat "c1"), web_inspect)]
  | _ => two_daemons p
  end.
Definition back_again : ClusterSt unit :=
  two_engines (engine_at 0 "A" stateHealthy {["c1" := web_on 0 "c1"]})
              (engine_at 1 "B" stateHealthy {["c0" := web_on 1 "c0"]}).
Lemma back_again_wf : cluster_wf (cs_cluster back_again).
Proof. apply two_engines_wf; [apply engine_at_wf, web_on_good|apply engine_at_wf, web_on_good|done..]. Qed.

Lemma removeDuplicateContainers_spec_witness :
  let st' := (removeDuplicateContainers back_daemons 0 back_again).2 in
  (∃ e, cl_heap (cs_cluster st') !! 0%nat = Some e ∧ e_containers e !! "c1" = None) ∧
  ∃ y, y ∈ cluster_Containers (cs_cluster st') ∧ swarm_of y = "S1".
Proof.
  destruct (removeDuplicateContainers back_daemons 0 back_again) as [o st'] eqn:Hrun. simpl.
  assert (o = Ret tt) as -> by (apply (f_equal fst) in Hrun; vm_compute in Hrun; by rewrite <- Hrun).
  destruct (removeDuplicateContainers_spec back_daemons 0%nat back_again st' back_again_wf Hrun)
    as (st1 & e1 & Hst1 & He1 & Hoc & Hkept & Hdone).
  assert (e_connected e1 = true) as Hc.
  { rewrite <- Hst1 in He1. vm_compute in He1. injection He1 as <-. done. }
  assert (∃ x, x ∈ cluster_Containers (cs_cluster st1) ∧ swarm_of x = "S1") as (x & Hx & Hs).
  { exists (web_on 1 "c0"). split; [|by vm_compute]. apply cluster_Containers_elem.
    exists "B", 1%nat, (engine_at 1 "B" stateHealthy {["c0" := web_on 1 "c0"]}), "c0".
    rewrite <- Hst1. by split_and!. }
  split.
  - destruct Hoc as [_ _ (e' & He' & _)]. exists e'. split; [done|].
    specialize (Hdone Hc (λ id f v w, ex_intro _ w eq_refl) e' "c1").
    apply (f_equal snd) in Hrun. cbn [snd] in Hrun. rewrite <- Hrun in He'. vm_compute in He'.
    injection He' as <-. done.
  - destruct (Hkept x Hx) as (y & Hy & Heq); [by rewrite Hs|]. exists y. split; [done|]. congruence.
Defined.

(** A container that has no name in its inspection is taken out of the failed engine and
    neither put back nor rescheduled. *)
Definition nameless (c : Container) : Container :=
  {| ctr_Container := ctr_Container c; ctr_Config := ctr_Config c;
     ctr_Info := {| ci_Name := "/"; ci_HostConfig := ci_HostConfig (ctr_Info c); ci_State := ci_State (ctr_Info c);
                    ci_Config := ci_Config (ctr_Info c); ci_NetworkSettings := ci_NetworkSettings (ctr_Info c);
                    ci_Created := ci_Created (ctr_Info c); ci_ExecIDs := ci_ExecIDs (ctr_Info c);
                    ci_Mounts := ci_Mounts (ctr_Info c) |};
     ctr_Engine := ctr_Engine c |}.
Definition nameless_failure : ClusterSt unit :=
  two_engines (engine_at 0 "A" stateUnhealthy {["c1" := nameless (web_on 0 "c1")]})
              (engine_at 1 "B" stateHealthy ∅).

(** A container without a name is lost by the rescheduling: it is gone from the failed
    node and nothing replaces it. *)
Theorem nameless_container_is_lost :
  let r := rescheduleContainers two_daemons (λ _, 0) health_scheduler 0 no_draws 0%nat nameless_failure in
  r.1 = Ret [Nameless] ∧ cluster_Containers (cs_cluster nameless_failure) = [nameless (web_on 0 "c1")] ∧
  cluster_Containers (cs_cluster r.2) = [].
Proof. by vm_compute. Qed.
End concrete.
