(* ===== verification/ScaleUtils.v ===== *)
(** * Scaling: parsing the request ([cluster/swarm/utils.go], [common/define.go])

    The helpers that read the filters and the environment of a scale item. *)
From S2P Require Import Prelude GoStrings Regexp.
From Stdlib Require Import Ascii.

(** ** Data *)

Definition LabelKeyService : string := "service".
Definition LabelKeyApp : string := "app".
Definition EnvironmentPriority : string := "PRIORITY".
Definition EnvironmentMinNumber : string := "MIN_NUMBER".
Definition EnvTaskTypeKey : string := "TASK_TYPE".
Definition EnvTaskStart : string := "start".
Definition EnvTaskStop : string := "stop".
Definition EnvTaskCreate : string := "create".
Definition EnvTaskDestroy : string := "destroy".
Definition EnvStopTimeout : string := "STOP_TIMEOUT".
Definition Affinity_prefix : string := "affinity".
Definition Constraint_prefix : string := "constraint".
Definition Applots : string := "applots".
Definition DefaultAppLots : Z := 1.
Definition DefaultPriority : Z := -1.
Definition DefaultMinNum : Z := 0.

(** The task types; [TaskUnknown] is the [-1] of [getTaskType]. *)
Inductive TaskType :=
  | TaskTypeCreateContainer | TaskTypeDestroyContainer | TaskTypeStartContainer
  | TaskTypeStopContainer | TaskUnknown.
#[export] Instance TaskType_eq_dec : EqDecision TaskType.
Proof. solve_decision. Defined.

(** [type ScaleItem struct] *)
Record ScaleItem := {
  it_Filters : list string;
  it_Number : Z;
  it_ENVs : list string;
  it_Labels : gmap string string
}.

(** [type Filter struct] of package common *)
Record LabelFilter := { fl_Key : string; fl_Operater : string; fl_Pattern : string }.

(** ** Keys and values *)

Definition convertKVStringsToMap (values : list string) : gmap string string :=
  foldl (λ result value,
    match SplitN2 value "=" with
    | [k; v] => <[k := v]> result
    | k :: _ => <[k := ""]> result
    | [] => result
    end) ∅ values.

Definition convertMapToKVStrings `{MapRange} (values : gmap string string) : list string :=
  (λ kv, kv.1 +:+ "=" +:+ kv.2) <$> range_map values.

Definition hasPrifix (array : list string) (key : string) : bool :=
  existsb (λ a, HasPrefix a key) array.

(** The values of one entry: what follows each ['='] or [':'] of it. *)
Definition env_values (e : string) : list string :=
  omap (λ x, if (x.2 =? 61) || (x.2 =? 58) then Some (sdrop (S x.1) e) else None) (runes e).

(** [getEnv(key, envs)]: the boolean tells whether there is a value. *)
Definition getEnv (key : string) (envs : list string) : list string * bool :=
  let values := mjoin ((λ e, if HasPrefix e key then env_values e else []) <$> envs) in
  (values, match values with [] => false | _ => true end).

(** [minNums[0]] *)
Definition first_value (values : list string) : string := default "" (head values).

Definition getMinNum (envs : list string) : Z :=
  match getEnv EnvironmentMinNumber envs with
  | (_, false) => DefaultMinNum
  | (minNums, true) =>
      match Atoi (first_value minNums) with
      | (minNum, true) => minNum
      | (_, false) => DefaultMinNum
      end
  end.

(** ** Filters *)

(** The inner loop of [parseFilterString] over the runes of [s]: the index reached and
    the operator, both kept from before when there is nothing to set them. *)
Fixpoint scan_operator (s : string) (l : list (nat * Z)) (i : Z) (operater : string)
    : outcome (Z * string) :=
  match l with
  | [] => Ret (i, operater)
  | (j, _) :: l' =>
      let i := Z.of_nat j in
      c ← index_byte s i;
      if Ascii.eqb c "=" then
        p ← index_byte s (i - 1);
        if Ascii.eqb p "=" then Ret (i, "==")
        else if Ascii.eqb p "!" then Ret (i, "!=")
        else scan_operator s l' i operater
      else scan_operator s l' i operater
  end.

(** The outer loop: [i] and the operator survive from one string to the next. *)
Fixpoint parse_filters (f : list string) (i : Z) (operater : string) : outcome (list LabelFilter) :=
  match f with
  | [] => Ret []
  | s :: f' =>
      r ← scan_operator s (runes s) i operater;
      let '(i, operater) := r in
      if len s - 1 <=? i then Err "invalid filter"
      else
        key ← slice_string s 0 (i - 1);
        pattern ← slice_string s (i + 1) (len s);
        filters ← parse_filters f' i operater;
        Ret ({| fl_Key := key; fl_Operater := operater; fl_Pattern := pattern |} :: filters)
  end.
Definition parseFilterString (f : list string) : outcome (list LabelFilter) := parse_filters f 0 "".

(** ** Task types *)

Definition getTaskType (n : Z) (envs : list string) : TaskType :=
  let '(value, ok) := getEnv EnvTaskTypeKey envs in
  let flag := negb ok || negb (length value =? 1)%nat in
  if 0 <? n then
    if flag || String.eqb (first_value value) EnvTaskCreate
    then TaskTypeCreateContainer else TaskTypeStartContainer
  else if n <? 0 then
    if flag || String.eqb (first_value value) EnvTaskDestroy
    then TaskTypeDestroyContainer else TaskTypeStopContainer
  else TaskUnknown.

(** ** Affinities and constraints of the item *)

Definition getInaffinityStrings (envs : list string) : list string :=
  omap (λ e,
    if HasPrefix e Affinity_prefix then
      match SplitN2 e ":" with
      | [_; s] => if Contains s "!=" then Some (Replace1 s "!=" "==") else None
      | _ => None
      end
    else None) envs.

Definition getConstaintStrings (envs : list string) : list string :=
  omap (λ e,
    if HasPrefix e Constraint_prefix then
      match SplitN2 e ":" with
      | [_; s] => if Contains s "!=" || Contains s "==" then Some s else None
      | _ => None
      end
    else None) envs.

Definition hasConstraint (ENVs : list string) : bool := existsb (λ e, HasPrefix e Constraint_prefix) ENVs.

(** [IsResourceSeize(item)] of [filter.go] *)
Definition IsResourceSeize (item : ScaleItem) : bool :=
  existsb (λ e, HasPrefix e Affinity_prefix && Contains e "!=") (it_ENVs item) &&
  existsb (λ e, HasPrefix e Constraint_prefix) (it_ENVs item) && (0 <? it_Number item).

(** ** Matching labels *)

(** [matchLabels(filters, labels)], which is also the body of [filterContainer]: a
    pattern that does not compile matches nothing. *)
Fixpoint matchLabels `{GoRegexp} (filters : list LabelFilter) (labels : gmap string string) : bool :=
  match filters with
  | [] => true
  | f :: filters' =>
      let label := default "" (labels !! fl_Key f) in
      if bool_decide (labels !! fl_Key f = None) && String.eqb (fl_Operater f) "==" then false
      else
        match MatchString (fl_Pattern f) label with
        | None => false
        | Some matched =>
            if String.eqb (fl_Operater f) "==" then
              if matched then matchLabels filters' labels else false
            else if String.eqb (fl_Operater f) "!=" then
              if matched then false else matchLabels filters' labels
            else matchLabels filters' labels
        end
  end.

(** ** Keys and values, there and back *)

Lemma foldl_insert_lookup (l : list (string * string)) (m : gmap string string) :
  NoDup l.*1 → foldl (λ m kv, <[kv.1 := kv.2]> m) m l = list_to_map l ∪ m.
Proof.
  revert m. induction l as [|[k v] l IH]; intros m Hnd; simpl.
  - by rewrite (left_id ∅ (∪)).
  - apply NoDup_cons in Hnd as [Hk Hnd]. rewrite IH by done. simpl.
    rewrite <- insert_union_l. rewrite <- insert_union_r; [done|].
    by apply not_elem_of_list_to_map_1.
Qed.

(** A map of build arguments or environment variables, printed as [key=value] strings
    in any order and read back, is unchanged, when no key holds an equals sign. *)
Theorem convert_round_trip `{MapRange} (m : gmap string string) :
  (∀ k v, m !! k = Some v → "="%char ∉ chars k) →
  convertKVStringsToMap (convertMapToKVStrings m) = m.
Proof.
  intros Hk. unfold convertKVStringsToMap, convertMapToKVStrings.
  assert (∀ l (acc : gmap string string), (∀ kv, kv ∈ l → "="%char ∉ chars kv.1) →
    foldl (λ result value, match SplitN2 value "=" with
      | [k; v] => <[k := v]> result | k :: _ => <[k := ""]> result | [] => result end) acc
      ((λ kv : string * string, kv.1 +:+ "=" +:+ kv.2) <$> l)
    = foldl (λ m kv, <[kv.1 := kv.2]> m) acc l) as Hfold.
  { induction l as [|[k v] l IH]; intros acc Hl; [done|].
    rewrite fmap_cons. cbn [foldl fst snd]. unfold SplitN2 at 2.
    assert (cut "=" (k +:+ "=" +:+ v) = Some (k, v)) as ->
      by exact (cut_app "=" "" k v (Hl (k, v) (list_elem_of_here _ _))).
    apply IH. intros kv Hkv. apply Hl. by right. }
  rewrite Hfold.
  - rewrite foldl_insert_lookup by apply NoDup_range_map_fst.
    rewrite (right_id ∅ (∪)). rewrite (list_to_map_proper _ (map_to_list m)).
    + apply list_to_map_to_list.
    + apply NoDup_range_map_fst.
    + apply range_map_perm.
  - intros [k v] Hkv. apply elem_of_range_map in Hkv. by eapply Hk.
Qed.

(** ** Filters, printed and parsed *)

Definition print_filter (f : LabelFilter) : string := fl_Key f +:+ fl_Operater f +:+ fl_Pattern f.

(** A key of ASCII characters other than ['='] and ['!'], not empty, one of the two
    operators and some pattern. *)
Definition plain_char (c : ascii) : bool :=
  (byte c <? 128) && negb (Ascii.eqb c "=") && negb (Ascii.eqb c "!").
Record filter_ok (f : LabelFilter) : Prop := {
  fo_key : Forall (λ c, plain_char c = true) (chars (fl_Key f));
  fo_key_ne : fl_Key f ≠ "";
  fo_op : fl_Operater f = "==" ∨ fl_Operater f = "!=";
  fo_pattern : fl_Pattern f ≠ ""
}.

Lemma runes_from_ascii c s i :
  byte c < 128 → runes_from i 0 (String c s) = (i, byte c) :: runes_from (S i) 0 s.
Proof. intros Hc. simpl. unfold decode_rune. by rewrite (proj2 (Z.ltb_lt _ _) Hc). Qed.

Lemma get_app_r a b n : String.get (String.length a + n) (a +:+ b) = String.get n b.
Proof. by induction a as [|c a IH]. Qed.

Lemma index_byte_app a b n :
  index_byte (a +:+ b) (Z.of_nat (String.length a + n)) =
  match String.get n b with Some c => Ret c | None => Panic "index out of range" end.
Proof.
  unfold index_byte. rewrite bool_decide_eq_true_2 by lia. rewrite Nat2Z.id. by rewrite get_app_r.
Qed.

(** Nothing happens on plain characters. *)
Lemma scan_plain k : ∀ s pre rest i op,
  s = pre +:+ k +:+ rest → Forall (λ c, plain_char c = true) (chars k) → ∃ i',
  scan_operator s (runes_from (String.length pre) 0 (k +:+ rest)) i op =
  scan_operator s (runes_from (String.length pre + String.length k) 0 rest) i' op.
Proof.
  induction k as [|c k IH]; intros s pre rest i op -> Hk.
  - exists i. cbn [String.length String.append]. by rewrite Nat.add_0_r.
  - change (chars (String c k)) with (c :: chars k) in Hk. apply Forall_cons in Hk as [Hc Hk].
    unfold plain_char in Hc. rewrite !andb_true_iff, !negb_true_iff, Z.ltb_lt in Hc.
    destruct Hc as [[Hlt Heq] Hbang].
    destruct (IH (pre +:+ String c k +:+ rest) (pre +:+ String c "") rest
      (Z.of_nat (String.length pre + 0)) op) as [i' IH']; [by rewrite <- app_assoc_s|done|].
    exists i'. etrans; [|etrans; [exact IH'|]].
    + change (String c k +:+ rest) with (String c (k +:+ rest)) at 2.
      rewrite runes_from_ascii by done. cbn [scan_operator].
      replace (Z.of_nat (String.length pre)) with (Z.of_nat (String.length pre + 0)) by lia.
      rewrite index_byte_app. cbn [String.append String.get mbind outcome_bind]. rewrite Heq.
      rewrite length_app_s. cbn [String.length]. by rewrite Nat.add_1_r.
    + rewrite length_app_s. cbn [String.length]. do 2 f_equal. lia.
Qed.

Lemma get_plain k r n :
  Forall (λ c, plain_char c = true) (chars k) → (n < String.length k)%nat →
  ∃ c, String.get n (k +:+ r) = Some c ∧ Ascii.eqb c "=" = false ∧ Ascii.eqb c "!" = false.
Proof.
  revert n. induction k as [|c k IH]; intros n Hk Hn; cbn [String.length] in Hn; [lia|].
  change (chars (String c k)) with (c :: chars k) in Hk. apply Forall_cons in Hk as [Hc Hk].
  destruct n as [|n]; [|apply IH; [done|lia]].
  exists c. unfold plain_char in Hc. rewrite !andb_true_iff, !negb_true_iff in Hc.
  split; [done|]. tauto.
Qed.

Lemma scan_skip s j r l i o c p :
  index_byte s (Z.of_nat j) = Ret c → index_byte s (Z.of_nat j - 1) = Ret p →
  Ascii.eqb c "=" && (Ascii.eqb p "=" || Ascii.eqb p "!") = false →
  scan_operator s ((j, r) :: l) i o = scan_operator s l (Z.of_nat j) o.
Proof.
  intros Hc Hp Hneg. cbn [scan_operator]. rewrite Hc. cbn [mbind outcome_bind].
  destruct (Ascii.eqb c "="); [|done]. rewrite Hp. cbn [mbind outcome_bind].
  by destruct (Ascii.eqb p "="), (Ascii.eqb p "!").
Qed.
Lemma scan_stop s j r l i o p :
  index_byte s (Z.of_nat j) = Ret "="%char → index_byte s (Z.of_nat j - 1) = Ret p →
  p = "="%char ∨ p = "!"%char →
  scan_operator s ((j, r) :: l) i o = Ret (Z.of_nat j, String p "=").
Proof.
  intros Hc Hp Hor. cbn [scan_operator]. rewrite Hc. cbn [mbind outcome_bind].
  rewrite Hp. by destruct Hor as [-> | ->].
Qed.

(** On the operator the scan stops at its second character. *)
Lemma scan_operator_at s key p pattern i o :
  s = key +:+ String p (String "=" pattern) → p = "="%char ∨ p = "!"%char → key ≠ "" →
  Forall (λ c, plain_char c = true) (chars key) →
  scan_operator s (runes s) i o = Ret (Z.of_nat (String.length key) + 1, String p "=").
Proof.
  intros Hs Hop Hne Hk. unfold runes.
  destruct (scan_plain key s "" (String p (String "=" pattern)) i o) as [i' Hi']; [done..|].
  cbn [String.length] in Hi'. rewrite Hs at 2. rewrite Nat.add_0_l in Hi'.
  etrans; [exact Hi'|]. clear Hi'. rewrite Hs. clear Hs s.
  assert (∃ n, String.length key = S n) as [n Hn] by (destruct key; [done|by eexists]).
  set (rest := String p (String "=" pattern)).
  destruct (get_plain key rest n Hk) as (c & Hc & Heq & Hbang); [lia|].
  pose proof (index_byte_app key rest 0) as Ha. pose proof (index_byte_app key rest 1) as Hb.
  assert (index_byte (key +:+ rest) (Z.of_nat (S n) - 1) = Ret c) as Hp.
  { unfold index_byte. rewrite bool_decide_eq_true_2 by lia.
    replace (Z.to_nat (Z.of_nat (S n) - 1)) with n by lia. by rewrite Hc. }
  rewrite Hn in *. rewrite Nat.add_0_r in Ha. rewrite Nat.add_1_r in Hb.
  unfold rest at 2.
  rewrite (runes_from_ascii p) by (by destruct Hop as [-> | ->]).
  rewrite (scan_skip _ _ _ _ _ _ _ _ Ha Hp) by (by rewrite Heq, Hbang, andb_false_r).
  rewrite runes_from_ascii by done.
  rewrite (scan_stop _ _ _ _ _ _ p Hb); [f_equal; f_equal; lia| |done].
  replace (Z.of_nat (S (S n)) - 1) with (Z.of_nat (S n)) by lia. exact Ha.
Qed.

Lemma slice_prefix a b n : n = len a → slice_string (a +:+ b) 0 n = Ret a.
Proof.
  intros ->. unfold slice_string, len. rewrite length_app_s, bool_decide_eq_true_2 by lia.
  rewrite Z.sub_0_r, Nat2Z.id. f_equal. etrans; [|apply (stake_app a b)]. f_equal.
Qed.
Lemma slice_suffix a b i j : i = len a → j = len (a +:+ b) → slice_string (a +:+ b) i j = Ret b.
Proof.
  intros -> ->. unfold slice_string, len. rewrite length_app_s, bool_decide_eq_true_2 by lia.
  rewrite Nat2Z.id, sdrop_app.
  replace (Z.to_nat _) with (String.length b) by lia.
  pose proof (stake_app b "") as Ha. rewrite app_nil_r_s in Ha. by rewrite Ha.
Qed.

(** One filter is read back whatever came before it. *)
Lemma parse_filters_cons f rest i op :
  filter_ok f → ∃ i',
  parse_filters (print_filter f :: rest) i op =
  (fs ← parse_filters rest i' (fl_Operater f); Ret (f :: fs)).
Proof.
  destruct f as [key op' pattern]. intros [Hk Hne Hop Hpat]. cbn [fl_Key fl_Operater fl_Pattern] in *.
  assert (∃ p, op' = String p "=" ∧ (p = "="%char ∨ p = "!"%char)) as (p & -> & Hp).
  { destruct Hop as [-> | ->]; eexists; split; [done|by left|done|by right]. }
  exists (Z.of_nat (String.length key) + 1).
  set (s := key +:+ String p "=" +:+ pattern).
  change (print_filter _) with s.
  assert (len s = Z.of_nat (String.length key) + 2 + Z.of_nat (String.length pattern)) as Hlen.
  { unfold len, s. rewrite !length_app_s. cbn [String.length]. lia. }
  assert (String.length pattern ≠ 0%nat) as Hpl by (by destruct pattern).
  cbn [parse_filters]. rewrite (scan_operator_at s key p pattern) by done.
  cbn [mbind outcome_bind]. rewrite (proj2 (Z.leb_gt _ _)) by lia.
  pose proof (slice_prefix key (String p "=" +:+ pattern)) as Hpre.
  pose proof (slice_suffix (key +:+ String p "=") pattern) as Hsuf.
  rewrite <- app_assoc_s in Hsuf. fold s in Hpre, Hsuf.
  rewrite Hpre by (unfold len; lia). cbn [mbind outcome_bind].
  rewrite Hsuf; [done| |done].
  unfold len. rewrite length_app_s. cbn [String.length]. lia.
Qed.

(** A list of label filters [key==pattern] or [key!=pattern] is parsed back exactly from
    its printed form; in particular no bounds check of the parser fires on it. *)
Theorem parseFilterString_print fs :
  Forall filter_ok fs → parseFilterString (print_filter <$> fs) = Ret fs.
Proof.
  unfold parseFilterString. generalize 0, "". induction fs as [|f fs IH]; intros i op Hfs; [done|].
  apply Forall_cons in Hfs as [Hf Hfs]. rewrite fmap_cons.
  destruct (parse_filters_cons f (print_filter <$> fs) i op Hf) as [i' ->].
  by rewrite IH.
Qed.
Lemma parseFilterString_print_witness :
  let fs := [{| fl_Key := "app"; fl_Operater := "=="; fl_Pattern := "web" |};
             {| fl_Key := "env"; fl_Operater := "!="; fl_Pattern := "a=b" |}] in
  parseFilterString ["app==web"; "env!=a=b"] = Ret fs.
Proof.
  intros fs. apply (parseFilterString_print fs).
  repeat constructor; try discriminate; by first [left; reflexivity | right; reflexivity].
Defined.

(** A filter that starts with an equals sign reads before the string. *)
Example filter_starting_with_equals : parseFilterString ["=web"] = Panic "index out of range".
Proof. reflexivity. Qed.
(** [getEnv] matches prefixes of names, and one entry gives a value per separator. *)
Example getEnv_prefix : getEnv "MIN" ["MINOR=a:b"] = (["a:b"; "b"], true).
Proof. reflexivity. Qed.

(** ** Task types *)

(** The number and the environment decide the kind of a scale item: nothing for zero;
    by the sign of the number creation or destruction, unless [TASK_TYPE] has exactly one
    value and it is another one, and then start or stop. *)
Theorem getTaskType_spec n envs :
  getTaskType n envs =
  match n, (getEnv EnvTaskTypeKey envs).1 with
  | 0, _ => TaskUnknown
  | Z.pos _, [v] => if decide (v = "create") then TaskTypeCreateContainer else TaskTypeStartContainer
  | Z.pos _, _ => TaskTypeCreateContainer
  | Z.neg _, [v] => if decide (v = "destroy") then TaskTypeDestroyContainer else TaskTypeStopContainer
  | Z.neg _, _ => TaskTypeDestroyContainer
  end.
Proof.
  unfold getTaskType, getEnv. cbn [fst].
  destruct (mjoin _) as [|v [|w l]], n; try done;
    cbv [first_value EnvTaskCreate EnvTaskDestroy]; cbn [head default length Nat.eqb negb orb Z.ltb Z.compare];
    cbv [id];
    by case_decide as Hv; [rewrite Hv|rewrite (proj2 (String.eqb_neq _ _) Hv)].
Qed.

(** ** Matching *)

(** What one filter asks of the labels. *)
Definition filter_holds `{GoRegexp} (labels : gmap string string) (f : LabelFilter) : Prop :=
  let matched := MatchString (fl_Pattern f) (default "" (labels !! fl_Key f)) in
  if String.eqb (fl_Operater f) "==" then is_Some (labels !! fl_Key f) ∧ matched = Some true
  else if String.eqb (fl_Operater f) "!=" then matched = Some false
  else matched ≠ None.

(** Labels match exactly when every filter holds of them: an equality filter needs the
    label present and its value matched, an inequality filter only that the value, empty
    for an absent label, is not matched. *)
Theorem matchLabels_spec `{GoRegexp} filters labels :
  matchLabels filters labels = true ↔ Forall (filter_holds labels) filters.
Proof.
  induction filters as [|f filters IH]; cbn [matchLabels]; [by split|].
  rewrite Forall_cons, <- IH. unfold filter_holds.
  set (label := default "" (labels !! fl_Key f)).
  destruct (labels !! fl_Key f) as [v|] eqn:Hl, (String.eqb (fl_Operater f) "==") eqn:Hop;
    rewrite ?bool_decide_eq_true_2, ?bool_decide_eq_false_2 by done; cbn [andb].
  all: destruct (MatchString (fl_Pattern f) label) as [[]|], (String.eqb (fl_Operater f) "!=") eqn:Hop';
    try (apply String.eqb_eq in Hop; rewrite Hop in Hop'; done).
  all: split; [intros Hm|intros [Hf Hm]]; try done; try (split; [|done]); eauto.
  all: destruct Hf as [Hf ?]; simplify_eq; try congruence; by destruct Hf.
Qed.

Lemma convert_round_trip_witness :
  let m : gmap string string := {["A" := "1=2"; "B" := ""]} in
  @convertMapToKVStrings canonical_range m = ["A=1=2"; "B="] ∧ convertKVStringsToMap ["A=1=2"; "B="] = m.
Proof.
  intros m. assert (@convertMapToKVStrings canonical_range m = ["A=1=2"; "B="]) as Hm by (by vm_compute).
  split; [exact Hm|]. rewrite <- Hm. apply (@convert_round_trip canonical_range m).
  intros k v Hk. unfold m in Hk. apply lookup_insert_Some in Hk as [[<- _]|[_ Hk]].
  - by apply (bool_decide_unpack _).
  - apply lookup_singleton_Some in Hk as [<- _]. by apply (bool_decide_unpack _).
Defined.
