(* ===== verification/Cli.v ===== *)
(** * The command line ([cli])

    The commands up to the point where they start serving: the flags are read and checked
    in order, and [log.Fatal] ends the program with its message.  The flags are those of
    [codegangsta/cli], given as functions of their names. *)
From S2P Require Import Prelude GoStrings GoFloat GoFmt Options Strategy Filters Discovery ScaleUtils.
From Stdlib Require Import Ascii SpecFloat.

(** ** Flags *)

Record Flags := {
  fl_String : string → string;
  fl_Bool : string → bool;
  fl_Int : string → Z;
  fl_Duration : string → Z;
  fl_IsSet : string → bool;
  fl_StringSlice : string → list string;
  fl_Args : list string;
  fl_AppName : string
}.
Definition Fatal {A} (msg : string) : outcome A := Err msg.
(** [if err != nil { log.Fatal(prefix + err) }] *)
Definition or_fatal {A} (prefix : string) (r : A + string) : outcome A :=
  match r with inl a => Ret a | inr err => Fatal (prefix +:+ err) end.
Definition fatal_if (b : bool) (msg : string) : outcome unit := if b then Fatal msg else Ret tt.
(** [l[n:]] *)
Definition slice_from {A} (n : nat) (l : list A) : outcome (list A) :=
  if Nat.ltb (length l) n then Panic "slice bounds out of range" else Ret (drop n l).

Definition Second : Z := 1000000000.

Section cli.
Context (Getenv : string → string) (ParseDuration : string → Z + string).
Context (SplitHostPort : string → (string * string) + string).
(** [discovery.New(uri, heartbeat, ttl, options)], and whether the back end is a key-value store *)
Context (discovery_New : string → Z → Z → gmap string string → option string) (is_kv : string → bool).
(** [tls.LoadX509KeyPair] and [ioutil.ReadFile] *)
Context (LoadX509KeyPair : string → string → option string) (ReadFile : string → string + string).
Context (ParseFloat : string → spec_float) (ParseIP : string → option string) (IsPrint : Z → bool).

(** [checkAddrFormat(addr)] *)
Definition checkAddrFormat (addr : string) : bool :=
  match SplitHostPort addr with
  | inr _ => false
  | inl (_, port) => let '(portNum, ok) := Atoi port in ok && (0 <? portNum) && (portNum <=? 65535)
  end.
Definition getDiscovery (c : Flags) : string :=
  match fl_Args c with [uri] => uri | _ => Getenv "SWARM_DISCOVERY" end.
Fixpoint discovery_options (l : list string) (options : gmap string string) : outcome (gmap string string) :=
  match l with
  | [] => Ret options
  | option :: l =>
      match SplitN2 option "=" with
      | [k; v] => discovery_options l (<[k := v]> options)
      | _ => Fatal "--discovery-opt must contain key=value strings"
      end
  end.
Definition getDiscoveryOpt (c : Flags) : outcome (gmap string string) :=
  options ← discovery_options (fl_StringSlice c "discovery-opt") ∅;
  Ret (match options !! "kv.path" with
       | Some _ => options | None => <["kv.path" := "docker/swarm/nodes"]> options end).
(** [createDiscovery(uri, c)]: the heartbeat. *)
Definition createDiscovery (uri : string) (c : Flags) : outcome Z :=
  hb ← or_fatal "invalid --heartbeat: " (ParseDuration (fl_String c "heartbeat"));
  fatal_if (hb <? 1 * Second) "--heartbeat should be at least one second" ;;
  options ← getDiscoveryOpt c;
  match discovery_New uri hb 0 options with Some err => Fatal err | None => Ret hb end.

(** ** TLS *)

(** [tls.Config]: the certificates trusted, of the servers and of the clients, which must
    show one; without them nothing is verified. *)
Record TLSConfig := { tls_cert : string; tls_key : string; tls_ca : option string }.
Definition tls_InsecureSkipVerify (t : TLSConfig) : bool := match tls_ca t with None => true | Some _ => false end.
(** [loadTLSConfig(ca, cert, key, verify)]: a file without certificates is not refused. *)
Definition loadTLSConfig (ca cert key : string) (verify : bool) : TLSConfig + string :=
  match LoadX509KeyPair cert key with
  | Some err => inr ("Couldn't load X509 key pair (" +:+ cert +:+ ", " +:+ key +:+ "): " +:+ err +:+ ". Key encrypted?")
  | None =>
      if verify then
        match ReadFile ca with
        | inr err => inr ("Couldn't read CA certificate: " +:+ err)
        | inl file => inl {| tls_cert := cert; tls_key := key; tls_ca := Some file |}
        end
      else inl {| tls_cert := cert; tls_key := key; tls_ca := None |}
  end.
(** The first checks of [manage]. *)
Definition manage_tls (c : Flags) : outcome (option TLSConfig) :=
  if fl_Bool c "tls" || fl_Bool c "tlsverify" then
    fatal_if (negb (fl_IsSet c "tlscert") || negb (fl_IsSet c "tlskey"))
      "--tlscert and --tlskey must be provided when using --tls" ;;
    fatal_if (fl_Bool c "tlsverify" && negb (fl_IsSet c "tlscacert"))
      "--tlscacert must be provided when using --tlsverify" ;;
    Some <$> or_fatal "" (loadTLSConfig (fl_String c "tlscacert") (fl_String c "tlscert") (fl_String c "tlskey")
                            (fl_Bool c "tlsverify"))
  else
    fatal_if (fl_IsSet c "tlscert" || fl_IsSet c "tlskey" || fl_IsSet c "tlscacert")
      "--tlscert, --tlskey and --tlscacert require the use of either --tls or --tlsverify" ;;
    Ret None.

(** ** manage *)

(** [type EngineOpts struct] *)
Record EngineOpts := { eo_RefreshMinInterval : Z; eo_RefreshMaxInterval : Z; eo_FailureRetry : Z }.
Definition manage_engineOpts (c : Flags) : outcome EngineOpts :=
  let refreshMinInterval := fl_Duration c "engine-refresh-min-interval" in
  let refreshMaxInterval := fl_Duration c "engine-refresh-max-interval" in
  fatal_if (refreshMinInterval <=? 0) "min refresh interval should be a positive number" ;;
  fatal_if (refreshMaxInterval <? refreshMinInterval)
    "max refresh interval cannot be less than min refresh interval" ;;
  fatal_if (negb (fl_Int c "engine-refresh-retry" =? 3))
    "--engine-refresh-retry is deprecated. Use --engine-failure-retry" ;;
  let failureRetry := fl_Int c "engine-failure-retry" in
  fatal_if (failureRetry <=? 0) "invalid failure retry count" ;;
  Ret {| eo_RefreshMinInterval := refreshMinInterval; eo_RefreshMaxInterval := refreshMaxInterval;
         eo_FailureRetry := failureRetry |}.

Inductive ClusterDriver := swarm_driver (o : SwarmOptions) | mesos_driver (o : MesosOptions).
Record Manager := {
  mg_tls : option TLSConfig;
  mg_engineOpts : EngineOpts;
  mg_heartbeat : Z;
  mg_strategy : PlacementStrategy;
  mg_filters : list Filter;
  mg_driver : ClusterDriver;
  mg_hosts : list string;
  mg_refreshOnNodeFilter : bool;
  mg_nameRefreshFilter : string;
  mg_replication : option (string * Z)
}.
Definition DefaultFilterNumber : nat := length filter_List.
(** [getCandidateAndFollower] after the checks of the address and of the time to live. *)
Definition manage_replication (c : Flags) (uri : string) : outcome (option (string * Z)) :=
  if fl_Bool c "replication" then
    let addr := fl_String c "advertise" in
    fatal_if (String.eqb addr "") "--advertise address must be provided when using --leader-election" ;;
    fatal_if (negb (checkAddrFormat addr)) "--advertise should be of the form ip:port or hostname:port" ;;
    leaderTTL ← or_fatal "invalid --replication-ttl: " (ParseDuration (fl_String c "replication-ttl"));
    fatal_if (leaderTTL <=? 0) "--replication-ttl should be a positive number" ;;
    fatal_if (negb (is_kv uri)) "Leader election is only supported with consul, etcd and zookeeper discovery." ;;
    Ret (Some (addr, leaderTTL))
  else Ret None.
(** The names of the filters and the hosts: when the flag is set, the default values come
    first in the slice and are cut off. *)
Definition manage_names (c : Flags) : outcome (list string) :=
  let names := fl_StringSlice c "filter" in
  if fl_IsSet c "filter" || fl_IsSet c "f" then slice_from DefaultFilterNumber names else Ret names.
Definition manage_hosts (c : Flags) : outcome (list string) :=
  let hosts := fl_StringSlice c "host" in
  if fl_IsSet c "host" || fl_IsSet c "H" then slice_from 1 hosts else Ret hosts.
(** [manage(c)] up to the serving of the API. *)
Definition manage (c : Flags) : outcome Manager :=
  tlsConfig ← manage_tls c;
  engineOpts ← manage_engineOpts c;
  let uri := getDiscovery c in
  fatal_if (String.eqb uri "") ("discovery required to manage a cluster. See '" +:+ fl_AppName c +:+ " manage --help'.") ;;
  hb ← createDiscovery uri c;
  s ← New (fl_String c "strategy");
  names ← manage_names c;
  fs ← filter_New names;
  let driver := fl_String c "cluster-driver" in
  let opts := fl_StringSlice c "cluster-opt" in
  cl ← (if String.eqb driver "mesos-experimental" then
          mesos_driver <$> mesos_NewCluster Getenv ParseIP ParseDuration
                             (match tlsConfig with Some _ => true | None => false end) opts
        else if String.eqb driver "swarm" then swarm_driver <$> swarm_NewCluster Getenv ParseFloat opts
        else Fatal ("unsupported cluster " +:+ Quote IsPrint driver));
  hosts ← manage_hosts c;
  replication ← manage_replication c uri;
  Ret {| mg_tls := tlsConfig; mg_engineOpts := engineOpts; mg_heartbeat := hb; mg_strategy := s; mg_filters := fs;
         mg_driver := cl; mg_hosts := hosts; mg_refreshOnNodeFilter := fl_Bool c "refresh-on-node-filter";
         mg_nameRefreshFilter := fl_String c "container-name-refresh-filter"; mg_replication := replication |}.

(** ** join, list and create *)

Record Joining := { jn_addr : string; jn_delay : Z; jn_heartbeat : Z; jn_ttl : Z }.
(** [join(c)] up to the loop that registers the address at every heartbeat. *)
Definition join (c : Flags) : outcome Joining :=
  let dflag := getDiscovery c in
  fatal_if (String.eqb dflag "") ("discovery required to join a cluster. See '" +:+ fl_AppName c +:+ " join --help'.") ;;
  let addr := fl_String c "advertise" in
  fatal_if (String.eqb addr "") "missing mandatory --advertise flag" ;;
  fatal_if (negb (checkAddrFormat addr)) "--advertise should be of the form ip:port or hostname:port" ;;
  joinDelay ← or_fatal "invalid --delay: " (ParseDuration (fl_String c "delay"));
  fatal_if (joinDelay <? 0) "--delay should not be a negative number" ;;
  hb ← or_fatal "invalid --heartbeat: " (ParseDuration (fl_String c "heartbeat"));
  fatal_if (hb <? 1 * Second) "--heartbeat should be at least one second" ;;
  ttl ← or_fatal "invalid --ttl: " (ParseDuration (fl_String c "ttl"));
  fatal_if (ttl <=? hb) "--ttl must be strictly superior to the heartbeat value" ;;
  options ← getDiscoveryOpt c;
  match discovery_New dflag hb ttl options with
  | Some err => Fatal err
  | None => Ret {| jn_addr := addr; jn_delay := joinDelay; jn_heartbeat := hb; jn_ttl := ttl |}
  end.
(** [list(c)]: [first] is what comes first of the entries, an error and the timeout. *)
Definition list_entries (c : Flags) (first : option (Entries + string)) : outcome (list string) :=
  let dflag := getDiscovery c in
  fatal_if (String.eqb dflag "") ("discovery required to list a cluster. See '" +:+ fl_AppName c +:+ " list --help'.") ;;
  timeout ← or_fatal "invalid --timeout: " (ParseDuration (fl_String c "timeout"));
  fatal_if (timeout <=? 0) "--timeout should be a positive number" ;;
  options ← getDiscoveryOpt c;
  match discovery_New dflag timeout 0 options, first with
  | Some err, _ => Fatal err
  | None, Some (inl entries) => Ret (Entry_String <$> entries)
  | None, Some (inr err) => Fatal err
  | None, None => Fatal "Timed out"
  end.
(** [create(c)]: the address that is posted to, and the token that is printed; the error
    of [Initialize], of which the token is empty, is not looked at. *)
Definition create (c : Flags) (post : string → response) : outcome string :=
  fatal_if (negb (bool_decide (fl_Args c = [])))
    ("the `create` command takes no arguments. See '" +:+ fl_AppName c +:+ " create --help'.") ;;
  let s := (Initialize "" 0 0 {| tk_heartbeat := 0; tk_ttl := 0; tk_url := ""; tk_token := "" |}).1 in
  or_fatal "" (CreateCluster (post (CreateCluster_url s))).

(** ** scale *)

(** [buildRequestBody(c)] *)
Fixpoint scale_labels (l : list string) (labels : gmap string string) : option (gmap string string) :=
  match l with
  | [] => Some labels
  | v :: l => match SplitN2 v "=" with [k; x] => scale_labels l (<[k := x]> labels) | _ => None end
  end.
Definition buildRequestBody (c : Flags) : list ScaleItem + string :=
  match scale_labels (fl_StringSlice c "l") ∅ with
  | None => inr "invalid label"
  | Some labels =>
      inl [{| it_Filters := fl_StringSlice c "f"; it_Number := fl_Int c "n"; it_ENVs := fl_StringSlice c "e";
              it_Labels := labels |}]
  end.
(** [showFlags(c)]: the lines that are printed. *)
Definition showFlags (c : Flags) : list string :=
  ["cattle connect to:  " +:+ fl_String c "H"; "ENVS: "] ++ fl_StringSlice c "e" ++
  ["labels: "] ++ fl_StringSlice c "l" ++ ["filters: "] ++ fl_StringSlice c "f" ++
  ["numbers:  " +:+ Itoa (fl_Int c "n")].
(** [sendRequest(body, url)]: [NewRequest] is the error of the address, and [Do] the answer of
    the manager, whose body is copied to the output; the body always has an encoding. *)
Inductive sending := not_sent (err : string) | sent (url : string) (body : list ScaleItem) (answer : string + string).
Definition sendRequest (NewRequest : string → option string) (Do : string → list ScaleItem → string + string)
    (body : list ScaleItem) (url : string) : sending :=
  match NewRequest (url +:+ "/scale") with
  | Some err => not_sent err
  | None => sent (url +:+ "/scale") body (Do (url +:+ "/scale") body)
  end.
(** [scale(c)]: the error of the request is not looked at, and the program ends normally. *)
Definition scale (c : Flags) (NewRequest : string → option string) (Do : string → list ScaleItem → string + string)
    : outcome (list string * option sending) :=
  Ret (showFlags c,
       match buildRequestBody c with
       | inr _ => None
       | inl body => Some (sendRequest NewRequest Do body (fl_String c "H"))
       end).

(** ** What has been checked when a command runs *)

Lemma fatal_if_Ret b msg u : fatal_if b msg = Ret u → b = false.
Proof. by destruct b. Qed.
Lemma or_fatal_Ret {A} prefix (r : A + string) a : or_fatal prefix r = Ret a → r = inl a.
Proof. destruct r; [by intros [= ->]|done]. Qed.
Ltac inv_checks :=
  repeat match goal with
  | H : mbind _ _ = Ret _ |- _ => apply bind_Ret_inv in H as (? & ? & ?)
  | H : fatal_if _ _ = Ret _ |- _ => apply fatal_if_Ret in H
  | H : or_fatal _ _ = Ret _ |- _ => apply or_fatal_Ret in H
  | H : Ret _ = Ret _ |- _ => injection H as H; try subst
  | H : negb _ = false |- _ => apply negb_false_iff in H
  | H : (_ || _) = false |- _ => apply orb_false_iff in H as [? ?]
  | H : (_ <? _) = false |- _ => apply Z.ltb_ge in H
  | H : (_ <=? _) = false |- _ => apply Z.leb_gt in H
  | H : String.eqb _ _ = false |- _ => apply String.eqb_neq in H
  end.

(** A port of 1 to 65535. *)
Lemma checkAddrFormat_spec addr :
  checkAddrFormat addr = true ↔
  ∃ host port n, SplitHostPort addr = inl (host, port) ∧ Atoi port = (n, true) ∧ 0 < n ≤ 65535.
Proof.
  unfold checkAddrFormat. destruct (SplitHostPort addr) as [[host port]|err].
  2: { split; [done|]. by intros (? & ? & ? & ? & _). }
  destruct (Atoi port) as [n ok] eqn:Ha. rewrite !andb_true_iff, Z.ltb_lt, Z.leb_le. split.
  - intros [[-> ?] ?]. by exists host, port, n.
  - intros (? & ? & n' & [= <- <-] & Ha' & ?). rewrite Ha in Ha'. injection Ha' as -> ->. tauto.
Qed.
Lemma createDiscovery_Ret uri c hb : createDiscovery uri c = Ret hb → 1 * Second ≤ hb.
Proof. unfold createDiscovery. intros H. inv_checks. destruct (discovery_New _ _ _ _); [done|]. inv_checks. done. Qed.
Lemma manage_tls_Ret c t :
  manage_tls c = Ret t →
  match t with
  | None => fl_Bool c "tls" = false ∧ fl_Bool c "tlsverify" = false
  | Some t => tls_InsecureSkipVerify t = negb (fl_Bool c "tlsverify")
  end.
Proof.
  unfold manage_tls. destruct (_ || _) eqn:Hb; intros H; inv_checks; [|done].
  destruct (or_fatal _ _) as [t'| |] eqn:Hl; [|done..]. simpl in *. inv_checks.
  unfold loadTLSConfig in Hl. destruct (LoadX509KeyPair _ _); [done|].
  destruct (fl_Bool c "tlsverify"); [|by injection Hl as <-].
  destruct (ReadFile _); [by injection Hl as <-|done].
Qed.
(** A manager that goes on to serve the API refreshes its engines at positive intervals
    that are in order, gives them a positive number of retries, and discovers them at
    most once a second; it verifies its peers exactly when it was asked to; and when it is
    replicated, its address has a port and its lock a positive time to live. *)
Theorem manage_checked c m :
  manage c = Ret m →
  0 < eo_RefreshMinInterval (mg_engineOpts m) ≤ eo_RefreshMaxInterval (mg_engineOpts m) ∧
  0 < eo_FailureRetry (mg_engineOpts m) ∧ 1 * Second ≤ mg_heartbeat m ∧
  match mg_tls m with
  | None => fl_Bool c "tlsverify" = false
  | Some t => tls_InsecureSkipVerify t = negb (fl_Bool c "tlsverify")
  end ∧
  match mg_replication m with
  | None => fl_Bool c "replication" = false
  | Some (addr, ttl) => fl_Bool c "replication" = true ∧ 0 < ttl ∧ is_kv (getDiscovery c) = true ∧
      ∃ host port n, SplitHostPort addr = inl (host, port) ∧ Atoi port = (n, true) ∧ 0 < n ≤ 65535
  end.
Proof.
  unfold manage. intros H.
  apply bind_Ret_inv in H as (tls & Htls & H). apply bind_Ret_inv in H as (eo & Heo & H).
  apply bind_Ret_inv in H as (_ & _ & H). apply bind_Ret_inv in H as (hb & Hhb & H).
  apply bind_Ret_inv in H as (s & _ & H). apply bind_Ret_inv in H as (names & _ & H).
  apply bind_Ret_inv in H as (fs & _ & H). apply bind_Ret_inv in H as (cl & _ & H).
  apply bind_Ret_inv in H as (hosts & _ & H). apply bind_Ret_inv in H as (rep & Hrep & H).
  injection H as <-. simpl. apply manage_tls_Ret in Htls. apply createDiscovery_Ret in Hhb.
  unfold manage_engineOpts in Heo. inv_checks. simpl. split_and!; [lia|lia|lia|done| |].
  - destruct tls; [done|]. tauto.
  - unfold manage_replication in Hrep. destruct (fl_Bool c "replication"); inv_checks; [|done].
    split_and!; [done|lia|done|]. by apply checkAddrFormat_spec.
Qed.
(** An engine joins with an address that has a port, and is registered again before its
    registration expires. *)
Theorem join_checked c j :
  join c = Ret j →
  checkAddrFormat (jn_addr j) = true ∧ 0 ≤ jn_delay j ∧ 1 * Second ≤ jn_heartbeat j < jn_ttl j.
Proof.
  unfold join. intros H. inv_checks. destruct (discovery_New _ _ _ _); [done|]. inv_checks.
  simpl. split_and!; [done|lia..].
Qed.
End cli.

(** ** The default flags *)

Section concrete.
Definition seconds (s : string) : Z + string :=
  match cut_last "s"%char s with
  | Some (n, "") => let '(z, ok) := Atoi n in if ok : bool then inl (z * Second) else inr ("time: invalid duration " +:+ s)
  | _ => inr ("time: invalid duration " +:+ s)
  end.
Definition last_colon (s : string) : (string * string) + string :=
  match cut_last ":"%char s with Some x => inl x | None => inr "missing port in address" end.
Definition default_flags (bools : list string) (advertise : string) : Flags := {|
  fl_String := λ name,
    if String.eqb name "heartbeat" then "60s" else if String.eqb name "strategy" then "spread"
    else if String.eqb name "cluster-driver" then "swarm" else if String.eqb name "replication-ttl" then "20s"
    else if String.eqb name "delay" then "0s" else if String.eqb name "ttl" then "180s"
    else if String.eqb name "advertise" then advertise else "";
  fl_Bool := λ name, existsb (String.eqb name) bools;
  fl_Int := λ name, if String.eqb name "n" then 0 else 3;
  fl_Duration := λ name, if String.eqb name "engine-refresh-min-interval" then 30 * Second else 60 * Second;
  fl_IsSet := λ _, false;
  fl_StringSlice := λ name, if String.eqb name "filter" then filter_List
                            else if String.eqb name "host" then ["tcp://127.0.0.1:2375"]
                            else if String.eqb name "l" then ["app"] else [];
  fl_Args := ["consul://127.0.0.1:8500"];
  fl_AppName := "swarm" |}.
Definition run_manage (c : Flags) : outcome Manager :=
  manage (λ _, "") seconds last_colon (λ _ _ _ _, None) (λ uri, HasPrefix uri "consul://")
    (λ _ _, None) (λ _, inl "") (λ _, S754_zero false) (λ _, None) (λ _, true) c.
Lemma manage_checked_witness :
  ∃ m, run_manage (default_flags ["replication"] "10.0.0.1:3375") = Ret m ∧
    0 < eo_RefreshMinInterval (mg_engineOpts m) ≤ eo_RefreshMaxInterval (mg_engineOpts m).
Proof.
  destruct (run_manage (default_flags ["replication"] "10.0.0.1:3375")) as [m|e|w] eqn:Hr.
  - exists m. split; [reflexivity|]. unfold run_manage in Hr. apply manage_checked in Hr. exact (proj1 Hr).
  - exfalso. vm_compute in Hr. discriminate Hr.
  - exfalso. vm_compute in Hr. discriminate Hr.
Defined.
Example replication_port : run_manage (default_flags ["replication"] "10.0.0.1:65536") =
  Err "--advertise should be of the form ip:port or hostname:port".
Proof. vm_compute. reflexivity. Qed.
Example verify_alone : run_manage (default_flags ["tlsverify"] "") =
  Err "--tlscert and --tlskey must be provided when using --tls".
Proof. vm_compute. reflexivity. Qed.
Definition run_join (c : Flags) : outcome Joining := join (λ _, "") seconds last_colon (λ _ _ _ _, None) c.
Lemma join_checked_witness :
  ∃ j, run_join (default_flags [] "10.0.0.1:2375") = Ret j ∧ jn_heartbeat j < jn_ttl j.
Proof.
  destruct (run_join (default_flags [] "10.0.0.1:2375")) as [j|e|w] eqn:Hr.
  - exists j. split; [reflexivity|]. unfold run_join in Hr. apply join_checked in Hr. apply Hr.
  - exfalso. vm_compute in Hr. discriminate Hr.
  - exfalso. vm_compute in Hr. discriminate Hr.
Defined.
(** A label without a value: nothing is sent, and the program ends as if all were well. *)
Example scale_invalid_label NewRequest Do : snd <$> scale (default_flags [] "") NewRequest Do = Ret None.
Proof. reflexivity. Qed.
End concrete.
