(* ===== verification/CliFlags.v ===== *)
(** * Flags and commands ([cli/flags.go], [commands.go], [cli.go])

    The tables of flags and commands, and how a command line becomes the flags that [Cli.v]
    reads: the registration of the flags with their values from the environment, the parsing
    of the arguments by the package [flag], and the other names of a flag
    ([vendor/github.com/codegangsta/cli]). *)
From S2P Require Import Prelude GoStrings GoFloat GoFmt Options Strategy Filters Discovery ScaleUtils Cli.
From Stdlib Require Import Ascii SpecFloat.

(** ** The tables *)

Inductive flag_kind := StringFlag (Value : string) | StringSliceFlag (Value : list string) | IntFlag (Value : Z) | BoolFlag.
Record Flag := mkFlag { f_kind : flag_kind; f_Name : string; f_Usage : string; f_EnvVar : string }.

Definition flJoinAdvertise : Flag := mkFlag (StringFlag "") "advertise, addr"
  "Address of the Docker Engine joining the cluster. Swarm manager(s) MUST be able to reach the Docker Engine at this address."
  "SWARM_ADVERTISE".
Definition flJoinRandomDelay : Flag := mkFlag (StringFlag "0s") "delay"
  "add a random delay in [0s,delay] to avoid synchronized registration" "".
Definition flManageAdvertise : Flag := mkFlag (StringFlag "") "advertise, addr"
  "Address of the swarm manager joining the cluster. Other swarm manager(s) MUST be able to reach the swarm manager at this address."
  "SWARM_ADVERTISE".
Definition flHostsValue : list string := ["tcp://127.0.0.1:2375"].
Definition flHosts : Flag := mkFlag (StringSliceFlag flHostsValue) "host, H" "ip/socket to listen on" "SWARM_HOST".
Definition flHeartBeat : Flag := mkFlag (StringFlag "60s") "heartbeat" "period between each heartbeat" "".
Definition flTTL : Flag := mkFlag (StringFlag "180s") "ttl" "set the expiration of an ephemeral node" "".
Definition flTimeout : Flag := mkFlag (StringFlag "10s") "timeout" "timeout period" "".
Definition flRefreshIntervalMin : Flag :=
  mkFlag (StringFlag "30s") "engine-refresh-min-interval" "set engine refresh minimum interval" "".
Definition flRefreshIntervalMax : Flag :=
  mkFlag (StringFlag "60s") "engine-refresh-max-interval" "set engine refresh maximum interval" "".
Definition flRefreshRetry : Flag :=
  mkFlag (IntFlag 3) "engine-refresh-retry" "deprecated; replaced by --engine-failure-retry" "".
Definition flFailureRetry : Flag := mkFlag (IntFlag 3) "engine-failure-retry" "set engine failure retry count" "".
Definition flEnableCors : Flag :=
  mkFlag BoolFlag "api-enable-cors, cors" "enable CORS headers in the remote API" "".
Definition flTLS : Flag := mkFlag BoolFlag "tls" "use TLS; implied by --tlsverify=true" "".
Definition flTLSCaCert : Flag :=
  mkFlag (StringFlag "") "tlscacert" "trust only remotes providing a certificate signed by the CA given here" "".
Definition flTLSCert : Flag := mkFlag (StringFlag "") "tlscert" "path to TLS certificate file" "".
Definition flTLSKey : Flag := mkFlag (StringFlag "") "tlskey" "path to TLS key file" "".
Definition flTLSVerify : Flag := mkFlag BoolFlag "tlsverify" "use TLS and verify the remote" "".
Definition flStrategy : Flag := mkFlag (StringFlag (List.hd "" Strategy.List)) "strategy"
  ("placement strategy to use [" +:+ Join Strategy.List ", " +:+ "]") "".
Definition flFilterValue : list string := filter_List.
Definition flFilter : Flag := mkFlag (StringSliceFlag flFilterValue) "filter, f"
  ("filter to use [" +:+ Join filter_List ", " +:+ "]") "".
Definition flCluster : Flag :=
  mkFlag (StringFlag "swarm") "cluster-driver, c" "cluster driver to use [swarm, mesos-experimental]" "".
Definition flClusterOpt : Flag := mkFlag (StringSliceFlag []) "cluster-opt" "cluster driver options" "".
Definition flDiscoveryOpt : Flag := mkFlag (StringSliceFlag []) "discovery-opt" "discovery options" "".
Definition flLeaderElection : Flag := mkFlag BoolFlag "replication" "Enable Swarm manager replication" "".
Definition flLeaderTTL : Flag :=
  mkFlag (StringFlag "20s") "replication-ttl" "Leader lock release time on failure" "".
Definition flScaleHost : Flag :=
  mkFlag (StringFlag "http://127.0.0.1:4001") "H" "cattle manager http server host and port" "".
Definition flScaleENV : Flag := mkFlag (StringSliceFlag []) "e" "scale enviroment" "".
Definition flScaleLabel : Flag := mkFlag (StringSliceFlag []) "l" "scale label" "".
Definition flScaleFilter : Flag := mkFlag (StringSliceFlag []) "f" "scale filter" "".
Definition flScaleNumber : Flag := mkFlag (IntFlag 0) "n" "scale number" "".
Definition flRefreshOnNodeFilter : Flag := mkFlag BoolFlag "refresh-on-node-filter"
  "If true, refresh the cache when a ContainerList call comes in with a node filter" "".
Definition flContainerNameRefreshFilter : Flag := mkFlag (StringFlag "") "container-name-refresh-filter"
  "If set, refresh the cache when a ContainerList call comes in with a name filter set to this value" "".

Inductive action := a_create | a_list | a_manage | a_join | a_scale.
Record Command := mkCommand { cmd_Name : string; cmd_ShortName : string; cmd_Usage : string; cmd_Flags : list Flag; cmd_Action : action }.
Definition cmd_create : Command := mkCommand "create" "c" "Create a cluster" [] a_create.
Definition cmd_list : Command := mkCommand "list" "l" "List nodes in a cluster" [flTimeout; flDiscoveryOpt] a_list.
Definition cmd_manage : Command := mkCommand "manage" "m" "Manage a docker cluster"
  [flStrategy; flFilter; flHosts; flLeaderElection; flLeaderTTL; flManageAdvertise;
   flTLS; flTLSCaCert; flTLSCert; flTLSKey; flTLSVerify;
   flRefreshIntervalMin; flRefreshIntervalMax; flFailureRetry; flRefreshRetry; flHeartBeat; flEnableCors;
   flCluster; flDiscoveryOpt; flClusterOpt; flRefreshOnNodeFilter; flContainerNameRefreshFilter] a_manage.
Definition cmd_join : Command := mkCommand "join" "j" "Join a docker cluster"
  [flJoinAdvertise; flHeartBeat; flTTL; flJoinRandomDelay; flDiscoveryOpt] a_join.
Definition cmd_scale : Command := mkCommand "scale" "s" "Scale up or down containers"
  [flScaleHost; flScaleENV; flScaleLabel; flScaleFilter; flScaleNumber] a_scale.
Definition commands : list Command := [cmd_create; cmd_list; cmd_manage; cmd_join; cmd_scale].
(** [app.Flags] *)
Definition app_Flags : list Flag :=
  [mkFlag BoolFlag "debug" "debug mode" "DEBUG";
   mkFlag (StringFlag "info") "log-level, l" "Log level (options: debug, info, warn, error, fatal, panic)" "";
   mkFlag BoolFlag "experimental" "enable experimental features" ""].
Definition HelpFlag : Flag := mkFlag BoolFlag "help, h" "show help" "".
Definition VersionFlag : Flag := mkFlag BoolFlag "version, v" "print the version" "".

(** ** A set of flags *)

(** The value of a registered name; all the names of a slice flag share one slice, kept
    under the flag's [f_Name]. *)
Inductive fvalue := VString (s : string) | VInt (z : Z) | VBool (b : bool) | VSlice (slot : string).
Record FlagSet := mkFlagSet {
  fs_formal : gmap string fvalue;
  fs_slices : gmap string (list string);
  fs_actual : gset string;
  fs_Args : list string
}.
Definition NewFlagSet : FlagSet := mkFlagSet ∅ ∅ ∅ [].
Definition fs_set_formal (m : gmap string fvalue) (set : FlagSet) : FlagSet :=
  mkFlagSet m (fs_slices set) (fs_actual set) (fs_Args set).
Definition fs_set_slices (m : gmap string (list string)) (set : FlagSet) : FlagSet :=
  mkFlagSet (fs_formal set) m (fs_actual set) (fs_Args set).
Definition fs_visit (name : string) (set : FlagSet) : FlagSet :=
  mkFlagSet (fs_formal set) (fs_slices set) ({[name]} ∪ fs_actual set) (fs_Args set).
Definition fs_set_Args (args : list string) (set : FlagSet) : FlagSet :=
  mkFlagSet (fs_formal set) (fs_slices set) (fs_actual set) args.

(** [strings.Trim(s, c)] for a one-byte cutset *)
Fixpoint TrimRight_char (c : ascii) (s : string) : string :=
  match s with
  | EmptyString => EmptyString
  | String d s' =>
      match TrimRight_char c s' with
      | EmptyString => if Ascii.eqb d c then EmptyString else String d EmptyString
      | t => String d t
      end
  end.
Definition Trim (s : string) (c : ascii) : string := TrimRight_char c (TrimLeft_char c s).
(** The names that [eachName] goes through. *)
Definition f_names (f : Flag) : list string := (λ name, Trim name " "%char) <$> Split_char ","%char (f_Name f).
(** [strconv.ParseBool] *)
Definition bool_value (s : string) : option bool :=
  if existsb (String.eqb s) ["1"; "t"; "T"; "true"; "TRUE"; "True"] then Some true
  else if existsb (String.eqb s) ["0"; "f"; "F"; "false"; "FALSE"; "False"] then Some false else None.

Section app.
Context (Getenv : string → string).
(** [strconv.ParseInt(s, 0, 64)] *)
Context (ParseInt : string → option Z).
(** [log.ParseLevel(lvl)], its error *)
Context (ParseLevel : string → option string).

(** The values of the variables of a flag that are not empty, in order. *)
Definition env_values (f : Flag) : list string :=
  if String.eqb (f_EnvVar f) "" then []
  else List.filter (λ v, negb (String.eqb v ""))
         ((λ envVar, Getenv (TrimSpace envVar)) <$> Split_char ","%char (f_EnvVar f)).
(** What [Apply] registers under each name, and the slice of a slice flag. *)
Definition initial_slice (f : Flag) (Value : list string) : list string :=
  match env_values f with
  | envVal :: _ => TrimSpace <$> Split_char ","%char envVal
  | [] => Value
  end.
Definition initial_value (f : Flag) : fvalue :=
  match f_kind f with
  | StringFlag Value => VString (match env_values f with envVal :: _ => envVal | [] => Value end)
  | StringSliceFlag _ => VSlice (f_Name f)
  | IntFlag Value => VInt (default Value (head (omap ParseInt (env_values f))))
  | BoolFlag => VBool (match env_values f with envVal :: _ => default false (bool_value envVal) | [] => false end)
  end.
(** [set.Var(value, name, usage)] *)
Definition Var (v : fvalue) (name : string) (set : FlagSet) : outcome FlagSet :=
  match fs_formal set !! name with
  | Some _ => Panic ("flag redefined: " +:+ name)
  | None => Ret (fs_set_formal (<[name := v]> (fs_formal set)) set)
  end.
Fixpoint Vars (v : fvalue) (names : list string) (set : FlagSet) : outcome FlagSet :=
  match names with [] => Ret set | name :: names => set ← Var v name set; Vars v names set end.
(** [f.Apply(set)] *)
Definition Apply (f : Flag) (set : FlagSet) : outcome FlagSet :=
  let set := match f_kind f with
             | StringSliceFlag Value => fs_set_slices (<[f_Name f := initial_slice f Value]> (fs_slices set)) set
             | _ => set
             end in
  Vars (initial_value f) (f_names f) set.
(** [flagSet(name, flags)] *)
Fixpoint Applies (flags : list Flag) (set : FlagSet) : outcome FlagSet :=
  match flags with [] => Ret set | f :: flags => set ← Apply f set; Applies flags set end.
Definition flagSet (flags : list Flag) : outcome FlagSet := Applies flags NewFlagSet.

(** ** Parsing *)

(** [f.Value.Set(value)], and the mark of the flag; the texts of the errors of the values
    are shortened. *)
Definition Set_value (name value : string) (set : FlagSet) : outcome FlagSet :=
  match fs_formal set !! name with
  | None => Err ("no such flag -" +:+ name)
  | Some (VString _) => Ret (fs_visit name (fs_set_formal (<[name := VString value]> (fs_formal set)) set))
  | Some (VInt _) =>
      match ParseInt value with
      | Some z => Ret (fs_visit name (fs_set_formal (<[name := VInt z]> (fs_formal set)) set))
      | None => Err ("invalid value for flag -" +:+ name)
      end
  | Some (VBool _) =>
      match bool_value value with
      | Some b => Ret (fs_visit name (fs_set_formal (<[name := VBool b]> (fs_formal set)) set))
      | None => Err ("invalid boolean value for -" +:+ name)
      end
  | Some (VSlice slot) =>
      Ret (fs_visit name (fs_set_slices (<[slot := default [] (fs_slices set !! slot) ++ [value]]> (fs_slices set)) set))
  end.
(** What [parseOne] makes of the first argument: the flags end; a flag gets a value; or the
    argument is wrong.  [is_bool] tells a registered name and whether it is a boolean flag. *)
Inductive parsed := no_flag (rest : list string) | assigns (name value : string) (rest : list string) | bad_flag (err : string).
Definition parse_one (is_bool : string → option bool) (args : list string) : parsed :=
  match args with
  | String "-" (String c t) :: rest =>
      if Ascii.eqb c "-" && String.eqb t "" then no_flag rest
      else
        let name := if Ascii.eqb c "-" then t else String c t in
        if HasPrefix name "-" || HasPrefix name "=" then bad_flag ("bad flag syntax: " +:+ String "-" (String c t))
        else
          let '(name, value) := match cut "=" name with Some (a, b) => (a, Some b) | None => (name, None) end in
          match is_bool name, value, rest with
          | None, _, _ =>
              if String.eqb name "help" || String.eqb name "h" then bad_flag "flag: help requested"
              else bad_flag ("flag provided but not defined: -" +:+ name)
          | Some _, Some v, _ => assigns name v rest
          | Some true, None, _ => assigns name "true" rest
          | Some false, None, v :: rest => assigns name v rest
          | Some false, None, [] => bad_flag ("flag needs an argument: -" +:+ name)
          end
  | _ => no_flag args
  end.
Definition value_is_bool (v : fvalue) : bool := match v with VBool _ => true | _ => false end.
Definition set_is_bool (set : FlagSet) (name : string) : option bool := value_is_bool <$> fs_formal set !! name.
(** [set.Parse(args)]: each flag takes an argument at least, and the fuel is one more than
    their number. *)
Fixpoint parse_flags (fuel : nat) (args : list string) (set : FlagSet) : outcome FlagSet :=
  match fuel with
  | O => Err "out of fuel"
  | S fuel =>
      match parse_one (set_is_bool set) args with
      | no_flag rest => Ret (fs_set_Args rest set)
      | assigns name value rest => set ← Set_value name value set; parse_flags fuel rest set
      | bad_flag err => Err err
      end
  end.
Definition Parse (args : list string) (set : FlagSet) : outcome FlagSet := parse_flags (S (length args)) args set.

(** [f.Value.String()] *)
Definition value_String (set : FlagSet) (v : fvalue) : string :=
  match v with
  | VString s => s
  | VInt z => Itoa z
  | VBool b => if b then "true" else "false"
  | VSlice slot => "[" +:+ Join (default [] (fs_slices set !! slot)) " " +:+ "]"
  end.
(** [copyFlag(name, ff, set)]; the error of [Set] is not looked at. *)
Definition copyFlag (ff : fvalue) (set : FlagSet) (name : string) : FlagSet :=
  match ff with
  | VSlice _ => set
  | _ => match Set_value name (value_String set ff) set with Ret set => set | _ => set end
  end.
(** [normalizeFlags(flags, set)]: the other names of a flag get its value; [visited] are the
    names of the command line. *)
Definition normalize_flag (visited : gset string) (f : Flag) (set : FlagSet) : outcome FlagSet :=
  match f_names f with
  | [_] => Ret set
  | names =>
      match List.filter (λ name, bool_decide (name ∈ visited)) names with
      | first :: other :: _ => Err ("Cannot use two forms of the same flag: " +:+ other +:+ " " +:+ first)
      | [name] =>
          match fs_formal set !! name with
          | Some ff => Ret (foldl (copyFlag ff) set (List.filter (λ n, negb (bool_decide (n ∈ visited))) names))
          | None => Ret set
          end
      | [] => Ret set
      end
  end.
Fixpoint normalize_each (visited : gset string) (flags : list Flag) (set : FlagSet) : outcome FlagSet :=
  match flags with
  | [] => Ret set
  | f :: flags => set ← normalize_flag visited f set; normalize_each visited flags set
  end.
Definition normalizeFlags (flags : list Flag) (set : FlagSet) : outcome FlagSet := normalize_each (fs_actual set) flags set.

(** ** Running a command *)

(** [context.IsSet], the lookups of the values, and [path.Base(os.Args[0])]; the lookup of a
    slice under a name that is not of a slice flag would panic. *)
Definition lookup_String (set : FlagSet) (name : string) : string :=
  match fs_formal set !! name with Some v => value_String set v | None => "" end.
Definition lookup_StringSlice (set : FlagSet) (name : string) : list string :=
  match fs_formal set !! name with Some (VSlice slot) => default [] (fs_slices set !! slot) | _ => [] end.
Definition lookup_Bool (set : FlagSet) (name : string) : bool := default false (bool_value (lookup_String set name)).
Definition new_context (ParseDuration : string → Z + string) (AppName : string) (set : FlagSet) : Flags := {|
  fl_String := lookup_String set;
  fl_Bool := lookup_Bool set;
  fl_Int := λ name, let '(z, ok) := Atoi (lookup_String set name) in if ok : bool then z else 0;
  fl_Duration := λ name, match ParseDuration (lookup_String set name) with inl d => d | inr _ => 0 end;
  fl_IsSet := λ name, bool_decide (name ∈ fs_actual set);
  fl_StringSlice := lookup_StringSlice set;
  fl_Args := fs_Args set;
  fl_AppName := AppName |}.
(** The arguments of a command with its flags first: [firstFlagIndex] and
    [terminatorIndex]. *)
Fixpoint scan_args (index : nat) (args : list string) (firstFlag : option nat) : option nat * option nat :=
  match args with
  | [] => (firstFlag, None)
  | arg :: args =>
      if String.eqb arg "--" then (firstFlag, Some index)
      else scan_args (S index) args
             (match firstFlag with
              | None => if HasPrefix arg "-" then Some index else None
              | _ => firstFlag
              end)
  end.
Definition flags_first (args : list string) : list string :=
  match scan_args 0 args None with
  | (Some first, Some terminator) =>
      take (terminator - first) (drop first args) ++ take (first - 1) (drop 1 args) ++ drop terminator args
  | (Some first, None) => drop first args ++ take (first - 1) (drop 1 args)
  | (None, _) => tail args
  end.
(** [c.Run(ctx)], [args] being [ctx.Args()], whose first is the name of the command: the
    flags of the action, unless the help is shown. *)
Definition command_flags (c : Command) : list Flag := cmd_Flags c ++ [HelpFlag].
Definition command_set (c : Command) (args : list string) : outcome FlagSet :=
  set ← flagSet (command_flags c);
  set ← Parse (flags_first args) set;
  normalizeFlags (command_flags c) set.
Definition wants_help (set : FlagSet) : bool := lookup_Bool set "h" || lookup_Bool set "help".
(** [app.Run(os.Args)]: an error of the parsing, or of the normalization, ends the program. *)
Inductive invocation := ShowHelp | ShowVersion | Invoke (c : Command) (set : FlagSet).
Definition HasName (c : Command) (name : string) : bool := String.eqb (cmd_Name c) name || String.eqb (cmd_ShortName c) name.
(** [app.Before]: [log.Fatalf] when there is no such level. *)
Definition Before (set : FlagSet) : outcome unit :=
  match ParseLevel (lookup_String set "log-level") with Some err => Fatal (Sprintf err) | None => Ret tt end.
Definition app_Run (arguments : list string) : outcome invocation :=
  let flags := app_Flags ++ [HelpFlag; VersionFlag] in
  set ← flagSet flags;
  set ← Parse (tail arguments) set;
  set ← normalizeFlags flags set;
  if wants_help set then Ret ShowHelp
  else if lookup_Bool set "version" || lookup_Bool set "v" then Ret ShowVersion
  else
    Before set ;;
    match fs_Args set with
    | [] => Ret ShowHelp
    | name :: _ =>
        match List.find (λ c, HasName c name) commands with
        | Some c =>
            cset ← command_set c (fs_Args set);
            Ret (if wants_help cset then ShowHelp else Invoke c cset)
        | None => Ret ShowHelp
        end
    end.
End app.

(** ** The names of a table of flags *)

Definition all_names (flags : list Flag) : list string := concat (f_names <$> flags).
Lemma all_names_cons f flags : all_names (f :: flags) = f_names f ++ all_names flags.
Proof. done. Qed.
Lemma elem_of_all_names flags n : n ∈ all_names flags ↔ ∃ f, f ∈ flags ∧ n ∈ f_names f.
Proof.
  unfold all_names. rewrite list_elem_of_In, in_concat. setoid_rewrite <- list_elem_of_In. split.
  - intros (l & Hl & Hn). apply list_elem_of_fmap in Hl as (f & -> & Hf). eauto.
  - intros (f & Hf & Hn). exists (f_names f). split; [by apply list_elem_of_fmap_2|done].
Qed.
(** A name belongs to one flag. *)
Lemma names_unique flags f g n :
  NoDup (all_names flags) → f ∈ flags → g ∈ flags → n ∈ f_names f → n ∈ f_names g → f = g.
Proof.
  induction flags as [|x flags IH]; intros Hnd Hf Hg Hnf Hng; [by apply elem_of_nil in Hf|].
  rewrite all_names_cons in Hnd. apply NoDup_app in Hnd as (_ & Hdis & Hnd).
  apply elem_of_cons in Hf as [->|Hf]; apply elem_of_cons in Hg as [->|Hg]; [done| | |by apply IH].
  - destruct (Hdis _ Hnf). apply elem_of_all_names. eauto.
  - destruct (Hdis _ Hng). apply elem_of_all_names. eauto.
Qed.

Lemma slots_unique flags f g : NoDup (f_Name <$> flags) → f ∈ flags → g ∈ flags → f_Name f = f_Name g → f = g.
Proof.
  induction flags as [|x flags IH]; intros Hnd Hf Hg He; [by apply elem_of_nil in Hf|].
  apply NoDup_cons in Hnd as [Hni Hnd].
  apply elem_of_cons in Hf as [->|Hf]; apply elem_of_cons in Hg as [->|Hg]; [done| | |by apply IH]; destruct Hni.
  - rewrite He. by apply list_elem_of_fmap_2.
  - rewrite <- He. by apply list_elem_of_fmap_2.
Qed.

(** ** Registration *)

Section registration.
Context (Getenv : string → string) (ParseInt : string → option Z).

Lemma Vars_spec v names set :
  NoDup names → (∀ n, n ∈ names → fs_formal set !! n = None) →
  ∃ m, Vars v names set = Ret (fs_set_formal m set) ∧
    (∀ n, n ∈ names → m !! n = Some v) ∧ (∀ n, n ∉ names → m !! n = fs_formal set !! n).
Proof.
  revert set. induction names as [|name names IH]; intros set Hnd Hnone; simpl.
  { exists (fs_formal set). split_and!; [by destruct set|by intros n ?%elem_of_nil|done]. }
  apply NoDup_cons in Hnd as [Hni Hnd]. unfold Var. rewrite Hnone by by left. simpl.
  destruct (IH (fs_set_formal (<[name:=v]> (fs_formal set)) set) Hnd) as (m & Hm & Hin & Hout).
  { intros n Hn. simpl. rewrite lookup_insert_ne by congruence. apply Hnone. by right. }
  exists m. split_and!; [done| |].
  - intros n [->|Hn]%elem_of_cons; [|by apply Hin]. rewrite (Hout _ Hni). simpl. by rewrite lookup_insert_eq.
  - intros n Hn. apply not_elem_of_cons in Hn as [Hne Hn]. rewrite (Hout _ Hn). simpl. by rewrite lookup_insert_ne.
Qed.
Lemma Applies_spec flags set :
  NoDup (all_names flags) → (∀ n, n ∈ all_names flags → fs_formal set !! n = None) →
  ∃ set', Applies Getenv ParseInt flags set = Ret set' ∧
    (∀ f n, f ∈ flags → n ∈ f_names f → fs_formal set' !! n = Some (initial_value Getenv ParseInt f)) ∧
    (∀ n, n ∉ all_names flags → fs_formal set' !! n = fs_formal set !! n) ∧
    fs_actual set' = fs_actual set ∧
    (∀ slot, slot ∉ f_Name <$> flags → fs_slices set' !! slot = fs_slices set !! slot) ∧
    (NoDup (f_Name <$> flags) → ∀ f Value, f ∈ flags → f_kind f = StringSliceFlag Value →
       fs_slices set' !! f_Name f = Some (initial_slice Getenv f Value)).
Proof.
  revert set. induction flags as [|f flags IH]; intros set Hnd Hnone; simpl.
  { exists set. split_and!; try done; [by intros f n ?%elem_of_nil|by intros _ f V ?%elem_of_nil]. }
  rewrite all_names_cons in Hnd, Hnone. apply NoDup_app in Hnd as (Hndf & Hdis & Hnd).
  unfold Apply at 1.
  set (set1 := match f_kind f with StringSliceFlag _ => _ | _ => _ end).
  assert (Hset1 : fs_formal set1 = fs_formal set ∧ fs_actual set1 = fs_actual set ∧
    (∀ slot, slot ≠ f_Name f → fs_slices set1 !! slot = fs_slices set !! slot) ∧
    (∀ V, f_kind f = StringSliceFlag V → fs_slices set1 !! f_Name f = Some (initial_slice Getenv f V))).
  { unfold set1. destruct (f_kind f); simpl; split_and!; try done.
    - intros slot Hs. by rewrite lookup_insert_ne.
    - intros V [= ->]. by rewrite lookup_insert_eq. }
  clearbody set1. destruct Hset1 as (Hf1 & Ha1 & Hs1 & Hv1).
  destruct (Vars_spec (initial_value Getenv ParseInt f) (f_names f) set1 Hndf) as (m & -> & Hin & Hout).
  { intros n Hn. rewrite Hf1. apply Hnone, elem_of_app. by left. }
  simpl. destruct (IH (fs_set_formal m set1) Hnd) as (set' & Hset' & Hin' & Hout' & Ha' & Hs' & Hv').
  { intros n Hn. simpl. rewrite Hout, Hf1; [apply Hnone, elem_of_app; by right|]. intros Hn'. by apply (Hdis n). }
  exists set'. split_and!; [done| | | | |].
  - intros g n [->|Hg]%elem_of_cons Hn; [|by apply Hin']. rewrite Hout'; [by apply Hin|]. by apply Hdis.
  - intros n Hn. rewrite all_names_cons, elem_of_app in Hn. rewrite Hout' by tauto. simpl. rewrite Hout by tauto. by rewrite Hf1.
  - by rewrite Ha'.
  - intros slot Hs. apply not_elem_of_cons in Hs as [Hne Hs]. rewrite (Hs' _ Hs). simpl. by apply Hs1.
  - intros Hndn g V Hg Hk. apply NoDup_cons in Hndn as [Hni Hndn]. apply elem_of_cons in Hg as [->|Hg]; [|by apply Hv'].
    rewrite (Hs' _ Hni). simpl. by apply Hv1.
Qed.
(** A table without two flags of the same name is registered without a panic. *)
Lemma flagSet_ok flags : NoDup (all_names flags) → returns (flagSet Getenv ParseInt flags).
Proof. intros Hnd. destruct (Applies_spec flags NewFlagSet Hnd) as (set & Hs & _); [done|]. by exists set. Qed.
End registration.

(** ** What a slice flag holds *)

Definition is_bool_kind (k : flag_kind) : bool := match k with BoolFlag => true | _ => false end.
Definition table_is_bool (flags : list Flag) (name : string) : option bool :=
  (λ f, is_bool_kind (f_kind f)) <$> List.find (λ f, bool_decide (name ∈ f_names f)) flags.
(** The names and values that a command line assigns, in order. *)
Fixpoint assignments (fuel : nat) (is_bool : string → option bool) (args : list string) : list (string * string) :=
  match fuel with
  | O => []
  | S fuel =>
      match parse_one is_bool args with
      | assigns name value rest => (name, value) :: assignments fuel is_bool rest
      | _ => []
      end
  end.
Definition command_values (c : Command) (args : list string) : list (string * string) :=
  let args := flags_first args in assignments (S (length args)) (table_is_bool (command_flags c)) args.
(** Those of the flag [f], under whichever name. *)
Definition given (f : Flag) (l : list (string * string)) : list string :=
  (List.filter (λ x, bool_decide (x.1 ∈ f_names f)) l).*2.

Definition of_kind (f : Flag) (v : fvalue) : Prop :=
  match f_kind f, v with
  | StringFlag _, VString _ | IntFlag _, VInt _ | BoolFlag, VBool _ => True
  | StringSliceFlag _, VSlice slot => slot = f_Name f
  | _, _ => False
  end.
Definition registered (flags : list Flag) (set : FlagSet) : Prop :=
  (∀ f n, f ∈ flags → n ∈ f_names f → ∃ v, fs_formal set !! n = Some v ∧ of_kind f v) ∧
  (∀ n v, fs_formal set !! n = Some v → n ∈ all_names flags).

Section slices.
Context (ParseInt : string → option Z).
Context (flags : list Flag) (Hnames : NoDup (all_names flags)) (Hslots : NoDup (f_Name <$> flags)).
Context (f : Flag) (Hf : f ∈ flags) (Value : list string) (Hkind : f_kind f = StringSliceFlag Value).

Lemma initial_of_kind Getenv g : of_kind g (initial_value Getenv ParseInt g).
Proof. unfold of_kind, initial_value. by destruct (f_kind g). Qed.
Lemma flagSet_registered Getenv set :
  flagSet Getenv ParseInt flags = Ret set →
  registered flags set ∧ fs_actual set = ∅ ∧ fs_slices set !! f_Name f = Some (initial_slice Getenv f Value).
Proof.
  intros Hset. destruct (Applies_spec Getenv ParseInt flags NewFlagSet Hnames) as (set' & Hs & Hin & Hout & Ha & _ & Hv); [done|].
  unfold flagSet in Hset. rewrite Hs in Hset. injection Hset as <-. split_and!; [split|done|by apply Hv].
  - intros g n Hg Hn. eexists. split; [by apply Hin|apply initial_of_kind].
  - intros n v Hn. destruct (decide (n ∈ all_names flags)) as [|Hn']; [done|]. rewrite (Hout _ Hn') in Hn. done.
Qed.
Lemma registered_is_bool set n : registered flags set → set_is_bool set n = table_is_bool flags n.
Proof.
  intros [Hreg Hdom]. unfold set_is_bool, table_is_bool. destruct (List.find _ _) as [g|] eqn:Hfind; simpl.
  - apply List.find_some in Hfind as [Hg Hn]. apply list_elem_of_In in Hg. apply bool_decide_eq_true in Hn.
    destruct (Hreg g n Hg Hn) as (v & -> & Hk). simpl. f_equal. unfold of_kind in Hk. by destruct (f_kind g), v.
  - destruct (fs_formal set !! n) as [v|] eqn:Hn; [|done]. exfalso.
    apply Hdom, elem_of_all_names in Hn as (g & Hg & Hn).
    apply (List.find_none _ _ Hfind) in Hg || (apply list_elem_of_In in Hg; apply (List.find_none _ _ Hfind) in Hg).
    by apply bool_decide_eq_false in Hg.
Qed.
(** What [Set] does to the tables. *)
Lemma Set_value_spec name value set set' :
  registered flags set → Set_value ParseInt name value set = Ret set' →
  registered flags set' ∧ fs_actual set' = {[name]} ∪ fs_actual set ∧
  (∀ l, fs_slices set !! f_Name f = Some l →
     fs_slices set' !! f_Name f = Some (l ++ (if bool_decide (name ∈ f_names f) then [value] else []))).
Proof.
  intros [Hreg Hdom] Hset. unfold Set_value in Hset. destruct (fs_formal set !! name) as [v|] eqn:Hv; [|done].
  destruct (proj1 (elem_of_all_names _ _) (Hdom _ _ Hv)) as (g & Hg & Hn).
  destruct (Hreg g name Hg Hn) as (v' & Hv' & Hk). rewrite Hv in Hv'. injection Hv' as <-.
  assert (Hother : (∀ slot, v ≠ VSlice slot) → name ∉ f_names f).
  { intros Hns Hnf. destruct (names_unique _ _ _ _ Hnames Hf Hg Hnf Hn). unfold of_kind in Hk. rewrite Hkind in Hk.
    destruct v; try done. by eapply Hns. }
  assert (Hnew : ∀ v', of_kind g v' → registered flags (fs_visit name (fs_set_formal (<[name:=v']> (fs_formal set)) set))).
  { intros v' Hk'. split; simpl.
    - intros h n Hh Hnh. destruct (decide (n = name)) as [->|Hne].
      + rewrite lookup_insert_eq. destruct (names_unique _ _ _ _ Hnames Hg Hh Hn Hnh). eauto.
      + rewrite lookup_insert_ne by done. by apply Hreg.
    - intros n u Hu. destruct (decide (n = name)) as [->|Hne]; [apply elem_of_all_names; eauto|].
      rewrite lookup_insert_ne in Hu by done. by eapply Hdom. }
  assert (Hscalar : ∀ v', (∀ slot, v ≠ VSlice slot) → of_kind g v' →
    let set' := fs_visit name (fs_set_formal (<[name:=v']> (fs_formal set)) set) in
    registered flags set' ∧ fs_actual set' = {[name]} ∪ fs_actual set ∧
    (∀ l, fs_slices set !! f_Name f = Some l →
       fs_slices set' !! f_Name f = Some (l ++ (if bool_decide (name ∈ f_names f) then [value] else [])))).
  { intros v' Hns Hk'. split_and!; [by apply Hnew|done|]. intros l Hl. simpl.
    rewrite bool_decide_false by (by apply Hother). by rewrite app_nil_r. }
  unfold of_kind in Hk, Hscalar. destruct (f_kind g) eqn:Hkg, v as [s|z|b|slot]; try done.
  - injection Hset as <-. by apply Hscalar.
  - injection Hset as <-. subst slot. split_and!; [by split|done|]. intros l Hl. simpl. destruct (decide (f_Name g = f_Name f)) as [He|Hne].
    + rewrite (slots_unique _ _ _ Hslots Hg Hf He) in Hn |- *. rewrite lookup_insert_eq, Hl. simpl. by rewrite bool_decide_true.
    + rewrite lookup_insert_ne, bool_decide_false; [by rewrite app_nil_r| |done].
      intros Hnf. destruct Hne. f_equal. by eapply names_unique.
  - destruct (ParseInt value); [|done]. injection Hset as <-. by apply Hscalar.
  - destruct (bool_value value); [|done]. injection Hset as <-. by apply Hscalar.
Qed.
Lemma parse_one_ext p q args : (∀ n, p n = q n) → parse_one p args = parse_one q args.
Proof.
  intros Hpq. unfold parse_one. destruct args as [|[|[[] [] [] [] [] [] [] []] [|c t]] rest]; try done.
  repeat (destruct (_ && _) || destruct (_ || _) || destruct (cut _ _) as [[? ?]|]); try done; by rewrite Hpq.
Qed.
Lemma given_cons name value l :
  given f ((name, value) :: l) = (if bool_decide (name ∈ f_names f) then [value] else []) ++ given f l.
Proof. unfold given. simpl. by destruct (bool_decide _). Qed.
(** The names of [f] that the command line sets. *)
Definition names_set (set : FlagSet) : Prop := ∃ n, n ∈ f_names f ∧ n ∈ fs_actual set.
Lemma parse_flags_spec fuel args set set' l :
  registered flags set → fs_slices set !! f_Name f = Some l →
  parse_flags ParseInt fuel args set = Ret set' →
  let values := given f (assignments fuel (table_is_bool flags) args) in
  registered flags set' ∧ fs_slices set' !! f_Name f = Some (l ++ values) ∧
  (names_set set' ↔ names_set set ∨ values ≠ []).
Proof.
  revert args set l. induction fuel as [|fuel IH]; intros args set l Hreg Hl Hp; simpl in *; [done|].
  rewrite (parse_one_ext _ (table_is_bool flags)) in Hp by (intros n; by apply registered_is_bool).
  destruct (parse_one _ args) as [rest|name value rest|err]; [| |done].
  - injection Hp as <-. split_and!; [done|by rewrite app_nil_r|]. unfold names_set. simpl. tauto.
  - apply bind_Ret_inv in Hp as (set1 & Hset1 & Hp).
    destruct (Set_value_spec _ _ _ _ Hreg Hset1) as (Hreg1 & Ha1 & Hl1).
    destruct (IH _ _ _ Hreg1 (Hl1 _ Hl) Hp) as (Hreg' & Hl' & Ha').
    rewrite given_cons, app_assoc. split_and!; [done|done|]. rewrite Ha'. unfold names_set. rewrite Ha1.
    case_bool_decide as Hn; simpl.
    + split; [by right|]. intros _. left. exists name. set_solver.
    + setoid_rewrite elem_of_union. setoid_rewrite elem_of_singleton. naive_solver.
Qed.
(** The copies to the other names of a flag. *)
Lemma copyFlag_spec g ff set n l :
  registered flags set → g ∈ flags → n ∈ f_names g → of_kind g ff → fs_slices set !! f_Name f = Some l →
  registered flags (copyFlag ParseInt ff set n) ∧ fs_slices (copyFlag ParseInt ff set n) !! f_Name f = Some l ∧
  (names_set (copyFlag ParseInt ff set n) ↔ names_set set).
Proof.
  intros Hreg Hg Hn Hk Hl.
  assert (Hset : (∀ slot, ff ≠ VSlice slot) → ∀ x set', Set_value ParseInt n x set = Ret set' →
    registered flags set' ∧ fs_slices set' !! f_Name f = Some l ∧ (names_set set' ↔ names_set set)).
  { intros Hns x set' Hs. destruct (Set_value_spec _ _ _ _ Hreg Hs) as (Hreg' & Ha & Hl').
    assert (Hnf : n ∉ f_names f).
    { intros Hnf. destruct (names_unique _ _ _ _ Hnames Hf Hg Hnf Hn). unfold of_kind in Hk. rewrite Hkind in Hk.
      destruct ff; try done. by eapply Hns. }
    split_and!; [done| |].
    - rewrite (Hl' _ Hl), bool_decide_false by done. by rewrite app_nil_r.
    - unfold names_set. rewrite Ha. setoid_rewrite elem_of_union. setoid_rewrite elem_of_singleton. naive_solver. }
  unfold copyFlag. destruct ff as [s|z|b|slot]; [| | |done];
    (destruct (Set_value _ _ _ _) as [set'| |] eqn:Hs; [by eapply Hset|done|done]).
Qed.
Lemma normalize_flag_spec visited g set set' l :
  registered flags set → g ∈ flags → fs_slices set !! f_Name f = Some l →
  normalize_flag ParseInt visited g set = Ret set' →
  registered flags set' ∧ fs_slices set' !! f_Name f = Some l ∧ (names_set set' ↔ names_set set).
Proof.
  intros Hreg Hg Hl Hn. unfold normalize_flag in Hn.
  assert (Hcopy : ∀ ff ns, of_kind g ff → ns ⊆ f_names g → ∀ set, registered flags set → fs_slices set !! f_Name f = Some l →
    registered flags (foldl (copyFlag ParseInt ff) set ns) ∧ fs_slices (foldl (copyFlag ParseInt ff) set ns) !! f_Name f = Some l ∧
    (names_set (foldl (copyFlag ParseInt ff) set ns) ↔ names_set set)).
  { clear set Hreg Hl Hn. intros ff ns Hk. induction ns as [|n ns IH]; intros Hsub set Hreg Hl; simpl; [done|].
    destruct (copyFlag_spec g ff set n l Hreg Hg (Hsub n ltac:(by left)) Hk Hl) as (Hreg1 & Hl1 & Ha1).
    destruct (IH ltac:(set_solver) _ Hreg1 Hl1) as (? & ? & Ha). split_and!; [done|done|]. by rewrite Ha. }
  destruct (f_names g) as [|n0 [|n1 ns]] eqn:Hnames_g; [simpl in Hn; by injection Hn as <-|by injection Hn as <-|].
  destruct (List.filter _ (n0 :: n1 :: ns)) as [|name [|other rest]] eqn:Hfl; [by injection Hn as <-| |done].
  assert (Hname : name ∈ f_names g).
  { rewrite Hnames_g. eapply (list_elem_of_Lfilter (λ name, bool_decide (name ∈ visited))). rewrite Hfl. by left. }
  destruct (proj1 Hreg g name Hg Hname) as (v & Hv & Hk). rewrite Hv in Hn. injection Hn as <-.
  apply Hcopy; [done| |done|done]. intros x Hx.
  by apply (proj1 (list_elem_of_Lfilter (λ n, negb (bool_decide (n ∈ visited))) (n0 :: n1 :: ns) x)) in Hx as [Hx _].
Qed.
Lemma normalize_each_spec visited gs set set' l :
  registered flags set → gs ⊆ flags → fs_slices set !! f_Name f = Some l →
  normalize_each ParseInt visited gs set = Ret set' →
  fs_slices set' !! f_Name f = Some l ∧ (names_set set' ↔ names_set set) ∧ registered flags set'.
Proof.
  revert set. induction gs as [|g gs IH]; intros set Hreg Hsub Hl Hn; simpl in Hn; [by injection Hn as <-|].
  apply bind_Ret_inv in Hn as (set1 & Hset1 & Hn).
  destruct (normalize_flag_spec _ _ _ _ _ Hreg (Hsub g ltac:(by left)) Hl Hset1) as (Hreg1 & Hl1 & Ha1).
  destruct (IH set1 Hreg1 ltac:(set_solver) Hl1 Hn) as (? & Ha & ?). split_and!; [done| |done]. by rewrite Ha.
Qed.
End slices.

(** A slice flag of a command holds its initial slice followed by what the command line
    gives it, and one of its names is set exactly when it is given something. *)
Lemma command_slice Getenv ParseInt c args set f Value :
  NoDup (all_names (command_flags c)) → NoDup (f_Name <$> command_flags c) →
  command_set Getenv ParseInt c args = Ret set → f ∈ command_flags c → f_kind f = StringSliceFlag Value →
  let values := given f (command_values c args) in
  (∀ n, n ∈ f_names f → lookup_StringSlice set n = initial_slice Getenv f Value ++ values) ∧
  ((∃ n, n ∈ f_names f ∧ n ∈ fs_actual set) ↔ values ≠ []).
Proof.
  intros Hnames Hslots Hc Hf Hk. unfold command_set in Hc.
  apply bind_Ret_inv in Hc as (set0 & Hset0 & Hc). apply bind_Ret_inv in Hc as (set1 & Hset1 & Hc).
  destruct (flagSet_registered ParseInt _ Hnames Hslots f Hf Value Hk Getenv set0 Hset0) as (Hreg0 & Ha0 & Hl0).
  destruct (parse_flags_spec ParseInt _ Hnames Hslots f Hf Value Hk _ _ _ _ _ Hreg0 Hl0 Hset1) as (Hreg1 & Hl1 & Ha1).
  destruct (normalize_each_spec ParseInt _ Hnames Hslots f Hf Value Hk _ _ _ _ _ Hreg1 ltac:(done) Hl1 Hc) as (Hl & Ha & Hreg).
  split.
  - intros n Hn. destruct (proj1 Hreg f n Hf Hn) as (v & Hv & Hkv). unfold lookup_StringSlice. rewrite Hv.
    unfold of_kind in Hkv. rewrite Hk in Hkv. destruct v; try done. subst. by rewrite Hl.
  - unfold names_set in *. rewrite Ha, Ha1, Ha0. set_solver.
Qed.

(** ** The commands of the program *)

Definition nodup_names (flags : list Flag) : bool :=
  bool_decide (NoDup (all_names flags)) && bool_decide (NoDup (f_Name <$> flags)).
Lemma command_names c : c ∈ commands → NoDup (all_names (command_flags c)) ∧ NoDup (f_Name <$> command_flags c).
Proof.
  intros Hc. assert (Hall : forallb (λ c, nodup_names (command_flags c)) commands = true) by (by vm_compute).
  rewrite forallb_forall in Hall. apply list_elem_of_In, Hall, andb_true_iff in Hc as [H1 H2].
  split; by eapply bool_decide_eq_true_1.
Qed.
(** Whatever the environment, the flags of the program and of each command are registered:
    no name is defined twice, which would panic before the command runs. *)
Theorem flags_register Getenv ParseInt :
  returns (flagSet Getenv ParseInt (app_Flags ++ [HelpFlag; VersionFlag])) ∧
  ∀ c, c ∈ commands → returns (flagSet Getenv ParseInt (command_flags c)).
Proof.
  split.
  - apply flagSet_ok. apply (bool_decide_unpack (NoDup (all_names (app_Flags ++ [HelpFlag; VersionFlag])))). by vm_compute.
  - intros c Hc. apply flagSet_ok. by apply command_names.
Qed.
Lemma manage_in : cmd_manage ∈ commands.
Proof. unfold commands. set_solver. Qed.
Lemma flHosts_in : flHosts ∈ command_flags cmd_manage.
Proof. apply elem_of_app. left. simpl. set_solver. Qed.
Lemma flFilter_in : flFilter ∈ command_flags cmd_manage.
Proof. apply elem_of_app. left. simpl. set_solver. Qed.
Lemma slice_from_app {A} (l l' : list A) : slice_from (length l) (l ++ l') = Ret l'.
Proof.
  unfold slice_from. rewrite length_app. destruct (Nat.ltb_spec (length l + length l') (length l)); [lia|].
  by rewrite drop_app_length.
Qed.
Lemma env_hosts Getenv :
  env_values Getenv flHosts = if String.eqb (Getenv "SWARM_HOST") "" then [] else [Getenv "SWARM_HOST"].
Proof.
  assert (He : Split_char ","%char (f_EnvVar flHosts) = ["SWARM_HOST"]) by (by vm_compute).
  assert (Ht : TrimSpace "SWARM_HOST" = "SWARM_HOST") by (by vm_compute).
  unfold env_values. rewrite He. cbn [fmap list_fmap List.filter]. rewrite Ht.
  by destruct (String.eqb (Getenv "SWARM_HOST") "").
Qed.
(** [c.IsSet("host") || c.IsSet("H")] *)
Lemma set_or ParseDuration AppName set n1 n2 :
  fl_IsSet (new_context ParseDuration AppName set) n1 || fl_IsSet (new_context ParseDuration AppName set) n2 = true ↔
  ∃ n, n ∈ [n1; n2] ∧ n ∈ fs_actual set.
Proof.
  simpl. rewrite orb_true_iff, !bool_decide_eq_true. setoid_rewrite elem_of_cons. setoid_rewrite list_elem_of_singleton.
  naive_solver.
Qed.

(** C22: the filters and the hosts of the manager are those of the command line, in order, and
    the default ones when it names none; but when [SWARM_HOST] lists the hosts, and the
    command line names some too, only the first of the list is left out. *)
Theorem manage_hosts_spec Getenv ParseInt ParseDuration AppName args set :
  command_set Getenv ParseInt cmd_manage args = Ret set →
  let c := new_context ParseDuration AppName set in
  let hosts := given flHosts (command_values cmd_manage args) in
  let names := given flFilter (command_values cmd_manage args) in
  manage_names c = Ret (match names with [] => filter_List | _ => names end) ∧
  manage_hosts c = Ret (
    if String.eqb (Getenv "SWARM_HOST") "" then match hosts with [] => flHostsValue | _ => hosts end
    else
      let listed := TrimSpace <$> Split_char ","%char (Getenv "SWARM_HOST") in
      match hosts with [] => listed | _ => tail listed ++ hosts end).
Proof.
  intros Hset c hosts names. destruct (command_names _ manage_in) as [Hnames Hslots].
  destruct (command_slice _ _ _ _ _ _ _ Hnames Hslots Hset flHosts_in eq_refl) as [Hh Hhs].
  destruct (command_slice _ _ _ _ _ _ _ Hnames Hslots Hset flFilter_in eq_refl) as [Hn Hns].
  split.
  - unfold manage_names. simpl fl_StringSlice. rewrite (Hn "filter") by (vm_compute; by left).
    change (initial_slice Getenv flFilter flFilterValue) with filter_List. fold names.
    assert (Hs : fl_IsSet c "filter" || fl_IsSet c "f" = true ↔ names ≠ []) by (unfold c; by rewrite set_or).
    destruct (fl_IsSet c "filter" || fl_IsSet c "f").
    + destruct names; [by destruct (proj1 Hs eq_refl)|]. apply slice_from_app.
    + destruct names; [by rewrite app_nil_r|]. by discriminate (proj2 Hs).
  - unfold manage_hosts. simpl fl_StringSlice. rewrite (Hh "host") by (vm_compute; by left). fold hosts.
    assert (Hs : fl_IsSet c "host" || fl_IsSet c "H" = true ↔ hosts ≠ []) by (unfold c; by rewrite set_or).
    assert (Hi : initial_slice Getenv flHosts flHostsValue =
      if String.eqb (Getenv "SWARM_HOST") "" then flHostsValue else TrimSpace <$> Split_char "," (Getenv "SWARM_HOST")).
    { unfold initial_slice. rewrite env_hosts. by destruct (String.eqb (Getenv "SWARM_HOST") ""). }
    rewrite Hi. clear Hi. destruct (fl_IsSet c "host" || fl_IsSet c "H").
    + destruct hosts as [|h hosts']; [by destruct (proj1 Hs eq_refl)|]. destruct (String.eqb _ _).
      * apply (slice_from_app flHostsValue).
      * assert (Hne : ∃ x l, TrimSpace <$> Split_char "," (Getenv "SWARM_HOST") = x :: l).
        { destruct (Getenv "SWARM_HOST") as [|d s]; simpl; [eauto|]. destruct (Ascii.eqb d ","); [simpl; eauto|].
          destruct (Split_char "," s); simpl; eauto. }
        destruct Hne as (x & l & ->). done.
    + destruct hosts; [|by discriminate (proj2 Hs)]. rewrite app_nil_r. by destruct (String.eqb _ _).
Qed.

(** ** From the command line to the command *)

Section run.
Context (Getenv : string → string) (ParseInt : string → option Z) (ParseLevel : string → option string).
Context (ParseDuration : string → Z + string) (SplitHostPort : string → (string * string) + string).
Context (discovery_New : string → Z → Z → gmap string string → option string) (is_kv : string → bool).
Context (LoadX509KeyPair : string → string → option string) (ReadFile : string → string + string).
Context (ParseFloat : string → spec_float) (ParseIP : string → option string) (IsPrint : Z → bool).
(** What the discovery service sends first, its answer to a creation, and the name of the program *)
Context (first : option (Entries + string)) (post : string → response) (AppName : string).
(** The request of [scale], and the answer to it *)
Context (NewRequest : string → option string) (Do : string → list ScaleItem → string + string).

Inductive ran :=
  | printed
  | managing (m : Manager)
  | joining (j : Joining)
  | listed (entries : list string)
  | created (token : string)
  | scaling (lines : list string) (request : option sending).
(** [c.Action(context)] *)
Definition run_action (a : action) (c : Flags) : outcome ran :=
  match a with
  | a_create => created <$> create c post
  | a_list => listed <$> list_entries Getenv ParseDuration discovery_New c first
  | a_manage => managing <$> manage Getenv ParseDuration SplitHostPort discovery_New is_kv LoadX509KeyPair ReadFile
                                ParseFloat ParseIP IsPrint c
  | a_join => joining <$> join Getenv ParseDuration SplitHostPort discovery_New c
  | a_scale => (λ r, scaling r.1 r.2) <$> scale c NewRequest Do
  end.
(** [Run()]: an error, of the command line or of a command, is what [log.Fatal] prints. *)
Definition Run (arguments : list string) : outcome ran :=
  inv ← app_Run Getenv ParseInt ParseLevel arguments;
  match inv with
  | ShowHelp | ShowVersion => Ret printed
  | Invoke c set => run_action (cmd_Action c) (new_context ParseDuration AppName set)
  end.
End run.

Section concrete.
Definition decimal (s : string) : option Z := let '(z, ok) := Atoi s in if ok : bool then Some z else None.
Definition host_env (hosts : string) : string → string := λ name, if String.eqb name "SWARM_HOST" then hosts else "".
Definition run (hosts : string) (arguments : list string) : outcome ran :=
  Run (host_env hosts) decimal (λ _, None) seconds last_colon (λ _ _ _ _, None) (λ uri, HasPrefix uri "consul://")
    (λ _ _, None) (λ _, inl "") (λ _, S754_zero false) (λ _, None) (λ _, true) None (λ _, inr "")
    "swarm" (λ _, None) (λ _ _, inl "") arguments.
Definition hosts_of (r : outcome ran) : outcome (list string) :=
  r ← r; match r with managing m => Ret (mg_hosts m) | _ => Err "not a manager" end.
(** A manager with nothing but its discovery service passes every check. *)
Example manage_alone : hosts_of (run "" ["swarm"; "manage"; "consul://10.0.0.1"]) = Ret ["tcp://127.0.0.1:2375"].
Proof. vm_compute. reflexivity. Qed.
(** Flags may come after the arguments. *)
Example manage_host : hosts_of (run "" ["swarm"; "m"; "consul://10.0.0.1"; "-H"; ":4001"; "--host"; ":4002"]) =
  Err "Cannot use two forms of the same flag: H host".
Proof. vm_compute. reflexivity. Qed.
Example manage_hosts_given : hosts_of (run "" ["swarm"; "m"; "consul://10.0.0.1"; "-H"; ":4001"; "-H=:4002"]) = Ret [":4001"; ":4002"].
Proof. vm_compute. reflexivity. Qed.
(** A negative number of containers, after its flag. *)
Definition number_of (r : outcome ran) : outcome Z :=
  r ← r;
  match r with
  | scaling _ (Some (sent _ (item :: _) _)) => Ret (it_Number item)
  | _ => Err "not sent"
  end.
Example scale_number : number_of (run "" ["swarm"; "scale"; "-f"; "service==online"; "-n"; "-3"]) = Ret (-3).
Proof. vm_compute. reflexivity. Qed.
(** [SWARM_HOST] lists two hosts and the command line names a third: the second is kept. *)
Definition listing_hosts : string → string := host_env "tcp://a:1, tcp://b:2".
Lemma manage_hosts_spec_witness :
  ∃ set, command_set listing_hosts decimal cmd_manage ["manage"; "-H"; "tcp://c:3"] = Ret set ∧
    manage_hosts (new_context seconds "swarm" set) = Ret ["tcp://b:2"; "tcp://c:3"].
Proof.
  destruct (command_set listing_hosts decimal cmd_manage ["manage"; "-H"; "tcp://c:3"]) as [set|e|w] eqn:Hset.
  - exists set. split; [reflexivity|]. rewrite (proj2 (manage_hosts_spec _ _ seconds "swarm" _ _ Hset)). by vm_compute.
  - exfalso. vm_compute in Hset. discriminate Hset.
  - exfalso. vm_compute in Hset. discriminate Hset.
Defined.
(** The flags taken by hand in [Cli.v] are those of this command line. *)
Example default_flags_parsed :
  match command_set (λ _, "") decimal cmd_manage ["manage"; "--replication"; "--advertise"; "10.0.0.1:3375"; "consul://127.0.0.1:8500"] with
  | Ret set =>
      let c := new_context seconds "swarm" set in let d := default_flags ["replication"] "10.0.0.1:3375" in
      forallb (λ n, String.eqb (fl_String c n) (fl_String d n)) ["heartbeat"; "strategy"; "cluster-driver"; "replication-ttl"; "advertise"] &&
      forallb (λ n, Bool.eqb (fl_Bool c n) (fl_Bool d n)) ["tls"; "tlsverify"; "replication"; "refresh-on-node-filter"] &&
      forallb (λ n, fl_Int c n =? fl_Int d n) ["engine-refresh-retry"; "engine-failure-retry"] &&
      forallb (λ n, fl_Duration c n =? fl_Duration d n) ["engine-refresh-min-interval"; "engine-refresh-max-interval"] &&
      bool_decide (fl_Args c = fl_Args d)
  | _ => false
  end = true.
Proof. vm_compute. reflexivity. Qed.
End concrete.
