(* ===== verification/SwarmInfo.v ===== *)
(** * Volumes, builds, pulls and information of the swarm cluster ([cluster/swarm/cluster.go])

    The operations that go to all the engines, one goroutine each: the goroutines are run
    one after the other, in the order of the range loop, which is any order. *)
From S2P Require Import Prelude GoStrings Regexp Json Config Container Inventory EngineState EngineOps Node Strategy Filters Scheduler SwarmRegistry SwarmCluster ScaleUtils.
From Stdlib Require Import Ascii.

Section operations.
Context {W : Type} (api : ptr → DockerAPI W).
Context `{GoRegexp} `{GoJson} `{GoNet} `{MapRange} `{GoSort} (Intn : Z → Z).
Context (scheduler : Scheduler).

(** ** Volumes *)

(** What one goroutine does to the variables [volume] and [err] that they share. *)
Definition volume_turn (acc : option VolumeInfo * option error) (r : VolumeInfo + error)
    : option VolumeInfo * option error :=
  match r with
  | inl v => (Some v, None)
  | inr er => match acc.1 with None => (None, Some er) | Some _ => acc end
  end.
Fixpoint create_volumes (l : list ptr) (name driver : string) (acc : option VolumeInfo * option error)
    : C W (option VolumeInfo * option error) :=
  match l with
  | [] => mret acc
  | p :: l' =>
      r ← on api p (λ _, EngineOps.CreateVolume name driver);
      create_volumes l' name driver (volume_turn acc r)
  end.
(** [CreateVolume(request)], [random] being a random identifier.  On one node, the [err]
    that the engine's error goes to is not the one that is returned. *)
Definition cluster_CreateVolume (name driver random : string) : C W (option VolumeInfo * option error) :=
  let '(node, name) :=
    if String.eqb name "" then ("", random)
    else match SplitN2 name "/" with [node; name] => (node, name) | _ => ("", name) end in
  if String.eqb node "" then
    c ← get_cluster;
    create_volumes (range_map (cl_engines c)).*2 name driver (None, None)
  else
    nodes ← SelectNodes Intn scheduler (BuildContainerConfig (dc_set_Env ["constraint:node==" +:+ node] zero_DockerConfig)
                           zero_HostConfig zero_NetworkingConfig);
    match nodes with
    | inr err => mret (None, Some err)
    | inl [] => mret (None, None)
    | inl (n :: _) =>
        c ← get_cluster;
        p ← lift (deref (cl_engines c !! nd_ID n));
        r ← on api p (λ _, EngineOps.CreateVolume name driver);
        mret (match r with inl v => Some v | inr _ => None end, None)
    end.

(** ** Images *)

(** [Pull(name, authConfig, callback)]: what the callback is called with. *)
Fixpoint pull_each (l : list ptr) (name auth : string) : C W (list (string * string * option error)) :=
  match l with
  | [] => mret []
  | p :: l' =>
      c ← get_cluster;
      err ← on api p (λ _, EngineOps.Pull name auth);
      c' ← get_cluster;
      calls ← pull_each l' name auth;
      mret ((eng_Name (hdr_at c p), "", None)
              :: (eng_Name (hdr_at c' p), match err with Some _ => "" | None => "downloaded" end, err) :: calls)
  end.
Definition cluster_Pull (name auth : string) : C W (list (string * string * option error)) :=
  c ← get_cluster; pull_each (range_map (cl_engines c)).*2 name auth.

(** The configuration that a build is scheduled with, and the arguments it is left. *)
Definition build_config (o : ImageBuildOptions) : ContainerConfig :=
  BuildContainerConfig (dc_set_Env (convertMapToKVStrings (ib_BuildArgs o)) zero_DockerConfig)
    (hc_set_CPUShares (ib_CPUShares o) (hc_set_Memory (ib_Memory o) zero_HostConfig)) zero_NetworkingConfig.
Definition build_options (o : ImageBuildOptions) : ImageBuildOptions :=
  {| ib_BuildArgs := convertKVStringsToMap (dc_Env (cc_Config (build_config o)));
     ib_CPUShares := ib_CPUShares o; ib_Memory := ib_Memory o |}.
(** [BuildImage(buildContext, buildImage, out)]: [copy] is the error of writing the output
    to [out]. *)
Definition cluster_BuildImage (o : ImageBuildOptions) (content : string) (copy : string → option error)
    : C W (option error) :=
  lock ;;
  nodes ← SelectNodes Intn scheduler (build_config o);
  unlock ;;
  match nodes with
  | inr err => mret (Some err)
  | inl [] => lift (Panic "index out of range")
  | inl (n :: _) =>
      c ← get_cluster;
      p ← lift (deref (cl_engines c !! nd_ID n));
      r ← on api p (λ _, EngineOps.BuildImage (build_options o) content);
      match r with
      | inr err => mret (Some err)
      | inl output =>
          match copy output with
          | Some err => mret (Some err)
          | None =>
              c ← get_cluster;
              p ← lift (deref (cl_engines c !! nd_ID n));
              on api p (λ _, RefreshImages) ;;
              mret None
          end
      end
  end.

(** ** Information *)

(** The order of [skarademir/naturalsort], [BytesSize] of [go-units], and the time of a
    refresh in RFC 3339. *)
Context (natural_less : string → string → bool) (BytesSize : Z → string) (rfc3339 : Z → string).

(** [Less] of [EngineSorter] *)
Definition engine_less (a b : Engine) : bool := natural_less (eng_Name (e_hdr a)) (eng_Name (e_hdr b)).
(** The three counters of the loop over the containers. *)
Definition state_count : Type := (nat * nat * nat)%type.
Fixpoint count_states (l : list Container) (n : state_count) : outcome state_count :=
  match l with
  | [] => Ret n
  | c :: l' =>
      s ← deref (ci_State (ctr_Info c));
      let '(paused, running, stopped) := n in
      count_states l' (if cst_Paused s then (S paused, running, stopped)
                       else if cst_Running s then (paused, S running, stopped)
                       else (paused, running, S stopped))
  end.
Definition number (n : nat) : string := Itoa (Z.of_nat n).
Definition containers_line (e : Engine) : outcome string :=
  let l := Containers e in
  if IsHealthy e then
    n ← count_states l (O, O, O);
    let '(paused, running, stopped) := n in
    Ret (number (length l) +:+ " (" +:+ number running +:+ " Running, " +:+ number paused +:+ " Paused, "
         +:+ number stopped +:+ " Stopped)")
  else Ret (number (length l)).
(** The lines of one engine. *)
Definition engine_info (e : Engine) : outcome (list (string * string)) :=
  let h := e_hdr e in
  containers ← containers_line e;
  cpus ← UsedCpus e;
  memory ← UsedMemory e;
  let labels := go_sort String.ltb ((λ x, x.1 +:+ "=" +:+ x.2) <$> range_map (eng_Labels h)) in
  Ret ([(" " +:+ (if String.eqb (eng_Name h) "" then "(unknown)" else eng_Name h), eng_Addr h);
        ("  └ ID", eng_ID h); ("  └ Status", Status e); ("  └ Containers", containers);
        ("  └ Reserved CPUs", Itoa cpus +:+ " / " +:+ Itoa (TotalCpus e));
        ("  └ Reserved Memory", BytesSize memory +:+ " / " +:+ BytesSize (TotalMemory e));
        ("  └ Labels", Join labels ", ")] ++
       (if String.eqb (e_lastError e) "" then [] else [("  └ Error", e_lastError e)]) ++
       [("  └ UpdatedAt", rfc3339 (e_updatedAt e)); ("  └ ServerVersion", e_Version e)]).
(** [Info()] *)
Definition cluster_Info (c : Cluster) : outcome (list (string * string)) :=
  let engines := omap (λ p, cl_heap c !! p) (listEngines c) in
  lines ← omapM engine_info (go_sort engine_less engines);
  Ret ([("Strategy", strategy_Name (sch_strategy scheduler)); ("Filters", Scheduler_Filters scheduler);
        ("Nodes", number (size (cl_engines c) + size (cl_pendingEngines c)))] ++ mjoin lines).
End operations.

(** ** What creating a volume answers *)

(** The goroutines' common answer: the last volume that was created; an error, the last
    one, when none was. *)
Definition volume_of_answer (r : VolumeInfo + error) : option VolumeInfo :=
  match r with inl v => Some v | inr _ => None end.
Definition error_of_answer (r : VolumeInfo + error) : option error :=
  match r with inl _ => None | inr e => Some e end.
Definition common_answer (rs : list (VolumeInfo + error)) : option VolumeInfo * option error :=
  match last (omap volume_of_answer rs) with
  | Some v => (Some v, None)
  | None => (None, last (omap error_of_answer rs))
  end.
Lemma volume_turns rs : foldl volume_turn (None, None) rs = common_answer rs.
Proof.
  induction rs as [|r rs IH] using rev_ind; [done|].
  rewrite foldl_app, IH. unfold common_answer. rewrite !omap_app. destruct r as [v|er]; simpl.
  - by rewrite last_snoc.
  - rewrite app_nil_r, last_snoc. by destruct (last (omap volume_of_answer rs)).
Qed.

Section volumes.
Context {W : Type} (api : ptr → DockerAPI W).
Context `{GoRegexp} `{GoJson} `{GoNet} `{MapRange} `{GoSort} (Intn : Z → Z) (scheduler : Scheduler).
Implicit Types st : ClusterSt W.
(** [x] is what the client of [p] answers to the creation, in some state of the world: the
    daemon's answer, or the error of an engine whose client has been closed. *)
Definition daemon_answers (name driver : string) (p : ptr) (x : VolumeInfo + error) : Prop :=
  x = inr errNoEngine ∨ ∃ w, (@api_VolumeCreate W (api p) name driver w).2 = x.
Lemma on_CreateVolume p name driver st x st' :
  on api p (λ _, EngineOps.CreateVolume name driver) st = (Ret x, st') → daemon_answers name driver p x.
Proof.
  unfold on. destruct (cl_heap (cs_cluster st) !! p) as [e|]; [|done].
  destruct (EngineOps.CreateVolume _ _ _) as [a st1] eqn:Hc. intros [= <- _].
  revert Hc. unfold EngineOps.CreateVolume, mbind at 1, M_bind at 1, call. simpl.
  destruct (e_connected e).
  2: { unfold mbind, M_bind. destruct (CheckConnectionErr _ _) as [? st2]. intros [= <- _]. by left. }
  destruct (api_VolumeCreate name driver (cs_world st)) as [w x] eqn:Hx. unfold mbind, M_bind.
  destruct (CheckConnectionErr _ _) as [? st2]. intros Hr. right. exists (cs_world st). rewrite Hx.
  destruct x as [v|er]; [|by injection Hr as <- _]. simpl in Hr.
  destruct (refreshVolume _ st2). by injection Hr as <- _.
Qed.
Lemma create_volumes_run l name driver acc st r st' :
  create_volumes api l name driver acc st = (Ret r, st') →
  ∃ rs, Forall2 (daemon_answers name driver) l rs ∧ r = foldl volume_turn acc rs.
Proof.
  revert acc st. induction l as [|p l IH]; intros acc st; simpl.
  { intros [= <- _]. by exists []. }
  intros (x & st1 & Hx & Hrun)%C_bind_Ret. apply on_CreateVolume in Hx.
  destruct (IH _ _ Hrun) as (rs & Hrs & ->). exists (x :: rs). by split; [constructor|].
Qed.
(** A volume asked for without a node is created on every engine.  The answer is one of
    the volumes created if there is any, and one of the errors otherwise: the failure of
    some of the engines is not reported, and on a cluster without engines the answer is
    neither a volume nor an error. *)
Theorem CreateVolume_answer name driver random st r st' :
  name ≠ "" → Contains name "/" = false →
  cluster_CreateVolume api Intn scheduler name driver random st = (Ret r, st') →
  let engines := (range_map (cl_engines (cs_cluster st))).*2 in
  ∃ rs, Forall2 (daemon_answers name driver) engines rs ∧ r = common_answer rs ∧
    (r.1 = None ↔ ∀ x, x ∈ rs → ∃ e, x = inr e) ∧
    (r = (None, None) ↔ engines = []).
Proof.
  intros Hne Hslash Hrun engines. unfold cluster_CreateVolume in Hrun.
  apply String.eqb_neq in Hne. rewrite Hne in Hrun.
  assert (SplitN2 name "/" = [name]) as Hs.
  { unfold SplitN2. unfold GoStrings.Contains in Hslash. by destruct (cut "/" name). }
  rewrite Hs in Hrun. simpl in Hrun.
  apply C_bind_Ret in Hrun as (c & st1 & [= <- <-] & Hrun).
  destruct (create_volumes_run _ _ _ _ _ _ _ Hrun) as (rs & Hrs & ->). rewrite volume_turns.
  exists rs. split; [done|]. split; [done|].
  split.
  - unfold common_answer. destruct (last (omap volume_of_answer rs)) as [v|] eqn:Hl; simpl.
    + split; [done|]. intros Hall. apply last_Some_elem_of, list_elem_of_omap in Hl as (x & Hx & Hv).
      destruct (Hall x Hx) as [e ->]. done.
    + split; [|done]. intros _ [v|e] Hx; [|by eexists]. apply last_None in Hl.
      assert (v ∈ omap volume_of_answer rs) as Hv by (apply list_elem_of_omap; by exists (inl v)).
      rewrite Hl in Hv. by apply elem_of_nil in Hv.
  - split.
    + unfold common_answer. destruct (last (omap volume_of_answer rs)) as [v|] eqn:Hl; [done|].
      intros [= He]. apply last_None in Hl, He. destruct Hrs as [|p [v|e] l rs _ _]; [done|..]; done.
    + intros Hnil. unfold engines in Hnil. rewrite Hnil in Hrs. by inversion Hrs.
Qed.
(** The configuration that stands for a volume's node in the scheduling. *)
Definition volume_config (node : string) : ContainerConfig :=
  BuildContainerConfig (dc_set_Env ["constraint:node==" +:+ node] zero_DockerConfig)
    zero_HostConfig zero_NetworkingConfig.
(** A volume asked for on a node is created on the first node of the scheduler's choice;
    whatever that engine answers, no error is returned: the answer to a failure is
    neither a volume nor an error. *)
Theorem CreateVolume_on_node name node volume driver random st r st' :
  node ≠ "" → SplitN2 name "/" = [node; volume] → name ≠ "" →
  cluster_CreateVolume api Intn scheduler name driver random st = (Ret r, st') →
  ∃ chosen st1, SelectNodes Intn scheduler (volume_config node) st = (Ret chosen, st1) ∧
    match chosen with
    | inr err => r = (None, Some err)
    | inl [] => r = (None, None)
    | inl (n :: _) => ∃ p x, cl_engines (cs_cluster st1) !! nd_ID n = Some p ∧
        daemon_answers volume driver p x ∧ r = (volume_of_answer x, None)
    end.
Proof.
  intros Hnode Hsplit Hne Hrun. unfold cluster_CreateVolume in Hrun.
  apply String.eqb_neq in Hne, Hnode. rewrite Hne, Hsplit, Hnode in Hrun.
  apply C_bind_Ret in Hrun as (chosen & st1 & Hsel & Hrun). exists chosen, st1. split; [done|].
  destruct chosen as [[|n nodes]|err]; [by injection Hrun as <- _| |by injection Hrun as <- _].
  apply C_bind_Ret in Hrun as (c & st2 & [= <- <-] & Hrun).
  apply C_bind_Ret in Hrun as (p & st2 & Hp & Hrun).
  destruct (cl_engines (cs_cluster st1) !! nd_ID n) as [p'|]; [|done]. injection Hp as <- <-.
  apply C_bind_Ret in Hrun as (x & st3 & Hx & Hrun). apply on_CreateVolume in Hx.
  exists p', x. split_and!; [done..|]. injection Hrun as <- _. by destruct x.
Qed.
End volumes.

Section concrete.
Existing Instances re2 json_strings net_zero canonical_range insertion_sort.
Definition create_volume (name : string) :=
  cluster_CreateVolume quiet_api (λ _, 0) constraint_scheduler name "local" "random" one_engine.
Lemma CreateVolume_answer_witness :
  ∃ rs, Forall2 (daemon_answers quiet_api "data" "local") [0%nat] rs ∧
    common_answer rs = (Some {| vi_Name := "data"; vi_Driver := "local" |}, None).
Proof.
  destruct (create_volume "data") as [[r|e|w] st'] eqn:Hr.
  2, 3: exfalso; assert (match (create_volume "data").1 with Ret _ => true | _ => false end = true) as Hc
    by (clear; vm_compute; reflexivity); rewrite Hr in Hc; discriminate Hc.
  destruct (CreateVolume_answer quiet_api (λ _, 0) constraint_scheduler "data" "local" "random" one_engine r st')
    as (rs & Hrs & Heq & _ & _); [done|by vm_compute|exact Hr|].
  exists rs. split.
  - replace [0%nat] with (range_map (cl_engines (cs_cluster one_engine))).*2 by (vm_compute; reflexivity).
    exact Hrs.
  - rewrite <- Heq. assert ((create_volume "data").1 = Ret (Some {| vi_Name := "data"; vi_Driver := "local" |}, None))
      as Hc by (clear; vm_compute; reflexivity).
    rewrite Hr in Hc. by injection Hc.
Defined.
(** A volume on a node that no engine has the name of. *)
Example no_such_node : match (create_volume "nowhere/data").1 with Ret (None, Some _) => true | _ => false end = true.
Proof. vm_compute. reflexivity. Qed.
Lemma CreateVolume_on_node_witness :
  ∃ p x, daemon_answers quiet_api "data" "local" p x ∧
    (create_volume "node/data").1 = Ret (volume_of_answer x, None).
Proof.
  destruct (create_volume "node/data") as [[r|e|w] st'] eqn:Hr.
  2, 3: exfalso; assert (match (create_volume "node/data").1 with Ret _ => true | _ => false end = true) as Hc
    by (clear; vm_compute; reflexivity); rewrite Hr in Hc; discriminate Hc.
  destruct (CreateVolume_on_node quiet_api (λ _, 0) constraint_scheduler "node/data" "node" "data" "local" "random"
    one_engine r st') as (chosen & st1 & _ & Hcase); [done|by vm_compute|done|exact Hr|].
  destruct chosen as [[|n nodes]|err].
  1, 3: exfalso; assert (match (create_volume "node/data").1 with Ret (Some _, _) => true | _ => false end = true) as Hc
    by (clear; vm_compute; reflexivity); rewrite Hr in Hc; simpl in Hc; rewrite Hcase in Hc; discriminate Hc.
  destruct Hcase as (p & x & _ & Hx & Heq). exists p, x. split; [exact Hx|]. exact (f_equal Ret Heq).
Defined.
End concrete.
