(* ===== verification/SwarmStreams.v ===== *)
(** * Images sent to all the engines ([cluster/swarm/cluster.go], [Load] and [Import])

    The image that is uploaded is copied, chunk by chunk, into one pipe per engine, while a
    goroutine per engine hands the other end to the engine's daemon.  A pipe whose reader
    is closed refuses the chunk, and [io.MultiWriter] stops at the first refusal. *)
From S2P Require Import Prelude GoStrings Json Config Container Inventory EngineState EngineOps SwarmRegistry SwarmCluster.

(** ** The copy *)

(** A pipe: how many more chunks its reader takes before it closes, if it does, and what it
    has taken. *)
Record pipe := { pp_left : option nat; pp_read : list string }.
Definition new_pipe (left : option nat) : pipe := {| pp_left := left; pp_read := [] |}.
(** One [Write] of the [MultiWriter]: the pipes in order, up to the first that is closed. *)
Fixpoint MultiWriter_Write (chunk : string) (ws : list pipe) : list pipe * bool :=
  match ws with
  | [] => ([], true)
  | w :: ws =>
      match pp_left w with
      | Some O => (w :: ws, false)
      | more =>
          let '(ws', ok) := MultiWriter_Write chunk ws in
          ({| pp_left := option_map pred more; pp_read := pp_read w ++ [chunk] |} :: ws', ok)
      end
  end.
(** [io.Copy(multiWriter, imageReader)] *)
Fixpoint Copy (chunks : list string) (ws : list pipe) : list pipe :=
  match chunks with
  | [] => ws
  | chunk :: chunks =>
      let '(ws, ok) := MultiWriter_Write chunk ws in
      if ok : bool then Copy chunks ws else ws
  end.
Definition content (chunks : list string) : string := String.concat "" chunks.

Section streams.
Context {W : Type} (api : ptr → DockerAPI W) `{GoJson} `{MapRange}.

(** The pipes of the engines, [left p] being how much the daemon of [p] reads. *)
Definition pipes_after (chunks : list string) (left : ptr → option nat) (ps : list ptr) : list (ptr * string) :=
  zip ps ((λ w, content (pp_read w)) <$> Copy chunks ((new_pipe ∘ left) <$> ps)).
(** [Load(imageReader, callback)]: what the callback is called with. *)
Fixpoint load_each (l : list (ptr * string)) : C W (list (string * string * option error)) :=
  match l with
  | [] => mret []
  | (p, read) :: l =>
      err ← on api p (λ _, EngineOps.Load read);
      c ← get_cluster;
      calls ← load_each l;
      mret (match err with Some err => (eng_Name (hdr_at c p), "", Some err) :: calls | None => calls end)
  end.
Definition cluster_Load (chunks : list string) (left : ptr → option nat) : C W (list (string * string * option error)) :=
  c ← get_cluster;
  load_each (pipes_after chunks left (range_map (cl_engines c)).*2).
(** [Import(source, ref, tag, imageReader, callback)] *)
Fixpoint import_each (source ref tag : string) (l : list (ptr * string)) : C W (list (string * string * option error)) :=
  match l with
  | [] => mret []
  | (p, read) :: l =>
      err ← on api p (λ _, EngineOps.Import source ref tag read);
      c ← get_cluster;
      calls ← import_each source ref tag l;
      mret ((eng_Name (hdr_at c p), match err with Some _ => "" | None => "Import success" end, err) :: calls)
  end.
Definition cluster_Import (source ref tag : string) (chunks : list string) (left : ptr → option nat)
    : C W (list (string * string * option error)) :=
  c ← get_cluster;
  import_each source ref tag (pipes_after chunks left (range_map (cl_engines c)).*2).
End streams.

(** ** What the engines read *)

(** Two copies of the same stream: what they have read is a beginning of it. *)
Definition reads_from (chunks : list string) (w : pipe) : Prop := pp_read w `prefix_of` chunks.
Lemma Write_pipes chunk seen ws ws' ok :
  MultiWriter_Write chunk ws = (ws', ok) → Forall (λ w, pp_read w = seen) ws →
  Forall (λ w, pp_read w = seen ∨ pp_read w = seen ++ [chunk]) ws' ∧ length ws' = length ws ∧
  (if ok then Forall (λ w, pp_read w = seen ++ [chunk]) ws' else ∃ w, w ∈ ws ∧ pp_left w = Some O).
Proof.
  revert ws' ok. induction ws as [|w ws IH]; intros ws' ok; simpl; [by intros [= <- <-]|].
  intros Hw [Hs Hall]%Forall_cons. destruct (MultiWriter_Write chunk ws) as [ws1 ok1] eqn:H1.
  destruct (IH _ _ eq_refl Hall) as (Hf & Hl & Hr).
  destruct (pp_left w) as [[|n]|] eqn:Hleft; injection Hw as <- <-.
  - split_and!; [constructor; [by left|]|done|by exists w; split; [left|]].
    eapply Forall_impl; [exact Hall|]. intros x; simpl. by left.
  - split_and!; [constructor; [right; simpl; by rewrite Hs|done]|simpl; by rewrite Hl|].
    destruct ok1; [constructor; [simpl; by rewrite Hs|done]|].
    destruct Hr as (x & Hx & ?). exists x. split; [by right|done].
  - split_and!; [constructor; [right; simpl; by rewrite Hs|done]|simpl; by rewrite Hl|].
    destruct ok1; [constructor; [simpl; by rewrite Hs|done]|].
    destruct Hr as (x & Hx & ?). exists x. split; [by right|done].
Qed.
Lemma Write_left chunk ws ws' ok :
  MultiWriter_Write chunk ws = (ws', ok) → Forall (λ w, pp_left w = None) ws → ok = true ∧ Forall (λ w, pp_left w = None) ws'.
Proof.
  revert ws' ok. induction ws as [|w ws IH]; intros ws' ok; simpl; [by intros [= <- <-]|].
  intros Hw [Hn Hall]%Forall_cons. rewrite Hn in Hw. destruct (MultiWriter_Write chunk ws) as [ws1 ok1].
  destruct (IH _ _ eq_refl Hall) as [-> Hf]. injection Hw as <- <-. split; [done|by constructor].
Qed.
Lemma Copy_prefix chunks seen ws :
  Forall (λ w, pp_read w = seen) ws →
  Forall (reads_from (seen ++ chunks)) (Copy chunks ws) ∧ length (Copy chunks ws) = length ws ∧
  (Forall (λ w, pp_left w = None) ws → Forall (λ w, pp_read w = seen ++ chunks) (Copy chunks ws)).
Proof.
  revert seen ws. induction chunks as [|chunk chunks IH]; intros seen ws Hseen; simpl.
  { rewrite app_nil_r. split_and!; [|done|done]. eapply Forall_impl; [exact Hseen|]. intros w <-. unfold reads_from. reflexivity. }
  destruct (MultiWriter_Write chunk ws) as [ws' ok] eqn:Hw.
  destruct (Write_pipes _ _ _ _ _ Hw Hseen) as (Hf & Hl & Hr). destruct ok.
  - destruct (IH _ _ Hr) as (Hp & Hl' & Hfull). rewrite <- app_assoc in *. split_and!; [done|congruence|].
    intros Hn. apply Hfull. by eapply Write_left.
  - split_and!; [|done|].
    + eapply Forall_impl; [exact Hf|]. intros w [Hr'|Hr']; unfold reads_from; rewrite Hr'.
      * by apply prefix_app_r.
      * exists chunks. by rewrite <- app_assoc.
    + intros Hn. apply (Write_left _ _ _ _ Hw) in Hn as [? _]. done.
Qed.

(** ** One engine spoils the others *)

Section concrete.
Existing Instances json_strings canonical_range.
(** One daemon refuses the image at once: the ones that come after it are given nothing,
    and the ones before it one chunk, as if that were the whole image. *)
Theorem one_refusal_truncates :
  pipes_after ["layer1"; "layer2"; "layer3"] (λ p, if decide (p = 1%nat) then Some 0%nat else None) [0; 1; 2]%nat
  = [(0%nat, "layer1"); (1%nat, ""); (2%nat, "")] ∧
  pipes_after ["layer1"; "layer2"; "layer3"] (λ _, None) [0; 1; 2]%nat
  = [(0%nat, "layer1layer2layer3"); (1%nat, "layer1layer2layer3"); (2%nat, "layer1layer2layer3")].
Proof. by vm_compute. Qed.
End concrete.
