(* ===== verification/ApiList.v ===== *)
(** * The listings of the HTTP API ([api/handlers.go])

    The handlers that only read the cluster: the counters of [/info], and the lists of the
    containers, images, networks and volumes, with their filters. *)
From S2P Require Import Prelude GoStrings Regexp Json Config Container Inventory EngineState EngineOps Filters SwarmRegistry SwarmCluster SwarmInfo.
From Stdlib Require Import Ascii.

(** ** Filters ([filters.Args]) *)

(** [filters.Add(name, value)] *)
Definition Args_Add (name value : string) (f : Args) : Args :=
  <[name := <[value := true]> (default ∅ (f !! name))]> f.
Section args.
Context `{GoRegexp} `{MapRange}.
(** [filters.Match(field, source)]: one of the values, or a match of one as a regular
    expression; a value that is none is skipped. *)
Definition Args_Match (f : Args) (field source : string) : bool :=
  Args_ExactMatch f field source ||
  existsb (λ name2match, default false (MatchString name2match source)) (Args_Get f field).
End args.

(** ** Information *)

(** [types.Info]: the fields that depend on the cluster. *)
Record Info := {
  inf_Images : nat;
  inf_NEventsListener : nat;
  inf_NCPU : Z;
  inf_MemTotal : Z;
  inf_Containers : nat;
  inf_Paused : nat;
  inf_Running : nat;
  inf_Stopped : nat;
  inf_DriverStatus : list (string * string);
  inf_SystemStatus : list (string * string)
}.
Definition backspace : ascii := "008".
(** A line of the status for a client older than 1.22. *)
Definition old_line (line : string * string) : outcome (string * string) :=
  match line.1 with
  | EmptyString => Panic "slice bounds out of range"
  | String c rest => Ret (if Ascii.eqb c " " then rest else String backspace line.1, line.2)
  end.

Section info.
Context `{GoRegexp} `{GoJson} `{MapRange}.
(** [getInfo]: [listeners] is the number of the listeners of the events and [status] the
    lines of the status handler. *)
Definition getInfo (c : Cluster) (listeners : nat) (status : list (string * string)) (apiVersion : string)
    : outcome Info :=
  let old := negb (String.eqb apiVersion "") && LessThan apiVersion "1.22" in
  lines ← (if old then omapM old_line status else Ret status);
  let containers := cluster_Containers c in
  n ← count_states containers (O, O, O);
  let '(paused, running, stopped) := n in
  Ret {| inf_Images := length (Images_Filter false ∅ (cluster_Images c)); inf_NEventsListener := listeners;
         inf_NCPU := cluster_TotalCpus c; inf_MemTotal := cluster_TotalMemory c;
         inf_Containers := length containers; inf_Paused := paused; inf_Running := running; inf_Stopped := stopped;
         inf_DriverStatus := if old then lines else []; inf_SystemStatus := if old then [] else lines |}.
End info.

(** ** Images *)

(** The first occurrence of each value, in order. *)
Definition dedup (l : list string) : list string :=
  foldl (λ result val, if decide (val ∈ result) then result else result ++ [val]) [] l.
Definition img_set_refs (tags digests : list string) (i : Image) : Image :=
  {| img_ID := img_ID i; img_RepoTags := tags; img_RepoDigests := digests; img_Labels := img_Labels i;
     img_Created := img_Created i; img_Engine := img_Engine i |}.

Section images.
Context `{GoRegexp} `{GoJson} `{MapRange} `{GoSort}.
(** The loop that gathers the images of the engines by identifier. *)
Definition group_step (m : gmap string Image) (image : Image) : gmap string Image :=
  match m !! img_ID image with
  | Some entry =>
      <[img_ID image := img_set_refs (img_RepoTags entry ++ img_RepoTags image)
                                     (img_RepoDigests entry ++ img_RepoDigests image) entry]> m
  | None => <[img_ID image := image]> m
  end.
Definition on_accepted_node (c : Cluster) (accepteds : list string) (i : Image) : bool :=
  bool_decide (accepteds = []) ||
  existsb (λ accepted, String.eqb accepted (eng_Name (hdr_at c (img_Engine i)))
                       || String.eqb accepted (eng_ID (hdr_at c (img_Engine i)))) accepteds.
(** [Less] of [ImageSorter] *)
Definition image_less (a b : Image) : bool := img_Created a <? img_Created b.
(** The images that the filters leave: [filter] is the deprecated one. *)
Definition chosen_images (c : Cluster) (All : bool) (filters : Args) (filter apiVersion : string) : list Image :=
  let filters := if LessThan apiVersion "1.28" && negb (String.eqb filter "")
                 then Args_Add "reference" filter filters else filters in
  List.filter (on_accepted_node c (Args_Get filters "node")) (Images_Filter All filters (cluster_Images c)).
(** [getImagesJSON] once the parameters are parsed. *)
Definition getImagesJSON (c : Cluster) (All : bool) (filters : Args) (filter apiVersion : string) : list Image :=
  let images := (range_map (foldl group_step ∅ (chosen_images c All filters filter apiVersion))).*2 in
  go_sort (λ a b, image_less b a)
    ((λ i, img_set_refs (dedup (img_RepoTags i)) (dedup (img_RepoDigests i)) i) <$> images).

(** [getImages]: the engine that the request is forwarded to. *)
Definition names_image (name : string) (i : Image) : bool :=
  Image_Match i name (length (SplitN2 name ":") =? 2)%nat.
Definition holds_all (names : list string) (images : list Image) : bool :=
  forallb (λ name, existsb (names_image name) images) names.
Definition engine_images (c : Cluster) (p : ptr) : list Image :=
  List.filter (λ i, bool_decide (img_Engine i = p)) (cluster_Images c).
(** The engines that have images, in the order of a range loop over them. *)
Definition getImages (c : Cluster) (order : list ptr → list ptr) (names : list string) : option ptr :=
  List.find (λ p, holds_all names (engine_images c p)) (order (img_Engine <$> cluster_Images c)).
End images.

(** ** Networks and volumes *)

Section inventory.
Context `{GoJson} `{MapRange}.
Definition net_set_Name (name : string) (n : Network) : Network :=
  {| net_ID := net_ID n; net_Name := name; net_Scope := net_Scope n; net_Driver := net_Driver n;
     net_Labels := net_Labels n; net_Containers := net_Containers n; net_Engine := net_Engine n |}.
(** [getNetworks], or the type that is refused. *)
Definition getNetworks (c : Cluster) (filters : Args) : list Network + string :=
  match List.find (λ typ, negb (String.eqb typ "custom") && negb (String.eqb typ "builtin")) (Args_Get filters "type") with
  | Some typ => inr ("Invalid filter: 'type'='" +:+ typ +:+ "'")
  | None =>
      inl ((λ n, if String.eqb (net_Scope n) "local"
                 then net_set_Name (eng_Name (hdr_at c (net_Engine n)) +:+ "/" +:+ net_Name n) n else n)
             <$> Networks_Filter (hdr_at c) filters (cluster_Networks c))
  end.
(** [getNetwork] *)
Definition getNetwork (c : Cluster) (id : string) : Network + string :=
  match Networks_Get (hdr_at c) (Networks_Uniq (cluster_Networks c)) id with
  | Some network => inl (RemoveDuplicateEndpoints network)
  | None => inr ("No such network: " +:+ id)
  end.
Definition getVolume (c : Cluster) (name : string) : Volume + string :=
  match Volumes_Get (hdr_at c) (cluster_Volumes c) name with
  | Some volume => inl volume
  | None => inr ("No such volume: " +:+ name)
  end.
Definition vol_set_Name (name : string) (v : Volume) : Volume :=
  {| vol_Name := name; vol_Driver := vol_Driver v; vol_Engine := vol_Engine v |}.
(** [getVolumes] *)
Definition getVolumes (c : Cluster) (filters : Args) : list Volume :=
  let names := Args_Get filters "name" in
  (λ v, if String.eqb (vol_Driver v) "local"
        then vol_set_Name (eng_Name (hdr_at c (vol_Engine v)) +:+ "/" +:+ vol_Name v) v else v)
    <$> List.filter (λ v, negb ((0 <? Z.of_nat (length names)) && negb (existsb (Contains (vol_Name v)) names)))
                    (cluster_Volumes c).
End inventory.

(** ** Containers *)

(** The parameters of [getContainersJSON]. *)
Record ListQuery := {
  lq_all : bool;
  lq_limit : Z;
  lq_before : option Container;
  lq_filters : Args;
  lq_exited : list Z
}.
(** An element of the answer: the copy of [types.Container] with its new status. *)
Record ListedAnswer := { la_Container : ListedContainer; la_Status : string }.

Section containers.
Context `{GoRegexp} `{GoJson} `{GoNet} `{MapRange} `{GoSort}.
Context (ParseTime : string → Z) (Now : Z) (HumanDuration : Z → string).

Definition healthy_at (c : Cluster) (p : ptr) : bool :=
  match cl_heap c !! p with Some e => IsHealthy e | None => false end.
Definition mounted (mounts : list MountPoint) (value : string) : bool :=
  existsb (λ m, String.eqb (mp_Name m) value || String.eqb (mp_Destination m) value) mounts.
(** The body of the loop that selects the candidates. *)
Definition selected (c : Cluster) (q : ListQuery) (x : Container) : outcome bool :=
  let filters := lq_filters q in
  state ← deref (ci_State (ctr_Info x));
  if (negb (cst_Running state) || negb (healthy_at c (ctr_Engine x))) && negb (lq_all q)
     && bool_decide (lq_before q = None) && (lq_limit q <=? 0) then Ret false
  else if bool_decide (head (Split_char ":" (lc_Image (ctr_Container x))) = Some "swarm") && negb (lq_all q) then Ret false
  else if negb (match ctr_Names x with
                | name :: _ => Args_Match filters "name" (TrimPrefix name "/")
                | [] => bool_decide (Args_Get filters "name" = [])
                end) then Ret false
  else if negb (Args_Match filters "id" (ctr_ID x)) then Ret false
  else
    config ← deref (ctr_Config x);
    Ret (Args_MatchKVList filters "label" (cc_Labels config)
         && Args_Match filters "status" (StateString ParseTime state)
         && Args_Match filters "node" (eng_Name (hdr_at c (ctr_Engine x)))
         && (negb (Args_Include filters "volume")
             || existsb (mounted (ci_Mounts (ctr_Info x))) (Args_Get filters "volume"))
         && (bool_decide (lq_exited q = [])
             || existsb (λ code, (code =? cst_ExitCode state) && negb (cst_Running state)) (lq_exited q))).
(** [Less] of [ContainerSorter] *)
Definition container_less (a b : Container) : bool := String.ltb (ci_Created (ctr_Info a)) (ci_Created (ctr_Info b)).
(** The loop skips the containers up to the one that is [before]. *)
Fixpoint after_before (before : option string) (l : list Container) : list Container :=
  match l with
  | [] => []
  | x :: l =>
      match before with
      | Some id => after_before (if String.eqb (ctr_ID x) id then None else Some id) l
      | None => x :: after_before None l
      end
  end.
Definition limited (limit : Z) (l : list Container) : list Container :=
  if (0 <? limit) && (limit <? Z.of_nat (length l)) then take (Z.to_nat limit) l else l.
(** The containers of the answer. *)
Definition listed_containers (c : Cluster) (q : ListQuery) : outcome (list Container) :=
  candidates ← ofilter (selected c q) (cluster_Containers c);
  Ret (after_before (ctr_ID <$> lq_before q) (limited (lq_limit q) (go_sort (λ a b, container_less b a) candidates))).
(** A container as it is shown. *)
Definition shown (c : Cluster) (x : Container) : outcome ListedAnswer :=
  let e := hdr_at c (ctr_Engine x) in
  state ← deref (ci_State (ctr_Info x));
  config ← deref (ctr_Config x);
  let tmp := ctr_Container x in
  Ret {| la_Container :=
           {| lc_ID := lc_ID tmp; lc_Names := (λ name, "/" +:+ eng_Name e +:+ name) <$> ctr_Names x;
              lc_Labels := cc_Labels config; lc_State := lc_State tmp; lc_Created := lc_Created tmp;
              lc_Image := lc_Image tmp;
              lc_Ports := (λ port, if IsUnspecified (port_IP port)
                                   then {| port_IP := eng_IP e; port_PrivatePort := port_PrivatePort port;
                                           port_PublicPort := port_PublicPort port; port_Type := port_Type port |}
                                   else port) <$> lc_Ports tmp |};
         la_Status := if healthy_at c (ctr_Engine x) then FullStateString ParseTime Now HumanDuration state
                      else "Host Down" |}.
End containers.

(** ** What is listed *)

Section lists.
Context `{GoRegexp} `{GoJson} `{GoNet} `{MapRange} `{GoSort} (ParseTime : string → Z).
Implicit Types (l : list Container) (q : ListQuery).

Lemma after_before_sublist b l : after_before b l `sublist_of` l.
Proof.
  revert b. induction l as [|x l IH]; intros b; simpl; [done|].
  destruct b as [id|]; [apply sublist_cons, IH|apply sublist_skip, IH].
Qed.
Lemma after_before_None l : after_before None l = l.
Proof. induction l as [|x l IH]; simpl; [done|]. by rewrite IH. Qed.
Lemma after_before_unknown id l : (∀ x, x ∈ l → ctr_ID x ≠ id) → after_before (Some id) l = [].
Proof.
  induction l as [|x l IH]; intros Hl; simpl; [done|].
  destruct (String.eqb_spec (ctr_ID x) id); [by destruct (Hl x); [left|]|]. apply IH. intros y Hy. apply Hl. by right.
Qed.
(** The one that is skipped over is not listed. *)
Lemma after_before_shorter id l : l ≠ [] → (length (after_before (Some id) l) < length l)%nat.
Proof.
  destruct l as [|x l]; [done|]. intros _. simpl.
  destruct (String.eqb _ _); pose proof (sublist_length _ _ (after_before_sublist None l));
    pose proof (sublist_length _ _ (after_before_sublist (Some id) l)); lia.
Qed.
Lemma limited_sublist limit l : limited limit l `sublist_of` l.
Proof. unfold limited. destruct (_ && _); [|done]. apply sublist_take. Qed.
Lemma limited_length limit l : 0 < limit → Z.of_nat (length (limited limit l)) ≤ limit.
Proof.
  intros Hl. unfold limited. destruct (0 <? limit) eqn:Hp, (limit <? Z.of_nat (length l)) eqn:Hq; simpl; try lia.
  rewrite length_take. lia.
Qed.

End lists.

(** ** The images by identifier *)

Lemma forallb_false {A} (f : A → bool) l : forallb f l = false → ∃ x, x ∈ l ∧ f x = false.
Proof.
  induction l as [|x l IH]; simpl; [done|]. destruct (f x) eqn:Hx; simpl.
  - intros (y & ? & ?)%IH. exists y. split; [by right|done].
  - intros _. exists x. split; [by left|done].
Qed.
Lemma existsb_false {A} (f : A → bool) l : existsb f l = false → ∀ x, x ∈ l → f x = false.
Proof.
  intros Hf x Hx. destruct (f x) eqn:He; [|done]. rewrite <- Hf. symmetry. apply existsb_exists.
  exists x. split; [by apply list_elem_of_In|done].
Qed.

Lemma dedup_spec l : NoDup (dedup l) ∧ ∀ x, x ∈ dedup l ↔ x ∈ l.
Proof.
  unfold dedup. induction l as [|v l [IH1 IH2]] using rev_ind; [split; [constructor|done]|].
  rewrite foldl_app. simpl. case_decide as Hin.
  - split; [done|]. intros x. rewrite elem_of_app, list_elem_of_singleton, IH2.
    split; [by left|]. intros [?| ->]; [done|]. by apply IH2.
  - split.
    + apply NoDup_app. split_and!; [done| |apply NoDup_singleton].
      intros x Hx ->%list_elem_of_singleton. done.
    + intros x. by rewrite !elem_of_app, IH2.
Qed.

Section grouping.
Context `{GoRegexp} `{GoJson} `{MapRange} `{GoSort}.
Implicit Types (l : list Image) (m : gmap string Image).
(** [e] has the references of the images of [l] that have its identifier. *)
Definition gathers l (e : Image) : Prop :=
  (∃ j, j ∈ l ∧ img_ID j = img_ID e) ∧
  (∀ t, t ∈ img_RepoTags e ↔ ∃ j, j ∈ l ∧ img_ID j = img_ID e ∧ t ∈ img_RepoTags j) ∧
  (∀ t, t ∈ img_RepoDigests e ↔ ∃ j, j ∈ l ∧ img_ID j = img_ID e ∧ t ∈ img_RepoDigests j).
Definition group_inv l m : Prop :=
  ∀ id, match m !! id with
        | None => ∀ j, j ∈ l → img_ID j ≠ id
        | Some e => img_ID e = id ∧ gathers l e
        end.
Lemma gathers_other l e i : img_ID i ≠ img_ID e → gathers l e → gathers (l ++ [i]) e.
Proof.
  intros Hne ((j & Hj & Hid) & Ht & Hd). split_and!.
  - exists j. split; [by apply elem_of_app; left|done].
  - intros t. rewrite Ht. setoid_rewrite elem_of_app. setoid_rewrite list_elem_of_singleton.
    split; [intros (k & ? & ? & ?); exists k; auto|].
    intros (k & [?| ->] & ? & ?); [by exists k|congruence].
  - intros t. rewrite Hd. setoid_rewrite elem_of_app. setoid_rewrite list_elem_of_singleton.
    split; [intros (k & ? & ? & ?); exists k; auto|].
    intros (k & [?| ->] & ? & ?); [by exists k|congruence].
Qed.
Lemma gathers_same l e i :
  img_ID i = img_ID e → gathers l e →
  gathers (l ++ [i]) (img_set_refs (img_RepoTags e ++ img_RepoTags i) (img_RepoDigests e ++ img_RepoDigests i) e).
Proof.
  intros Heq ((j & Hj & Hid) & Ht & Hd). split_and!; simpl.
  - exists j. split; [by apply elem_of_app; left|done].
  - intros t. rewrite elem_of_app, Ht. setoid_rewrite elem_of_app. setoid_rewrite list_elem_of_singleton.
    split; [intros [(k & ? & ? & ?)|?]; [exists k|exists i]; auto|].
    intros (k & [?| ->] & ? & ?); [left; by exists k|by right].
  - intros t. rewrite elem_of_app, Hd. setoid_rewrite elem_of_app. setoid_rewrite list_elem_of_singleton.
    split; [intros [(k & ? & ? & ?)|?]; [exists k|exists i]; auto|].
    intros (k & [?| ->] & ? & ?); [left; by exists k|by right].
Qed.
Lemma group_step_inv l m i : group_inv l m → group_inv (l ++ [i]) (group_step m i).
Proof.
  intros Hinv id. pose proof (Hinv id) as Hid. unfold group_step.
  destruct (decide (img_ID i = id)) as [<-|Hne].
  - destruct (m !! img_ID i) as [e|]; rewrite lookup_insert_eq.
    + destruct Hid as [He Hg]. split; [done|]. by apply gathers_same.
    + split; [done|]. split_and!.
      * exists i. split; [apply elem_of_app; right; by left|done].
      * intros t. split; [intros ?; exists i; split; [apply elem_of_app; right; by left|done]|].
        intros (j & [Hj| ->%list_elem_of_singleton]%elem_of_app & Heq & ?); [by destruct (Hid j)|done].
      * intros t. split; [intros ?; exists i; split; [apply elem_of_app; right; by left|done]|].
        intros (j & [Hj| ->%list_elem_of_singleton]%elem_of_app & Heq & ?); [by destruct (Hid j)|done].
  - assert (∀ x y, (match m !! img_ID i with Some e => <[img_ID i := x e]> m | None => <[img_ID i := y]> m end) !! id
      = m !! id) as ->. { intros x y. by destruct (m !! img_ID i); rewrite lookup_insert_ne. }
    destruct (m !! id) as [e|].
    + destruct Hid as [<- Hg]. split; [done|]. by apply gathers_other.
    + intros j [Hj| ->%list_elem_of_singleton]%elem_of_app; [by apply Hid|done].
Qed.
Lemma group_inv_fold l : group_inv l (foldl group_step ∅ l).
Proof.
  induction l as [|i l IH] using rev_ind.
  - intros id. simpl. rewrite lookup_empty. intros j Hj. by apply elem_of_nil in Hj.
  - rewrite foldl_app. simpl. by apply group_step_inv.
Qed.

(** C25: what [GET /images/json] lists: every identifier of the images chosen, once, the newest
    image first; its tags and its digests are those it has on any engine, each of them
    once. *)
Theorem getImagesJSON_spec c All filters filter apiVersion :
  let chosen := chosen_images c All filters filter apiVersion in
  let out := getImagesJSON c All filters filter apiVersion in
  NoDup (img_ID <$> out) ∧ (∀ id, id ∈ img_ID <$> out ↔ id ∈ img_ID <$> chosen) ∧
  sorted_by (λ a b, image_less b a) out ∧
  ∀ i, i ∈ out → NoDup (img_RepoTags i) ∧ NoDup (img_RepoDigests i) ∧ gathers chosen i.
Proof.
  intros chosen out. set (m := foldl group_step ∅ chosen).
  pose proof (group_inv_fold chosen) as Hinv. fold m in Hinv.
  set (g := λ i : Image, img_set_refs (dedup (img_RepoTags i)) (dedup (img_RepoDigests i)) i).
  assert (out ≡ₚ g <$> (range_map m).*2) as Hperm by apply go_sort_perm.
  assert (img_ID <$> out ≡ₚ (range_map m).*1) as Hids.
  { rewrite Hperm, <- !list_fmap_compose.
    erewrite (list_fmap_ext _ fst); [done|]. intros k [id i] Hk. simpl.
    apply list_elem_of_lookup_2, elem_of_range_map in Hk. specialize (Hinv id). rewrite Hk in Hinv. apply Hinv. }
  split_and!.
  - rewrite Hids. apply NoDup_range_map_fst.
  - intros id. rewrite Hids, !list_elem_of_fmap. specialize (Hinv id). split.
    + intros ([id' e] & -> & Hin%elem_of_range_map). simpl in *. rewrite Hin in Hinv.
      destruct Hinv as [He ((j & Hj & Hid) & _)]. exists j. split; [congruence|done].
    + intros (j & -> & Hj). destruct (m !! img_ID j) as [e|] eqn:He; [|by destruct (Hinv j)].
      exists (img_ID j, e). split; [done|]. by apply elem_of_range_map.
  - unfold out, getImagesJSON. apply go_sort_sorted; unfold image_less; intros *; rewrite ?Z.ltb_lt, ?Z.ltb_ge; lia.
  - intros i. rewrite Hperm. intros (e & -> & (id & He)%elem_of_range_snd)%list_elem_of_fmap.
    specialize (Hinv id). rewrite He in Hinv. destruct Hinv as [_ (Hex & Ht & Hd)].
    destruct (dedup_spec (img_RepoTags e)) as [Hn1 Hm1], (dedup_spec (img_RepoDigests e)) as [Hn2 Hm2].
    split_and!; [done..|]. split_and!; simpl; [done|intros t; by rewrite Hm1|intros t; by rewrite Hm2].
Qed.

(** [GET /images/get] is forwarded to an engine that holds an image for each of the names,
    if there is one. *)
Theorem getImages_spec c (order : list ptr → list ptr) (names : list string) :
  (∀ ps, order ps ≡ₚ ps) →
  match getImages c order names with
  | Some p => p ∈ img_Engine <$> cluster_Images c ∧
      ∀ name, name ∈ names → ∃ i, i ∈ cluster_Images c ∧ img_Engine i = p ∧ names_image name i = true
  | None => ∀ p, p ∈ img_Engine <$> cluster_Images c →
      ∃ name, name ∈ names ∧ ∀ i, i ∈ cluster_Images c → img_Engine i = p → names_image name i = false
  end.
Proof.
  intros Horder. unfold getImages. destruct (List.find _ _) as [p|] eqn:Hf.
  - apply List.find_some in Hf as [Hin Hall]. apply list_elem_of_In in Hin. rewrite Horder in Hin. split; [done|].
    intros name Hn. unfold holds_all in Hall. rewrite List.forallb_forall in Hall.
    specialize (Hall name (proj1 (list_elem_of_In _ _) Hn)). apply existsb_exists in Hall as (i & Hi & Hm).
    apply list_elem_of_In, list_elem_of_Lfilter in Hi as [Hi Hp]. exists i. split_and!; [done| |done].
    by apply bool_decide_eq_true in Hp.
  - intros p Hp. eapply List.find_none in Hf; [|by apply list_elem_of_In; rewrite Horder].
    unfold holds_all in Hf. apply forallb_false in Hf as (name & Hn & He). exists name. split; [done|].
    intros i Hi Hpi. apply (existsb_false _ _ He), list_elem_of_Lfilter. split; [done|].
    by apply bool_decide_eq_true.
Qed.
End grouping.

(** The times are compared as texts: half a second after five comes before five. *)
Example created_as_text : String.ltb "2016-06-01T10:00:05.5Z" "2016-06-01T10:00:05Z" = true.
Proof. reflexivity. Qed.

(** ** Two containers, of which one is stopped *)

Section concrete.
Existing Instances re2 json_strings net_zero canonical_range insertion_sort.
Definition container_of (id name created : string) (running : bool) : Container := {|
  ctr_Container := {| lc_ID := id; lc_Names := ["/" +:+ name]; lc_Labels := ∅; lc_State := ""; lc_Created := 0;
                      lc_Image := "nginx"; lc_Ports := [] |};
  ctr_Config := Some zero_ContainerConfig;
  ctr_Info := {| ci_Name := "/" +:+ name; ci_HostConfig := Some zero_HostConfig;
                 ci_State := Some {| cst_Running := running; cst_Paused := false; cst_Restarting := false;
                                     cst_Dead := false; cst_ExitCode := 0; cst_StartedAt := ""; cst_FinishedAt := "";
                                     cst_Health := None |};
                 ci_Config := None; ci_NetworkSettings := None; ci_Created := created; ci_ExecIDs := [];
                 ci_Mounts := [] |};
  ctr_Engine := 0%nat |}.
Definition web : Container := container_of "c1" "web" "2016-06-01T10:00:00Z" true.
Definition old_db : Container := container_of "c2" "db" "2016-05-01T10:00:00Z" false.
Definition two_on_one : Cluster :=
  cl_set_engines {["X" := 0%nat]}
    (cl_set_heap {[0%nat := set_containers {["c1" := web; "c2" := old_db]} (engine_with stateHealthy 0)]} empty_cluster).
Definition list_query (all : bool) (limit : Z) (before : option Container) : ListQuery :=
  {| lq_all := all; lq_limit := limit; lq_before := before; lq_filters := ∅; lq_exited := [] |}.
Definition listed (q : ListQuery) : outcome (list string) :=
  fmap (fmap ctr_ID : list Container → list string) (listed_containers (λ _, 0) two_on_one q).
Example running_only : listed (list_query false 0 None) = Ret ["c1"].
Proof. vm_compute. reflexivity. Qed.
Example all_of_them : listed (list_query true 0 None) = Ret ["c1"; "c2"].
Proof. vm_compute. reflexivity. Qed.
(** One container before [web] is asked for, and there is one. *)
Example one_before : listed (list_query true 1 (Some web)) = Ret [] ∧ listed (list_query true 0 (Some web)) = Ret ["c2"].
Proof. vm_compute. done. Qed.
End concrete.
