(* ===== verification/ApiUtils.v ===== *)
(** * Requests and answers of the HTTP API ([api/utils.go])

    What the handlers read of a request, what they write, the forwarding of a request to
    an engine, and the lookup of the container that a request is about. *)
From S2P Require Import Prelude GoStrings Regexp Json Config Container Inventory EngineState EngineOps SwarmRegistry SwarmCluster ApiList.
From Stdlib Require Import Ascii.

(** ** Requests *)

(** [rq_Form] and [rq_FormErr]: the parsed form, and the error of parsing it; [rq_vars]: the
    variables of the route; [rq_Body]: what reading the body gives. *)
Record Request := {
  rq_Path : string;
  rq_RawQuery : string;
  rq_Query : gmap string (list string);
  rq_Form : gmap string (list string);
  rq_FormErr : option string;
  rq_vars : gmap string string;
  rq_Header : string → string;
  rq_Body : string + string;
  rq_RemoteAddr : string
}.
Definition values_Get (v : gmap string (list string)) (k : string) : string :=
  default "" (v !! k ≫= head).
(** [r.Form.Get(k)], [r.FormValue(k)] and [mux.Vars(r)[k]] *)
Definition Form_Get (r : Request) : string → string := values_Get (rq_Form r).
Definition Vars (r : Request) (k : string) : string := default "" (rq_vars r !! k).
Definition set_Path (path : string) (r : Request) : Request :=
  {| rq_Path := path; rq_RawQuery := rq_RawQuery r; rq_Query := rq_Query r; rq_Form := rq_Form r;
     rq_FormErr := rq_FormErr r; rq_vars := rq_vars r; rq_Header := rq_Header r; rq_Body := rq_Body r;
     rq_RemoteAddr := rq_RemoteAddr r |}.
Definition set_RawQuery (query : string) (r : Request) : Request :=
  {| rq_Path := rq_Path r; rq_RawQuery := query; rq_Query := rq_Query r; rq_Form := rq_Form r;
     rq_FormErr := rq_FormErr r; rq_vars := rq_vars r; rq_Header := rq_Header r; rq_Body := rq_Body r;
     rq_RemoteAddr := rq_RemoteAddr r |}.

(** [strings.ToLower] on ASCII; the other letters make no difference to [boolValue]. *)
Definition lower (c : ascii) : ascii :=
  if between 65 90 c then ascii_of_N (N_of_ascii c + 32) else c.
Fixpoint ToLower (s : string) : string :=
  match s with EmptyString => EmptyString | String c s => String (lower c) (ToLower s) end.
Definition boolValue (r : Request) (k : string) : bool :=
  let s := ToLower (TrimSpace (Form_Get r k)) in
  negb (String.eqb s "" || String.eqb s "0" || String.eqb s "no" || String.eqb s "false" || String.eqb s "none").
(** The 64-bit [strconv.Atoi] and [ParseInt(s, 10, 64)] *)
Definition int64ValueOrZero (r : Request) (k : string) : Z :=
  let '(val, ok) := Atoi (Form_Get r k) in if ok : bool then val else 0.
Definition intValueOrZero : Request → string → Z := int64ValueOrZero.
Definition tagHasDigest (tag : string) : bool := Contains tag ":".
Definition getImageRef (repo tag : string) : string :=
  if String.eqb tag "" then repo
  else if tagHasDigest tag then repo +:+ "@" +:+ tag else repo +:+ ":" +:+ tag.

(** ** Answers *)

(** What is encoded in JSON: a text, a list of the API, or a message of a stream. *)
Inductive payload :=
  | Text (s : string)
  | InfoBody (i : Info)
  | ContainersBody (l : list ListedAnswer)
  | ImagesBody (l : list Image)
  | NetworksBody (l : list Network)
  | NetworkBody (n : Network)
  | VolumesBody (l : list Volume)
  | VolumeDetail (v : Volume)
  | Deleted (ids : list string)
  | VolumeBody (v : option VolumeInfo)
  | NetworkID (id : option string)
  | ScaledNames (names : option (list string))
  | Message (id status : string)
  | ErrorMessage (code : Z) (text : string).
(** What is written to the [ResponseWriter]: a status, a body, an error of [http.Error],
    the answer of an engine, or the connection itself. *)
Inductive effect :=
  | WriteHeader (status : Z)
  | Write (p : payload)
  | httpError (text : string) (status : Z)
  | Proxied (engine : ptr) (path query : string) (status : Z)
  | Hijacked (addr path : string).
(** The status that the client sees: the first that is written, and 200 for a body or for
    nothing. *)
Definition status_of (l : list effect) : Z :=
  match l with
  | [] => 200
  | WriteHeader s :: _ => s
  | Write _ :: _ => 200
  | httpError _ s :: _ => s
  | Proxied _ _ _ s :: _ => s
  | Hijacked _ _ :: _ => 101
  end.
(** The answers among the effects: a body does not begin a second one. *)
Definition is_answer (e : effect) : bool := match e with Write _ => false | _ => true end.
Definition answers (l : list effect) : nat := length (List.filter is_answer l).

(** [sendJSONMessage] and [sendErrorJSONMessage] *)
Definition sendJSONMessage (id status : string) : effect := Write (Message id status).
Definition sendErrorJSONMessage (code : Z) (text : string) : effect := Write (ErrorMessage code text).

(** ** Forwarding *)

(** What the manager sends to an engine outside the Docker client, and the raw connection:
    [http_do engine path query] is the status of the answer that is copied. *)
Class Forwarding (W : Type) := {
  http_do : ptr → string → string → W → W * (Z + error);
  raw_conn : string → string → W → W * option error
}.
Definition outside {W A} (f : W → W * A) : C W A := λ st,
  let '(w, a) := f (cs_world st) in (Ret a, mkCS w (cs_cluster st) (cs_events st)).

Section forwarding.
Context {W : Type} `{Forwarding W} (api : ptr → DockerAPI W) `{GoJson} `{MapRange}.

(** The engine behind a pointer. *)
Definition engine_at (p : ptr) : C W Engine := c ← get_cluster; lift (deref (cl_heap c !! p)).
(** [HTTPClientAndScheme()]: the error when the client is not that of a daemon. *)
Definition HTTPClientAndScheme (e : Engine) : option error :=
  if e_connected e then None
  else Some (plain_error ("Possibly lost connection to Engine (name: " +:+ eng_Name (e_hdr e) +:+ ", ID: "
                          +:+ eng_ID (e_hdr e) +:+ ") ")).
(** [proxyAsync(engine, w, r, callback)] *)
Definition proxyAsync (p : ptr) (r : Request) (callback : Z → C W unit) : C W (list effect * option error) :=
  e ← engine_at p;
  match HTTPClientAndScheme e with
  | Some err => mret ([], Some err)
  | None =>
      resp ← outside (http_do p (rq_Path r) (rq_RawQuery r));
      match resp with
      | inr err => mret ([], Some err)
      | inl status => callback status ;; mret ([Proxied p (rq_Path r) (rq_RawQuery r) status], None)
      end
  end.
Definition proxy (p : ptr) (r : Request) : C W (list effect * option error) :=
  proxyAsync p r (λ _, mret tt).
(** [hijack(tlsConfig, addr, w, r)] *)
Definition hijack (addr : string) (r : Request) : C W (list effect * option error) :=
  let addr := match SplitN2 addr "://" with [_; a] => a | _ => addr end in
  err ← outside (raw_conn addr (rq_Path r));
  mret (match err with Some err => ([], Some err) | None => ([Hijacked addr (rq_Path r)], None) end).
(** [engine.CheckConnectionErr(err)] *)
Definition check_connection (p : ptr) (err : option error) : C W unit :=
  on api p (λ _, CheckConnectionErr err).

(** ** The container of a request *)

Definition find_exec (execID : string) (c : Container) : bool := existsb (String.eqb execID) (ci_ExecIDs (ctr_Info c)).
(** [getContainerFromVars(c, vars)]: the name, the container, the error. *)
Definition getContainerFromVars (c : Cluster) (vars : gmap string string)
    : outcome (string * option Container * option string) :=
  match vars !! "name" with
  | Some name =>
      container ← cluster_Container c name;
      match container with
      | Some x =>
          e ← deref (cl_heap c !! ctr_Engine x);
          Ret (name, Some x,
               if IsHealthy e then None
               else Some ("Container " +:+ name +:+ " running on unhealthy node " +:+ eng_Name (e_hdr e)))
      | None => Ret (name, None, Some ("No such container: " +:+ name))
      end
  | None =>
      match vars !! "execid" with
      | Some ID =>
          match List.find (find_exec ID) (cluster_Containers c) with
          | Some x => Ret ("", Some x, None)
          | None => Ret ("", None, Some ("Exec " +:+ ID +:+ " not found"))
          end
      | None => Ret ("", None, Some "Not found")
      end
  end.
(** The way the handlers begin that are about one container: 404 when there is none, 500
    when its engine is not healthy. *)
Definition with_container (vars : gmap string string) (k : string → Container → C W (list effect))
    : C W (list effect) :=
  c ← get_cluster;
  x ← lift (getContainerFromVars c vars);
  match x with
  | (_, None, Some err) => mret [httpError err 404]
  | (_, Some _, Some err) => mret [httpError err 500]
  | (name, Some container, None) => k name container
  | (_, None, None) => lift (Panic nil_dereference)
  end.
(** The full identifier takes the place of the name in the path. *)
Definition with_full_ID (name : string) (container : Container) (r : Request) : Request :=
  if String.eqb name "" then r else set_Path (Replace1 (rq_Path r) name (ctr_ID container)) r.
(** The way they end: the connection is checked, and a failure to forward is an error. *)
Definition finish (p : ptr) (status : Z) (x : list effect * option error) : C W (list effect) :=
  check_connection p x.2 ;;
  mret (x.1 ++ match x.2 with Some err => [httpError (err_msg err) status] | None => [] end).
End forwarding.

(** ** Facts *)

(** What the value of a parameter is read as. *)
Lemma boolValue_false r k : rq_Form r !! k = None → boolValue r k = false.
Proof. intros Hk. unfold boolValue, Form_Get, values_Get. by rewrite Hk. Qed.
Example boolValues : boolValue {| rq_Path := ""; rq_RawQuery := ""; rq_Query := ∅;
    rq_Form := {["all" := [" False "]; "v" := ["1"; "0"]; "force" := ["off"]]}; rq_FormErr := None; rq_vars := ∅;
    rq_Header := λ _, ""; rq_Body := inl ""; rq_RemoteAddr := "" |} <$> ["all"; "v"; "force"; "size"]
  = [false; true; true; false].
Proof. vm_compute. reflexivity. Qed.

Lemma Contains_false c s : Contains s (String c "") = false → c ∉ chars s.
Proof.
  induction s as [|d s IH]; intros Hc; simpl; [by apply not_elem_of_nil|].
  apply not_elem_of_cons. split.
  - intros ->. pose proof (Contains_char_app d "" s) as Ht. simpl in Ht. congruence.
  - apply IH. destruct (Contains s (String c "")) eqn:Hs; [|done].
    apply Contains_spec in Hs as (x & y & ->). rewrite <- Hc. symmetry. apply (Contains_char_app c (String d x) y).
Qed.
(** The reference made of a repository and of a tag, or of a digest, is parsed into the
    two again. *)
Theorem getImageRef_parse repo tag :
  "@"%char ∉ chars repo → "@"%char ∉ chars tag → "/"%char ∉ chars tag → tag ≠ "" →
  ParseRepositoryTag (getImageRef repo tag) = (repo, tag).
Proof.
  intros Hr Ht Hs Hne. unfold getImageRef, tagHasDigest. apply String.eqb_neq in Hne as ->.
  unfold ParseRepositoryTag. destruct (Contains tag ":") eqn:Hc.
  - change ("@" +:+ tag) with (String "@" tag). by rewrite Contains_char_app, Split_char_app, Split_char_notin.
  - change (":" +:+ tag) with (String ":" tag). apply Contains_false in Hc. rewrite Contains_notin.
    2: { rewrite chars_app. apply not_elem_of_app. split; [done|]. by apply not_elem_of_cons. }
    by rewrite cut_last_app, Contains_notin.
Qed.
Lemma getImageRef_parse_witness :
  ParseRepositoryTag (getImageRef "host:5000/app" "sha256:0a1b") = ("host:5000/app", "sha256:0a1b") ∧
  ParseRepositoryTag (getImageRef "host:5000/app" "v2") = ("host:5000/app", "v2").
Proof.
  split; apply getImageRef_parse; try apply (bool_decide_unpack _); by vm_compute.
Defined.
