(* ===== verification/ApiHandlers.v ===== *)
(** * The handlers of the HTTP API ([api/handlers.go], [api/primary.go])

    Every handler of the routes, as a function of the request that changes the cluster and
    gives what is written to the client, in order. *)
From S2P Require Import Prelude GoStrings Regexp Json GoFmt Config Container Inventory EngineState EngineOps Filters Scheduler SwarmRegistry SwarmCluster SwarmInfo SwarmStreams ApiList ApiUtils.
From Stdlib Require Import Ascii.

(** The decoding of what the client sends: the body of a creation, of the creation of a
    network (its name), of a volume (its name and driver), of a connection to a network
    (its container), of a host configuration, of the arguments of a build, of the
    identifier in an engine's answer; the credentials in a header; the filters. *)
Class Decoding := {
  decode_config : string → OldContainerConfig + string;
  decode_network : string → string + string;
  decode_volume : string → (string * string) + string;
  decode_connect : string → (string * bool) + string;
  decode_hostConfig : string → string + string;
  decode_buildargs : string → gmap string string;
  decode_ID : string → string + string;
  decode_auth : string → string;
  FromParam : string → Args + string
}.
(** What the manager asks of an engine beside the forwarding of requests: the creation of
    an [exec] (the status and the body of the answer), the inspection of a container (the
    body), the start of a container with a host configuration. *)
Class EngineHTTP (W : Type) := {
  exec_create : ptr → string → string → W → W * ((Z * string) + error);
  http_inspect : ptr → string → bool → W → W * (string + error);
  start_with : ptr → string → string → W → W * option error
}.

(** [bytes.Replace(s, old, new, -1)] *)
Fixpoint replace_from (fuel : nat) (s old new : string) : string :=
  match fuel, cut old s with
  | S fuel, Some (a, b) => a +:+ new +:+ replace_from fuel b old new
  | _, _ => s
  end.
Definition ReplaceAll (s old new : string) : string := replace_from (String.length s) s old new.
(** A text between quotation marks. *)
Definition quoted (s : string) : string := String quote (s +:+ String quote "").

Section handlers.
Context {W : Type} `{Forwarding W} `{EngineHTTP W} `{Decoding} (api : ptr → DockerAPI W).
Context `{GoRegexp} `{GoJson} `{GoNet} `{MapRange} `{GoSort} (Intn : Z → Z).
Context (scheduler : Scheduler) (createRetry : Z) (ids : id_draws) (random_name : string).
Context (ParseTime : string → Z) (Now : Z) (HumanDuration : Z → string) (IsPrint : Z → bool).
(** The options of [manage] that the listing of the containers looks at; the status handler;
    the number of listeners of the events; the engines that stop reading an image; the
    writing of the output of a build to the client. *)
Context (ShouldRefreshOnNodeFilter : bool) (ContainerNameRefreshFilter : string).
Context (status : Cluster → list (string * string)) (listeners : nat) (image_order : list ptr → list ptr).
(** The text of the error of [strconv.Atoi]; an engine in JSON; [net.ParseIP], telling whether
    the address is of version 4. *)
Context (Atoi_error : string → string) (Marshal_engine : Engine → string) (ParseIP4 : string → option bool).
Context (chunks : string → list string) (stops : ptr → option nat) (copy_output : string → option error).

Definition Handler : Type := Request → C W (list effect).

(** [if err := r.ParseForm(); err != nil { httpError(...); return }] *)
Definition parse_form (status : Z) (k : C W (list effect)) (r : Request) : C W (list effect) :=
  match rq_FormErr r with Some err => mret [httpError err status] | None => k end.
(** The body, decoded. *)
Definition decoded {A} (decode : string → A + string) (r : Request) : A + string :=
  match rq_Body r with inl body => decode body | inr err => inr err end.
(** [httpError(w, err.Error(), status)] or the reply to a success. *)
Definition reply (err : option error) (status : Z) (ok : list effect) : list effect :=
  match err with Some err => [httpError (err_msg err) status] | None => ok end.
(** The status of a failure whose message begins with [prefix]. *)
Definition status_if (prefix : string) (status : Z) (err : error) : Z :=
  if HasPrefix (err_msg err) prefix then status else 500.

(** ** Reading *)

Definition info_handler (apiVersion : string) : Handler := λ _,
  c ← get_cluster;
  info ← lift (getInfo c listeners (status c) apiVersion);
  mret [Write (InfoBody info)].
Definition images_get_handler : Handler := λ r,
  parse_form 500 (
    let names := default [] (rq_Form r !! "names") in
    c ← get_cluster;
    match getImages c image_order names with
    | Some p => x ← proxy p r; mret x.1
    | None => mret [httpError ("Unable to find an engine containing all images: [" +:+ Join names " " +:+ "]") 404]
    end) r.
Definition images_json_handler (apiVersion : string) : Handler := λ r,
  parse_form 500 (
    match FromParam (Form_Get r "filters") with
    | inr err => mret [httpError err 500]
    | inl filters =>
        c ← get_cluster;
        mret [Write (ImagesBody (getImagesJSON c (boolValue r "all") filters (Form_Get r "filter") apiVersion))]
    end) r.
Definition networks_handler : Handler := λ r,
  parse_form 500 (
    match FromParam (Form_Get r "filters") with
    | inr err => mret [httpError err 400]
    | inl filters =>
        c ← get_cluster;
        mret (match getNetworks c filters with inl l => [Write (NetworksBody l)] | inr err => [httpError err 400] end)
    end) r.
Definition network_handler : Handler := λ r,
  c ← get_cluster;
  mret (match getNetwork c (Vars r "networkid") with
        | inl n => [Write (NetworkBody n)] | inr err => [httpError err 404] end).
Definition volume_handler : Handler := λ r,
  c ← get_cluster;
  mret (match getVolume c (Vars r "volumename") with
        | inl v => [Write (VolumeDetail v)] | inr err => [httpError err 404] end).
Definition volumes_handler : Handler := λ r,
  match FromParam (values_Get (rq_Query r) "filters") with
  | inr err => mret [httpError err 500]
  | inl filters => c ← get_cluster; mret [Write (VolumesBody (getVolumes c filters))]
  end.

(** The values of the filter [exited]; the first that is no number is refused. *)
Fixpoint exit_codes (l : list string) : list Z + string :=
  match l with
  | [] => inl []
  | value :: l =>
      let '(code, ok) := Atoi value in
      if ok : bool then match exit_codes l with inl codes => inl (code :: codes) | inr err => inr err end
      else inr (Atoi_error value)
  end.
(** The parameters of the listing of the containers, or the error and its status. *)
Definition parse_list_query (c : Cluster) (r : Request) : outcome (ListQuery + string * Z) :=
  let value := Form_Get r "before" in
  before ← (if String.eqb value "" then Ret None else cluster_Container c value);
  if negb (String.eqb value "") && bool_decide (before = None)
  then Ret (inr ("No such container " +:+ value, 404))
  else match FromParam (Form_Get r "filters") with
       | inr err => Ret (inr (err, 500))
       | inl filters =>
           match exit_codes (Args_Get filters "exited") with
           | inr err => Ret (inr (err, 500))
           | inl codes =>
               Ret (inl {| lq_all := boolValue r "all" || existsb (String.eqb "exited") (Args_Get filters "status");
                           lq_limit := intValueOrZero r "limit"; lq_before := before;
                           lq_filters := filters; lq_exited := codes |})
           end
       end.
(** The refreshes that the options ask for; their errors are logged. *)
Definition refresh_for (filters : Args) : C W unit :=
  (if ShouldRefreshOnNodeFilter
   then for_each (λ node, cluster_RefreshEngine api node ;; mret tt) (Args_Get filters "node") else mret tt) ;;
  if negb (String.eqb ContainerNameRefreshFilter "")
     && existsb (String.eqb ContainerNameRefreshFilter) (Args_Get filters "name")
  then RefreshEngines api ;; mret tt else mret tt.
Definition containers_json_handler : Handler := λ r,
  parse_form 500 (
    c ← get_cluster;
    q ← lift (parse_list_query c r);
    match q with
    | inr (err, status) => mret [httpError err status]
    | inl q =>
        refresh_for (lq_filters q) ;;
        c ← get_cluster;
        l ← lift (listed_containers ParseTime c q);
        out ← lift (omapM (shown ParseTime Now HumanDuration c) l);
        mret [Write (ContainersBody out)]
    end) r.

(** What is inserted in the answer of the engine: the node, and its address in place of the
    unspecified one. *)
Definition annotate (e : Engine) (data : string) : string :=
  let name := quoted "Name" +:+ ":" +:+ String quote "/" in
  let data := ReplaceAll data name (quoted "Node" +:+ ":" +:+ Marshal_engine e +:+ "," +:+ name) in
  let host ip := quoted "HostIp" +:+ ":" +:+ quoted ip in
  match ParseIP4 (eng_IP (e_hdr e)) with
  | Some v4 => ReplaceAll data (host (if v4 : bool then "0.0.0.0" else "::")) (host (eng_IP (e_hdr e)))
  | None => data
  end.
(** [getContainerJSON] *)
Definition container_json_handler : Handler := λ r,
  let name := Vars r "name" in
  c ← get_cluster;
  container ← lift (cluster_Container c name);
  match container with
  | None => mret [httpError ("No such container " +:+ name) 404]
  | Some container =>
      let p := ctr_Engine container in
      e ← engine_at p;
      if negb (IsHealthy e) then
        mret [httpError ("Container " +:+ name +:+ " running on unhealthy node " +:+ eng_Name (e_hdr e)) 500]
      else match HTTPClientAndScheme e with
      | Some err => mret [httpError (err_msg err) 500]
      | None =>
          resp ← outside (http_inspect p (ctr_ID container) (boolValue r "size"));
          check_connection api p (error_of resp) ;;
          e ← engine_at p;
          mret (match resp with
                | inl body => [Write (Text (annotate e body))] | inr err => [httpError (err_msg err) 500] end)
      end
  end.

(** ** Containers *)

Definition create_reply (r : option Container * option error) : outcome (list effect) :=
  match r with
  | (_, Some err) => Ret [httpError (err_msg err) (status_if "Conflict" 409 err)]
  | (Some container, None) =>
      Ret [WriteHeader 201; Write (Text ("{" +:+ Quote IsPrint "Id" +:+ ":" +:+ Quote IsPrint (ctr_ID container) +:+ "}"))]
  | (None, None) => Panic nil_dereference
  end.
Definition postContainersCreate : Handler := λ r,
  parse_form 400 (
    match decoded decode_config r with
    | inr err => mret [httpError err 400]
    | inl oldconfig =>
        let config := oc_ContainerConfig (ConsolidateResourceFields oldconfig) in
        let authConfig := decode_auth (rq_Header r "X-Registry-Auth") in
        let containerConfig := BuildContainerConfig (cc_Config config) (cc_HostConfig config) (cc_NetworkingConfig config) in
        match Validate containerConfig with
        | Err err => mret [httpError err 500]
        | Panic w => lift (Panic w)
        | Ret _ =>
            x ← CreateContainer api Intn scheduler createRetry containerConfig (Form_Get r "name") authConfig
                  (dr_first ids) (dr_second ids) (dr_retry ids);
            lift (create_reply x.2)
        end
    end) r.
Definition deleteContainers : Handler := λ r,
  parse_form 500 (
    let name := Vars r "name" in
    c ← get_cluster;
    container ← lift (cluster_Container c name);
    match container with
    | None => mret [httpError ("Container " +:+ name +:+ " not found") 404]
    | Some container =>
        err ← RemoveContainer api container (boolValue r "force") (boolValue r "v");
        mret (reply err 500 [WriteHeader 204])
    end) r.
(** The start of a container with the host configuration of the body, if there is one. *)
Definition start_container (container : Container) (hostConfig : option string) : C W (option error) :=
  match hostConfig with
  | None => StartContainer api container
  | Some hostConfig =>
      let p := ctr_Engine container in
      err ← outside (start_with p (ctr_ID container) hostConfig);
      check_connection api p err ;;
      match err with
      | Some err => mret (Some err)
      | None => r ← on api p (λ _, refreshContainer (ctr_ID container) true); mret r.2
      end
  end.
Definition no_hostConfig (buf : string) : bool := (len buf <=? 2) || String.eqb buf "null".
Definition postContainersStart : Handler := λ r,
  let name := Vars r "name" in
  c ← get_cluster;
  container ← lift (cluster_Container c name);
  match container with
  | None => mret [httpError ("No such container " +:+ name) 404]
  | Some container =>
      match rq_Body r with
      | inr err => mret [httpError err 400]
      | inl buf =>
          match (if no_hostConfig buf then inl None
                 else match decode_hostConfig buf with inl h => inl (Some h) | inr err => inr err end) with
          | inr err => mret [httpError err 400]
          | inl hostConfig =>
              err ← start_container container hostConfig;
              mret (reply err 500 [WriteHeader 204])
          end
      end
  end.
Definition postRenameContainer : Handler := λ r,
  with_container (rq_vars r) (λ _ container,
    parse_form 500 (
      err ← RenameContainer api container (Form_Get r "name");
      mret (match err with
            | Some err => [httpError (err_msg err) (status_if "Conflict" 409 err)]
            | None => [WriteHeader 204]
            end)) r).

(** The identifier of an [exec] is added to the container's, where it is stored. *)
Definition ctr_add_exec (id : string) (x : Container) : Container :=
  let i := ctr_Info x in
  {| ctr_Container := ctr_Container x; ctr_Config := ctr_Config x;
     ctr_Info := {| ci_Name := ci_Name i; ci_HostConfig := ci_HostConfig i; ci_State := ci_State i;
                    ci_Config := ci_Config i; ci_NetworkSettings := ci_NetworkSettings i; ci_Created := ci_Created i;
                    ci_ExecIDs := ci_ExecIDs i ++ [id]; ci_Mounts := ci_Mounts i |};
     ctr_Engine := ctr_Engine x |}.
Definition add_exec (id ctr : string) (e : Engine) : Engine :=
  set_containers (alter (ctr_add_exec id) ctr (e_containers e)) e.
Definition postContainersExec : Handler := λ r,
  let name := Vars r "name" in
  c ← get_cluster;
  container ← lift (cluster_Container c name);
  match container with
  | None => mret [httpError ("No such container " +:+ name) 404]
  | Some container =>
      let p := ctr_Engine container in
      e ← engine_at p;
      match HTTPClientAndScheme e with
      | Some err => mret [httpError (err_msg err) 500]
      | None =>
          resp ← outside (exec_create p (ctr_ID container) (match rq_Body r with inl b => b | inr _ => "" end));
          check_connection api p (error_of resp) ;;
          match resp with
          | inr err => mret [httpError (err_msg err) 500]
          | inl (status, body) =>
              if (status <? 200) || (400 <=? status) then mret [httpError body 500]
              else match decode_ID body with
                   | inr err => mret [httpError err 500]
                   | inl id =>
                       on api p (λ _, modify (add_exec id (ctr_ID container))) ;;
                       mret [WriteHeader status; Write (Text body)]
                   end
          end
      end
  end.

(** ** Forwarded requests *)

Definition proxyContainer : Handler := λ r,
  with_container (rq_vars r) (λ name container,
    let r := with_full_ID name container r in
    x ← proxy (ctr_Engine container) r;
    finish api (ctr_Engine container) 500 x).
Definition proxyContainerAndForceRefresh : Handler := λ r,
  with_container (rq_vars r) (λ name container,
    let r := with_full_ID name container r in
    x ← proxyAsync (ctr_Engine container) r (λ _,
          on api (ctr_Engine container) (λ _, refreshContainer (ctr_ID container) true) ;; mret tt);
    finish api (ctr_Engine container) 500 x).
Definition proxyHijack : Handler := λ r,
  with_container (rq_vars r) (λ name container,
    let r := with_full_ID name container r in
    e ← engine_at (ctr_Engine container);
    x ← hijack (eng_Addr (e_hdr e)) r;
    finish api (ctr_Engine container) 500 x).
Definition postExecStart : Handler := λ r,
  first ← (if String.eqb (rq_Header r "Connection") "" then proxyContainer r else mret []);
  second ← proxyHijack r;
  mret (first ++ second).
Definition postCommit : Handler := λ r,
  parse_form 500 (
    with_container {["name" := Form_Get r "container"]} (λ name container,
      let r := if String.eqb name "" then r
               else set_RawQuery (Replace1 (rq_RawQuery r) name (ctr_ID container)) r in
      x ← proxyAsync (ctr_Engine container) r (λ status,
            if status =? 201 then on api (ctr_Engine container) (λ _, RefreshImages) ;; mret tt else mret tt);
      finish api (ctr_Engine container) 500 x)) r.

(** The engine of an image; an error of the forwarding is not reported. *)
Definition proxy_image (image : option Image) (name : string) (r : Request) : C W (list effect) :=
  match image with
  | Some image =>
      x ← proxy (img_Engine image) r;
      check_connection api (img_Engine image) x.2 ;;
      mret x.1
  | None => mret [httpError ("No such image: " +:+ name) 404]
  end.
Definition proxyImage : Handler := λ r,
  let name := Vars r "name" in
  c ← get_cluster; proxy_image (cluster_Image c name) name r.
Definition proxyImageGet : Handler := λ r,
  let name := Vars r "name" in
  c ← get_cluster; proxy_image (List.find (names_image name) (cluster_Images c)) name r.
Definition proxyImagePush : Handler := λ r,
  parse_form 500 (
    let tag := Form_Get r "tag" in
    let tagged := negb (String.eqb tag "") in
    let name := if tagged then Vars r "name" +:+ ":" +:+ tag else Vars r "name" in
    c ← get_cluster;
    proxy_image (List.find (λ i, Image_Match i name tagged) (cluster_Images c)) name r) r.
Definition proxyRandom : Handler := λ r,
  engine ← RANDOMENGINE Intn scheduler;
  match engine with
  | inr err => mret [httpError (err_msg err) 500]
  | inl None => mret [httpError "no node available in the cluster" 500]
  | inl (Some p) => x ← proxy p r; finish api p 500 x
  end.

(** ** Images *)

(** The messages of a pull, of an import and of a load, for the calls of the callback; the
    last error comes again at the end. *)
Definition last_error (calls : list (string * string * option error)) : list effect :=
  match last (omap snd calls) with
  | Some err => [sendErrorJSONMessage 1 (err_msg err)]
  | None => []
  end.
Definition progress (what : string) (call : string * string * option error) : effect :=
  let '(id, status, err) := call in
  sendJSONMessage id (match err with
                      | Some err => what +:+ " : " +:+ err_msg err
                      | None => if String.eqb status "" then what else what +:+ " : " +:+ status
                      end).
Definition import_progress (call : string * string * option error) : effect :=
  let '(id, status, err) := call in
  sendJSONMessage id (match err with Some err => err_msg err | None => status end).
Definition postImagesCreate : Handler := λ r,
  parse_form 500 (
    let image := Form_Get r "fromImage" in
    let tag := Form_Get r "tag" in
    if negb (String.eqb image "") then
      let image := getImageRef image tag in
      calls ← cluster_Pull api image (decode_auth (rq_Header r "X-Registry-Auth"));
      mret ((progress ("Pulling " +:+ image +:+ "...") <$> calls) ++ last_error calls)
    else
      calls ← cluster_Import api (Form_Get r "fromSrc") (getImageRef (Form_Get r "repo") tag) tag
                (chunks (match rq_Body r with inl b => b | inr _ => "" end)) stops;
      mret ((import_progress <$> calls) ++ last_error calls)) r.
Definition postImagesLoad : Handler := λ r,
  calls ← cluster_Load api (chunks (match rq_Body r with inl b => b | inr _ => "" end)) stops;
  mret (WriteHeader 200 :: (progress "Loading Image..." <$> calls) ++ last_error calls).
Definition postTagImage : Handler := λ r,
  parse_form 500 (
    err ← TagImage api (Vars r "name") (getImageRef (Form_Get r "repo") (Form_Get r "tag"));
    mret (match err with
          | Some err => [httpError (err_msg err) (status_if "No such image" 404 err)]
          | None => [WriteHeader 201]
          end)) r.
Definition deleteImages : Handler := λ r,
  parse_form 500 (
    let name := Vars r "name" in
    x ← RemoveImages api name (boolValue r "force");
    mret (match x with
          | (_, Some err) => [httpError (err_msg err) 500]
          | ([], None) => [httpError ("No such image " +:+ name) 404]
          | (out, None) => [Write (Deleted out)]
          end)) r.
(** [postBuild]: the output of the build is written while it is copied. *)
Definition build_request (r : Request) : ImageBuildOptions :=
  {| ib_BuildArgs := if String.eqb (Form_Get r "buildargs") "" then ∅ else decode_buildargs (Form_Get r "buildargs");
     ib_CPUShares := int64ValueOrZero r "cpushares"; ib_Memory := int64ValueOrZero r "memory" |}.
Definition postBuild : Handler := λ r,
  parse_form 500 (
    err ← cluster_BuildImage api Intn scheduler (build_request r) (match rq_Body r with inl b => b | inr _ => "" end)
            copy_output;
    mret (reply err 500 [])) r.

(** ** Networks and volumes *)

Definition postNetworksCreate : Handler := λ r,
  match decoded decode_network r with
  | inr err => mret [httpError err 400]
  | inl name =>
      x ← CreateNetwork api Intn scheduler name;
      mret (reply x.2 500 [WriteHeader 201; Write (NetworkID x.1)])
  end.
Definition postVolumesCreate : Handler := λ r,
  match decoded decode_volume r with
  | inr err => mret [httpError err 400]
  | inl (name, driver) =>
      x ← cluster_CreateVolume api Intn scheduler name driver random_name;
      mret (reply x.2 500 [WriteHeader 201; Write (VolumeBody x.1)])
  end.
Definition find_network (c : Cluster) (id : string) : option Network :=
  Networks_Get (hdr_at c) (Networks_Uniq (cluster_Networks c)) id.
Definition deleteNetworks : Handler := λ r,
  parse_form 500 (
    let id := Vars r "networkid" in
    c ← get_cluster;
    match find_network c id with
    | None => mret [httpError ("No such network " +:+ id) 404]
    | Some network => err ← RemoveNetwork api network; mret (reply err 500 [WriteHeader 204])
    end) r.
Definition deleteVolumes : Handler := λ r,
  parse_form 500 (
    let name := Vars r "name" in
    x ← RemoveVolumes api name;
    mret (reply x.2 500 (if x.1 : bool then [WriteHeader 204] else [httpError ("No such volume " +:+ name) 404]))) r.
(** The disconnection on another engine, when that of the container does not answer. *)
Definition disconnect_elsewhere (err : error) (container : Container) (network : Network) (force : bool)
    : C W (list effect) :=
  engine ← RANDOMENGINE Intn scheduler;
  match engine with
  | inr _ => mret [httpError (err_msg err) 500]
  | inl None => lift (Panic nil_dereference)
  | inl (Some p) =>
      err ← on api p (λ _, NetworkDisconnect container network force);
      mret (reply err 500 [])
  end.
Definition networkDisconnect : Handler := λ r,
  let networkid := Vars r "networkid" in
  c ← get_cluster;
  match find_network c networkid with
  | None => mret [httpError ("No such network: " +:+ networkid) 404]
  | Some network =>
      match decoded decode_connect r with
      | inr _ => mret [httpError "Container is not specified" 404]
      | inl (name, force) =>
          container ← lift (cluster_Container c name);
          match container with
          | None => mret [httpError ("No such container: " +:+ name) 404]
          | Some container =>
              err ← on api (ctr_Engine container) (λ _, NetworkDisconnect container network force);
              match err with
              | None => mret [WriteHeader 204]
              | Some err =>
                  if IsConnectionError err && force && String.eqb (net_Scope network) "global"
                  then disconnect_elsewhere err container network force
                  else mret [httpError (err_msg err) 404]
              end
          end
      end
  end.
Definition proxyNetworkConnect : Handler := λ r,
  let networkid := Vars r "networkid" in
  c ← get_cluster;
  match find_network c networkid with
  | None => mret [httpError ("No such network: " +:+ networkid) 404]
  | Some network =>
      let r := set_Path (Replace1 (rq_Path r) networkid (net_ID network)) r in
      match decoded decode_connect r with
      | inr _ => mret [httpError "Container is not specified" 404]
      | inl (name, _) =>
          container ← lift (cluster_Container c name);
          match container with
          | None => mret [httpError ("No such container: " +:+ name) 404]
          | Some container =>
              let p := ctr_Engine container in
              x ← proxyAsync p r (λ _, on api p (λ _, RefreshNetworks) ;; mret tt);
              finish api p 404 x
          end
      end
  end.

(** ** Routes *)

(** [getEvents] until the client listens: the time until which it does, or the error. *)
Definition getEvents_until (r : Request) : Z + effect :=
  match rq_FormErr r with
  | Some err => inr (httpError err 400)
  | None =>
      let until := Form_Get r "until" in
      if String.eqb until "" then inl (-1)
      else let '(u, ok) := Atoi until in if ok : bool then inl u else inr (httpError (Atoi_error until) 400)
  end.
Definition ping : Handler := λ _, mret [Write (Text "OK")].
Definition notImplementedHandler : Handler := λ _, mret [httpError "Not supported in clustering mode." 501].
Definition optionsHandler : Handler := λ _, mret [WriteHeader 200].

(** The handlers that answer from the cluster; those of the events, of the version and of
    the scaling are apart. *)
Inductive route :=
  | r_ping | r_info | r_images_json | r_not_implemented | r_random | r_images_get | r_image_get | r_image
  | r_containers_json | r_container_json | r_proxy | r_refresh | r_hijack | r_networks | r_network | r_volumes
  | r_volume | r_commit | r_build | r_images_create | r_images_load | r_image_push | r_image_tag | r_create
  | r_rename | r_start | r_exec | r_exec_start | r_networks_create | r_network_connect | r_network_disconnect
  | r_volumes_create | r_delete_container | r_delete_images | r_delete_network | r_delete_volumes
  | r_events | r_version | r_scale.
(** The tables of [routes], by method. *)
Definition container_route (action : string) : string := "/containers/{name:.*}/" +:+ action.
Definition routes (method : string) : list (string * route) :=
  if String.eqb method "HEAD" then [(container_route "archive", r_proxy)]
  else if String.eqb method "GET" then
    [("/_ping", r_ping); ("/events", r_events); ("/info", r_info); ("/version", r_version);
     ("/images/json", r_images_json); ("/images/viz", r_not_implemented); ("/images/search", r_random);
     ("/images/get", r_images_get); ("/images/{name:.*}/get", r_image_get); ("/images/{name:.*}/history", r_image);
     ("/images/{name:.*}/json", r_image); ("/containers/ps", r_containers_json); ("/containers/json", r_containers_json);
     (container_route "archive", r_proxy); (container_route "export", r_proxy); (container_route "changes", r_proxy);
     (container_route "json", r_container_json); (container_route "top", r_proxy); (container_route "logs", r_proxy);
     (container_route "stats", r_proxy); (container_route "attach/ws", r_hijack); ("/exec/{execid:.*}/json", r_proxy);
     ("/networks", r_networks); ("/networks/{networkid:.*}", r_network); ("/volumes", r_volumes);
     ("/volumes/{volumename:.*}", r_volume)]
  else if String.eqb method "POST" then
    [("/auth", r_random); ("/commit", r_commit); ("/build", r_build); ("/images/create", r_images_create);
     ("/images/load", r_images_load); ("/images/{name:.*}/push", r_image_push); ("/images/{name:.*}/tag", r_image_tag);
     ("/containers/create", r_create); (container_route "kill", r_refresh); (container_route "pause", r_refresh);
     (container_route "unpause", r_refresh); (container_route "rename", r_rename); (container_route "restart", r_refresh);
     (container_route "start", r_start); (container_route "stop", r_refresh); (container_route "update", r_refresh);
     (container_route "wait", r_refresh); (container_route "resize", r_proxy); (container_route "attach", r_hijack);
     (container_route "copy", r_proxy); (container_route "exec", r_exec); ("/exec/{execid:.*}/start", r_exec_start);
     ("/exec/{execid:.*}/resize", r_proxy); ("/networks/create", r_networks_create);
     ("/networks/{networkid:.*}/connect", r_network_connect); ("/scale", r_scale);
     ("/networks/{networkid:.*}/disconnect", r_network_disconnect); ("/volumes/create", r_volumes_create)]
  else if String.eqb method "PUT" then [(container_route "archive", r_proxy)]
  else if String.eqb method "DELETE" then
    [("/containers/{name:.*}", r_delete_container); ("/images/{name:.*}", r_delete_images);
     ("/networks/{networkid:.*}", r_delete_network); ("/volumes/{name:.*}", r_delete_volumes)]
  else [].
(** The handler of a route, [apiVersion] being the version of the path. *)
Definition handle (apiVersion : string) (x : route) : option Handler :=
  match x with
  | r_ping => Some ping
  | r_info => Some (info_handler apiVersion)
  | r_images_json => Some (images_json_handler apiVersion)
  | r_not_implemented => Some notImplementedHandler
  | r_random => Some proxyRandom
  | r_images_get => Some images_get_handler
  | r_image_get => Some proxyImageGet
  | r_image => Some proxyImage
  | r_containers_json => Some containers_json_handler
  | r_container_json => Some container_json_handler
  | r_proxy => Some proxyContainer
  | r_refresh => Some proxyContainerAndForceRefresh
  | r_hijack => Some proxyHijack
  | r_networks => Some networks_handler
  | r_network => Some network_handler
  | r_volumes => Some volumes_handler
  | r_volume => Some volume_handler
  | r_commit => Some postCommit
  | r_build => Some postBuild
  | r_images_create => Some postImagesCreate
  | r_images_load => Some postImagesLoad
  | r_image_push => Some proxyImagePush
  | r_image_tag => Some postTagImage
  | r_create => Some postContainersCreate
  | r_rename => Some postRenameContainer
  | r_start => Some postContainersStart
  | r_exec => Some postContainersExec
  | r_exec_start => Some postExecStart
  | r_networks_create => Some postNetworksCreate
  | r_network_connect => Some proxyNetworkConnect
  | r_network_disconnect => Some networkDisconnect
  | r_volumes_create => Some postVolumesCreate
  | r_delete_container => Some deleteContainers
  | r_delete_images => Some deleteImages
  | r_delete_network => Some deleteNetworks
  | r_delete_volumes => Some deleteVolumes
  | r_events | r_version | r_scale => None
  end.
End handlers.
