(* ===== verification/ApiFacts.v ===== *)
(** * What the handlers of the API answer

    How often a request is answered, what is not reported, how the path of a forwarded
    request is rewritten, and the answer to the creation of a container whose name is
    taken. *)
From S2P Require Import Prelude GoStrings Regexp Json GoFmt Config Container Inventory EngineState EngineOps Filters Scheduler SwarmRegistry SwarmCluster SwarmInfo SwarmStreams ApiList ApiUtils ApiHandlers.
From Stdlib Require Import Ascii.

(** ** Postconditions of the values returned *)

Definition cpost {W A} (P : A → Prop) (m : C W A) : Prop := ∀ st a st', m st = (Ret a, st') → P a.

Section cpost.
Context {W : Type}.
Lemma cpost_ret {A} (P : A → Prop) (a : A) : P a → cpost P (mret a : C W A).
Proof. by intros Ha st a' st' [= <- _]. Qed.
Lemma cpost_lift {A} (P : A → Prop) (o : outcome A) : (∀ a, o = Ret a → P a) → cpost P (lift o : C W A).
Proof. intros Ho st a st' [= H _]. by apply Ho. Qed.
Lemma cpost_bind_with {A B} (Q : A → Prop) (P : B → Prop) (m : C W A) (f : A → C W B) :
  cpost Q m → (∀ a, Q a → cpost P (f a)) → cpost P (m ≫= f).
Proof. intros Hm Hf st b st' (a & st1 & Ha & Hb)%C_bind_Ret. eapply Hf; [by eapply Hm|done]. Qed.
Lemma cpost_bind {A B} (P : B → Prop) (m : C W A) (f : A → C W B) : (∀ a, cpost P (f a)) → cpost P (m ≫= f).
Proof. intros Hf. by apply (cpost_bind_with (λ _, True)). Qed.
End cpost.

(** ** One answer per request *)

(** After the first effect, only bodies are written. *)
Definition is_body (e : effect) : bool := match e with Write _ => true | _ => false end.
Definition no_second_answer (l : list effect) : Prop := forallb is_body (tail l) = true.
Definition answered_once (l : list effect) : Prop := l ≠ [] ∧ no_second_answer l.

Lemma bodies_answered l : forallb is_body l = true → no_second_answer l.
Proof. by destruct l as [|e l]; [|intros [_ ?]%andb_true_iff]. Qed.

(** The answer of a forwarding, or the error. *)
Definition forwarded (x : list effect * option error) : Prop :=
  match x with
  | ([e], None) => is_answer e = true
  | ([], Some _) => True
  | _ => False
  end.
Definition one_answer (l : list effect) : Prop := ∃ e, l = [e] ∧ is_answer e = true.
Lemma one_answer_once l : one_answer l → answered_once l.
Proof. by intros (e & -> & _). Qed.

Section answers.
Context {W : Type} `{Forwarding W} `{EngineHTTP W} `{Decoding} (api : ptr → DockerAPI W).
Context `{GoRegexp} `{GoJson} `{GoNet} `{MapRange} `{GoSort} (Intn : Z → Z).
Context (scheduler : Scheduler) (createRetry : Z) (ids : id_draws) (random_name : string).
Context (ParseTime : string → Z) (Now : Z) (HumanDuration : Z → string) (IsPrint : Z → bool).
Context (ShouldRefreshOnNodeFilter : bool) (ContainerNameRefreshFilter : string).
Context (status : Cluster → list (string * string)) (listeners : nat) (image_order : list ptr → list ptr).
Context (Atoi_error : string → string) (Marshal_engine : Engine → string) (ParseIP4 : string → option bool).
Context (chunks : string → list string) (stops : ptr → option nat) (copy_output : string → option error).

Lemma proxyAsync_forwarded p r callback : cpost (W := W) forwarded (proxyAsync p r callback).
Proof.
  unfold proxyAsync. apply cpost_bind. intros e. destruct (HTTPClientAndScheme e); [by apply cpost_ret|].
  apply cpost_bind. intros [s|err]; [|by apply cpost_ret]. apply cpost_bind. intros _. by apply cpost_ret.
Qed.
Lemma hijack_forwarded addr r : cpost (W := W) forwarded (hijack addr r).
Proof. unfold hijack. apply cpost_bind. intros [err|]; by apply cpost_ret. Qed.
Lemma finish_once p s x : forwarded x → cpost one_answer (finish api p s x).
Proof.
  intros Hx. unfold finish. apply cpost_bind. intros _. apply cpost_ret.
  destruct x as [[|e [|? ?]] [err|]]; try done; by eexists.
Qed.
Lemma with_container_once vars k :
  (∀ name x, cpost (W := W) one_answer (k name x)) → cpost one_answer (with_container vars k).
Proof.
  intros Hk. unfold with_container. apply cpost_bind. intros c. apply cpost_bind.
  intros [[name [x|]] [err|]]; [apply cpost_ret; by eexists|done|apply cpost_ret; by eexists|].
  by apply cpost_lift.
Qed.
Lemma proxyContainer_once r : cpost one_answer (proxyContainer api r).
Proof.
  apply with_container_once. intros name x.
  eapply cpost_bind_with; [apply proxyAsync_forwarded|]. intros y. apply finish_once.
Qed.
Lemma proxyHijack_once r : cpost one_answer (proxyHijack api r).
Proof.
  apply with_container_once. intros name x. apply cpost_bind. intros e.
  eapply cpost_bind_with; [apply hijack_forwarded|]. intros y. apply finish_once.
Qed.

(** The start of an [exec] that does not ask for a connection is answered twice: it is
    forwarded to the engine, and then the connection is taken over as well. *)
Theorem exec_start_answers_twice r st l st' :
  rq_Header r "Connection" = "" → postExecStart api r st = (Ret l, st') → answers l = 2%nat.
Proof.
  intros Hh Hrun. assert (cpost (λ l, answers l = 2%nat) (postExecStart api r)) as Hp; [|by eapply Hp].
  unfold postExecStart. rewrite Hh. simpl.
  eapply cpost_bind_with; [apply proxyContainer_once|]. intros l1 (e1 & -> & He1).
  eapply cpost_bind_with; [apply proxyHijack_once|]. intros l2 (e2 & -> & He2).
  apply cpost_ret. unfold answers. simpl. by rewrite He1, He2.
Qed.

(** *** All the routes *)

(** The routes whose handler may write nothing, which the client sees as a success. *)
Definition may_be_silent (x : route) : bool :=
  match x with
  | r_image | r_image_get | r_image_push | r_images_get | r_build | r_images_create | r_network_disconnect => true
  | _ => false
  end.
Definition answered (silent : bool) (l : list effect) : Prop :=
  no_second_answer l ∧ (silent = false → l ≠ []).
Lemma one_answered silent l : one_answer l → answered silent l.
Proof. by intros (e & -> & _). Qed.
Lemma cpost_mono {A} (P Q : A → Prop) (m : C W A) : (∀ a, P a → Q a) → cpost P m → cpost Q m.
Proof. intros HPQ Hm st a st' Hrun. by eapply HPQ, Hm. Qed.
Lemma messages_answered (f : string * string * option error → effect) calls :
  (∀ call, is_body (f call) = true) → answered true ((f <$> calls) ++ last_error calls).
Proof.
  intros Hf. split; [|done]. apply bodies_answered. rewrite forallb_app. apply andb_true_iff. split.
  - induction calls as [|call calls IH]; simpl; [done|]. by rewrite Hf.
  - unfold last_error. by destruct (last _).
Qed.
Lemma load_answered calls :
  answered false (WriteHeader 200 :: (progress "Loading Image..." <$> calls) ++ last_error calls).
Proof.
  split; [|done]. unfold no_second_answer. simpl. rewrite forallb_app. apply andb_true_iff. split.
  - induction calls as [|[[i s] o] calls IH]; simpl; [done|]. exact IH.
  - unfold last_error. by destruct (last _).
Qed.
Lemma forwarded_answered x : forwarded x → answered true x.1.
Proof. by destruct x as [[|e [|? ?]] [err|]]. Qed.
Lemma create_reply_answered x l : create_reply IsPrint x = Ret l → answered false l.
Proof. destruct x as [[c|] [err|]]; try done; by intros [= <-]. Qed.
Lemma proxyContainer_answered silent r : cpost (answered silent) (proxyContainer api r).
Proof. eapply cpost_mono; [apply one_answered|apply proxyContainer_once]. Qed.
Lemma proxyHijack_answered silent r : cpost (answered silent) (proxyHijack api r).
Proof. eapply cpost_mono; [apply one_answered|apply proxyHijack_once]. Qed.
Lemma finish_answered silent p s x : forwarded x → cpost (answered silent) (finish api p s x).
Proof. intros Hx. eapply cpost_mono; [apply one_answered|by apply finish_once]. Qed.

(** Walk a handler to the effects that it returns. *)
Ltac walk :=
  repeat match goal with
  | |- cpost _ (mret _) => apply cpost_ret
  | |- cpost _ (lift (Panic _)) => by apply cpost_lift
  | |- cpost _ (lift (create_reply _ _)) => apply cpost_lift; intros ?; apply create_reply_answered
  | Hx : forwarded ?x |- cpost _ (finish _ _ _ ?x) => by apply finish_answered
  | |- cpost _ (proxy _ _ ≫= _) => eapply cpost_bind_with; [apply proxyAsync_forwarded|intros ? ?]
  | |- cpost _ (proxyAsync _ _ _ ≫= _) => eapply cpost_bind_with; [apply proxyAsync_forwarded|intros ? ?]
  | |- cpost _ (_ ≫= _) => apply cpost_bind; intros ?
  | |- cpost _ (match ?e with _ => _ end) => destruct e
  | |- cpost _ (if ?e then _ else _) => destruct e
  | |- cpost _ (let _ := _ in _) => cbv zeta
  | Hx : forwarded ?x |- answered true ?x.1 => by apply forwarded_answered
  | |- answered _ (match ?e with _ => _ end) => destruct e
  | |- answered _ _ => done
  end.
Lemma with_container_answered silent vars k :
  (∀ name x, cpost (W := W) (answered silent) (k name x)) → cpost (answered silent) (with_container vars k).
Proof. intros Hk. unfold with_container. walk. apply Hk. Qed.
Lemma proxy_image_answered image name r : cpost (answered true) (proxy_image api image name r).
Proof. unfold proxy_image. walk. Qed.
Lemma progress_body what call : is_body (progress what call) = true.
Proof. by destruct call as [[i s] o]. Qed.
Lemma import_progress_body call : is_body (import_progress call) = true.
Proof. by destruct call as [[i s] o]. Qed.
Ltac walk_all := walk;
  repeat match goal with
  | |- cpost _ (with_container _ _) => apply with_container_answered; intros ? ?; walk
  | |- cpost _ (proxy_image _ _ _ _) => apply proxy_image_answered
  | |- answered true (_ ++ last_error _) =>
      apply messages_answered; intros ?; first [apply progress_body | apply import_progress_body]
  | |- answered false (WriteHeader 200 :: _) => apply load_answered
  end.
Abbreviation handle := (handle api Intn scheduler createRetry ids random_name ParseTime Now HumanDuration IsPrint
  ShouldRefreshOnNodeFilter ContainerNameRefreshFilter status listeners image_order Atoi_error Marshal_engine
  ParseIP4 chunks stops copy_output).
Lemma handlers_answered v x h r :
  handle v x = Some h → x ≠ r_exec_start → cpost (answered (may_be_silent x)) (h r).
Proof.
  intros Hh Hx. destruct x; try done; injection Hh as <-; simpl.
  all: unfold ping, info_handler, images_json_handler, notImplementedHandler, proxyRandom, images_get_handler,
    proxyImageGet, proxyImage, containers_json_handler, container_json_handler,
    networks_handler, network_handler, volumes_handler, volume_handler, postCommit,
    postBuild, postImagesCreate, postImagesLoad, proxyImagePush, postTagImage, postContainersCreate,
    postRenameContainer, postContainersStart, postContainersExec, postNetworksCreate, proxyNetworkConnect,
    networkDisconnect, disconnect_elsewhere, postVolumesCreate, deleteContainers, deleteImages, deleteNetworks,
    deleteVolumes, proxyContainerAndForceRefresh, parse_form, reply.
  all: first [apply proxyContainer_answered | apply proxyHijack_answered | walk_all].
Qed.
End answers.

(** ** Failures that the client does not see *)

Section failures.
Context {W : Type} `{Forwarding W} (api : ptr → DockerAPI W) `{GoRegexp} `{GoJson} `{MapRange}.

Lemma proxy_disconnected p e r (st : ClusterSt W) :
  cl_heap (cs_cluster st) !! p = Some e → e_connected e = false →
  proxy p r st = (Ret ([], HTTPClientAndScheme e), st).
Proof.
  intros He Hc. unfold proxy, proxyAsync, engine_at, mbind, C_bind, get_cluster, lift, deref. cbn.
  rewrite He. cbn. unfold HTTPClientAndScheme. by rewrite Hc.
Qed.
Lemma check_connection_Ret p e err (st : ClusterSt W) :
  cl_heap (cs_cluster st) !! p = Some e → ∃ st', check_connection api p err st = (Ret tt, st').
Proof.
  intros He. unfold check_connection, on. rewrite He.
  destruct (@CheckConnectionErr W (api p) _ _) as [[] st1]. by eexists.
Qed.

(** A request about an image, forwarded to an engine that is no longer there, is answered
    with nothing, that is with a success. *)
Theorem image_failure_is_silent r st image e :
  cluster_Image (cs_cluster st) (Vars r "name") = Some image →
  cl_heap (cs_cluster st) !! img_Engine image = Some e → e_connected e = false →
  (proxyImage (W := W) api r st).1 = Ret [] ∧ status_of [] = 200.
Proof.
  intros Hi He Hc. split; [|done]. unfold proxyImage, mbind, C_bind at 1, get_cluster at 1. cbn [cs_cluster].
  rewrite Hi. unfold proxy_image, mbind, C_bind at 1. rewrite (proxy_disconnected _ e) by done. cbn [fst snd].
  unfold C_bind. by destruct (check_connection_Ret (img_Engine image) e (HTTPClientAndScheme e) st He) as [st' ->].
Qed.
End failures.

(** ** The path of a forwarded request *)

(** The name is replaced where it occurs first: in its place, if no part of the route
    begins like it; and otherwise in the route. *)
Theorem path_rewritten r x action :
  (∀ c rest, c ∉ chars "/containers/" →
    let name := String c rest in
    rq_Path (with_full_ID name x (set_Path ("/containers/" +:+ name +:+ action) r)) = "/containers/" +:+ ctr_ID x +:+ action) ∧
  rq_Path (with_full_ID "c" x (set_Path ("/containers/c" +:+ action) r)) = "/" +:+ ctr_ID x +:+ "ontainers/c" +:+ action ∧
  rq_Path (with_full_ID "1" x (set_Path ("/v1.24/containers/1" +:+ action) r)) = "/v" +:+ ctr_ID x +:+ ".24/containers/1" +:+ action.
Proof.
  split; [|split]; [|done|done]. intros c rest Hc name. unfold with_full_ID. simpl String.eqb. unfold Replace1.
  unfold set_Path, rq_Path. unfold name. by rewrite (cut_app c rest "/containers/" action Hc).
Qed.

(** ** A name that is taken *)

Section conflict.
Context {W : Type} `{Decoding} (api : ptr → DockerAPI W).
Context `{GoRegexp} `{GoJson} `{GoNet} `{MapRange} `{GoSort} (Intn : Z → Z).
Context (scheduler : Scheduler) (createRetry : Z) (ids : id_draws) (IsPrint : Z → bool).
Implicit Types st : ClusterSt W.

Definition taken (name : string) st : Prop := checkNameUniqueness (cs_cluster st) name = false.
Lemma createContainer_taken config name aff auth draws st :
  taken name st → ∃ st', createContainer api Intn scheduler config name aff auth draws st =
    (Ret (config, (None, Some (name_conflict name))), st') ∧ taken name st'.
Proof.
  intros Ht. unfold createContainer, reserve, mbind, C_bind, lock, modify_cluster, get_cluster. cbn.
  unfold taken in Ht. change (checkNameUniqueness (cl_set_locked true (cs_cluster st)) name) with
    (checkNameUniqueness (cs_cluster st) name). rewrite Ht. cbn. eexists. split; [reflexivity|]. exact Ht.
Qed.
Lemma retry_taken n config name auth draws st :
  taken name st → ∃ config' st', retry api Intn scheduler n config name auth draws (None, Some (name_conflict name)) st =
    (Ret (config', (None, Some (name_conflict name))), st') ∧ taken name st'.
Proof.
  revert config st. induction n as [|n IH]; intros config st Ht; simpl; [by eexists _, _|].
  destruct (createContainer_taken config name false auth (draws (S n)) st Ht) as (st1 & Hr & Ht1).
  unfold mbind, C_bind. rewrite Hr. cbn. by apply IH.
Qed.
Lemma CreateContainer_taken config name auth first second draws st :
  taken name st → ∃ config' st', CreateContainer api Intn scheduler createRetry config name auth first second draws st =
    (Ret (config', (None, Some (name_conflict name))), st') ∧ taken name st'.
Proof.
  intros Ht. unfold CreateContainer.
  destruct (createContainer_taken config name false auth first st Ht) as (st1 & Hr & Ht1).
  unfold mbind at 1, C_bind at 1. rewrite Hr. cbn [snd].
  unfold mbind at 1, C_bind at 1, get_cluster. destruct (_ && _); [|by apply retry_taken].
  destruct (createContainer_taken config name true auth second st1 Ht1) as (st2 & Hr2 & Ht2).
  unfold mbind at 1, C_bind at 1. rewrite Hr2. cbn [fst snd]. by apply retry_taken.
Qed.
(** C18: the creation of a container, under a name that a container of the cluster or one under
    creation has, is a conflict; nothing has been asked of any engine. *)
Theorem create_taken_conflicts r st oldconfig :
  rq_FormErr r = None → decoded decode_config r = inl oldconfig → taken (Form_Get r "name") st →
  let config := oc_ContainerConfig (ConsolidateResourceFields oldconfig) in
  Validate (BuildContainerConfig (cc_Config config) (cc_HostConfig config) (cc_NetworkingConfig config)) = Ret tt →
  ∃ st', postContainersCreate api Intn scheduler createRetry ids IsPrint r st =
    (Ret [httpError (err_msg (name_conflict (Form_Get r "name"))) 409], st').
Proof.
  intros Hf Hd Ht config Hv. unfold postContainersCreate, parse_form. rewrite Hf, Hd.
  fold config. rewrite Hv.
  destruct (CreateContainer_taken (BuildContainerConfig (cc_Config config) (cc_HostConfig config) (cc_NetworkingConfig config))
    (Form_Get r "name") (decode_auth (rq_Header r "X-Registry-Auth")) (dr_first ids) (dr_second ids) (dr_retry ids) st Ht)
    as (config' & st' & Hr & _).
  unfold mbind, C_bind. rewrite Hr. by exists st'.
Qed.
End conflict.

(** ** The identifier of an [exec] *)

Section exec.
Context {W : Type} `{EngineHTTP W} `{Decoding} (api : ptr → DockerAPI W) `{GoRegexp} `{GoJson} `{MapRange}.
Implicit Types st : ClusterSt W.

Lemma find_has_exec id (l : list Container) x :
  x ∈ l → find_exec id x = true → ∃ y, List.find (find_exec id) l = Some y ∧ y ∈ l ∧ find_exec id y = true.
Proof.
  intros Hx Hid. destruct (List.find (find_exec id) l) as [y|] eqn:Hy.
  - apply List.find_some in Hy as [Hin%list_elem_of_In Hm]. by exists y.
  - apply list_elem_of_In in Hx. by rewrite (List.find_none _ _ Hy _ Hx) in Hid.
Qed.
Lemma find_exec_add id x : find_exec id (ctr_add_exec id x) = true.
Proof. unfold find_exec. simpl. rewrite existsb_app. simpl. by rewrite String.eqb_refl, orb_true_r. Qed.

(** A container that the cluster finds is where its engine stores it. *)
Lemma found_is_stored c name x :
  (∀ p e, cl_heap c !! p = Some e → engine_wf p e) → cluster_Container c name = Ret (Some x) →
  ∃ id e, cl_engines c !! id = Some (ctr_Engine x) ∧ cl_heap c !! ctr_Engine x = Some e ∧
    e_containers e !! ctr_ID x = Some x.
Proof.
  intros Hwf Hx. unfold cluster_Container in Hx. destruct (len name =? 0); [done|].
  destruct (Containers_Get_sound (hdr_at c) (cluster_Containers c) name) as (o & Ho & Hs).
  { apply Forall_forall. intros y (id & q & e & k & _ & Hq & Hk)%cluster_Containers_elem.
    by destruct (wf_containers _ _ (Hwf _ _ Hq) _ _ Hk) as (_ & _ & ?). }
  rewrite Ho in Hx. injection Hx as ->. destruct Hs as (_ & Hin & _).
  apply cluster_Containers_elem in Hin as (id & q & e & k & Hid & Hq & Hk).
  destruct (wf_containers _ _ (Hwf _ _ Hq) _ _ Hk) as (<- & <- & _). by exists id, e.
Qed.

(** What storing the identifier leaves. *)
Lemma add_exec_stored e x id : e_containers e !! ctr_ID x = Some x →
  e_containers (add_exec id (ctr_ID x) e) !! ctr_ID x = Some (ctr_add_exec id x).
Proof. intros Hx. unfold add_exec. simpl. by rewrite lookup_alter_eq, Hx. Qed.

Lemma on_add_exec p e id ctr st r st' :
  cl_heap (cs_cluster st) !! p = Some e → on api p (λ _, modify (add_exec id ctr)) st = (r, st') →
  cl_engines (cs_cluster st') = cl_engines (cs_cluster st) ∧
  cl_heap (cs_cluster st') = <[p := add_exec id ctr e]> (cl_heap (cs_cluster st)).
Proof. intros He. unfold on. rewrite He. by intros [= _ <-]. Qed.
Lemma on_check p e err st r st' :
  cl_heap (cs_cluster st) !! p = Some e → check_connection api p err st = (r, st') →
  cl_engines (cs_cluster st') = cl_engines (cs_cluster st) ∧
  ∃ e', cl_heap (cs_cluster st') = <[p := e']> (cl_heap (cs_cluster st)) ∧ e_containers e' = e_containers e.
Proof.
  intros He. unfold check_connection, on. rewrite He.
  pose proof (@CheckConnectionErr_same W (api p) err (mkSt (cs_world st) e [])) as Hs.
  destruct (@CheckConnectionErr W (api p) _ _) as [[] st1]. simpl in Hs. intros [= _ <-].
  split; [done|]. exists (st_engine st1). split; [done|]. by destruct Hs as (_ & -> & _).
Qed.

Lemma engine_at_same p st e st' : engine_at p st = (Ret e, st') → st' = st.
Proof. unfold engine_at, mbind, C_bind, get_cluster, lift. by intros [= _ <-]. Qed.
Lemma outside_cluster {A} (f : W → W * A) st a st' : outside f st = (Ret a, st') → cs_cluster st' = cs_cluster st.
Proof. unfold outside. destruct (f _). by intros [= _ <-]. Qed.

(** The containers after the identifier was stored. *)
Lemma stored_once c c' k x e e' id :
  cl_engines c !! k = Some (ctr_Engine x) → cl_heap c !! ctr_Engine x = Some e →
  e_containers e !! ctr_ID x = Some x → e_containers e' = e_containers e →
  cl_engines c' = cl_engines c → cl_heap c' = <[ctr_Engine x := add_exec id (ctr_ID x) e']> (cl_heap c) →
  ctr_add_exec id x ∈ cluster_Containers c' ∧
  ∀ y, y ∈ cluster_Containers c' → y = ctr_add_exec id x ∨ y ∈ cluster_Containers c.
Proof.
  intros Hk He Hx He' Ht Hh. split.
  - apply cluster_Containers_elem. exists k, (ctr_Engine x), (add_exec id (ctr_ID x) e'), (ctr_ID x).
    rewrite Ht, Hh, lookup_insert_eq. split_and!; [done..|]. apply add_exec_stored. by rewrite He'.
  - intros y (i & q & eq & j & Hi & Hq & Hj)%cluster_Containers_elem. rewrite Ht in Hi. rewrite Hh in Hq.
    apply lookup_insert_Some in Hq as [[<- <-]|[Hne Hq]].
    2: { right. apply cluster_Containers_elem. by exists i, q, eq, j. }
    unfold add_exec in Hj. simpl in Hj. rewrite He' in Hj. destruct (decide (j = ctr_ID x)) as [->|Hne].
    + rewrite lookup_alter_eq, Hx in Hj. left. by injection Hj.
    + rewrite lookup_alter_ne in Hj by done. right. apply cluster_Containers_elem. by exists i, (ctr_Engine x), e, j.
Qed.

(** C19: an [exec] that was created is found again by its identifier: the requests about it are
    forwarded for a container that has it, the one it was created in when the identifier
    is new. *)
Theorem exec_found r st status body st' id :
  (∀ p e, cl_heap (cs_cluster st) !! p = Some e → engine_wf p e) →
  postContainersExec api r st = (Ret [WriteHeader status; Write (Text body)], st') →
  decode_ID body = inl id →
  ∃ x y, cluster_Container (cs_cluster st) (Vars r "name") = Ret (Some x) ∧
    getContainerFromVars (cs_cluster st') {["execid" := id]} = Ret ("", Some y, None) ∧
    find_exec id y = true ∧
    (Forall (λ z, find_exec id z = false) (cluster_Containers (cs_cluster st)) → y = ctr_add_exec id x).
Proof.
  intros Hwf Hrun Hid. unfold postContainersExec in Hrun.
  apply C_bind_Ret in Hrun as (c & st0 & [= <- <-] & Hrun).
  apply C_bind_Ret in Hrun as ([x|] & st0 & Hx & Hrun); [|done].
  injection Hx as Hx <-. destruct (found_is_stored _ _ _ Hwf Hx) as (k & e & Hk & He & Hst).
  apply C_bind_Ret in Hrun as (e1 & st0 & He1 & Hrun). apply engine_at_same in He1 as ->.
  destruct (HTTPClientAndScheme e1); [done|].
  apply C_bind_Ret in Hrun as (resp & st1 & Hresp & Hrun). apply outside_cluster in Hresp.
  apply C_bind_Ret in Hrun as (? & st2 & Hck & Hrun).
  rewrite <- Hresp in He. eapply on_check in Hck as (Ht2 & e2 & Hh2 & Hc2); [|exact He].
  destruct resp as [[s b]|]; [|done]. destruct (_ || _); [done|]. destruct (decode_ID b) as [id'|] eqn:Hb; [|done].
  apply C_bind_Ret in Hrun as (? & st3 & Hadd & [= <- <- <-]). rewrite Hb in Hid. injection Hid as ->.
  eapply on_add_exec in Hadd as (Ht3 & Hh3); [|by rewrite Hh2, lookup_insert_eq].
  rewrite Hh2, Hresp, insert_insert_eq in Hh3. rewrite Ht2, Hresp in Ht3.
  destruct (stored_once (cs_cluster st) (cs_cluster st3) k x e e2 id) as [Hin Hall]; [congruence..|].
  destruct (find_has_exec id _ _ Hin (find_exec_add id x)) as (y & Hy & Hyin & Hyid).
  exists x, y. split_and!; [done| |done|].
  - unfold getContainerFromVars. rewrite lookup_singleton_ne, lookup_singleton_eq by done. by rewrite Hy.
  - intros Hnew. destruct (Hall _ Hyin) as [->|Hold]; [done|].
    rewrite Forall_forall in Hnew. by rewrite Hnew in Hyid.
Qed.
End exec.

(** ** Two containers and an image behind one engine *)

Section concrete.
Existing Instances re2 json_strings net_zero canonical_range insertion_sort.

(** An engine that answers every request, and a client that sends plain text. *)
Definition willing_engine : Forwarding unit := {|
  http_do := λ _ _ _ w, (w, inl 200);
  raw_conn := λ _ _ w, (w, None) |}.
Definition exec_engine : EngineHTTP unit := {|
  exec_create := λ _ _ _ w, (w, inl (201, "{Id:e1}"));
  http_inspect := λ _ id _ w, (w, inl id);
  start_with := λ _ _ _ w, (w, None) |}.
Definition plain_decoding : Decoding := {|
  decode_config := λ _, inl {| oc_ContainerConfig := zero_ContainerConfig; oc_Memory := 0; oc_MemorySwap := 0;
                               oc_CPUShares := 0; oc_CPUSet := "" |};
  decode_network := inl; decode_volume := λ s, inl (s, "local"); decode_connect := λ s, inl (s, false);
  decode_hostConfig := inl; decode_buildargs := λ _, ∅; decode_ID := λ _, inl "e1"; decode_auth := λ s, s;
  FromParam := λ _, inl ∅ |}.
Existing Instances willing_engine exec_engine plain_decoding.

(** The engine of [two_on_one], with an image, connected or not. *)
Definition nginx : Image := {| img_ID := "sha256:01"; img_RepoTags := ["nginx:latest"]; img_RepoDigests := [];
  img_Labels := ∅; img_Created := 0; img_Engine := 0%nat |}.
Definition serving (connected : bool) : ClusterSt unit := mkCS tt
  (cl_set_heap ((λ e, set_connected connected (set_images [nginx] e)) <$> cl_heap two_on_one) two_on_one) [].
Definition request (path : string) (vars : gmap string string) (form : gmap string (list string)) : Request :=
  {| rq_Path := path; rq_RawQuery := ""; rq_Query := ∅; rq_Form := form; rq_FormErr := None; rq_vars := vars;
     rq_Header := λ _, ""; rq_Body := inl ""; rq_RemoteAddr := "" |}.

Definition exec_request : Request := request "/exec/e1/start" {["name" := "web"]} ∅.
Example exec_start_effects :
  (postExecStart quiet_api exec_request (serving true)).1 =
  Ret [Proxied 0 "/exec/e1/start" "" 200; Hijacked "a:1" "/exec/e1/start"].
Proof. vm_compute. reflexivity. Qed.
Lemma exec_start_answers_twice_witness :
  ∃ l, (postExecStart quiet_api exec_request (serving true)).1 = Ret l ∧ answers l = 2%nat.
Proof.
  destruct (postExecStart quiet_api exec_request (serving true)) as [[l|e|w] st'] eqn:Hr.
  - exists l. split; [done|]. exact (exec_start_answers_twice quiet_api exec_request (serving true) l st' eq_refl Hr).
  - exfalso. apply (f_equal fst) in Hr. vm_compute in Hr. discriminate Hr.
  - exfalso. apply (f_equal fst) in Hr. vm_compute in Hr. discriminate Hr.
Defined.

Definition image_request : Request := request "/images/nginx/json" {["name" := "nginx"]} ∅.
Lemma image_failure_is_silent_witness :
  (proxyImage quiet_api image_request (serving false)).1 = Ret [] ∧ status_of [] = 200.
Proof.
  refine (image_failure_is_silent quiet_api image_request (serving false) nginx
    (set_connected false (set_images [nginx] (set_containers {["c1" := web; "c2" := old_db]} (engine_with stateHealthy 0))))
    _ _ _); vm_compute; reflexivity.
Defined.

(** The creation of a container under the name of [web]. *)
Definition create_request : Request := request "/containers/create" ∅ {["name" := ["web"]]}.
Definition two_draws : id_draws := {| dr_first := ["i1"]; dr_second := ["i2"]; dr_retry := λ _, ["i3"] |}.
Lemma create_taken_conflicts_witness :
  ∃ st', postContainersCreate quiet_api (λ _, 0) constraint_scheduler 2 two_draws (λ _, true) create_request (serving true)
    = (Ret [httpError (err_msg (name_conflict "web")) 409], st').
Proof.
  refine (create_taken_conflicts quiet_api (λ _, 0) constraint_scheduler 2 two_draws (λ _, true) create_request
    (serving true) _ eq_refl eq_refl _ _); vm_compute; reflexivity.
Defined.

Definition create_exec : Request := request "/containers/web/exec" {["name" := "web"]} ∅.
Lemma serving_wf p e : cl_heap (cs_cluster (serving true)) !! p = Some e → engine_wf p e.
Proof.
  unfold serving, two_on_one. simpl. rewrite map_fmap_singleton. intros [<- <-]%lookup_singleton_Some.
  split; simpl.
  - done.
  - unfold good_map. apply map_Forall_insert_2; [by split_and!|]. apply map_Forall_singleton. by split_and!.
  - by repeat constructor.
  - apply map_Forall_empty.
  - apply map_Forall_empty.
Qed.
Lemma exec_found_witness :
  ∃ st', postContainersExec quiet_api create_exec (serving true) = (Ret [WriteHeader 201; Write (Text "{Id:e1}")], st') ∧
    getContainerFromVars (cs_cluster st') {["execid" := "e1"]} = Ret ("", Some (ctr_add_exec "e1" web), None).
Proof.
  destruct (postContainersExec quiet_api create_exec (serving true)) as [o st'] eqn:Hr.
  assert (o = Ret [WriteHeader 201; Write (Text "{Id:e1}")]) as ->.
  { replace o with (postContainersExec quiet_api create_exec (serving true)).1 by (by rewrite Hr).
    clear. vm_compute. reflexivity. }
  destruct (exec_found quiet_api create_exec (serving true) 201 "{Id:e1}" st' "e1" serving_wf Hr eq_refl)
    as (x & y & Hx & Hy & _ & Hnew).
  assert (x = web) as ->.
  { assert (cluster_Container (cs_cluster (serving true)) "web" = Ret (Some web)) as Hw by (clear; vm_compute; reflexivity).
    assert (Ret (Some x) = Ret (Some web)) as Heq by exact (eq_trans (eq_sym Hx) Hw). by injection Heq. }
  exists st'. split; [done|]. rewrite Hy, Hnew; [done|].
  clear. vm_compute. repeat constructor.
Defined.

End concrete.
