(* ===== verification/Hijack.v ===== *)
(** * Connections that are taken over ([api/utils.go], [hijack])

    An attachment to a container is answered with the connection itself: the handler dials
    the engine, takes the client's connection over, and two goroutines copy one into the
    other until the streams end.  The goroutines and the two peers are the steps of a
    relation; a goroutine that waits has no step. *)
From S2P Require Import Prelude GoStrings.
From Stdlib Require Import Ascii Wellfounded.

(** ** Connections *)

(** A connection, seen from the manager: what its peer has sent, of that what is still to
    be read, whether the peer sends no more, whether it takes no more, how many more writes
    find room, and what has been written; [cn_half] when it has a [CloseWrite] method. *)
Record Conn := mkConn {
  cn_half : bool;
  cn_sent : list string;
  cn_in : list string;
  cn_eof : bool;
  cn_broken : bool;
  cn_room : nat;
  cn_out : list string;
  cn_wclosed : bool;
  cn_closed : bool
}.
Definition new_conn (half : bool) : Conn := mkConn half [] [] false false 0 [] false false.
Definition conn_Close (c : Conn) : Conn :=
  mkConn (cn_half c) (cn_sent c) (cn_in c) (cn_eof c) (cn_broken c) (cn_room c) (cn_out c) (cn_wclosed c) true.
(** [CloseWrite()] where the connection has it: a [net.TCPConn], or [tlsClientConn]. *)
Definition CloseWrite (c : Conn) : Conn :=
  mkConn (cn_half c) (cn_sent c) (cn_in c) (cn_eof c) (cn_broken c) (cn_room c) (cn_out c)
    (cn_half c || cn_wclosed c) (cn_closed c).
(** The connection after a [Read] that leaves [l], and after a [Write] of [chunk]. *)
Definition conn_unread (l : list string) (c : Conn) : Conn :=
  mkConn (cn_half c) (cn_sent c) l (cn_eof c) (cn_broken c) (cn_room c) (cn_out c) (cn_wclosed c) (cn_closed c).
Definition conn_wrote (chunk : string) (c : Conn) : Conn :=
  mkConn (cn_half c) (cn_sent c) (cn_in c) (cn_eof c) (cn_broken c) (pred (cn_room c)) (cn_out c ++ [chunk])
    (cn_wclosed c) (cn_closed c).
Definition refuses (c : Conn) : bool := cn_closed c || cn_wclosed c || cn_broken c.

(** What a peer does: it sends, ends its stream, takes one more write, or breaks the
    connection, in which case only [n] of the chunks on their way can still be read. *)
Inductive peer_act := sends (chunk : string) | ends | takes | breaks (n : nat).
Definition peer_do (a : peer_act) (c : Conn) : Conn :=
  match a with
  | sends chunk =>
      if cn_eof c then c
      else mkConn (cn_half c) (cn_sent c ++ [chunk]) (cn_in c ++ [chunk]) (cn_eof c) (cn_broken c) (cn_room c)
             (cn_out c) (cn_wclosed c) (cn_closed c)
  | ends => mkConn (cn_half c) (cn_sent c) (cn_in c) true (cn_broken c) (cn_room c) (cn_out c) (cn_wclosed c) (cn_closed c)
  | takes => mkConn (cn_half c) (cn_sent c) (cn_in c) (cn_eof c) (cn_broken c) (S (cn_room c)) (cn_out c) (cn_wclosed c)
               (cn_closed c)
  | breaks n => mkConn (cn_half c) (cn_sent c) (take n (cn_in c)) true true (cn_room c) (cn_out c) (cn_wclosed c) (cn_closed c)
  end.

(** ** The goroutines *)

(** Where [cp(dst, src, chDone)] is: in [io.Copy], before a [Read] or a [Write]; before the
    [CloseWrite]; before [close(chDone)]; after it. *)
Inductive copier := reading | writing (chunk : string) | half_closing | signalling | finished.
(** Its next step, if it has one. *)
Definition cp (dst src : Conn) (k : copier) : option (Conn * Conn * copier) :=
  match k with
  | reading =>
      if cn_closed src then Some (dst, src, half_closing)
      else match cn_in src with
           | chunk :: l => Some (dst, conn_unread l src, writing chunk)
           | [] => if cn_eof src then Some (dst, src, half_closing) else None
           end
  | writing chunk =>
      if refuses dst then Some (dst, src, half_closing)
      else match cn_room dst with
           | O => None
           | S _ => Some (conn_wrote chunk dst, src, reading)
           end
  | half_closing => Some (CloseWrite dst, src, signalling)
  | signalling => Some (dst, src, finished)
  | finished => None
  end.

(** Where [hijack] is: in the [select]; waiting for [outDone]; before [nc.Close()]; waiting
    for [inDone]; after the deferred calls. *)
Inductive hijacker := selecting | waiting_out | closing | waiting_in | returned.
Record Hijack := mkHijack {
  hj_nc : Conn;
  hj_d : Conn;
  hj_in : copier;
  hj_out : copier;
  hj_main : hijacker
}.
Definition is_finished (k : copier) : bool := match k with finished => true | _ => false end.
(** [defer nc.Close(); defer d.Close()] *)
Definition hj_return (s : Hijack) : Hijack :=
  mkHijack (conn_Close (hj_nc s)) (conn_Close (hj_d s)) (hj_in s) (hj_out s) returned.
Definition hj_goto (m : hijacker) (s : Hijack) : Hijack := mkHijack (hj_nc s) (hj_d s) (hj_in s) (hj_out s) m.
(** [first_in]: which channel the [select] takes when both are closed. *)
Definition main_next (first_in : bool) (s : Hijack) : option Hijack :=
  match hj_main s with
  | selecting =>
      match is_finished (hj_in s), is_finished (hj_out s) with
      | true, true => Some (hj_goto (if first_in then waiting_out else closing) s)
      | true, false => Some (hj_goto waiting_out s)
      | false, true => Some (hj_goto closing s)
      | false, false => None
      end
  | waiting_out => if is_finished (hj_out s) then Some (hj_return s) else None
  | closing => Some (mkHijack (conn_Close (hj_nc s)) (hj_d s) (hj_in s) (hj_out s) waiting_in)
  | waiting_in => if is_finished (hj_in s) then Some (hj_return s) else None
  | returned => None
  end.
(** [go cp(d, nc, inDone)] and [go cp(nc, d, outDone)] *)
Definition in_next (s : Hijack) : option Hijack :=
  match cp (hj_d s) (hj_nc s) (hj_in s) with
  | Some (d, nc, k) => Some (mkHijack nc d k (hj_out s) (hj_main s)) | None => None end.
Definition out_next (s : Hijack) : option Hijack :=
  match cp (hj_nc s) (hj_d s) (hj_out s) with
  | Some (nc, d, k) => Some (mkHijack nc d (hj_in s) k (hj_main s)) | None => None end.

(** A step of the program, and a step of anything. *)
Inductive code_step (s s' : Hijack) : Prop :=
  | code_in : in_next s = Some s' → code_step s s'
  | code_out : out_next s = Some s' → code_step s s'
  | code_main first_in : main_next first_in s = Some s' → code_step s s'.
Definition client_does (a : peer_act) (s : Hijack) : Hijack :=
  mkHijack (peer_do a (hj_nc s)) (hj_d s) (hj_in s) (hj_out s) (hj_main s).
Definition engine_does (a : peer_act) (s : Hijack) : Hijack :=
  mkHijack (hj_nc s) (peer_do a (hj_d s)) (hj_in s) (hj_out s) (hj_main s).
Inductive hj_step (s : Hijack) : Hijack → Prop :=
  | hj_code s' : code_step s s' → hj_step s s'
  | hj_client a : hj_step s (client_does a s)
  | hj_engine a : hj_step s (engine_does a s).

(** ** The beginning of [hijack] *)

(** [dial], [taken] and [written] are the results of [dialHijack], of the conversion of
    [w] to an [http.Hijacker] and its [Hijack], and of [r.Write(d)]; an error comes with
    the connections that are left open. *)
Inductive hj_started := copying (s : Hijack) | failed (err : string) (left_open : list Conn).
Definition hijack_start (dial : Conn + string) (taken : option (Conn + string)) (written : option string) : hj_started :=
  match dial with
  | inr err => failed err []
  | inl d =>
      match taken with
      | None => failed "Docker server does not support hijacking" [d]
      | Some (inr err) => failed err [d]
      | Some (inl nc) =>
          match written with
          | Some err => failed err []
          | None => copying (mkHijack nc d reading reading selecting)
          end
      end
  end.
Definition hijack_init (half_nc half_d : bool) : Hijack :=
  mkHijack (new_conn half_nc) (new_conn half_d) reading reading selecting.

(** ** What a copy has done *)

Definition flight (k : copier) : list string := match k with writing chunk => [chunk] | _ => [] end.
Definition running (k : copier) : bool := match k with reading | writing _ => true | _ => false end.
(** What has been written is a beginning of what was sent; as long as the copy runs, the
    chunk in flight and the unread ones come next, and nothing else unless the connection
    broke. *)
Definition dir_ok (src dst : Conn) (k : copier) : Prop :=
  if running k then
    (cn_out dst ++ flight k ++ cn_in src) `prefix_of` cn_sent src ∧
    (cn_broken src = true ∧ cn_eof src = true ∨ cn_out dst ++ flight k ++ cn_in src = cn_sent src) ∧
    cn_wclosed dst = false
  else cn_out dst `prefix_of` cn_sent src.
Lemma dir_ok_prefix src dst k : dir_ok src dst k → cn_out dst `prefix_of` cn_sent src.
Proof. unfold dir_ok. destruct (running k); [|done]. intros (Hp & _). etrans; [|exact Hp]. by apply prefix_app_r. Qed.
Lemma cp_dir dst src k dst' src' k' :
  cp dst src k = Some (dst', src', k') → dir_ok src dst k → dir_ok src' dst' k'.
Proof.
  intros Hcp Hok. pose proof (dir_ok_prefix _ _ _ Hok) as Hpre. unfold dir_ok, cp in *.
  destruct k as [|chunk| | |]; simpl in *; [| |by injection Hcp as <- <- <-..|done].
  - destruct (cn_closed src); [by injection Hcp as <- <- <-|]. destruct (cn_in src) as [|chunk l] eqn:Hin.
    + destruct (cn_eof src); [by injection Hcp as <- <- <-|done].
    + injection Hcp as <- <- <-. simpl. done.
  - destruct (refuses dst); [by injection Hcp as <- <- <-|]. destruct (cn_room dst); [done|].
    injection Hcp as <- <- <-. simpl. by rewrite <- app_assoc.
Qed.
(** What a copy leaves alone: the way of its destination to it, and the way from its source. *)
Lemma cp_frame dst src k dst' src' k' :
  cp dst src k = Some (dst', src', k') →
  (cn_in dst' = cn_in dst ∧ cn_sent dst' = cn_sent dst ∧ cn_broken dst' = cn_broken dst ∧ cn_eof dst' = cn_eof dst ∧
   cn_closed dst' = cn_closed dst) ∧
  (cn_out src' = cn_out src ∧ cn_wclosed src' = cn_wclosed src ∧ cn_broken src' = cn_broken src ∧
   cn_closed src' = cn_closed src ∧ cn_room src' = cn_room src).
Proof.
  unfold cp. intros Hcp. repeat split_match; try discriminate Hcp; injection Hcp as <- <- <-; simpl; tauto.
Qed.
Lemma cp_running dst src k dst' src' k' :
  cp dst src k = Some (dst', src', k') →
  if running k then
    running k' = true ∨
    (k' = half_closing ∧ dst' = dst ∧ src' = src ∧
     ((∃ chunk, k = writing chunk ∧ refuses dst = true) ∨
      (k = reading ∧ (cn_closed src = true ∨ (cn_in src = [] ∧ cn_eof src = true)))))
  else running k' = false.
Proof.
  unfold cp. destruct k as [|chunk| | |]; intros Hcp; simpl; [| |by injection Hcp as <- <- <-..|done].
  - destruct (cn_closed src) eqn:Hc; [injection Hcp as <- <- <-; right; split_and!; auto|].
    destruct (cn_in src); [|injection Hcp as <- <- <-; by left].
    destruct (cn_eof src) eqn:He; [|done]. injection Hcp as <- <- <-. right. split_and!; auto.
  - destruct (refuses dst) eqn:Hr; [injection Hcp as <- <- <-; right; split_and!; eauto|].
    destruct (cn_room dst); [done|]. injection Hcp as <- <- <-. by left.
Qed.
Lemma cp_finished dst src k r : cp dst src k = Some r → is_finished k = false.
Proof. by destruct k. Qed.

(** The way to the manager under what the peer at its end does, and the way from it. *)
Lemma peer_src a src dst k : dir_ok src dst k → dir_ok (peer_do a src) dst k.
Proof.
  intros Hok. pose proof (dir_ok_prefix _ _ _ Hok) as Hpre. unfold dir_ok in *.
  destruct a as [chunk| | |n]; simpl; [| |done|].
  - destruct (cn_eof src) eqn:Heof; [by rewrite Heof|]. simpl. destruct (running k); [|by apply prefix_app_r].
    destruct Hok as (_ & [[_ [=]]|He] & Hw). split_and!; [|right|done]; rewrite <- He, <- !app_assoc; done.
  - destruct (running k); [|done]. destruct Hok as (Hp & [[Hb _]|He] & Hw); split_and!; auto.
  - destruct (running k); [|done]. destruct Hok as (Hp & _ & Hw). split_and!; [|by left|done].
    etrans; [|exact Hp]. exists (drop n (cn_in src)). by rewrite <- !app_assoc, take_drop.
Qed.
Lemma peer_dst a src dst k : dir_ok src dst k → dir_ok src (peer_do a dst) k.
Proof. unfold dir_ok. destruct a; simpl; [destruct (cn_eof dst)|..]; done. Qed.

(** ** The invariant *)

Record hj_ok (s : Hijack) : Prop := {
  ok_in : dir_ok (hj_nc s) (hj_d s) (hj_in s);
  ok_out : dir_ok (hj_d s) (hj_nc s) (hj_out s);
  ok_complete : running (hj_out s) = false →
    cn_broken (hj_nc s) = true ∨ cn_broken (hj_d s) = true ∨
    (cn_eof (hj_d s) = true ∧ cn_out (hj_nc s) = cn_sent (hj_d s));
  ok_nc : cn_closed (hj_nc s) = match hj_main s with waiting_in | returned => true | _ => false end;
  ok_d : cn_closed (hj_d s) = match hj_main s with returned => true | _ => false end;
  ok_in_done : match hj_main s with waiting_out | returned => is_finished (hj_in s) = true | _ => True end;
  ok_out_done : match hj_main s with closing | waiting_in | returned => is_finished (hj_out s) = true | _ => True end
}.
Lemma finished_stopped k : is_finished k = true → running k = false.
Proof. by destruct k. Qed.
Lemma in_next_ok s s' : in_next s = Some s' → hj_ok s → hj_ok s'.
Proof.
  unfold in_next. intros Hn [Hin Hout Hc Hnc Hd Hid Hod].
  destruct (cp _ _ _) as [[[d nc] k]|] eqn:Hcp; [|done]. injection Hn as <-.
  pose proof (cp_finished _ _ _ _ Hcp) as Hf.
  destruct (cp_frame _ _ _ _ _ _ Hcp) as ((Hd1 & Hd2 & Hd3 & Hd4 & Hd5) & (Hs1 & Hs2 & Hs3 & Hs4 & _)).
  split; simpl.
  - by apply (cp_dir _ _ _ _ _ _ Hcp).
  - unfold dir_ok in *. by rewrite Hd1, Hd2, Hd3, Hd4, Hs1, Hs2.
  - by rewrite Hs3, Hs1, Hd3, Hd4, Hd2.
  - by rewrite Hs4.
  - by rewrite Hd5.
  - destruct (hj_main s); [done|congruence|done|done|congruence].
  - done.
Qed.
Lemma out_next_ok s s' : out_next s = Some s' → hj_ok s → hj_ok s'.
Proof.
  unfold out_next. intros Hn [Hin Hout Hc Hnc Hd Hid Hod].
  destruct (cp _ _ _) as [[[nc d] k]|] eqn:Hcp; [|done]. injection Hn as <-.
  pose proof (cp_finished _ _ _ _ Hcp) as Hf.
  destruct (cp_frame _ _ _ _ _ _ Hcp) as ((Hd1 & Hd2 & Hd3 & Hd4 & Hd5) & (Hs1 & Hs2 & Hs3 & Hs4 & _)).
  assert (Hopen : cn_closed (hj_nc s) = false ∧ cn_closed (hj_d s) = false).
  { rewrite Hnc, Hd. destruct (hj_main s); congruence || done. }
  destruct Hopen as [Hno Hdo].
  split; simpl.
  - unfold dir_ok in *. by rewrite Hd1, Hd2, Hd3, Hd4, Hs1, Hs2.
  - by apply (cp_dir _ _ _ _ _ _ Hcp).
  - intros Hk. pose proof (cp_running _ _ _ _ _ _ Hcp) as Hr. destruct (running (hj_out s)) eqn:Hrun.
    + destruct Hr as [Hr|(-> & -> & -> & Hr)]; [congruence|]. unfold dir_ok in Hout. rewrite Hrun in Hout.
      destruct Hout as (_ & He & Hw). destruct Hr as [(chunk & Hk' & Href)|(Hk' & [Hcl|[Hnil Heof]])]; [|congruence|].
      * left. unfold refuses in Href. by rewrite Hno, Hw in Href.
      * rewrite Hk', Hnil in He. simpl in He. rewrite app_nil_r in He. right. destruct He as [[??]|?]; auto.
    + specialize (Hc eq_refl). rewrite Hd3, Hs3. destruct Hc as [?|[?|[He Ho]]]; [auto..|]. right; right.
      destruct (hj_out s); try done; simpl in Hcp; injection Hcp as <- <- <-; simpl; auto.
  - by rewrite Hd5.
  - by rewrite Hs4.
  - done.
  - destruct (hj_main s); [done|done|congruence|congruence|congruence].
Qed.
Lemma dir_ok_close src dst k : dir_ok src dst k → dir_ok (conn_Close src) (conn_Close dst) k.
Proof. done. Qed.
Lemma main_next_ok b s s' : main_next b s = Some s' → hj_ok s → hj_ok s'.
Proof.
  unfold main_next. intros Hn [Hin Hout Hc Hnc Hd Hid Hod].
  destruct (hj_main s) eqn:Hm; [destruct (is_finished (hj_in s)) eqn:Hi; destruct (is_finished (hj_out s)) eqn:Ho; [destruct b|..]
    |destruct (is_finished (hj_out s)) eqn:Ho| |destruct (is_finished (hj_in s)) eqn:Hi|]; try done;
    injection Hn as <-; split; simpl; auto.
Qed.
Lemma peer_closed a c : cn_closed (peer_do a c) = cn_closed c.
Proof. destruct a; simpl; [by destruct (cn_eof c)|done..]. Qed.
Lemma client_ok a s : hj_ok s → hj_ok (client_does a s).
Proof.
  intros [Hin Hout Hc Hnc Hd Hid Hod]. split; simpl; [by apply peer_src|by apply peer_dst| | |done..].
  - intros Hr. destruct (Hc Hr) as [Hb|[Hb|[He Ho]]]; [left|auto|right; right; split; [done|]];
      destruct a; simpl; try destruct (cn_eof (hj_nc s)); done.
  - by rewrite peer_closed.
Qed.
Lemma engine_ok a s : hj_ok s → hj_ok (engine_does a s).
Proof.
  intros [Hin Hout Hc Hnc Hd Hid Hod]. split; simpl; [by apply peer_dst|by apply peer_src| |done| |done..].
  - intros Hr. destruct (Hc Hr) as [Hb|[Hb|[He Ho]]]; [auto|right; left|right].
    + destruct a; simpl; try destruct (cn_eof (hj_d s)); done.
    + destruct a; simpl; rewrite ?He; auto.
  - by rewrite peer_closed.
Qed.
Lemma hj_step_ok s s' : hj_step s s' → hj_ok s → hj_ok s'.
Proof.
  intros [? [?|?|? ?]|a|a]; [by apply in_next_ok|by apply out_next_ok|by eapply main_next_ok
    |apply client_ok|apply engine_ok].
Qed.
Lemma hj_init_ok half_nc half_d : hj_ok (hijack_init half_nc half_d).
Proof. split; simpl; try done; unfold dir_ok; simpl; split_and!; auto. Qed.
Lemma hj_reachable_ok half_nc half_d s : rtc hj_step (hijack_init half_nc half_d) s → hj_ok s.
Proof. intros Hs. pose proof (hj_init_ok half_nc half_d) as Hok. induction Hs; [done|]. eauto using hj_step_ok. Qed.

(** In every reachable state each side has been given a beginning of what the other sent, in
    order; and when [hijack] has returned, no goroutine is left, both connections are closed,
    and the client has been given all the engine's output, unless a connection broke. *)
Lemma hijack_delivers half_nc half_d s :
  rtc hj_step (hijack_init half_nc half_d) s →
  cn_out (hj_d s) `prefix_of` cn_sent (hj_nc s) ∧ cn_out (hj_nc s) `prefix_of` cn_sent (hj_d s) ∧
  (hj_main s = returned →
    hj_in s = finished ∧ hj_out s = finished ∧ cn_closed (hj_nc s) = true ∧ cn_closed (hj_d s) = true ∧
    (cn_broken (hj_nc s) = true ∨ cn_broken (hj_d s) = true ∨ cn_out (hj_nc s) = cn_sent (hj_d s))).
Proof.
  intros Hs. destruct (hj_reachable_ok _ _ _ Hs) as [Hin Hout Hc Hnc Hd Hid Hod].
  split_and!; [by eapply dir_ok_prefix|by eapply dir_ok_prefix|]. intros Hm. rewrite Hm in *.
  pose proof (Hc (finished_stopped _ Hod)) as Hcomplete.
  destruct (hj_in s); try done. destruct (hj_out s); try done. split_and!; auto. tauto.
Qed.

(** ** Termination *)

(** The steps that a copy, and the handler, have before them when nothing more arrives. *)
Definition cp_weight (k : copier) (src : Conn) : nat :=
  match k with
  | reading => 3 + 2 * length (cn_in src)
  | writing _ => 4 + 2 * length (cn_in src)
  | half_closing => 2 | signalling => 1 | finished => 0
  end%nat.
Definition main_weight (m : hijacker) : nat :=
  match m with selecting => 3 | closing => 2 | waiting_out | waiting_in => 1 | returned => 0 end%nat.
Definition hj_weight (s : Hijack) : nat :=
  (cp_weight (hj_in s) (hj_nc s) + cp_weight (hj_out s) (hj_d s) + main_weight (hj_main s))%nat.
Lemma cp_decreases dst src k dst' src' k' :
  cp dst src k = Some (dst', src', k') → (cp_weight k' src' < cp_weight k src)%nat.
Proof.
  unfold cp. intros Hcp. repeat split_match; try discriminate Hcp; injection Hcp as <- <- <-; simpl;
    repeat match goal with H : cn_in _ = _ |- _ => rewrite H end; simpl; lia.
Qed.
Lemma weight_close k c : cp_weight k (conn_Close c) = cp_weight k c.
Proof. done. Qed.
Lemma code_decreases s s' : code_step s s' → (hj_weight s' < hj_weight s)%nat.
Proof.
  unfold hj_weight. intros [Hn|Hn|b Hn].
  - unfold in_next in Hn. destruct (cp _ _ _) as [[[d nc] k]|] eqn:Hcp; [|done]. injection Hn as <-. simpl.
    pose proof (cp_decreases _ _ _ _ _ _ Hcp). destruct (cp_frame _ _ _ _ _ _ Hcp) as ((Hd1 & _) & _).
    assert (cp_weight (hj_out s) d = cp_weight (hj_out s) (hj_d s)) as -> by (unfold cp_weight; by rewrite Hd1). lia.
  - unfold out_next in Hn. destruct (cp _ _ _) as [[[nc d] k]|] eqn:Hcp; [|done]. injection Hn as <-. simpl.
    pose proof (cp_decreases _ _ _ _ _ _ Hcp). destruct (cp_frame _ _ _ _ _ _ Hcp) as ((Hd1 & _) & _).
    assert (cp_weight (hj_in s) nc = cp_weight (hj_in s) (hj_nc s)) as -> by (unfold cp_weight; by rewrite Hd1). lia.
  - unfold main_next in Hn. repeat split_match; try discriminate Hn; injection Hn as <-; simpl; rewrite ?weight_close; lia.
Qed.

(** The destination has room for all that has arrived, or refuses it. *)
Definition room_ok (src dst : Conn) (k : copier) : Prop :=
  running k = true → cn_broken dst = true ∨ (length (flight k) + length (cn_in src) ≤ cn_room dst)%nat.
Lemma cp_room dst src k dst' src' k' :
  cp dst src k = Some (dst', src', k') → room_ok src dst k → room_ok src' dst' k'.
Proof.
  unfold cp, room_ok. intros Hcp Hok. repeat split_match; try discriminate Hcp; injection Hcp as <- <- <-; simpl in *;
    try done; intros _; (destruct (Hok eq_refl) as [?|Hr]; [by left|right]);
    repeat match goal with H : cn_in _ = _ |- _ => rewrite H in * end; simpl in *; lia.
Qed.
(** The engine has ended its output, and both sides take what is written to them. *)
Definition served (s : Hijack) : Prop :=
  cn_eof (hj_d s) = true ∧ room_ok (hj_d s) (hj_nc s) (hj_out s) ∧ room_ok (hj_nc s) (hj_d s) (hj_in s).
Lemma cp_eof dst src k dst' src' k' : cp dst src k = Some (dst', src', k') → cn_eof src' = cn_eof src.
Proof. unfold cp. intros Hcp. repeat split_match; try discriminate Hcp; by injection Hcp as <- <- <-. Qed.
Lemma served_step s s' : code_step s s' → served s → served s'.
Proof.
  unfold served. intros [Hn|Hn|b Hn] (He & Ho & Hi).
  - unfold in_next in Hn. destruct (cp _ _ _) as [[[d nc] k]|] eqn:Hcp; [|done]. injection Hn as <-. simpl.
    destruct (cp_frame _ _ _ _ _ _ Hcp) as ((Hd1 & Hd2 & Hd3 & Hd4 & Hd5) & (Hs1 & Hs2 & Hs3 & Hs4 & Hs5)).
    split_and!; [congruence| |by apply (cp_room _ _ _ _ _ _ Hcp)]. unfold room_ok in *. by rewrite Hd1, Hs3, Hs5.
  - unfold out_next in Hn. destruct (cp _ _ _) as [[[nc d] k]|] eqn:Hcp; [|done]. injection Hn as <-. simpl.
    destruct (cp_frame _ _ _ _ _ _ Hcp) as ((Hd1 & Hd2 & Hd3 & Hd4 & Hd5) & (Hs1 & Hs2 & Hs3 & Hs4 & Hs5)).
    split_and!; [by rewrite (cp_eof _ _ _ _ _ _ Hcp)|by apply (cp_room _ _ _ _ _ _ Hcp)|].
    unfold room_ok in *. by rewrite Hd1, Hs3, Hs5.
  - unfold main_next in Hn. repeat split_match; try discriminate Hn; injection Hn as <-; simpl; auto.
Qed.
(** A copy that waits: for its source, or for room at its destination. *)
Lemma cp_blocked dst src k :
  cp dst src k = None → room_ok src dst k →
  k = finished ∨ (k = reading ∧ cn_closed src = false ∧ cn_in src = [] ∧ cn_eof src = false).
Proof.
  unfold cp, room_ok, refuses. intros Hcp Hok. destruct k as [|chunk| | |]; try done; [right| |by left].
  - destruct (cn_closed src); [done|]. destruct (cn_in src); [|done]. by destruct (cn_eof src).
  - destruct (Hok eq_refl) as [Hb|Hr]; [rewrite Hb, orb_true_r in Hcp; done|].
    destruct (_ || _); [done|]. destruct (cn_room dst); [simpl in Hr; lia|done].
Qed.
Lemma served_stuck s : hj_ok s → served s → (∀ s', ¬ code_step s s') → hj_main s = returned.
Proof.
  intros [Hin Hout Hc Hnc Hd Hid Hod] (He & Ho & Hi) Hstuck.
  assert (Hin_none : cp (hj_d s) (hj_nc s) (hj_in s) = None).
  { destruct (cp _ _ _) as [[[d nc] k]|] eqn:Hcp; [|done]. exfalso. eapply Hstuck, code_in. unfold in_next. by rewrite Hcp. }
  assert (Hout_none : cp (hj_nc s) (hj_d s) (hj_out s) = None).
  { destruct (cp (hj_nc s) (hj_d s) (hj_out s)) as [[[d nc] k]|] eqn:Hcp; [|done]. exfalso. eapply Hstuck, code_out. unfold out_next. by rewrite Hcp. }
  assert (Hmain : main_next true s = None).
  { destruct (main_next true s) eqn:Hm; [|done]. exfalso. by eapply Hstuck, code_main. }
  assert (Hof : hj_out s = finished) by (destruct (cp_blocked _ _ _ Hout_none Ho) as [?|(_ & _ & _ & ?)]; congruence).
  unfold main_next in Hmain. rewrite Hof in Hmain.
  destruct (hj_main s) eqn:Hm; simpl in Hmain; try done; [by destruct (is_finished (hj_in s))|].
  destruct (cp_blocked _ _ _ Hin_none Hi) as [Hif|(_ & Hcl & _)]; [by rewrite Hif in Hmain|congruence].
Qed.
(** The goroutines always come to a stop when nothing more arrives; and once the engine has
    ended its output, and each side takes what is written to it or breaks its connection,
    they only stop after [hijack] has returned. *)
Lemma hijack_returns half_nc half_d s :
  rtc hj_step (hijack_init half_nc half_d) s →
  Acc (flip code_step) s ∧
  (served s → ∀ s', rtc code_step s s' → (∀ s'', ¬ code_step s' s'') → hj_main s' = returned).
Proof.
  intros Hs. split.
  - clear Hs. induction s as [s IH] using (induction_ltof1 _ hj_weight). constructor. intros s' Hst.
    apply IH. by apply code_decreases.
  - intros Hv s' Hrun Hstuck. apply hj_reachable_ok in Hs. induction Hrun as [s|s s1 s' Hst _ IH].
    + by apply served_stuck.
    + apply IH; [eapply hj_step_ok; [by apply hj_code|done]|by eapply served_step|done].
Qed.


(** ** Input that the engine does not read *)

(** The engine has ended its output and its input is not read: whatever the client does, and
    although its connection is closed, the handler waits. *)
Definition stdin_blocked (s : Hijack) : Prop :=
  hj_main s = waiting_in ∧ hj_out s = finished ∧ (∃ chunk, hj_in s = writing chunk) ∧
  refuses (hj_d s) = false ∧ cn_room (hj_d s) = O.
Lemma stdin_blocked_stays s s' :
  stdin_blocked s → code_step s s' ∨ (∃ a, s' = client_does a s) → stdin_blocked s'.
Proof.
  intros (Hm & Ho & [chunk Hi] & Hr & Hroom) [[Hn|Hn|b Hn]|[a ->]].
  - unfold in_next, cp in Hn. by rewrite Hi, Hr, Hroom in Hn.
  - unfold out_next, cp in Hn. by rewrite Ho in Hn.
  - unfold main_next in Hn. by rewrite Hm, Hi in Hn.
  - unfold stdin_blocked. simpl. split_and!; eauto.
Qed.
Definition code_in_next (s : Hijack) : Hijack := default s (in_next s).
Definition code_out_next (s : Hijack) : Hijack := default s (out_next s).
Definition code_main_next (s : Hijack) : Hijack := default s (main_next true s).
Theorem hijack_hangs :
  ∃ s, rtc hj_step (hijack_init true true) s ∧ cn_eof (hj_d s) = true ∧ cn_closed (hj_nc s) = true ∧
    ∀ s', rtc (λ x y, code_step x y ∨ ∃ a, y = client_does a x) s s' → hj_main s' = waiting_in.
Proof.
  set (s0 := hijack_init true true).
  set (s1 := code_in_next (client_does (sends "input") s0)).
  set (s2 := code_out_next (code_out_next (code_out_next (engine_does ends s1)))).
  set (s3 := code_main_next (code_main_next s2)).
  assert (Hb : stdin_blocked s3) by (split_and!; first [by vm_compute | by eexists]).
  exists s3. split_and!; [|by vm_compute|by vm_compute|].
  - eapply rtc_l; [apply (hj_client _ (sends "input"))|].
    eapply rtc_l; [by apply hj_code, code_in|]. eapply rtc_l; [apply (hj_engine _ ends)|].
    do 3 (eapply rtc_l; [by apply hj_code, code_out|]).
    do 2 (eapply rtc_l; [by apply hj_code, (code_main _ _ true)|]). apply rtc_refl.
  - intros s' Hs. cut (stdin_blocked s'); [by intros [? _]|]. induction Hs; [done|]. eauto using stdin_blocked_stays.
Qed.
Definition session : Hijack := engine_does ends (engine_does (sends "output") (client_does takes (hijack_init true true))).
Definition session_end : Hijack :=
  code_main_next (code_in_next (code_in_next (code_in_next (code_main_next (code_main_next
    (code_out_next (code_out_next (code_out_next (code_out_next (code_out_next session)))))))))).
Lemma session_reachable : rtc hj_step (hijack_init true true) session.
Proof.
  eapply rtc_l; [apply (hj_client _ takes)|]. eapply rtc_l; [apply (hj_engine _ (sends "output"))|].
  eapply rtc_l; [apply (hj_engine _ ends)|]. apply rtc_refl.
Qed.
Lemma session_runs : rtc code_step session session_end.
Proof.
  do 5 (eapply rtc_l; [by apply code_out|]). do 2 (eapply rtc_l; [by apply (code_main _ _ true)|]).
  do 3 (eapply rtc_l; [by apply code_in|]). eapply rtc_l; [by apply (code_main _ _ true)|]. apply rtc_refl.
Qed.
Lemma code_hj s s' : rtc code_step s s' → rtc hj_step s s'.
Proof. induction 1; [done|]. eapply rtc_l; [by apply hj_code|done]. Qed.
Lemma session_served : served session.
Proof. split_and!; [done|intros _; right; vm_compute; lia|intros _; right; vm_compute; lia]. Qed.
Lemma session_end_stuck s' : ¬ code_step session_end s'.
Proof. intros [Hn|Hn|b Hn]; by vm_compute in Hn. Qed.
(** A writer that cannot be taken over: the connection to the engine is left open. *)
Example not_a_hijacker d : hijack_start (inl d) None None = failed "Docker server does not support hijacking" [d].
Proof. done. Qed.

(** ** Dialling with TLS *)

(** [dl_Deadline] is the time left until the deadline, if there is one. *)
Record Dialer := { dl_Timeout : Z; dl_Deadline : option Z }.
Definition dial_timeout (dialer : Dialer) : Z :=
  match dl_Deadline dialer with
  | Some deadlineTimeout =>
      if (dl_Timeout dialer =? 0) || (deadlineTimeout <? dl_Timeout dialer) then deadlineTimeout else dl_Timeout dialer
  | None => dl_Timeout dialer
  end.
(** [addr[:colonPos]] *)
Definition dial_hostname (addr : string) : string :=
  match cut_last ":"%char addr with Some (host, _) => host | None => addr end.
(** What of [tls.Config] is looked at, and the copy that gets a [ServerName]. *)
Definition dial_ServerName (ServerName addr : string) : string :=
  if String.eqb ServerName "" then dial_hostname addr else ServerName.
Inductive dialled :=
  | no_connection (err : string)
  | handshake_failed (err : string)
  | connected (server : string)
  | handshake_pending.
(** [tlsDialWithDialer(dialer, network, addr, config)]: [handshake] is the result of
    [conn.Handshake()], if it comes, and [timer_first] tells whether the timer fires
    before; a handshake that failed has its raw connection closed. *)
Definition tlsDialWithDialer (dialer : Dialer) (addr ServerName : string) (dial : option string)
    (handshake : option (option string)) (timer_first : bool) : dialled :=
  match dial with
  | Some err => no_connection err
  | None =>
      let received :=
        if dial_timeout dialer =? 0 then handshake
        else if timer_first then Some (Some "")
        else match handshake with Some r => Some r | None => Some (Some "") end in
      match received with
      | None => handshake_pending
      | Some (Some err) => handshake_failed err
      | Some None => connected (dial_ServerName ServerName addr)
      end
  end.
(** [dialHijack(tlsConfig, addr)] with a configuration: [new(net.Dialer)] has no timeout. *)
Definition dialHijack (addr ServerName : string) (dial : option string) (handshake : option (option string))
    (timer_first : bool) : dialled :=
  tlsDialWithDialer {| dl_Timeout := 0; dl_Deadline := None |} addr ServerName dial handshake timer_first.
(** A dialer with a timeout always comes to a result; and a connection is only given out
    after a handshake that succeeded, with the certificate of the name configured, or of the
    host that is dialled. *)
Theorem tlsDial_spec dialer addr ServerName dial handshake timer_first :
  (dial_timeout dialer ≠ 0 → tlsDialWithDialer dialer addr ServerName dial handshake timer_first ≠ handshake_pending) ∧
  (∀ server, tlsDialWithDialer dialer addr ServerName dial handshake timer_first = connected server →
     dial = None ∧ handshake = Some None ∧ server = dial_ServerName ServerName addr).
Proof.
  unfold tlsDialWithDialer. destruct dial as [err|]; [done|]. split.
  - intros Ht. apply Z.eqb_neq in Ht. rewrite Ht. destruct timer_first; [done|]. by destruct handshake as [[]|].
  - intros server. destruct (_ =? 0); [|destruct timer_first; [done|]]; destruct handshake as [[err|]|]; try done;
      by intros [= <-].
Qed.
(** Without one, a peer that accepts the connection and does not answer holds the handler. *)
Example dialHijack_pending addr name b : dialHijack addr name None None b = handshake_pending.
Proof. done. Qed.
