(* ===== verification/Router.v ===== *)
(** * The router of the API ([api/primary.go])

    Which handler a path is given to.  The routes are registered in the order of two [range]
    loops over Go maps, and the first that matches answers; and all the requests share one
    [context], in which the wrapper of a handler leaves the version of the path.  Also the two
    handlers that do not answer from the cluster, of the version and of the events. *)
From S2P Require Import Prelude GoStrings Regexp Json Config Container Inventory EngineState EngineOps ApiEvents SwarmRegistry SwarmCluster ApiList ApiUtils ApiHandlers.
From Stdlib Require Import Ascii.

(** ** Patterns *)

(** A pattern of the router: a literal, or a literal, a variable of any text, and a literal.
    No route has two variables, and every variable is [.*]. *)
Inductive pattern := Literal (l : list ascii) | Around (pre post : list ascii).
Definition parse_pattern (route : string) : pattern :=
  match cut "{" route with
  | Some (pre, rest) =>
      match cut "}" rest with Some (_, post) => Around (chars pre) (chars post) | None => Literal (chars route) end
  | None => Literal (chars route)
  end.
(** [.*] does not match a line feed. *)
Definition no_newline (l : list ascii) : bool := forallb (λ c, negb (Ascii.eqb c "010")) l.
Definition pattern_matches (p : pattern) (path : list ascii) : bool :=
  match p with
  | Literal l => bool_decide (path = l)
  | Around pre post =>
      bool_decide (pre `prefix_of` path) && bool_decide (post `suffix_of` path) &&
      (length pre + length post <=? length path)%nat &&
      no_newline (take (length path - length pre - length post) (drop (length pre) path))
  end.
Definition route_matches (route path : string) : bool := pattern_matches (parse_pattern route) (chars path).

(** ** Registration *)

Definition methods : list string := ["HEAD"; "GET"; "POST"; "PUT"; "DELETE"].
(** The entries of the two maps. *)
Definition all_routes : list (string * (string * route)) :=
  methods ≫= λ method, (λ x, (method, x)) <$> routes method.
(** A registered route: its method, whether its path begins with a version, its path, and the
    handler, [None] being [optionsHandler]. *)
Record registration := mkReg { rg_method : string; rg_versioned : bool; rg_route : string; rg_handler : option route }.
(** [setupPrimaryRouter(r, context, enableCors)], the entries in the order [l]. *)
Definition setupPrimaryRouter (enableCors : bool) (l : list (string * (string * route))) : list registration :=
  l ≫= λ '(method, (localRoute, localFct)),
    [mkReg method true localRoute (Some localFct); mkReg method false localRoute (Some localFct)] ++
    (if enableCors then [mkReg "OPTIONS" true localRoute None; mkReg "OPTIONS" false localRoute None] else []).
(** The registration that a request is given to: the first that matches its method, its path
    and the presence of a version before it. *)
Definition rg_matches (method : string) (versioned : bool) (path : string) (x : registration) : bool :=
  String.eqb (rg_method x) method && Bool.eqb (rg_versioned x) versioned && route_matches (rg_route x) path.
Definition dispatch (method : string) (versioned : bool) (path : string) (l : list registration) : option (option route) :=
  rg_handler <$> List.find (rg_matches method versioned path) l.
(** [writeCorsHeaders(w, r)] *)
Definition writeCorsHeaders : list (string * string) :=
  [("Access-Control-Allow-Origin", "*");
   ("Access-Control-Allow-Headers", "Origin, X-Requested-With, Content-Type, Accept");
   ("Access-Control-Allow-Methods", "GET, POST, DELETE, PUT, OPTIONS, HEAD")].
(** [wrap]: the headers, and the version that the context is left with. *)
Definition wrap (enableCors : bool) (version : string) : list (string * string) * string :=
  (if enableCors then writeCorsHeaders else [], version).

(** ** The order does not matter *)

(** No path matches both patterns. *)
Definition exclusive (p q : pattern) : bool :=
  match p, q with
  | Literal a, _ => negb (pattern_matches q a)
  | _, Literal b => negb (pattern_matches p b)
  | Around pre1 post1, Around pre2 post2 =>
      negb (bool_decide (pre1 `prefix_of` pre2) || bool_decide (pre2 `prefix_of` pre1)) ||
      negb (bool_decide (post1 `suffix_of` post2) || bool_decide (post2 `suffix_of` post1))
  end.
Lemma exclusive_sound p q path :
  exclusive p q = true → pattern_matches p path = true → pattern_matches q path = true → False.
Proof.
  intros He Hp Hq. destruct p as [a|pre1 post1], q as [b|pre2 post2]; simpl in Hp, Hq.
  - apply bool_decide_eq_true in Hp, Hq. subst. simpl in He. by rewrite bool_decide_true in He.
  - apply bool_decide_eq_true in Hp. subst. cbn [exclusive] in He. cbn [pattern_matches] in He. by rewrite Hq in He.
  - apply bool_decide_eq_true in Hq. subst. cbn [exclusive] in He. cbn [pattern_matches] in He. by rewrite Hp in He.
  - rewrite !andb_true_iff, !bool_decide_eq_true in Hp, Hq. destruct Hp as [[[Hpre1 Hpost1] _] _], Hq as [[[Hpre2 Hpost2] _] _].
    simpl in He. rewrite orb_true_iff, !negb_true_iff, !orb_false_iff, !bool_decide_eq_false in He.
    destruct (prefix_weak_total _ _ _ Hpre1 Hpre2), (suffix_weak_total _ _ _ Hpost1 Hpost2); tauto.
Qed.
(** Two entries of the same method are the same, or exclude each other. *)
Definition entry_eqb (x y : string * (string * route)) : bool := String.eqb x.1 y.1 && String.eqb x.2.1 y.2.1.
Definition separated (l : list (string * (string * route))) : bool :=
  forallb (λ x, forallb (λ y, negb (String.eqb x.1 y.1) || entry_eqb x y ||
    exclusive (parse_pattern x.2.1) (parse_pattern y.2.1)) l) l.
Definition keys_nodup (l : list (string * (string * route))) : bool := bool_decide (NoDup ((λ x, (x.1, x.2.1)) <$> l)).
Lemma routes_separated : separated all_routes = true.
Proof. vm_compute. reflexivity. Qed.
Lemma routes_nodup : keys_nodup all_routes = true.
Proof. vm_compute. reflexivity. Qed.
Lemma elem_of_all_routes method r h : (method, (r, h)) ∈ all_routes ↔ (r, h) ∈ routes method.
Proof.
  unfold all_routes. rewrite list_elem_of_bind. split.
  - intros (m & Hin & _). apply list_elem_of_fmap in Hin as (x & Hx & Hin). by injection Hx as -> <-.
  - intros Hin. exists method. split; [by apply list_elem_of_fmap_2|].
    unfold routes in Hin. unfold methods.
    repeat match type of Hin with
    | context [String.eqb method ?m] => destruct (String.eqb_spec method m) as [->|?]; [set_solver|]
    end. by apply elem_of_nil in Hin.
Qed.
(** At most one route of a method matches a path. *)
Lemma route_unique method path r1 h1 r2 h2 :
  (r1, h1) ∈ routes method → (r2, h2) ∈ routes method → route_matches r1 path = true → route_matches r2 path = true →
  r1 = r2 ∧ h1 = h2.
Proof.
  intros H1%elem_of_all_routes H2%elem_of_all_routes M1 M2.
  assert (Hr : r1 = r2).
  { pose proof routes_separated as Hs. unfold separated in Hs. rewrite forallb_forall in Hs.
    specialize (Hs _ (proj1 (list_elem_of_In _ _) H1)). rewrite forallb_forall in Hs.
    specialize (Hs _ (proj1 (list_elem_of_In _ _) H2)). simpl in Hs. rewrite String.eqb_refl in Hs. simpl in Hs.
    apply orb_true_iff in Hs as [Hs|Hs]; [by apply andb_true_iff in Hs as [_ Hs%String.eqb_eq]|].
    exfalso. by eapply exclusive_sound. }
  split; [done|]. subst r2. pose proof (bool_decide_eq_true_1 _ routes_nodup) as Hnd.
  pose proof (proj1 (list_elem_of_lookup _ _) H1) as [i Hi]. pose proof (proj1 (list_elem_of_lookup _ _) H2) as [j Hj].
  assert (i = j) as ->; [|by rewrite Hi in Hj; injection Hj].
  eapply (NoDup_lookup _ _ _ (method, r1) Hnd); by rewrite list_lookup_fmap, ?Hi, ?Hj.
Qed.
Lemma elem_of_setup cors l x :
  x ∈ setupPrimaryRouter cors l ↔
  ∃ method r h versioned, (method, (r, h)) ∈ l ∧
    (x = mkReg method versioned r (Some h) ∨ (cors = true ∧ x = mkReg "OPTIONS" versioned r None)).
Proof.
  unfold setupPrimaryRouter. rewrite list_elem_of_bind. split.
  - intros ([method [r h]] & Hx & Hin). exists method, r, h. rewrite elem_of_app in Hx. destruct Hx as [Hx|Hx].
    + apply elem_of_cons in Hx as [->|Hx]; [eauto|]. apply list_elem_of_singleton in Hx as ->. eauto.
    + destruct cors; [|by apply elem_of_nil in Hx].
      apply elem_of_cons in Hx as [->|Hx]; [eauto 6|]. apply list_elem_of_singleton in Hx as ->. eauto 6.
  - intros (method & r & h & v & Hin & Hx). exists (method, (r, h)). split; [|done].
    rewrite elem_of_app, !elem_of_cons. destruct Hx as [->|[-> ->]]; [left; destruct v; tauto|right].
    rewrite !elem_of_cons. destruct v; tauto.
Qed.
Lemma dispatch_Some method v path l x :
  dispatch method v path l = Some x → ∃ y, y ∈ l ∧ rg_matches method v path y = true ∧ rg_handler y = x.
Proof.
  unfold dispatch. destruct (List.find _ _) as [y|] eqn:Hf; [|done]. intros [= <-].
  apply List.find_some in Hf as [Hin Hm]. apply list_elem_of_In in Hin. eauto.
Qed.
Lemma dispatch_is_Some method v path l y :
  y ∈ l → rg_matches method v path y = true → is_Some (dispatch method v path l).
Proof.
  intros Hin Hm. unfold dispatch. destruct (List.find _ _) as [z|] eqn:Hf; [by eexists|].
  apply list_elem_of_In in Hin. by rewrite (List.find_none _ _ Hf _ Hin) in Hm.
Qed.
Lemma rg_matches_spec method v path x :
  rg_matches method v path x = true ↔ rg_method x = method ∧ rg_versioned x = v ∧ route_matches (rg_route x) path = true.
Proof. unfold rg_matches. rewrite !andb_true_iff, String.eqb_eq, Bool.eqb_true_iff. tauto. Qed.
Lemma no_options r h : (r, h) ∉ routes "OPTIONS".
Proof. by intros ?%elem_of_nil. Qed.

(** C21: whatever the order of the two loops, a request is given to the handler of the one route
    of its method that its path matches, and an [OPTIONS] request, when cross-origin requests
    are enabled, is answered for every path that some route has; every other request has no
    handler. *)
Theorem router_spec enableCors l method versioned path x :
  l ≡ₚ all_routes →
  dispatch method versioned path (setupPrimaryRouter enableCors l) = Some x ↔
  match x with
  | Some h => ∃ r, (r, h) ∈ routes method ∧ route_matches r path = true
  | None => method = "OPTIONS" ∧ enableCors = true ∧
      ∃ m r h, (r, h) ∈ routes m ∧ route_matches r path = true
  end.
Proof.
  intros Hl. split.
  - intros (y & Hin & Hm & <-)%dispatch_Some. apply elem_of_setup in Hin as (m & r & h & v & Hin & Hy).
    rewrite Hl, elem_of_all_routes in Hin. apply rg_matches_spec in Hm as (<- & <- & Hm).
    destruct Hy as [->|[-> ->]]; simpl in *; eauto 8.
  - intros Hx.
    assert (Hex : is_Some (dispatch method versioned path (setupPrimaryRouter enableCors l))).
    { destruct x as [h|].
      - destruct Hx as (r & Hin & Hm). apply (dispatch_is_Some _ _ _ _ (mkReg method versioned r (Some h))).
        + apply elem_of_setup. exists method, r, h, versioned. rewrite Hl, elem_of_all_routes. auto.
        + by apply rg_matches_spec.
      - destruct Hx as (-> & -> & m & r & h & Hin & Hm).
        apply (dispatch_is_Some _ _ _ _ (mkReg "OPTIONS" versioned r None)).
        + apply elem_of_setup. exists m, r, h, versioned. rewrite Hl, elem_of_all_routes. auto.
        + by apply rg_matches_spec. }
    destruct Hex as [y Hy]. rewrite Hy. f_equal.
    apply dispatch_Some in Hy as (z & Hin & Hm & <-). apply elem_of_setup in Hin as (m & r & h & v & Hin & Hz).
    rewrite Hl, elem_of_all_routes in Hin. apply rg_matches_spec in Hm as (Hme & _ & Hm).
    destruct Hz as [->|[-> ->]], x as [h'|]; simpl in *; [| |by subst; destruct Hx as (r' & Hr & _); apply no_options in Hr|done].
    + destruct Hx as (r' & Hin' & Hm'). subst m. f_equal. by eapply route_unique.
    + destruct Hx as (-> & _). subst m. by apply no_options in Hin.
Qed.
Lemma router_spec_witness :
  reverse all_routes ≡ₚ all_routes ∧
  dispatch "GET" true "/images/library/busybox/json" (setupPrimaryRouter true (reverse all_routes)) = Some (Some r_image).
Proof.
  split; [apply reverse_Permutation|]. apply (router_spec true (reverse all_routes)); [apply reverse_Permutation|].
  exists "/images/{name:.*}/json". split; [vm_compute; repeat first [by left | right]|by vm_compute].
Defined.

(** ** The version of another request *)

(** The requests under way: the version of their path, and whether their wrapper has written
    it to the context; then the version that their handler reads there. *)
Inductive progress := arrived | wrapped | handled (read : string).
Record Sharing := mkSharing { sh_apiVersion : string; sh_requests : list (string * progress) }.
Inductive share_step (s : Sharing) : Sharing → Prop :=
  | share_arrives v : share_step s (mkSharing (sh_apiVersion s) (sh_requests s ++ [(v, arrived)]))
  | share_wraps i v : sh_requests s !! i = Some (v, arrived) →
      share_step s (mkSharing (wrap false v).2 (<[i := (v, wrapped)]> (sh_requests s)))
  | share_reads i v : sh_requests s !! i = Some (v, wrapped) →
      share_step s (mkSharing (sh_apiVersion s) (<[i := (v, handled (sh_apiVersion s))]> (sh_requests s))).
(** A handler that reads the context right after its wrapper reads its own version. *)
Lemma alone_reads_own s i v :
  sh_requests s !! i = Some (v, arrived) →
  ∃ s', rtc share_step s s' ∧ sh_requests s' !! i = Some (v, handled v).
Proof.
  intros Hi. pose proof (lookup_lt_Some _ _ _ Hi) as Hlt. eexists. split.
  - eapply rtc_l; [by apply (share_wraps _ i v)|]. eapply rtc_l; [|apply rtc_refl].
    apply (share_reads _ i v). simpl. by rewrite list_lookup_insert_eq.
  - simpl. rewrite list_lookup_insert_eq; [done|]. by rewrite length_insert.
Qed.
(** But a request that asks for the version 1.20 can be answered as one for the version 1.30,
    and a listing of images with a filter then ignores it, or not. *)
Theorem version_race :
  ∃ s, rtc share_step (mkSharing "" []) s ∧ sh_requests s !! 0%nat = Some ("1.20", handled "1.30").
Proof.
  eexists. split.
  - eapply rtc_l; [apply (share_arrives _ "1.20")|]. eapply rtc_l; [apply (share_arrives _ "1.30")|].
    eapply rtc_l; [by apply (share_wraps _ 0 "1.20")|]. eapply rtc_l; [by apply (share_wraps _ 1 "1.30")|].
    eapply rtc_l; [by apply (share_reads _ 0 "1.20")|]. apply rtc_refl.
  - done.
Qed.

(** ** The version and the events *)

(** [types.Version]; what is not [APIVERSION] comes from the build and from the host. *)
Record Version := {
  vs_Version : string; vs_APIVersion : string; vs_GoVersion : string; vs_GitCommit : string;
  vs_Os : string; vs_Arch : string; vs_Experimental : bool; vs_BuildTime : string; vs_KernelVersion : string
}.
Definition APIVERSION : string := "1.22".
(** [getVersion]: what is encoded, [kernel] being the version of the kernel, or an error. *)
Definition getVersion (VERSION GITCOMMIT BUILDTIME goVersion os arch : string) (experimental : bool) (kernel : string + string)
    : Version := {|
  vs_Version := "swarm/" +:+ VERSION; vs_APIVersion := APIVERSION; vs_GoVersion := goVersion; vs_GitCommit := GITCOMMIT;
  vs_Os := os; vs_Arch := arch; vs_Experimental := experimental; vs_BuildTime := BUILDTIME;
  vs_KernelVersion := match kernel with inl kv => kv | inr _ => "<unknown>" end |}.

Section events.
Context {W : Type} `{Writers W} `{MapRange} (Atoi_error : string → string).

(** [getEvents] on the request [r] of the client [w]: an error, or a client that is added and
    whose goroutine goes on in [Wait], with a timer when there is an end. *)
Definition getEvents (r : Request) (w : nat) (s : EventsSys W) : list effect * EventsSys W :=
  match getEvents_until Atoi_error r with
  | inr err => ([err], s)
  | inl until =>
      ([], mkEv (es_world s) (events_Add (rq_RemoteAddr r) w (es_tables s))
             (entering (rq_RemoteAddr r) (0 <? until) :: es_threads s))
  end.
(** It is a step of the listeners. *)
Lemma getEvents_step r w s :
  unlocked (es_threads s) →
  (∃ err, getEvents r w s = ([err], s)) ∨ (∃ s', getEvents r w s = ([], s') ∧ ev_next s s').
Proof.
  intros Hu. unfold getEvents. destruct (getEvents_until Atoi_error r) as [until|err]; [right|left; eauto].
  eexists. split; [done|]. by apply ev_add.
Qed.
End events.
