(* ===== verification/Serve.v ===== *)
(** * Listening for requests ([api/server.go], [server_unix.go], [flusher.go])

    The server listens on each host in a goroutine of its own, and returns with the first
    error that one of them sends.  A Unix socket is created under a mask that belongs to the
    whole process.  The goroutines, and [ListenAndServe], are the steps of a relation. *)
From S2P Require Import Prelude GoStrings GoFmt.
From Stdlib Require Import Ascii.

(** ** Listeners *)

Definition DefaultDockerPort : string := ":2375".
(** [protoAddrParts] *)
Definition protoAddrParts (host : string) : string * string :=
  match SplitN2 host "://" with [proto; addr] => (proto, addr) | _ => ("tcp", host) end.
(** [newListener(proto, addr, tlsConfig)]: its error, from that of [net.Listen]. *)
Definition newListener (listen : option string) (addr : string) : option string :=
  (λ err, if Contains err "address already in use" && Contains addr DefaultDockerPort
          then err +:+ ": is Docker already running on this machine? Try using a different port" else err) <$> listen.
Definition private_mask : Z := 511.

(** Where the goroutine of a host is: at its beginning; with the mask of the process set, and
    the former one kept; with a socket; in [server.Serve]; after it has sent its error. *)
Inductive host_phase := begun | masked (old : Z) | bound (old : Z) | serving | over.
(** [sv_sockets]: the Unix sockets created, with the mask of their creation; [sv_ch]:
    [chErrors], of as many places as there are hosts; [sv_result]: what [ListenAndServe] has
    returned. *)
Record Serving := mkServing {
  sv_hosts : list (string * string);
  sv_phases : list host_phase;
  sv_umask : Z;
  sv_sockets : list (string * Z);
  sv_ch : list string;
  sv_result : option (option string)
}.
Definition sv_init (hosts : list string) (umask : Z) : Serving :=
  mkServing (protoAddrParts <$> hosts) ((λ _, begun) <$> hosts) umask [] [] None.
Definition sv_goto (i : nat) (p : host_phase) (umask : Z) (s : Serving) : Serving :=
  mkServing (sv_hosts s) (<[i := p]> (sv_phases s)) umask (sv_sockets s) (sv_ch s) (sv_result s).
(** [chErrors <- err], when there is room. *)
Definition sv_send (i : nat) (err : string) (umask : Z) (s : Serving) : Serving :=
  mkServing (sv_hosts s) (<[i := over]> (sv_phases s)) umask (sv_sockets s) (sv_ch s ++ [err]) (sv_result s).
Definition sv_room (s : Serving) : Prop := (length (sv_ch s) < length (sv_hosts s))%nat.
(** An error is sent, or the host goes on to [p]. *)
Definition sv_after (i : nat) (err : option string) (p : host_phase) (umask : Z) (s : Serving) : Serving :=
  match err with Some err => sv_send i err umask s | None => sv_goto i p umask s end.

Section serving.
Context (IsPrint : Z → bool).

(** [newUnixListener]: the file is removed; the mask is set; the socket is created; its mode
    is changed, and the mask is put back by the deferred call, as it is after an error. *)
Inductive sv_step (s : Serving) : Serving → Prop :=
  | sv_tcp i addr listen :
      sv_phases s !! i = Some begun → sv_hosts s !! i = Some ("tcp", addr) → sv_room s →
      sv_step s (sv_after i (newListener listen addr) serving (sv_umask s) s)
  | sv_unsupported i proto addr :
      sv_phases s !! i = Some begun → sv_hosts s !! i = Some (proto, addr) → proto ≠ "tcp" → proto ≠ "unix" → sv_room s →
      sv_step s (sv_send i ("unsupported protocol: " +:+ Quote IsPrint proto) (sv_umask s) s)
  | sv_unlink i addr err :
      sv_phases s !! i = Some begun → sv_hosts s !! i = Some ("unix", addr) → sv_room s →
      sv_step s (sv_send i err (sv_umask s) s)
  | sv_mask i addr :
      sv_phases s !! i = Some begun → sv_hosts s !! i = Some ("unix", addr) →
      sv_step s (sv_goto i (masked (sv_umask s)) private_mask s)
  | sv_unix_listen_err i old addr err :
      sv_phases s !! i = Some (masked old) → sv_hosts s !! i = Some ("unix", addr) → sv_room s →
      sv_step s (sv_after i (newListener (Some err) addr) serving old s)
  | sv_unix_listen i old addr :
      sv_phases s !! i = Some (masked old) → sv_hosts s !! i = Some ("unix", addr) →
      sv_step s (mkServing (sv_hosts s) (<[i := bound old]> (sv_phases s)) (sv_umask s)
                   (sv_sockets s ++ [(addr, sv_umask s)]) (sv_ch s) (sv_result s))
  | sv_chmod i old err :
      sv_phases s !! i = Some (bound old) → sv_room s →
      sv_step s (sv_after i err serving old s)
  | sv_serve_ends i err :
      sv_phases s !! i = Some serving → sv_room s →
      sv_step s (sv_send i err (sv_umask s) s)
  | sv_receives err l :
      sv_result s = None → sv_ch s = err :: l →
      sv_step s (mkServing (sv_hosts s) (sv_phases s) (sv_umask s) (sv_sockets s) l (Some (Some err)))
  | sv_no_host :
      sv_result s = None → sv_hosts s = [] →
      sv_step s (mkServing (sv_hosts s) (sv_phases s) (sv_umask s) (sv_sockets s) (sv_ch s) (Some None)).

(** ** The channel of the errors *)

Definition is_over (p : host_phase) : bool := match p with over => true | _ => false end.
Definition count_over (l : list host_phase) : nat := length (List.filter is_over l).
Definition received (s : Serving) : nat := match sv_result s with Some (Some _) => 1 | _ => 0 end%nat.
Record sv_ok (s : Serving) : Prop := {
  sv_ok_len : length (sv_phases s) = length (sv_hosts s);
  sv_ok_ch : (length (sv_ch s) + received s = count_over (sv_phases s))%nat;
  sv_ok_nil : sv_result s = Some None → sv_hosts s = []
}.
Lemma count_over_insert l i p p' :
  l !! i = Some p → is_over p = false →
  count_over (<[i := p']> l) = (count_over l + (if is_over p' then 1 else 0))%nat.
Proof.
  unfold count_over. revert i. induction l as [|x l IH]; intros [|i] Hi Hp; simpl in *; [done..| |].
  - injection Hi as ->. rewrite Hp. destruct (is_over p'); simpl; lia.
  - specialize (IH _ Hi Hp). destruct (is_over x); simpl; rewrite IH; lia.
Qed.
Lemma count_over_lt l i p : l !! i = Some p → is_over p = false → (count_over l < length l)%nat.
Proof.
  unfold count_over. revert i. induction l as [|x l IH]; intros [|i] Hi Hp; simpl in *; [done..| |].
  - injection Hi as ->. rewrite Hp. pose proof (List.filter_length_le is_over l). lia.
  - specialize (IH _ Hi Hp). destruct (is_over x); simpl; lia.
Qed.
Lemma sv_goto_ok i p p' umask s :
  sv_phases s !! i = Some p → is_over p = false → is_over p' = false → sv_ok s → sv_ok (sv_goto i p' umask s).
Proof.
  intros Hi Hp Hp' [Hl Hc Hn]. split; simpl; [by rewrite length_insert| |done].
  rewrite (count_over_insert _ _ _ _ Hi Hp), Hp'. unfold received in *. simpl. lia.
Qed.
Lemma sv_send_ok i p err umask s :
  sv_phases s !! i = Some p → is_over p = false → sv_ok s → sv_ok (sv_send i err umask s).
Proof.
  intros Hi Hp [Hl Hc Hn]. split; simpl; [by rewrite length_insert| |done].
  rewrite (count_over_insert _ _ _ _ Hi Hp), length_app. unfold received in *. simpl. lia.
Qed.
Lemma sv_after_ok i p err p' umask s :
  sv_phases s !! i = Some p → is_over p = false → is_over p' = false → sv_ok s → sv_ok (sv_after i err p' umask s).
Proof. intros. destruct err; simpl; [by eapply sv_send_ok|by eapply sv_goto_ok]. Qed.
Lemma sv_step_ok s s' : sv_step s s' → sv_ok s → sv_ok s'.
Proof.
  intros Hst Hok. destruct Hst as [i addr listen Hi|i proto addr Hi|i addr err Hi|i addr Hi|i old addr err Hi|i old addr Hi|i old err Hi
    |i err Hi|err l Hr Hc|Hr Hh]; eauto using sv_after_ok, sv_send_ok, sv_goto_ok.
  - destruct Hok as [Hl Hc Hn]. split; simpl; [by rewrite length_insert| |done].
    rewrite (count_over_insert _ _ _ _ Hi); [|done]. unfold received in *. simpl. lia.
  - destruct Hok as [Hl Hch Hn]. split; simpl; [done| |done]. rewrite <- Hch, Hc. unfold received. rewrite Hr. simpl. lia.
  - destruct Hok as [Hl Hch Hn]. split; simpl; [done| |done]. rewrite <- Hch. unfold received. by rewrite Hr.
Qed.
Lemma sv_init_ok hosts umask : sv_ok (sv_init hosts umask).
Proof.
  split; simpl; [by rewrite !length_fmap| |done]. unfold received, count_over. simpl. induction hosts; simpl; auto.
Qed.
Lemma sv_hosts_step s s' : sv_step s s' → sv_hosts s' = sv_hosts s.
Proof. intros []; try done; unfold sv_after; by destruct (newListener _ _) || destruct err. Qed.

(** ** The mask of the process *)

Definition holds_mask (p : host_phase) : bool := match p with masked _ | bound _ => true | _ => false end.
Definition one_unix (hosts : list (string * string)) : Prop :=
  ∀ i j a b, hosts !! i = Some ("unix", a) → hosts !! j = Some ("unix", b) → i = j.
(** With at most one Unix host, it is the only one that changes the mask, and it keeps the
    mask of before. *)
Record mask_ok (umask : Z) (s : Serving) : Prop := {
  mk_old : ∀ i old, sv_phases s !! i = Some (masked old) ∨ sv_phases s !! i = Some (bound old) →
    old = umask ∧ sv_umask s = private_mask ∧ ∃ addr, sv_hosts s !! i = Some ("unix", addr);
  mk_free : (∀ i p, sv_phases s !! i = Some p → holds_mask p = false) → sv_umask s = umask;
  mk_sockets : ∀ addr m, (addr, m) ∈ sv_sockets s → m = private_mask
}.
Lemma insert_phase (l : list host_phase) (i : nat) p q j : <[i := p]> l !! j = Some q → (j = i ∧ q = p) ∨ (j ≠ i ∧ l !! j = Some q).
Proof.
  destruct (decide (j = i)) as [->|Hne]; [|rewrite list_lookup_insert_ne by done; auto].
  intros Hq. left. split; [done|]. pose proof (lookup_lt_Some _ _ _ Hq) as Hlt. rewrite length_insert in Hlt.
  rewrite list_lookup_insert_eq in Hq by done. by injection Hq.
Qed.
(** A goroutine that does not hold the mask goes on, without touching it. *)
Lemma mask_ok_away umask s i p p' ch :
  sv_phases s !! i = Some p → holds_mask p = false → holds_mask p' = false → mask_ok umask s →
  mask_ok umask (mkServing (sv_hosts s) (<[i := p']> (sv_phases s)) (sv_umask s) (sv_sockets s) ch (sv_result s)).
Proof.
  intros Hi Hp Hp' [Ho Hf Hs]. split; simpl; [| |done].
  - intros j old [Hj|Hj]; apply insert_phase in Hj as [[-> <-]|[? Hj]]; try done; apply (Ho j); auto.
  - intros Hall. apply Hf. intros j q Hj. destruct (decide (j = i)) as [->|Hne]; [congruence|].
    apply (Hall j). by rewrite list_lookup_insert_ne.
Qed.
(** The goroutine that holds the mask puts it back. *)
Lemma mask_ok_back umask s i p old p' ch :
  one_unix (sv_hosts s) → sv_phases s !! i = Some p → p = masked old ∨ p = bound old → holds_mask p' = false →
  mask_ok umask s →
  mask_ok umask (mkServing (sv_hosts s) (<[i := p']> (sv_phases s)) old (sv_sockets s) ch (sv_result s)).
Proof.
  intros Hu Hi Hp Hp' [Ho Hf Hs].
  destruct (Ho i old) as (-> & _ & addr & Ha); [destruct Hp as [->| ->]; auto|].
  split; simpl; [|done|done].
  intros j old' [Hj|Hj]; apply insert_phase in Hj as [[-> <-]|[Hne Hj]]; try done;
    destruct (Ho j old') as (_ & _ & b & Hb); auto; destruct Hne; by eapply Hu.
Qed.
Lemma mask_ok_after umask s i err p p' :
  sv_phases s !! i = Some p → holds_mask p = false → holds_mask p' = false → mask_ok umask s →
  mask_ok umask (sv_after i err p' (sv_umask s) s).
Proof. intros. destruct err; simpl; by eapply mask_ok_away. Qed.
Lemma mask_ok_after_back umask s i err p old p' :
  one_unix (sv_hosts s) → sv_phases s !! i = Some p → p = masked old ∨ p = bound old → holds_mask p' = false →
  mask_ok umask s → mask_ok umask (sv_after i err p' old s).
Proof. intros. destruct err; simpl; by eapply mask_ok_back. Qed.
Lemma mask_ok_step umask s s' : one_unix (sv_hosts s) → sv_step s s' → mask_ok umask s → mask_ok umask s'.
Proof.
  intros Hu Hst Hok. destruct Hst as [i addr listen Hi|i proto addr Hi|i addr err Hi|i addr Hi Ha|i old addr err Hi|i old addr Hi Ha
    |i old err Hi|i err Hi|err l Hr Hc|Hr Hh].
  - by eapply mask_ok_after.
  - by eapply mask_ok_away.
  - by eapply mask_ok_away.
  - destruct Hok as [Ho Hf Hs]. assert (Hfree : ∀ j p, sv_phases s !! j = Some p → holds_mask p = false).
    { intros j p Hj. destruct p as [|old|old| |]; try done;
        (destruct (Ho j old) as (_ & _ & b & Hb); [auto|]); rewrite (Hu _ _ _ _ Hb Ha) in Hj; congruence. }
    split; simpl; [| |done].
    + intros j old [Hj|Hj]; apply insert_phase in Hj as [[-> Hq]|[Hne Hj]]; try done.
      * injection Hq as ->. rewrite (Hf Hfree). eauto.
      * by specialize (Hfree _ _ Hj).
      * by specialize (Hfree _ _ Hj).
    + intros Hall. specialize (Hall i (masked (sv_umask s))). rewrite list_lookup_insert_eq in Hall
        by (by eapply lookup_lt_Some). by specialize (Hall eq_refl).
  - eapply mask_ok_after_back; eauto.
  - destruct Hok as [Ho Hf Hs]. destruct (Ho i old) as (-> & Hm & _); [auto|]. split; simpl.
    + intros j old' [Hj|Hj]; apply insert_phase in Hj as [[-> Hq]|[Hne Hj]]; try done; try (apply (Ho j); auto).
      injection Hq as ->. eauto.
    + intros Hall. specialize (Hall i (bound umask)). rewrite list_lookup_insert_eq in Hall
        by (by eapply lookup_lt_Some). by specialize (Hall eq_refl).
    + intros a m [Hin|Hin]%elem_of_app; [by eapply Hs|]. apply list_elem_of_singleton in Hin. by injection Hin as -> ->.
  - eapply mask_ok_after_back; eauto.
  - by eapply mask_ok_away.
  - by destruct Hok.
  - by destruct Hok.
Qed.
Lemma sv_init_mask hosts umask : mask_ok umask (sv_init hosts umask).
Proof.
  split; simpl; [|done|by intros ? ? ?%elem_of_nil].
  intros i old [Hi|Hi]; rewrite list_lookup_fmap in Hi; by destruct (hosts !! i).
Qed.

(** C23: in every reachable state a goroutine that has an error has room for it in the channel,
    also after [ListenAndServe] has returned; it returns nil only without hosts; and with at
    most one Unix host, its socket is created with the private mask, and the process has its
    own mask when the listener is ready. *)
Theorem serving_reachable hosts umask s :
  rtc sv_step (sv_init hosts umask) s →
  (∀ i p, sv_phases s !! i = Some p → is_over p = false → sv_room s) ∧
  (sv_result s = Some None → hosts = []) ∧
  (one_unix (protoAddrParts <$> hosts) →
     (∀ addr m, (addr, m) ∈ sv_sockets s → m = private_mask) ∧
     ((∀ i p, sv_phases s !! i = Some p → holds_mask p = false) → sv_umask s = umask)).
Proof.
  intros Hs.
  assert (Hinv : sv_ok s ∧ sv_hosts s = protoAddrParts <$> hosts ∧ (one_unix (protoAddrParts <$> hosts) → mask_ok umask s)).
  { cut (∀ s0, rtc sv_step s0 s → sv_ok s0 ∧ sv_hosts s0 = protoAddrParts <$> hosts ∧
      (one_unix (protoAddrParts <$> hosts) → mask_ok umask s0) →
      sv_ok s ∧ sv_hosts s = protoAddrParts <$> hosts ∧ (one_unix (protoAddrParts <$> hosts) → mask_ok umask s)).
    { intros Hcut. apply (Hcut _ Hs). split_and!; [apply sv_init_ok|done|]. intros _. apply sv_init_mask. }
    clear Hs. intros s0 Hs. induction Hs as [|x y z Hst _ IH]; [done|]. intros (Hok & Hh & Hm). apply IH.
    split_and!; [by eapply sv_step_ok|by rewrite (sv_hosts_step _ _ Hst)|].
    intros Hu. eapply mask_ok_step; [by rewrite Hh|done|by apply Hm]. }
  destruct Hinv as ([Hl Hc Hn] & Hh & Hm). split_and!.
  - intros i p Hi Hp. pose proof (count_over_lt _ _ _ Hi Hp). unfold sv_room. lia.
  - intros Hr. specialize (Hn Hr). rewrite Hh in Hn. by apply fmap_nil_inv in Hn.
  - intros Hu. destruct (Hm Hu) as [_ Hf Hk]. auto.
Qed.

(** With two Unix hosts the mask can be lost: both sockets are ready and the process keeps
    the private mask; or a socket is created with the ordinary one. *)
Theorem umask_race :
  (∃ s, rtc sv_step (sv_init ["unix:///a"; "unix:///b"] 18) s ∧ sv_phases s = [serving; serving] ∧ sv_umask s = private_mask) ∧
  (∃ s, rtc sv_step (sv_init ["unix:///a"; "unix:///b"] 18) s ∧ ("/b", 18) ∈ sv_sockets s).
Proof.
  split; eexists; split.
  - eapply rtc_l; [by apply (sv_mask _ 0 "/a")|]. eapply rtc_l; [by apply (sv_mask _ 1 "/b")|].
    eapply rtc_l; [by apply (sv_unix_listen _ 0 18 "/a")|]. eapply rtc_l; [by apply (sv_unix_listen _ 1 private_mask "/b")|].
    eapply rtc_l; [apply (sv_chmod _ 0 18 None); [done|unfold sv_room; simpl; lia]|].
    eapply rtc_l; [apply (sv_chmod _ 1 private_mask None); [done|unfold sv_room; simpl; lia]|]. apply rtc_refl.
  - by vm_compute.
  - eapply rtc_l; [by apply (sv_mask _ 0 "/a")|]. eapply rtc_l; [by apply (sv_mask _ 1 "/b")|].
    eapply rtc_l; [by apply (sv_unix_listen _ 0 18 "/a")|].
    eapply rtc_l; [apply (sv_chmod _ 0 18 None); [done|unfold sv_room; simpl; lia]|].
    eapply rtc_l; [by apply (sv_unix_listen _ 1 private_mask "/b")|]. apply rtc_refl.
  - simpl. set_solver.
Qed.
End serving.
Definition two_hosts : list string := ["unix:///a"; ":4001"].
Lemma one_unix_host : one_unix (protoAddrParts <$> two_hosts).
Proof. intros [|[|i]] [|[|j]] a b; simpl; done. Qed.
Definition unix_ready : Serving := mkServing (protoAddrParts <$> two_hosts) [serving; begun] 18 [("/a", private_mask)] [] None.
Lemma unix_ready_reachable : rtc (sv_step (λ _, true)) (sv_init two_hosts 18) unix_ready.
Proof.
  eapply rtc_l; [by apply (sv_mask _ _ 0 "/a")|]. eapply rtc_l; [by apply (sv_unix_listen _ _ 0 18 "/a")|].
  eapply rtc_l; [apply (sv_chmod _ _ 0 18 None); [done|unfold sv_room; simpl; lia]|]. apply rtc_refl.
Qed.
Lemma serving_reachable_witness : sv_umask unix_ready = 18 ∧ ∀ m, ("/a", m) ∈ sv_sockets unix_ready → m = private_mask.
Proof.
  destruct (serving_reachable _ _ _ _ unix_ready_reachable) as (_ & _ & Hmask).
  destruct (Hmask one_unix_host) as [Hsockets Hfree]. split; [|exact (Hsockets "/a")].
  apply Hfree. intros [|[|i]] p; simpl; by intros [= <-] || done.
Defined.

(** ** Writing and flushing *)

(** What reaches the writer of a [WriteFlusher]; one that cannot flush ignores it. *)
Inductive wf_event := wf_write (b : string) | wf_flush.
Record WriteFlusher := { wf_flushes : bool; wf_log : list wf_event }.
Definition NewWriteFlusher (can_flush : bool) : WriteFlusher := {| wf_flushes := can_flush; wf_log := [] |}.
Definition wf_Flush (wf : WriteFlusher) : WriteFlusher :=
  {| wf_flushes := wf_flushes wf; wf_log := wf_log wf ++ (if wf_flushes wf then [wf_flush] else []) |}.
(** [Write(b)]: what was written is flushed, also after an error. *)
Definition wf_Write (b : string) (wf : WriteFlusher) : WriteFlusher :=
  wf_Flush {| wf_flushes := wf_flushes wf; wf_log := wf_log wf ++ [wf_write b] |}.
