(* ===== verification/Tasks.v ===== *)
(** * The scale task queue ([cluster/swarm/task.go])

    Scaling collects tasks in a ring ([container/ring]) and then serves it: [DoTasks] walks
    the ring, runs each task, drops it on success, and on failure until its retries are
    used up.  The ring is a list read from [t.Current] on; the element without a value is
    [t.Head] (no other element has a nil value), and its first successor is
    [t.Head.Next()]. *)
From S2P Require Import Prelude GoStrings Container ScaleUtils.

(** ** Data *)

Definition DefaultTaskRetry : Z := 3.

(** [type Task struct], whose container is a pointer: [K] is the type of what it points
    to, with the names that are read through it. *)
Record Task (K : Type) := mkTask {
  tk_TaskID : Z;
  tk_TaskType : TaskType;
  tk_Retry : Z;
  tk_Container : K
}.
Arguments mkTask {K}.
Arguments tk_TaskID {K}.
Arguments tk_TaskType {K}.
Arguments tk_Retry {K}.
Arguments tk_Container {K}.
Class TaskContainer (K : Type) := task_Names : K → list string.
#[export] Instance container_names : TaskContainer Container := ctr_Names.
Definition tk_set_Retry {K} (n : Z) (t : Task K) : Task K :=
  mkTask (tk_TaskID t) (tk_TaskType t) n (tk_Container t).

(** The ring from [Current] on; [None] is the head. *)
Definition ring (K : Type) : Type := list (option (Task K)).

(** [type Tasks struct]: [None] when [Head] is nil. *)
Record Tasks (K : Type) := mkTasks { tasks_ring : option (ring K) }.
Arguments mkTasks {K}.
Arguments tasks_ring {K}.
Definition NewTasks {K} : Tasks K := mkTasks None.

(** ** Ring operations *)

(** [r.Next()] *)
Definition ring_next {K} (r : ring K) : ring K :=
  match r with [] => [] | x :: r' => r' ++ [x] end.
(** [r.Link(ring.New(1))] with the new element's value, read from the pointer it
    returns: the old successor of [r]. *)
Definition ring_link {K} (x : option (Task K)) (r : ring K) : ring K :=
  match r with [] => [] | [c] => [c; x] | c :: r' => r' ++ [c; x] end.
(** [r = r.Prev(); r.Unlink(1)] *)
Definition ring_drop_current {K} (r : ring K) : ring K :=
  match r with
  | [] => [] | [c] => [c]
  | _ :: r' => match last r' with Some l => l :: removelast r' | None => r' end
  end.
(** [t.Head], as a place to read the ring from *)
Fixpoint split_head {K} (l acc : ring K) : ring K :=
  match l with
  | [] => rev acc
  | None :: l' => None :: l' ++ rev acc
  | x :: l' => split_head l' (x :: acc)
  end.
Definition at_head {K} (r : ring K) : ring K := split_head r [].

(** ** Adding tasks *)

Section adding.
(** The values of [rand.Int()], in the order of the calls. *)
Context {K : Type} `{TaskContainer K} (rand : nat → Z).

Definition new_task (i : nat) (TaskType : TaskType) (container : K) : Task K :=
  mkTask (rand i) TaskType DefaultTaskRetry container.

(** [t.AddTask(container, TaskType)]: the last statement, a log message, reads the
    container's first name. *)
Definition AddTask (container : option K) (TaskType : TaskType) (t : Tasks K)
    : outcome (Tasks K) :=
  match container with
  | None => Ret t
  | Some c =>
      let r := default [None] (tasks_ring t) in
      let t' := mkTasks (Some (ring_next (ring_link (Some (new_task 0 TaskType c)) r))) in
      match task_Names c with
      | [] => Panic "index out of range"
      | _ => Ret t'
      end
  end.

(** The containers from the [i]-th on, each linked in turn. *)
Fixpoint link_all (i : nat) (TaskType : TaskType) (containers : list K) (r : ring K) : ring K :=
  match containers with
  | [] => r
  | c :: containers' => link_all (S i) TaskType containers' (ring_link (Some (new_task i TaskType c)) r)
  end.

(** [t.AddTasks(containers, TaskType)]; a nil slice is [None]. *)
Definition AddTasks (containers : option (list K)) (TaskType : TaskType) (t : Tasks K) : Tasks K :=
  match containers with
  | None => t
  | Some cs =>
      match tasks_ring t with
      | None =>
          mkTasks (Some (ring_next (None :: imap (λ i c, Some (new_task i TaskType c)) cs)))
      | Some r =>
          if (1 <? length r)%nat
          then mkTasks (Some (ring_next (at_head (link_all 0 TaskType cs r))))
          else t
      end
  end.
End adding.

(** ** Serving the ring *)

(** [TaskProssesor.Do]: a name, or an error; it may also panic. *)
Class TaskProssesor (K S : Type) := { Do : Task K → S → outcome string * S }.

Section serving.
Context {K S : Type} `{TaskProssesor K S}.

(** One iteration of the loop of [DoTasks]: the ring after the iteration and its post
    statement and the name added; and the processor's state. *)
Definition do_task (r : ring K) (s : S) : outcome (ring K * list string) * S :=
  let r := match r with None :: _ => ring_next r | _ => r end in
  match r with
  | Some t :: r' =>
      match Do t s with
      | (Err _, s) =>
          if tk_Retry t =? 0 then (Ret (ring_next (ring_drop_current r), []), s)
          else (Ret (ring_next (Some (tk_set_Retry (tk_Retry t - 1) t) :: r'), []), s)
      | (Ret name, s) => (Ret (ring_next (ring_drop_current r), [name]), s)
      | (Panic w, s) => (Panic w, s)
      end
  | _ => (Panic "interface conversion: interface is nil", s)
  end.

(** The loop, with [fuel] iterations at most; [None] when they are not enough. *)
Fixpoint DoTasks_loop (fuel : nat) (r : ring K) (names : list string) (s : S)
    : option (outcome (ring K * list string) * S) :=
  match fuel with
  | O => None
  | Datatypes.S fuel =>
      if (1 <? length r)%nat then
        match do_task r s with
        | (Ret (r, new), s) => DoTasks_loop fuel r (names ++ new) s
        | (Err e, s) => Some (Err e, s)
        | (Panic w, s) => Some (Panic w, s)
        end
      else Some (Ret (r, names), s)
  end.

(** [t.DoTasks()]; the length of a nil ring is 0. *)
Definition DoTasks (fuel : nat) (t : Tasks K) (s : S) : option (outcome (Tasks K * list string) * S) :=
  match tasks_ring t with
  | None => Some (Ret (t, []), s)
  | Some r =>
      (λ o, (x ← o.1; let '(r, names) := x in Ret (mkTasks (Some r), names), o.2))
        <$> DoTasks_loop fuel r [] s
  end.
End serving.

(** ** The tasks of a ring *)

(** A ring has exactly one head. *)
Definition is_head {K} (x : option (Task K)) : bool := match x with None => true | Some _ => false end.
Definition heads {K} (r : ring K) : nat := length (List.filter is_head r).
Definition ring_wf {K} (r : ring K) : Prop := heads r = 1%nat.
Definition ring_tasks {K} (r : ring K) : list (Task K) := omap id r.
Definition tasks_of {K} (t : Tasks K) : list (Task K) := default [] (ring_tasks <$> tasks_ring t).
Definition tasks_wf {K} (t : Tasks K) : Prop := match tasks_ring t with None => True | Some r => ring_wf r end.

Section ring_facts.
Context {K : Type}.
Implicit Types (r : ring K) (t : Tasks K).

Lemma ring_tasks_app r1 r2 : ring_tasks (r1 ++ r2) = ring_tasks r1 ++ ring_tasks r2.
Proof. apply omap_app. Qed.
Lemma ring_tasks_perm r1 r2 : r1 ≡ₚ r2 → ring_tasks r1 ≡ₚ ring_tasks r2.
Proof. unfold ring_tasks. by intros ->. Qed.
Lemma heads_app r1 r2 : heads (r1 ++ r2) = (heads r1 + heads r2)%nat.
Proof. unfold heads. by rewrite List.filter_app, length_app. Qed.
Lemma heads_imap {A} (f : nat → A → Task K) l : heads (imap (λ i x, Some (f i x)) l) = 0%nat.
Proof. revert f. induction l as [|x l IH]; intros f; [done|]. apply (IH (f ∘ S)). Qed.
Lemma ring_wf_perm r1 r2 : r1 ≡ₚ r2 → ring_wf r1 → ring_wf r2.
Proof. unfold ring_wf, heads. intros Hp <-. symmetry. by rewrite (Lfilter_perm _ _ _ Hp). Qed.
Lemma ring_wf_length r : ring_wf r → length r = S (length (ring_tasks r)).
Proof.
  unfold ring_wf. assert (length r = heads r + length (ring_tasks r))%nat as ->.
  { unfold heads, ring_tasks. induction r as [|[t|] r IH]; cbn in *; rewrite ?IH; lia. }
  by intros ->.
Qed.

Lemma ring_next_perm r : ring_next r ≡ₚ r.
Proof. destruct r as [|x r]; [done|]. cbn. by rewrite Permutation_app_comm. Qed.
Lemma ring_link_perm x r : r ≠ [] → ring_link x r ≡ₚ x :: r.
Proof.
  destruct r as [|c [|d r]]; intros Hr; [done|apply Permutation_swap|].
  cbn. change (d :: r ++ [c; x]) with ((d :: r) ++ [c; x]). rewrite Permutation_app_comm. cbn. apply Permutation_swap.
Qed.
Lemma at_head_perm r : at_head r ≡ₚ r.
Proof.
  unfold at_head. rewrite <- (app_nil_r r) at 2. generalize (@nil (option (Task K))).
  induction r as [|[t|] r IH]; intros acc; cbn.
  - symmetry. apply Permutation_rev.
  - rewrite IH. by rewrite Permutation_middle.
  - by rewrite <- Permutation_rev.
Qed.
Lemma link_all_perm rand cs ty r i :
  r ≠ [] → link_all rand i ty cs r ≡ₚ r ++ imap (λ j c, Some (new_task rand (i + j)%nat ty c)) cs.
Proof.
  revert r i. induction cs as [|c cs IH]; intros r i Hr; cbn; [by rewrite app_nil_r|].
  rewrite IH.
  - rewrite ring_link_perm by done. cbn. rewrite Nat.add_0_r.
    rewrite <- Permutation_middle. apply reflexive_eq. do 2 f_equal. apply imap_ext.
    intros j y _. unfold compose. do 2 f_equal. lia.
  - intros Hnil. apply (f_equal length) in Hnil. rewrite (ring_link_perm _ r Hr) in Hnil. done.
Qed.
Lemma ring_drop_next x r : r ≠ [] → ring_next (ring_drop_current (x :: r)) = r.
Proof.
  intros Hr. destruct r as [|y r _] using rev_ind; [done|]. cbn.
  destruct (r ++ [y]) as [|z l] eqn:E; [by destruct r|]. rewrite <- E.
  rewrite last_snoc, removelast_last. done.
Qed.
Lemma ring_tasks_imap {A} (f : nat → A → Task K) l : ring_tasks (imap (λ i x, Some (f i x)) l) = imap f l.
Proof.
  unfold ring_tasks. revert f. induction l as [|x l IH]; intros f; cbn; [done|].
  f_equal. apply (IH (f ∘ S)).
Qed.

Lemma AddTasks_adds rand containers ty t :
  tasks_wf t →
  tasks_wf (AddTasks rand containers ty t) ∧
  tasks_of (AddTasks rand containers ty t) ≡ₚ
  tasks_of t ++
    match containers, tasks_ring t, tasks_of t with
    | None, _, _ | Some _, Some _, [] => []
    | Some cs, _, _ => imap (λ i c, new_task rand i ty c) cs
    end.
Proof.
  unfold tasks_wf, tasks_of, AddTasks. intros Hwf.
  destruct containers as [cs|]; [|by rewrite app_nil_r].
  destruct t as [[r|]]; cbn [tasks_ring fmap option_fmap option_map default] in *; cbv [id].
  - pose proof (ring_wf_length r Hwf) as Hlen.
    destruct (ring_tasks r) as [|t0 ts] eqn:Ht; rewrite Hlen; cbn [length Nat.ltb Nat.leb].
    { cbn. by rewrite Ht. }
    assert (ring_next (at_head (link_all rand 0 ty cs r)) ≡ₚ
      r ++ imap (λ j c, Some (new_task rand j ty c)) cs) as Hp.
    { rewrite ring_next_perm, at_head_perm. apply link_all_perm. by destruct r. }
    cbn [tasks_ring fmap option_fmap option_map default]. split.
    + eapply ring_wf_perm; [symmetry; exact Hp|].
      unfold ring_wf. by rewrite heads_app, heads_imap, Hwf.
    + rewrite (ring_tasks_perm _ _ Hp), ring_tasks_app, ring_tasks_imap, Ht. done.
  - split.
    + eapply ring_wf_perm; [symmetry; apply ring_next_perm|].
      unfold ring_wf. change (None :: ?l) with ([None] ++ l). by rewrite heads_app, heads_imap.
    + rewrite (ring_tasks_perm _ _ (ring_next_perm _)).
      change (None :: ?l) with ([None] ++ l). by rewrite ring_tasks_app, ring_tasks_imap.
Qed.

(** Adding one. *)
Lemma AddTask_adds `{!TaskContainer K} rand c ty t t' :
  AddTask rand (Some c) ty t = Ret t' → tasks_wf t →
  tasks_wf t' ∧ tasks_of t' ≡ₚ tasks_of t ++ [new_task rand 0 ty c].
Proof.
  unfold AddTask. destruct (task_Names c); [done|]. intros [= <-] Hwf. unfold tasks_wf, tasks_of in *.
  set (r := default [None] (tasks_ring t)). cbn [tasks_ring fmap option_fmap option_map default]. cbv [id].
  assert (ring_wf r ∧ ring_tasks r = default [] (ring_tasks <$> tasks_ring t)) as [Hr Ht].
  { unfold r. by destruct (tasks_ring t). }
  assert (ring_next (ring_link (Some (new_task rand 0 ty c)) r) ≡ₚ r ++ [Some (new_task rand 0 ty c)]) as Hp.
  { rewrite ring_next_perm, ring_link_perm; [apply Permutation_cons_append|]. intros Hnil. by rewrite Hnil in Hr. }
  split.
  - eapply ring_wf_perm; [symmetry; exact Hp|]. unfold ring_wf, heads in *.
    rewrite List.filter_app, length_app. cbn. lia.
  - rewrite (ring_tasks_perm _ _ Hp), ring_tasks_app, Ht. done.
Qed.

(** What [DoTasks] needs of a queue. *)
Definition queue_ok (t : Tasks K) : Prop := tasks_wf t ∧ Forall (λ x, 0 ≤ tk_Retry x) (tasks_of t).
Lemma new_queue_ok : queue_ok NewTasks.
Proof. by split. Qed.
Lemma AddTask_ok `{!TaskContainer K} rand c ty t t' : AddTask rand (Some c) ty t = Ret t' → queue_ok t → queue_ok t'.
Proof.
  intros Hadd [Hwf Hall]. destruct (AddTask_adds _ _ _ _ _ Hadd Hwf) as [Hwf' Hp]. split; [done|].
  rewrite Hp. apply Forall_app. split; [done|]. by apply Forall_singleton.
Qed.
Lemma AddTasks_ok rand cs ty t : queue_ok t → queue_ok (AddTasks rand cs ty t).
Proof.
  intros [Hwf Hall]. destruct (AddTasks_adds rand cs ty t Hwf) as [Hwf' Hp]. split; [done|].
  rewrite Hp. apply Forall_app. split; [done|].
  assert (∀ l : list K, Forall (λ x : Task K, 0 ≤ tk_Retry x) (imap (λ i c, new_task rand i ty c) l)) as Hnew.
  { intros l. apply Forall_forall. by intros x (i & c & -> & _)%elem_of_lookup_imap. }
  destruct cs, (tasks_ring t), (tasks_of t); done || apply Hnew.
Qed.

(** Adding containers keeps the ring well formed and adds one new task per container,
    with the default number of retries, to the tasks already there; only two things are
    dropped: a nil slice, and anything offered to a ring whose tasks have all been served
    or which was created from an empty slice. *)
Theorem AddTasks_spec rand containers ty t :
  tasks_wf t →
  tasks_wf (AddTasks rand containers ty t) ∧
  tasks_of (AddTasks rand containers ty t) ≡ₚ
  tasks_of t ++
    match containers, tasks_ring t, tasks_of t with
    | None, _, _ | Some _, Some _, [] => []
    | Some cs, _, _ => imap (λ i c, new_task rand i ty c) cs
    end.
Proof. apply AddTasks_adds. Qed.
End ring_facts.

(** ** Serving, specified as a queue *)

Section served.
Context {K S : Type} `{TaskProssesor K S}.

(** The tasks are a first-in first-out queue: the first one is run; it leaves the queue on
    success, and on failure goes to its end with one retry less, or leaves it when it has
    none.  The trace lists the runs that returned; the last component is the panic that
    ended the serving, if one did. *)
Inductive served : list (Task K) → S → list (Task K * (string + string)) → S → option string → Prop :=
  | served_empty s : served [] s [] s None
  | served_done t q s name s1 tr s' w :
      Do t s = (Ret name, s1) → served q s1 tr s' w →
      served (t :: q) s ((t, inl name) :: tr) s' w
  | served_given_up t q s err s1 tr s' w :
      Do t s = (Err err, s1) → tk_Retry t = 0 → served q s1 tr s' w →
      served (t :: q) s ((t, inr err) :: tr) s' w
  | served_again t q s err s1 tr s' w :
      Do t s = (Err err, s1) → tk_Retry t ≠ 0 →
      served (q ++ [tk_set_Retry (tk_Retry t - 1) t]) s1 tr s' w →
      served (t :: q) s ((t, inr err) :: tr) s' w
  | served_panicked t q s w s1 :
      Do t s = (Panic w, s1) → served (t :: q) s [] s1 (Some w).

(** The names of the runs that succeeded, and the runs that used up a task. *)
Definition successes (tr : list (Task K * (string + string))) : list string :=
  omap (λ x, match x.2 with inl name => Some name | inr _ => None end) tr.
Definition given_up (tr : list (Task K * (string + string))) : list (Task K) :=
  omap (λ x, match x.2 with inr _ => if tk_Retry x.1 =? 0 then Some x.1 else None | _ => None end) tr.

(** The runs a queue can take at most. *)
Definition attempts (q : list (Task K)) : nat := sum_list ((λ t, Datatypes.S (Z.to_nat (tk_Retry t))) <$> q).
Lemma attempts_app q1 q2 : attempts (q1 ++ q2) = (attempts q1 + attempts q2)%nat.
Proof. unfold attempts. rewrite fmap_app. induction (_ <$> q1); cbn; lia. Qed.
Lemma attempts_cons t q : attempts (t :: q) = Datatypes.S (Z.to_nat (tk_Retry t) + attempts q).
Proof. done. Qed.
Lemma successes_cons t x tr :
  successes ((t, x) :: tr) = match x with inl name => [name] | inr _ => [] end ++ successes tr.
Proof. by destruct x. Qed.
Lemma given_up_cons t x tr :
  given_up ((t, x) :: tr) =
  match x with inr _ => if tk_Retry t =? 0 then [t] else [] | inl _ => [] end ++ given_up tr.
Proof. destruct x; [done|]. unfold given_up. cbn. by destruct (tk_Retry t =? 0). Qed.

Lemma served_counts q s tr s' w :
  served q s tr s' w →
  Forall (λ t, 0 ≤ tk_Retry t) q →
  (length tr ≤ attempts q)%nat ∧
  match w with
  | None => (length (successes tr) + length (given_up tr) = length q)%nat
  | Some _ => (length (successes tr) + length (given_up tr) < length q)%nat
  end.
Proof.
  induction 1 as [|t q s name s1 tr s' w Hdo Hs IH|t q s err s1 tr s' w Hdo Hz Hs IH
                 |t q s err s1 tr s' w Hdo Hz Hs IH|t q s w s1 Hdo]; intros Hall; [done|..].
  all: apply Forall_cons in Hall as [Ht Hall].
  - rewrite attempts_cons, successes_cons, given_up_cons. destruct (IH Hall). cbn. destruct w; lia.
  - rewrite attempts_cons, successes_cons, given_up_cons, Hz. destruct (IH Hall). cbn. destruct w; lia.
  - destruct IH as [Ha Hb].
    { apply Forall_app. split; [done|]. apply Forall_singleton. cbn. lia. }
    rewrite attempts_app, attempts_cons in Ha. rewrite length_app in Hb.
    rewrite attempts_cons, successes_cons, given_up_cons, (proj2 (Z.eqb_neq _ _) Hz).
    cbn in *. destruct w; lia.
  - cbn. lia.
Qed.

(** How the loop ends. *)
Definition loop_ends (names : list string) (q : list (Task K)) (s : S)
    (o : option (outcome (ring K * list string) * S)) : Prop :=
  ∃ tr s' w, served q s tr s' w ∧
    match w with
    | None => ∃ r', o = Some (Ret (r', names ++ successes tr), s') ∧ ring_wf r' ∧ ring_tasks r' = []
    | Some w => o = Some (Panic w, s')
    end.

Lemma loop_ends_cons names t q q2 s s1 x new o :
  new = match x with inl name => [name] | inr _ => [] end →
  (∀ tr s' w, served q2 s1 tr s' w → served (t :: q) s ((t, x) :: tr) s' w) →
  loop_ends (names ++ new) q2 s1 o → loop_ends names (t :: q) s o.
Proof.
  intros -> Hs (tr & s' & w & Htr & Ho). exists ((t, x) :: tr), s', w. split; [by apply Hs|].
  destruct w; [done|]. destruct Ho as (r' & -> & Hw & He). exists r'. rewrite <- app_assoc.
  by destruct x.
Qed.

(** The loop is that queue. *)
Lemma DoTasks_loop_served n : ∀ r names s fuel,
  ring_wf r → Forall (λ t, 0 ≤ tk_Retry t) (ring_tasks r) →
  attempts (ring_tasks r) = n → (n < fuel)%nat →
  loop_ends names (ring_tasks r) s (DoTasks_loop fuel r names s).
Proof.
  induction n as [n IH] using lt_wf_ind. intros r names s fuel Hwf Hall Hn Hfuel.
  destruct fuel as [|fuel]; [lia|]. cbn [DoTasks_loop].
  pose proof (ring_wf_length r Hwf) as Hlen. rewrite Hlen.
  destruct (ring_tasks r) as [|t q] eqn:Hq; cbn [length Nat.ltb Nat.leb].
  { exists [], s, None. split; [constructor|]. exists r. by rewrite app_nil_r. }
  assert (∃ r1, match r with None :: _ => ring_next r | _ => r end = Some t :: r1 ∧
    ring_wf r1 ∧ ring_tasks r1 = q) as (r1 & Hskip & Hwf1 & Hq1).
  { destruct r as [|[t'|] r]; [done|injection Hq as -> <-; by exists r|].
    destruct r as [|[t'|] r]; [done| |done]. injection Hq as -> Hq.
    exists (r ++ [None]). split; [done|]. split.
    - unfold ring_wf, heads in *. rewrite List.filter_app, length_app. cbn in *. lia.
    - by rewrite ring_tasks_app, Hq, app_nil_r. }
  assert (r1 ≠ []) as Hne by (by intros ->).
  apply Forall_cons in Hall as [Ht Hall].
  rewrite attempts_cons in Hn. unfold do_task. rewrite Hskip.
  destruct (Do t s) as [[name|err|w] s1] eqn:Hdo; [|destruct (tk_Retry t =? 0) eqn:Hz|].
  - rewrite ring_drop_next by done. apply (loop_ends_cons _ _ _ q _ s1 (inl name) [name]); [done| |].
    + intros. by eapply served_done.
    + rewrite <- Hq1. apply (IH (attempts q)); rewrite ?Hq1; [lia|done..|lia].
  - rewrite ring_drop_next by done. apply (loop_ends_cons _ _ _ q _ s1 (inr err) []); [done| |].
    + intros. eapply served_given_up; [done|lia|done].
    + rewrite <- Hq1. apply (IH (attempts q)); rewrite ?Hq1; [lia|done..|lia].
  - cbn [ring_next]. set (t' := tk_set_Retry _ _). set (r2 := r1 ++ [Some t']).
    assert (ring_tasks r2 = q ++ [t']) as Hq2 by (unfold r2; by rewrite ring_tasks_app, Hq1).
    apply (loop_ends_cons _ _ _ (q ++ [t']) _ s1 (inr err) []); [done| |].
    + intros. eapply served_again; [done|lia|done].
    + rewrite <- Hq2. apply (IH (attempts (q ++ [t']))); rewrite ?Hq2; [..|done|].
      * rewrite attempts_app, attempts_cons. cbn. lia.
      * unfold ring_wf, r2, heads in *. rewrite List.filter_app, length_app. cbn in *. lia.
      * apply Forall_app. split; [done|]. apply Forall_singleton. cbn. lia.
      * rewrite attempts_app, attempts_cons. cbn. lia.
  - exists [], s1, (Some w). split; [by constructor|done].
Qed.

(** The same for a queue that may not have been created. *)
Lemma DoTasks_served t (s : S) fuel :
  tasks_wf t → Forall (λ t, 0 ≤ tk_Retry t) (tasks_of t) → (attempts (tasks_of t) < fuel)%nat →
  ∃ tr s' w, served (tasks_of t) s tr s' w ∧
    match w with
    | None => ∃ t', DoTasks fuel t s = Some (Ret (t', successes tr), s') ∧ tasks_wf t' ∧ tasks_of t' = []
    | Some w => DoTasks fuel t s = Some (Panic w, s')
    end.
Proof.
  destruct t as [[r|]]; unfold tasks_wf, tasks_of, DoTasks; cbn; cbv [id]; intros Hwf Hall Hfuel.
  - destruct (DoTasks_loop_served _ r [] s fuel Hwf Hall eq_refl Hfuel) as (tr & s' & w & Hs & Ho).
    exists tr, s', w. split; [done|]. destruct w; [by rewrite Ho|].
    destruct Ho as (r' & -> & Hw & He). by exists (mkTasks (Some r')).
  - exists [], s, None. split; [constructor|]. by exists (mkTasks None).
Qed.
End served.

(** C12: with as many iterations as there are tasks and retries, and one more, [DoTasks]
    ends: it has run the tasks as a first-in first-out queue with retries.  If no run
    panicked, the ring is empty, the names of the runs that succeeded are returned, and
    every task has either one successful run or used up its retries; otherwise it ended
    with the first panic. *)
Theorem DoTasks_spec {K S : Type} `{TaskProssesor K S} (t : Tasks K) (s : S) fuel :
  tasks_wf t → Forall (λ t, 0 ≤ tk_Retry t) (tasks_of t) → (attempts (tasks_of t) < fuel)%nat →
  ∃ tr s' w, served (tasks_of t) s tr s' w ∧ (length tr ≤ attempts (tasks_of t))%nat ∧
    match w with
    | None => ∃ t', DoTasks fuel t s = Some (Ret (t', successes tr), s') ∧ tasks_wf t' ∧ tasks_of t' = [] ∧
        (length (successes tr) + length (given_up tr) = length (tasks_of t))%nat
    | Some w => DoTasks fuel t s = Some (Panic w, s')
    end.
Proof.
  intros Hwf Hall Hfuel. destruct (DoTasks_served t s fuel Hwf Hall Hfuel) as (tr & s' & w & Hs & Ho).
  exists tr, s', w. destruct (served_counts _ s tr s' w Hs Hall) as [Hl Hc]. split; [done|]. split; [done|].
  destruct w; [done|]. destruct Ho as (t' & Ho & Hw & He). by exists t'.
Qed.

(** ** Concrete runs *)

Definition named_container (name : string) : Container :=
  {| ctr_Container := {| lc_ID := name; lc_Names := ["/" +:+ name]; lc_Labels := ∅; lc_State := "running";
                         lc_Created := 0; lc_Image := ""; lc_Ports := [] |};
     ctr_Config := None; ctr_Info := zero_ContainerJSON; ctr_Engine := 0%nat |}.
(** A processor that fails its first two runs and then succeeds. *)
Definition fails_twice : TaskProssesor Container nat := {|
  Do := λ t n, match n with
               | O => (Ret (ctr_ID (tk_Container t)), O)
               | S n => (Err "not now", n)
               end
|}.
Definition two_tasks : Tasks Container :=
  AddTasks (λ _, 7) (Some [named_container "a"; named_container "b"]) TaskTypeStartContainer NewTasks.

Lemma AddTasks_spec_witness :
  tasks_wf two_tasks ∧
  tasks_wf (AddTasks (λ _, 8) (Some [named_container "c"]) TaskTypeStopContainer two_tasks) ∧
  ctr_ID ∘ tk_Container <$> tasks_of (AddTasks (λ _, 8) (Some [named_container "c"]) TaskTypeStopContainer two_tasks)
    ≡ₚ ["a"; "b"; "c"].
Proof.
  assert (tasks_wf two_tasks) as Hwf by reflexivity.
  destruct (AddTasks_spec (λ _, 8) (Some [named_container "c"]) TaskTypeStopContainer two_tasks Hwf) as [Ha Hb].
  split_and!; [done|done|]. by rewrite Hb.
Defined.

Lemma DoTasks_spec_witness :
  (8 < 9)%nat ∧ ∃ t' s' (tr : list (Task Container * (string + string))),
    @DoTasks _ _ fails_twice 9 two_tasks 2%nat = Some (Ret (t', successes tr), s') ∧ tasks_of t' = [].
Proof.
  split; [lia|].
  destruct (@DoTasks_spec Container nat fails_twice two_tasks 2%nat 9) as (tr & s' & w & _ & _ & Hw).
  - reflexivity.
  - do 2 (apply Forall_cons; split; [by vm_compute|]). by apply Forall_nil.
  - apply Nat.ltb_lt. reflexivity.
  - destruct w; [done|]. destruct Hw as (t' & Hd & _ & He & _). by exists t', s', tr.
Defined.

(** The two runs that failed are made again after the others. *)
Example two_tasks_run :
  (λ o, (x ← o.1; Ret x.2, o.2)) <$> @DoTasks _ _ fails_twice 9 two_tasks 2%nat = Some (Ret ["a"; "b"], O).
Proof. reflexivity. Qed.

(** An empty slice that is not nil makes a ring that accepts nothing any more. *)
Example empty_slice_blocks_ring :
  let t := AddTasks (λ _, 7) (Some []) TaskTypeStopContainer NewTasks in
  tasks_of (AddTasks (λ _, 7) (Some [named_container "a"]) TaskTypeCreateContainer t) = [].
Proof. reflexivity. Qed.
