(* ===== verification/TaskHeap.v ===== *)
(** * What the scale tasks point to

    A task holds a pointer to a container.  It is either an object of an engine's table or
    a copy made by the resource-seizing filter, whose configuration is a copy of the
    configuration of another container: the two then share the map of the labels, and the
    array behind the slice of the environment.  This file models those pointers: arrays
    with their capacity, slices of them, and the copies. *)
From S2P Require Import Prelude GoStrings Json Config Container EngineState SwarmRegistry ScaleUtils Tasks.

(** ** Slices of strings *)

(** The array and the length of a slice that starts at its beginning. *)
Record slice_hdr := { sl_array : nat; sl_len : nat }.

(** An object of an engine's table. *)
Definition object : Type := nat * string.
Definition object_of (c : Container) : object := (ctr_Engine c, ctr_ID c).

(** A copy: the object whose configuration was copied, the slice of the environment, and
    the fields that are its own (its labels and environment are read elsewhere). *)
Record SeizedCopy := { cp_template : object; cp_Env : slice_hdr; cp_config : ContainerConfig }.

(** The arrays; the slices of the environments of the objects that have been read so far;
    the copies; and the configurations written to objects, for those that have since left
    their engine's table. *)
Record GoHeap := {
  gh_arrays : gmap nat (list string);
  gh_envs : gmap object slice_hdr;
  gh_copies : gmap nat SeizedCopy;
  gh_objects : gmap object ContainerConfig
}.
Definition empty_heap : GoHeap := {| gh_arrays := ∅; gh_envs := ∅; gh_copies := ∅; gh_objects := ∅ |}.
Definition gh_set_arrays (m : gmap nat (list string)) (h : GoHeap) : GoHeap :=
  {| gh_arrays := m; gh_envs := gh_envs h; gh_copies := gh_copies h; gh_objects := gh_objects h |}.
Definition gh_set_envs (m : gmap object slice_hdr) (h : GoHeap) : GoHeap :=
  {| gh_arrays := gh_arrays h; gh_envs := m; gh_copies := gh_copies h; gh_objects := gh_objects h |}.
Definition gh_set_copies (m : gmap nat SeizedCopy) (h : GoHeap) : GoHeap :=
  {| gh_arrays := gh_arrays h; gh_envs := gh_envs h; gh_copies := m; gh_objects := gh_objects h |}.
Definition gh_set_objects (m : gmap object ContainerConfig) (h : GoHeap) : GoHeap :=
  {| gh_arrays := gh_arrays h; gh_envs := gh_envs h; gh_copies := gh_copies h; gh_objects := m |}.

(** The capacity of the arrays that the program did not allocate itself, and that with
    which [append] grows one. *)
Class GoSlices := { spare_cells : object → nat; grow : nat → nat }.

Definition contents (h : GoHeap) (s : slice_hdr) : list string :=
  take (sl_len s) (default [] (gh_arrays h !! sl_array s)).

(** [append(s, x)]: in place when the array has a cell left. *)
Definition append_env `{GoSlices} (h : GoHeap) (s : slice_hdr) (x : string) : GoHeap * slice_hdr :=
  let a := default [] (gh_arrays h !! sl_array s) in
  if (sl_len s <? length a)%nat then
    (gh_set_arrays (<[sl_array s := <[sl_len s := x]> a]> (gh_arrays h)) h,
     {| sl_array := sl_array s; sl_len := S (sl_len s) |})
  else
    let n := fresh (dom (gh_arrays h) : gset nat) in
    (gh_set_arrays (<[n := take (sl_len s) a ++ x :: replicate (grow (sl_len s)) ""]> (gh_arrays h)) h,
     {| sl_array := n; sl_len := S (sl_len s) |}).

(** The slice [c.Config.Env] of an object, [env] being its contents. *)
Definition env_slice `{GoSlices} (h : GoHeap) (o : object) (env : list string) : GoHeap * slice_hdr :=
  match gh_envs h !! o with
  | Some s => (h, s)
  | None =>
      let n := fresh (dom (gh_arrays h) : gset nat) in
      let s := {| sl_array := n; sl_len := length env |} in
      (gh_set_envs (<[o := s]> (gh_envs h))
         (gh_set_arrays (<[n := env ++ replicate (spare_cells o) ""]> (gh_arrays h)) h), s)
  end.

(** ** The pointers *)

Inductive tcontainer :=
  | Stored (c : Container)
  | Seized (n : nat) (names : list string).
#[export] Instance tcontainer_names : TaskContainer tcontainer := λ k,
  match k with Stored c => ctr_Names c | Seized _ names => names end.

(** ** Reading and writing configurations *)

Definition stored_container (c : Cluster) (o : object) : option Container :=
  e ← cl_heap c !! o.1; e_containers e !! o.2.

(** The configuration of an object: that of the table when it is there, the last one
    written to it otherwise. *)
Definition object_config (c : Cluster) (h : GoHeap) (o : object) : option ContainerConfig :=
  match stored_container c o with
  | Some x => ctr_Config x
  | None => gh_objects h !! o
  end.

(** [*k.Config] *)
Definition read_config (c : Cluster) (h : GoHeap) (k : tcontainer) : outcome ContainerConfig :=
  match k with
  | Stored x =>
      deref match object_config c h (object_of x) with Some cfg => Some cfg | None => ctr_Config x end
  | Seized n _ =>
      cp ← deref (gh_copies h !! n);
      let labels := cc_Labels (default (cp_config cp) (object_config c h (cp_template cp))) in
      Ret (cc_set_Env (contents h (cp_Env cp)) (cc_set_Labels labels (cp_config cp)))
  end.

Definition update_object (f : Container → Container) (o : object) (c : Cluster) : Cluster :=
  match cl_heap c !! o.1 with
  | Some e =>
      match e_containers e !! o.2 with
      | Some x => cl_set_heap (<[o.1 := set_containers (<[o.2 := f x]> (e_containers e)) e]> (cl_heap c)) c
      | None => c
      end
  | None => c
  end.

(** [*k.Config = cfg]; what a copy shares with its template is the map of the labels. *)
Definition write_config (c : Cluster) (h : GoHeap) (k : tcontainer) (cfg : ContainerConfig) : Cluster * GoHeap :=
  match k with
  | Stored x =>
      let o := object_of x in
      (update_object (ctr_set_Config cfg) o c, gh_set_objects (<[o := cfg]> (gh_objects h)) h)
  | Seized n _ =>
      match gh_copies h !! n with
      | None => (c, h)
      | Some cp =>
          let o := cp_template cp in
          let cfg' := cc_set_Labels (cc_Labels cfg) (default (cp_config cp) (object_config c h o)) in
          (update_object (ctr_set_Config cfg') o c,
           gh_set_objects (<[o := cfg']> (gh_objects h))
             (gh_set_copies (<[n := {| cp_template := o; cp_Env := cp_Env cp; cp_config := cfg |}]> (gh_copies h)) h))
      end
  end.

(** The environments of the objects whose slices were appended to. *)
Definition sync_env (h : GoHeap) (c : Cluster) (x : object * slice_hdr) : Cluster :=
  update_object (λ y, match ctr_Config y with
                      | Some cfg => ctr_set_Config (cc_set_Env (contents h x.2) cfg) y
                      | None => y end) x.1 c.
Definition sync_envs (h : GoHeap) (c : Cluster) : Cluster :=
  foldl (sync_env h) c (map_to_list (gh_envs h)).

(** ** Facts *)

(** What was read is what was written, and a copy's labels are its template's. *)
Lemma stored_update f o c :
  stored_container (update_object f o c) o = f <$> stored_container c o.
Proof.
  unfold update_object, stored_container. destruct (cl_heap c !! o.1) as [e|] eqn:He; simpl; [|by rewrite He].
  destruct (e_containers e !! o.2) as [x|] eqn:Hx; simpl; [|by rewrite He; simpl; rewrite Hx].
  rewrite lookup_insert_eq. simpl. by rewrite lookup_insert_eq.
Qed.
Lemma stored_update_ne f o o' c : o ≠ o' →
  stored_container (update_object f o c) o' = stored_container c o'.
Proof.
  intros Hne. unfold update_object, stored_container. destruct (cl_heap c !! o.1) as [e|] eqn:He; [|done].
  destruct (e_containers e !! o.2) as [x|] eqn:Hx; [|done]. simpl.
  destruct (decide (o.1 = o'.1)) as [Heq|Hneq].
  - rewrite <- Heq, lookup_insert_eq, He. simpl. rewrite lookup_insert_ne; [done|].
    intros Heq2. apply Hne. destruct o, o'. simpl in *. congruence.
  - by rewrite lookup_insert_ne.
Qed.
Lemma read_write_stored c h x cfg :
  let r := write_config c h (Stored x) cfg in read_config r.1 r.2 (Stored x) = Ret cfg.
Proof.
  simpl. unfold object_config. rewrite stored_update.
  destruct (stored_container c (object_of x)); simpl; [done|]. by rewrite lookup_insert_eq.
Qed.

(** Appending: the new slice is the old one and the value; what has the old array as its
    own is written over exactly when there was room. *)
Section append.
Context `{GoSlices}.
Definition array_of (h : GoHeap) (s : slice_hdr) : list string := default [] (gh_arrays h !! sl_array s).
Definition has_room (h : GoHeap) (s : slice_hdr) : bool := (sl_len s <? length (array_of h s))%nat.

Lemma append_env_contents h s x h' s' :
  (sl_len s ≤ length (array_of h s))%nat →
  append_env h s x = (h', s') → contents h' s' = contents h s ++ [x].
Proof.
  unfold append_env, contents. fold (array_of h s). intros Hle.
  destruct (sl_len s <? length (array_of h s))%nat eqn:Hroom; intros [= <- <-]; simpl; rewrite lookup_insert_eq; simpl.
  - apply Nat.ltb_lt in Hroom. rewrite (take_S_r _ _ x) by (by apply list_lookup_insert_eq).
    by rewrite take_insert_ge.
  - assert (length (take (sl_len s) (array_of h s)) = sl_len s) as Hlen by (rewrite length_take; lia).
    rewrite <- Hlen at 1. replace (S (length (take (sl_len s) (array_of h s))))
      with (length (take (sl_len s) (array_of h s)) + 1)%nat by lia.
    rewrite take_app_add. done.
Qed.

(** A slice of another array, or of the same one and not longer, is not affected. *)
Lemma append_env_other h s x h' s' s2 :
  append_env h s x = (h', s') → is_Some (gh_arrays h !! sl_array s2) →
  sl_array s2 ≠ sl_array s ∨ (sl_len s2 ≤ sl_len s)%nat ∨ has_room h s = false →
  contents h' s2 = contents h s2.
Proof.
  unfold append_env, contents, has_room. fold (array_of h s). intros Happ [a Ha] Hs2.
  destruct (sl_len s <? length (array_of h s))%nat eqn:Hroom; injection Happ as <- <-; simpl.
  - destruct (decide (sl_array s = sl_array s2)) as [Heq|Hne]; [|by rewrite lookup_insert_ne].
    rewrite Heq, lookup_insert_eq. simpl. destruct Hs2 as [?|[Hle|?]]; [congruence| |done].
    unfold array_of. rewrite Heq. by apply take_insert_ge.
  - rewrite lookup_insert_ne; [done|]. intros Heq.
    apply (is_fresh (dom (gh_arrays h) : gset nat)). rewrite Heq. by apply elem_of_dom_2 in Ha.
Qed.

(** In place: the slice that was appended to before is now the same slice. *)
Lemma append_env_twice h s x y h1 s1 h2 s2 :
  (sl_len s ≤ length (array_of h s))%nat →
  append_env h s x = (h1, s1) → append_env h1 s y = (h2, s2) → is_Some (gh_arrays h !! sl_array s) →
  contents h2 s2 = contents h s ++ [y] ∧
  contents h2 s1 = contents h s ++ [if has_room h s then y else x].
Proof.
  intros Hle Happ1 Happ2 Hin.
  pose proof (append_env_contents _ _ _ _ _ Hle Happ1) as Hc1.
  assert ((sl_len s ≤ length (array_of h1 s))%nat ∧ contents h1 s = contents h s ∧
    (has_room h s = true → s1 = {| sl_array := sl_array s; sl_len := S (sl_len s) |} ∧ has_room h1 s = true) ∧
    (has_room h s = false → sl_array s1 ≠ sl_array s) ∧ is_Some (gh_arrays h1 !! sl_array s1)) as (Hle1 & Hsame & Hroom & Hnoroom & Hin1).
  { split_and!; [|by eapply append_env_other; [..|right; left]|..]; unfold append_env, has_room, array_of in *;
      destruct Hin as [a Ha]; rewrite Ha in *; simpl in *;
      destruct (sl_len s <? length a)%nat eqn:Hr; injection Happ1 as <- <-; simpl.
    all: try (by rewrite lookup_insert_eq; simpl; rewrite ?length_insert; eauto).
    - rewrite lookup_insert_ne; [by rewrite Ha|]. intros Heq. apply (is_fresh (dom (gh_arrays h) : gset nat)).
      rewrite Heq. by apply elem_of_dom_2 in Ha.
    - done.
    - done.
    - intros _ Heq. apply (is_fresh (dom (gh_arrays h) : gset nat)). rewrite Heq. by apply elem_of_dom_2 in Ha. }
  rewrite (append_env_contents _ _ _ _ _ Hle1 Happ2), Hsame. split; [done|].
  destruct (has_room h s) eqn:Hr.
  - destruct (Hroom eq_refl) as [-> Hr1]. unfold append_env in Happ2. unfold has_room, array_of in Hr1.
    rewrite Hr1 in Happ2. injection Happ2 as <- <-. unfold contents. simpl. rewrite lookup_insert_eq. simpl.
    unfold contents in Hsame. rewrite <- Hsame.
    apply Nat.ltb_lt in Hr1. rewrite (take_S_r _ _ y) by (by apply list_lookup_insert_eq).
    by rewrite take_insert_ge.
  - rewrite <- Hc1. eapply append_env_other; [exact Happ2|done|]. left. auto.
Qed.
End append.
