(* ===== verification/LocalProcessor.v ===== *)
(** * The local task processor ([cluster/swarm/local_processor.go])

    What running one scale task does to the cluster.  Destroying and stopping happen in
    goroutines, which are recorded when they are started and can be run afterwards. *)
From S2P Require Import Prelude GoStrings Regexp Json Config Container EngineState EngineOps Strategy Filters Scheduler SwarmRegistry SwarmCluster ScaleUtils Tasks TaskHeap.
From Stdlib Require Import Ascii.

Inductive goroutine :=
  | go_destroyContainer (k : tcontainer)
  | go_stopContainer (k : tcontainer).

(** The cluster, the heap, how many times [createContainer] was called, and the goroutines
    started. *)
Record ProcSt (W : Type) := mkPS {
  ps_cs : ClusterSt W;
  ps_heap : GoHeap;
  ps_calls : nat;
  ps_goroutines : list goroutine
}.
Arguments mkPS {W}.
Arguments ps_cs {W}.
Arguments ps_heap {W}.
Arguments ps_calls {W}.
Arguments ps_goroutines {W}.

(** Computations on that state; a panic keeps the state reached. *)
Definition P (W A : Type) : Type := ProcSt W → outcome A * ProcSt W.
#[export] Instance P_ret W : MRet (P W) := λ A a st, (Ret a, st).
#[export] Instance P_bind W : MBind (P W) := λ A B f m st,
  match m st with
  | (Ret a, st') => f a st'
  | (Err e, st') => (Err e, st')
  | (Panic w, st') => (Panic w, st')
  end.
Definition get_proc {W} : P W (ProcSt W) := λ st, (Ret st, st).
Definition lift_p {W A} (o : outcome A) : P W A := λ st, (o, st).
(** A computation on the cluster. *)
Definition in_cluster {W A} (m : C W A) : P W A := λ st,
  let '(o, cs) := m (ps_cs st) in (o, mkPS cs (ps_heap st) (ps_calls st) (ps_goroutines st)).
Definition spawn {W} (g : goroutine) : P W unit := λ st,
  (Ret tt, mkPS (ps_cs st) (ps_heap st) (ps_calls st) (ps_goroutines st ++ [g])).
Definition count_call {W} : P W nat := λ st,
  (Ret (ps_calls st), mkPS (ps_cs st) (ps_heap st) (S (ps_calls st)) (ps_goroutines st)).
Definition read_cfg {W} (k : tcontainer) : P W ContainerConfig := λ st,
  (read_config (cs_cluster (ps_cs st)) (ps_heap st) k, st).
Definition write_cfg {W} (k : tcontainer) (cfg : ContainerConfig) : P W unit := λ st,
  let '(c, h) := write_config (cs_cluster (ps_cs st)) (ps_heap st) k cfg in
  (Ret tt, mkPS (mkCS (cs_world (ps_cs st)) c (cs_events (ps_cs st))) h (ps_calls st) (ps_goroutines st)).

(** [l[0]] *)
Definition index0 {A} (l : list A) : outcome A :=
  match l with x :: _ => Ret x | [] => Panic "index out of range" end.

(** [generateName(name)], [id] being the random identifier: what precedes ["---"], then
    ["---"] and ten characters. *)
Definition generateName (name id : string) : outcome string :=
  let name := default name (head (SplitN2 name "---")) in
  short ← slice_string id 0 10;
  Ret (name +:+ "---" +:+ short).

Section processor.
Context {W : Type} (api : ptr → DockerAPI W).
Context `{GoRegexp} `{GoJson} `{GoNet} `{MapRange} `{GoSort} `{GoSlices} (Intn : Z → Z).
Context (scheduler : Scheduler) (createRetry : Z).
(** The random identifiers of the [n]-th call of [createContainer]: that of the name, and
    those drawn by [CreateContainer]. *)
Context (name_id : nat → string) (ids : nat → id_draws).

Definition swarm_id_label : string := SwarmLabelNamespace +:+ ".id".

(** The containers that the methods of the cluster are called with; a copy has no engine. *)
Definition engine_container (k : tcontainer) : outcome Container :=
  match k with Stored c => Ret c | Seized _ _ => Panic nil_dereference end.

(** The error of a method, returned. *)
Definition return_error (err : error) : P W string := lift_p (Err (err_msg err)).

(** [createContainer(container)] *)
Definition proc_createContainer (k : tcontainer) : P W string :=
  n ← count_call;
  config ← read_cfg k;
  write_cfg k (cc_set_Labels (<[swarm_id_label := ""]> (cc_Labels config)) config) ;;
  config ← read_cfg k;
  first ← lift_p (index0 (task_Names k));
  name ← lift_p (generateName first (name_id n));
  r ← in_cluster (CreateContainer api Intn scheduler createRetry config name ""
                    (dr_first (ids n)) (dr_second (ids n)) (dr_retry (ids n)));
  let '(config, (newContainer, err)) := r in
  write_cfg k config ;;
  match err with
  | Some err => return_error err
  | None =>
      newContainer ← lift_p (deref newContainer);
      err ← in_cluster (StartContainer api newContainer);
      match err with
      | Some err => return_error err
      | None => lift_p (index0 (ctr_Names newContainer))
      end
  end.

Definition proc_destroyContainer (k : tcontainer) : P W string :=
  spawn (go_destroyContainer k) ;; lift_p (index0 (task_Names k)).

Definition proc_startContainer (k : tcontainer) : P W string :=
  c ← lift_p (engine_container k);
  err ← in_cluster (StartContainer api c);
  first ← lift_p (index0 (task_Names k));
  match err with Some err => return_error err | None => mret first end.

Definition proc_stopContainer (k : tcontainer) : P W string :=
  spawn (go_stopContainer k) ;; lift_p (index0 (task_Names k)).

(** [Do(task)] *)
Definition proc_Do (task : Task tcontainer) : P W string :=
  match tk_TaskType task with
  | TaskTypeCreateContainer => proc_createContainer (tk_Container task)
  | TaskTypeDestroyContainer => proc_destroyContainer (tk_Container task)
  | TaskTypeStartContainer => proc_startContainer (tk_Container task)
  | TaskTypeStopContainer => proc_stopContainer (tk_Container task)
  | TaskUnknown => lift_p (Err "unknow task type")
  end.
#[export] Instance LocalProcessor : TaskProssesor tcontainer (ProcSt W) := {| Do := proc_Do |}.

(** The seconds that [StopContainer(container, timeout)] waits: what [Atoi] returned is
    used even when it also returned an error. *)
Definition stop_seconds (env : list string) (timeout : Z) : Z :=
  let t := match getEnv EnvStopTimeout env with
           | (ss, true) => (Atoi (first_value ss)).1
           | (_, false) => 0
           end in
  if negb (timeout =? 0) then timeout else t.

(** The request to the daemon. *)
Definition ask_stop (p : ptr) (id : string) (t : Z) : P W (option error) := λ st,
  let '(w, r) := @api_ContainerStop W (api p) id t (cs_world (ps_cs st)) in
  (Ret match r with inl _ => None | inr err => Some err end,
   mkPS (mkCS w (cs_cluster (ps_cs st)) (cs_events (ps_cs st))) (ps_heap st) (ps_calls st) (ps_goroutines st)).

(** [StopContainer(container, timeout)], through a client of its own: it asks the daemon
    even when the engine is disconnected.  [client.NewClient]'s own failure is one of those
    of [api_ContainerStop]. *)
Definition StopContainer (k : tcontainer) (timeout : Z) : P W (option error) :=
  config ← read_cfg k;
  lift_p (index0 (task_Names k)) ;;
  c ← lift_p (engine_container k);
  ask_stop (ctr_Engine c) (ctr_ID c) (wrap64 (stop_seconds (cc_Env config) timeout * Second)).

(** The goroutines.  A panic in one of them ends the process. *)
Definition run_goroutine (g : goroutine) : P W unit :=
  match g with
  | go_destroyContainer k =>
      StopContainer k 0 ;;
      c ← lift_p (engine_container k);
      in_cluster (SwarmCluster.RemoveContainer api c true false) ;;
      mret tt
  | go_stopContainer k => StopContainer k 0 ;; mret tt
  end.
End processor.

(** ** Names *)

Fixpoint ends_with_dash (s : string) : bool :=
  match s with
  | EmptyString => false
  | String c EmptyString => Ascii.eqb c "-"%char
  | String _ s' => ends_with_dash s'
  end.

Lemma prefix_cons c p d s :
  String.prefix (String c p) (String d s) = if Ascii.ascii_dec c d then String.prefix p s else false.
Proof. done. Qed.

Lemma cut_dashes h s :
  cut "---" h = None → ends_with_dash h = false → cut "---" (h +:+ "---" +:+ s) = Some (h, s).
Proof.
  induction h as [|c h IH]; [by destruct s|]. intros Hcut Hend.
  assert (String.prefix "---" (String c h) = false ∧ cut "---" h = None) as [Hp Hcut'].
  { cbn [cut] in Hcut. destruct (String.prefix "---" (String c h)); [done|].
    by destruct (cut "---" h) as [[??]|]. }
  assert (ends_with_dash h = false) as Hend' by (by destruct h).
  specialize (IH Hcut' Hend'). change (String c h +:+ ?x) with (String c (h +:+ x)).
  change (cut "---" (String c (h +:+ "---" +:+ s))) with
    (if String.prefix "---" (String c (h +:+ "---" +:+ s)) then Some ("", sdrop 3 (String c (h +:+ "---" +:+ s)))
     else match cut "---" (h +:+ "---" +:+ s) with Some (a, b) => Some (String c a, b) | None => None end).
  assert (String.prefix "---" (String c (h +:+ "---" +:+ s)) = false) as ->; [|by rewrite IH].
  rewrite prefix_cons in Hp |- *. destruct (Ascii.ascii_dec _ c) as [Hc|]; [|done].
  destruct h as [|d h]; [by subst c|]. change (String d h +:+ ?x) with (String d (h +:+ x)).
  rewrite prefix_cons in Hp |- *. destruct (Ascii.ascii_dec _ d) as [Hd|]; [|done].
  destruct h as [|e h]; [by subst d|]. change (String e h +:+ ?x) with (String e (h +:+ x)).
  rewrite prefix_cons in Hp |- *. by destruct (Ascii.ascii_dec _ e), h.
Qed.

(** Names.  A replica is named after its template: what precedes ["---"] in the template's
    name, ["---"], and ten characters of a random identifier; when that part does not end
    with a dash, a replica of a replica has the same prefix, so names do not grow. *)
Theorem generateName_stable name id id' :
  10 ≤ len id → 10 ≤ len id' →
  let base := default name (head (SplitN2 name "---")) in
  ends_with_dash base = false →
  generateName name id = Ret (base +:+ "---" +:+ stake 10 id) ∧
  ∃ r, generateName name id = Ret r ∧ generateName r id' = Ret (base +:+ "---" +:+ stake 10 id').
Proof.
  intros Hid Hid' base Hend.
  assert (∀ x, 10 ≤ len x → slice_string x 0 10 = Ret (stake 10 x)) as Hs.
  { intros x Hx. unfold slice_string. rewrite bool_decide_eq_true_2 by lia. done. }
  assert (generateName name id = Ret (base +:+ "---" +:+ stake 10 id)) as Hg.
  { unfold generateName. by rewrite Hs. }
  split; [done|]. eexists. split; [exact Hg|]. unfold generateName. rewrite Hs by done.
  assert (cut "---" base = None) as Hnone.
  { unfold base, SplitN2. destruct (cut "---" name) as [[a b]|] eqn:Hcut; [|done]. simpl.
    by eapply cut_prefix_None in Hcut. }
  unfold SplitN2 at 1. by rewrite cut_dashes.
Qed.
