(* ===== verification/ScaleFilter.v ===== *)
(** * Scaling: choosing the containers ([cluster/swarm/filter.go])

    One item of a scale request becomes a filter over the containers of the cluster; the
    filter picks the containers to create from, start, stop or destroy, and adds their
    tasks to the queue of [Tasks.v].  A nil slice is [None]: [AddTasks] and [append] tell
    it from an empty one.  The resource-seizing filter, chosen when [IsResourceSeize]
    holds, is not part of this file. *)
From S2P Require Import Prelude GoStrings Regexp Json Config Container EngineState SwarmRegistry SwarmCluster ScaleUtils Tasks.

(** ** Slices *)

Abbreviation slice A := (option (list A)) (only parsing).
Definition elems {A} (s : slice A) : list A := default [] s.
Definition append {A} (s : slice A) (l : list A) : slice A :=
  match l with [] => s | _ => Some (elems s ++ l) end.
(** The slice of the images. *)
Definition slice_map {A B} (f : A → B) (s : slice A) : slice B :=
  match s with Some l => Some (f <$> l) | None => None end.
(** [s[:n]].  Go would accept an [n] past the length but within the capacity and yield nil
    containers, on which the next statement of [Scale], [showContainers], panics; the
    panic is here. *)
Definition slice_to {A} (s : slice A) (n : Z) : outcome (slice A) :=
  if bool_decide (0 ≤ n ≤ Z.of_nat (length (elems s)))
  then Ret (take (Z.to_nat n) <$> s) else Panic "slice bounds out of range".
(** [s[n:]] *)
Definition slice_from {A} (s : slice A) (n : Z) : outcome (slice A) :=
  if bool_decide (0 ≤ n ≤ Z.of_nat (length (elems s)))
  then Ret (drop (Z.to_nat n) <$> s) else Panic "slice bounds out of range".

(** ** The filter *)

(** Which of the four types embeds the [ContainerFilterBase]. *)
Inductive FilterKind := CreateContainerFilter | StartContainerFilter | StopContainerFilter | DestroyContainerFilter.

(** [type ContainerFilterBase struct] *)
Record ContainerFilterBase := {
  fb_item : ScaleItem;
  fb_containers : slice Container;
  fb_filterType : string;
  fb_taskType : TaskType;
  fb_filters : list LabelFilter
}.
Definition fb_set_containers (cs : slice Container) (f : ContainerFilterBase) : ContainerFilterBase :=
  {| fb_item := fb_item f; fb_containers := cs; fb_filterType := fb_filterType f;
     fb_taskType := fb_taskType f; fb_filters := fb_filters f |}.

(** [container.Config.Env] *)
Definition container_Env (c : Container) : outcome (list string) :=
  cfg ← deref (ctr_Config c); Ret (cc_Env cfg).
Definition container_minNum (c : Container) : outcome Z := env ← container_Env c; Ret (getMinNum env).

(** [n], the absolute value of the item's number *)
Definition item_count (item : ScaleItem) : Z :=
  if it_Number item <? 0 then wrap64 (- it_Number item) else it_Number item.

Section filters.
Context `{GoJson} `{GoRegexp} `{MapRange}.

(** ** Which containers match *)

Definition filterContainer (filters : list LabelFilter) (container : Container) : bool :=
  matchLabels filters (ctr_Labels container).

Definition in_states (states : list string) (container : Container) : bool :=
  existsb (String.eqb (ctr_State container)) states.

(** [(f *ContainerFilterBase) filterContainer(filters, container)] *)
Definition base_filterContainer (f : ContainerFilterBase) (filters : list LabelFilter)
    (container : Container) : bool :=
  match fb_taskType f with
  | TaskTypeStopContainer => filterContainer filters container && in_states ["paused"; "running"] container
  | TaskTypeStartContainer =>
      filterContainer filters container && in_states ["paused"; "created"; "restarting"; "exited"] container
  | _ => filterContainer filters container
  end.
Definition matching (f : ContainerFilterBase) (c : Container) : bool := base_filterContainer f (fb_filters f) c.

(** ** Node constraints *)

Definition filterConstraintEngine (e : EngineHdr) (f : list LabelFilter) : bool := matchLabels f (eng_Labels e).
Definition filterConstraintNodeByENVs (e : EngineHdr) (ENVs : list string) : outcome bool :=
  match parseFilterString (getConstaintStrings ENVs) with
  | Ret constraints => Ret (filterConstraintEngine e constraints)
  | Err _ => Ret false
  | Panic w => Panic w
  end.
Definition filterConstraintContainers (E : ptr → EngineHdr) (cs : slice Container) (ENVs : list string)
    : outcome (slice Container) :=
  if hasConstraint ENVs then
    out ← ofilter (λ c, filterConstraintNodeByENVs (E (ctr_Engine c)) ENVs) (elems cs);
    Ret (append None out)
  else Ret cs.

(** ** The base filter *)

(** The loop of [filterContainers]: the containers, [minNum] and whether it stopped early. *)
Fixpoint collect (f : ContainerFilterBase) (n : Z) (l : list Container)
    (containers : slice Container) (minNum : Z) : outcome (slice Container * Z * bool) :=
  match l with
  | [] => Ret (containers, minNum, false)
  | c :: l' =>
      if matching f c then
        let containers := append containers [c] in
        minNum ← container_minNum c;
        if wrap64 (n + minNum) <=? Z.of_nat (length (elems containers)) then
          containers ← slice_to containers n;
          Ret (containers, minNum, true)
        else collect f n l' containers minNum
      else collect f n l' containers minNum
  end.
Definition base_filterContainers (E : ptr → EngineHdr) (f : ContainerFilterBase)
    : outcome (slice Container * ContainerFilterBase) :=
  let n := item_count (fb_item f) in
  cs ← filterConstraintContainers E (fb_containers f) (it_ENVs (fb_item f));
  r ← collect f n (elems cs) None 0;
  let '(containers, minNum, isContainersLeftBigger) := r in
  containers ← (if (Z.of_nat (length (elems containers)) <? wrap64 (n + minNum)) && negb isContainersLeftBigger
                then slice_from containers minNum else Ret containers);
  Ret (containers, fb_set_containers containers f).

(** The first loop of [filterService]: the containers of each app, or [None] when a
    matching container has no app label. *)
Fixpoint collect_apps (f : ContainerFilterBase) (n : Z) (l : list Container)
    (serviceApps : gmap string (list Container)) : outcome (option (gmap string (list Container))) :=
  match l with
  | [] => Ret (Some serviceApps)
  | c :: l' =>
      if matching f c then
        match ctr_Labels c !! LabelKeyApp with
        | None => Ret None
        | Some app =>
            match serviceApps !! app with
            | None => collect_apps f n l' (<[app := [c]]> serviceApps)
            | Some cs =>
                m ← match cs with
                    | c0 :: _ => container_minNum c0
                    | [] => Panic "index out of range"
                    end;
                if Z.of_nat (length cs) <? wrap64 (n + m)
                then collect_apps f n l' (<[app := cs ++ [c]]> serviceApps)
                else collect_apps f n l' serviceApps
            end
        end
      else collect_apps f n l' serviceApps
  end.
(** The second loop, over the map. *)
Fixpoint take_apps (n : Z) (l : list (list Container)) (containers : slice Container)
    : outcome (slice Container) :=
  match l with
  | [] => Ret containers
  | v :: l' =>
      minNum ← match v with c0 :: _ => container_minNum c0 | [] => Panic "index out of range" end;
      part ← (if wrap64 (n + minNum) <=? Z.of_nat (length v) then slice_to (Some v) n
              else slice_from (Some v) minNum);
      take_apps n l' (append containers (elems part))
  end.
Definition base_filterService (f : ContainerFilterBase) : outcome (slice Container * ContainerFilterBase) :=
  let n := item_count (fb_item f) in
  apps ← collect_apps f n (elems (fb_containers f)) ∅;
  match apps with
  | None => Ret (None, f)
  | Some serviceApps =>
      containers ← take_apps n (range_map serviceApps).*2 None;
      Ret (containers, fb_set_containers containers f)
  end.

(** ** The filter of each task type *)

(** [CreateContainerFilter.filterService]: one container of each app, the last one. *)
Fixpoint last_of_apps (f : ContainerFilterBase) (l : list Container) (containers : gmap string Container)
    : outcome (option (gmap string Container)) :=
  match l with
  | [] => Ret (Some containers)
  | c :: l' =>
      _ ← deref (ci_Config (ctr_Info c));
      if filterContainer (fb_filters f) c then
        match ctr_Labels c !! LabelKeyApp with
        | None => Ret None
        | Some app => last_of_apps f l' (<[app := c]> containers)
        end
      else last_of_apps f l' containers
  end.
Definition create_filterService (f : ContainerFilterBase) : outcome (slice Container * ContainerFilterBase) :=
  apps ← last_of_apps f (elems (fb_containers f)) ∅;
  match apps with
  | None => Ret (None, f)
  | Some containers =>
      let temp := append None (range_map containers).*2 in
      Ret (temp, fb_set_containers temp f)
  end.

(** The template with the constraints of the item stored in its label; [None] when they
    could not be encoded.  The store writes through the container's own configuration. *)
Definition with_constraints (item : ScaleItem) (c : Container) : outcome (option Container) :=
  let ce := getConstaintStrings (it_ENVs item) in
  if hasConstraint (it_ENVs item) && bool_decide (ce ≠ []) then
    match Marshal_strings ce with
    | Ret s =>
        cfg ← deref (ctr_Config c);
        Ret (Some (ctr_set_Config
          (cc_set_Labels (<[SwarmLabelNamespace +:+ ".constraints" := s]> (cc_Labels cfg)) cfg) c))
    | _ => Ret None
    end
  else Ret (Some c).
(** [CreateContainerFilter.filterContainers]: the first matching container. *)
Definition create_filterContainers (f : ContainerFilterBase) : outcome (slice Container * ContainerFilterBase) :=
  match List.find (matching f) (elems (fb_containers f)) with
  | None => Ret (None, f)
  | Some c =>
      o ← with_constraints (fb_item f) c;
      match o with
      | None => Ret (None, fb_set_containers (Some [c]) f)
      | Some c =>
          _ ← container_Env c;
          Ret (Some [c], fb_set_containers (Some [c]) f)
      end
  end.

(** [StartContainerFilter.filterContainers] *)
Fixpoint collect_start (f : ContainerFilterBase) (n : Z) (l : list Container) (containers : slice Container)
    : outcome (slice Container) :=
  match l with
  | [] => Ret containers
  | c :: l' =>
      if matching f c then
        let containers := append containers [c] in
        if n <=? Z.of_nat (length (elems containers)) then slice_to containers n
        else collect_start f n l' containers
      else collect_start f n l' containers
  end.
Definition start_filterContainers (f : ContainerFilterBase) : outcome (slice Container * ContainerFilterBase) :=
  containers ← collect_start f (item_count (fb_item f)) (elems (fb_containers f)) None;
  Ret (containers, fb_set_containers containers f).

(** [Filter()], by the type of the filter *)
Definition scale_Filter (E : ptr → EngineHdr) (k : FilterKind) (f : ContainerFilterBase)
    : outcome (slice Container * ContainerFilterBase) :=
  let service := String.eqb (fb_filterType f) LabelKeyService in
  match k with
  | CreateContainerFilter => if service then create_filterService f else create_filterContainers f
  | StartContainerFilter => if service then base_filterService f else start_filterContainers f
  | StopContainerFilter | DestroyContainerFilter =>
      if service then base_filterService f else base_filterContainers E f
  end.

(** ** Adding the tasks *)

Section adding_tasks.
(** The random numbers of the [i]-th call of [AddTasks], and the pointer to a container of
    the cluster. *)
Context (rand : nat → nat → Z) {K : Type} `{TaskContainer K} (point : Container → K).

(** [n] calls, from the [i]-th on. *)
Fixpoint add_repeatedly (i n : nat) (cs : slice K) (ty : TaskType) (t : Tasks K) : Tasks K :=
  match n with
  | O => t
  | S n => add_repeatedly (S i) n cs ty (AddTasks (rand i) cs ty t)
  end.

(** [AddTasks(tasks)], by the type of the filter.  The log message of the create filter
    reads its first container. *)
Definition scale_AddTasks (k : FilterKind) (f : ContainerFilterBase) (t : Tasks K) : outcome (Tasks K) :=
  let cs := slice_map point (fb_containers f) in
  match k with
  | CreateContainerFilter =>
      c ← match elems (fb_containers f) with c :: _ => Ret c | [] => Panic "index out of range" end;
      _ ← container_Env c;
      Ret (add_repeatedly 0 (Z.to_nat (it_Number (fb_item f))) cs TaskTypeCreateContainer t)
  | StartContainerFilter =>
      let t := AddTasks (rand 0) cs (fb_taskType f) t in
      let l := length (elems cs) in
      if (Z.of_nat l <? it_Number (fb_item f)) && (0 <? l)%nat then
        first ← slice_to cs 1;
        Ret (add_repeatedly 1 (Z.to_nat (it_Number (fb_item f)) - l) first TaskTypeCreateContainer t)
      else Ret t
  | StopContainerFilter | DestroyContainerFilter => Ret (AddTasks (rand 0) cs (fb_taskType f) t)
  end.

(** ** One item *)

(** [NewFilter(c, item)] for an item that does not seize resources. *)
Definition NewFilter (c : Cluster) (item : ScaleItem) : outcome (option (FilterKind * ContainerFilterBase)) :=
  let filterType := if hasPrifix (it_Filters item) LabelKeyService then LabelKeyService else "" in
  match parseFilterString (it_Filters item) with
  | Panic w => Panic w
  | Err _ => Ret None
  | Ret filters =>
      let taskType := getTaskType (it_Number item) (it_ENVs item) in
      let base := {| fb_item := item; fb_containers := Some (cluster_Containers c);
                     fb_filterType := filterType; fb_taskType := taskType; fb_filters := filters |} in
      Ret match taskType with
          | TaskTypeCreateContainer => Some (CreateContainerFilter, base)
          | TaskTypeStartContainer => Some (StartContainerFilter, base)
          | TaskTypeStopContainer => Some (StopContainerFilter, base)
          | TaskTypeDestroyContainer => Some (DestroyContainerFilter, base)
          | TaskUnknown => None
          end
  end.

(** The body of the loop of [Scale] over the items. *)
Definition scale_item (c : Cluster) (item : ScaleItem) (t : Tasks K) : outcome (Tasks K) :=
  o ← NewFilter c item;
  match o with
  | None => Ret t
  | Some (k, f) =>
      r ← scale_Filter (hdr_at c) k f;
      scale_AddTasks k r.2 t
  end.
End adding_tasks.

(** ** Scaling down *)

Lemma elems_append {A} (s : slice A) l : elems (append s l) = elems s ++ l.
Proof. destruct l; [by rewrite app_nil_r|done]. Qed.
Lemma elems_slice_map {A B} (f : A → B) s : elems (slice_map f s) = f <$> elems s.
Proof. by destruct s. Qed.
Lemma append_app {A} (s : slice A) l1 l2 : append (append s l1) l2 = append s (l1 ++ l2).
Proof.
  destruct l1 as [|x l1]; [done|]. destruct l2 as [|y l2]; cbn; [by rewrite app_nil_r|].
  by rewrite <- app_assoc.
Qed.

(** All the matching containers of [l] have the minimum [m]. *)
Definition uniform_minimum (f : ContainerFilterBase) (m : Z) (l : list Container) : Prop :=
  ∀ c, c ∈ l → matching f c = true → container_minNum c = Ret m.

Lemma collect_spec f n m l : ∀ acc min0,
  uniform_minimum f m l → 0 < n → 0 ≤ m → n + m < 2^63 →
  Z.of_nat (length (elems acc)) < n + m →
  let M := List.filter (matching f) l in
  collect f n l acc min0 =
  if n + m <=? Z.of_nat (length (elems acc ++ M)) then
    Ret (Some (take (Z.to_nat n) (elems acc ++ M)), m, true)
  else Ret (append acc M, match M with [] => min0 | _ => m end, false).
Proof.
  induction l as [|c l IH]; intros acc min0 Hu Hn Hm Hb Hacc; cbn [collect List.filter].
  { rewrite app_nil_r, (proj2 (Z.leb_gt _ _)) by lia. done. }
  assert (uniform_minimum f m l) as Hu' by (intros c' Hc'; apply Hu; by right).
  destruct (matching f c) eqn:Hc; [|by apply IH].
  rewrite (Hu c) by (done || left). cbn [mbind outcome_bind].
  rewrite wrap64_id by (unfold int64_range; lia).
  rewrite elems_append, length_app. cbn [length].
  destruct (n + m <=? _) eqn:Hle.
  - apply Z.leb_le in Hle. unfold slice_to.
    rewrite elems_append, length_app. cbn [length].
    rewrite bool_decide_eq_true_2 by lia. cbn.
    rewrite length_app, (proj2 (Z.leb_le _ _)) by (cbn [length]; lia).
    pose proof (take_app_le (elems acc ++ [c]) (List.filter (matching f) l) (Z.to_nat n)) as Ht.
    rewrite <- app_assoc in Ht. cbn [app] in Ht. rewrite Ht; [done|]. rewrite length_app. cbn. lia.
  - apply Z.leb_gt in Hle. rewrite IH; [|done..|].
    + rewrite elems_append, <- app_assoc, append_app. cbn [app].
      destruct (_ <=? _); [done|]. by destruct (List.filter _ _).
    + rewrite elems_append, length_app. cbn. lia.
Qed.

(** What [base_filterContainers] chooses. *)
Definition chosen (n m : Z) (M : list Container) : outcome (slice Container) :=
  match M with
  | [] => Ret None
  | _ => if n + m <=? Z.of_nat (length M) then Ret (Some (take (Z.to_nat n) M))
         else if m <=? Z.of_nat (length M) then Ret (Some (drop (Z.to_nat m) M))
         else Panic "slice bounds out of range"
  end.
Lemma base_filterContainers_chosen E f s m :
  let n := item_count (fb_item f) in
  filterConstraintContainers E (fb_containers f) (it_ENVs (fb_item f)) = Ret s →
  uniform_minimum f m (elems s) → 0 < n → 0 ≤ m → n + m < 2^63 →
  base_filterContainers E f =
  (cs ← chosen n m (List.filter (matching f) (elems s)); Ret (cs, fb_set_containers cs f)).
Proof.
  intros n Hs Hu Hn Hm Hb. unfold base_filterContainers. fold n. rewrite Hs. cbn [mbind outcome_bind].
  rewrite (collect_spec f n m) by (done || cbn; lia). cbn [elems default app].
  unfold chosen. set (M := List.filter _ _).
  destruct (n + m <=? Z.of_nat (length M)) eqn:Hle; cbn [mbind outcome_bind].
  - apply Z.leb_le in Hle. rewrite andb_false_r. cbn. destruct M; [cbn in *; lia|done].
  - apply Z.leb_gt in Hle. destruct M as [|c M'] eqn:HM.
    + cbn [append elems default length]. rewrite andb_true_r.
      rewrite wrap64_id by (unfold int64_range; lia). rewrite (proj2 (Z.ltb_lt _ _)) by lia. done.
    + change (append None (c :: M')) with (Some (c :: M')). change (elems (Some ?l)) with l.
      rewrite andb_true_r.
      rewrite wrap64_id by (unfold int64_range; lia). rewrite (proj2 (Z.ltb_lt _ _)) by lia.
      unfold slice_from. change (elems (Some ?l)) with l.
      destruct (m <=? _) eqn:Hml; [rewrite bool_decide_eq_true_2 by lia|rewrite bool_decide_eq_false_2 by lia]; done.
Qed.

Section tasks.
Context {K : Type} `{TaskContainer K}.
Lemma AddTasks_new rand (cs : slice K) ty : tasks_of (AddTasks rand cs ty NewTasks) = imap (λ i c, new_task rand i ty c) (elems cs).
Proof.
  destruct cs as [cs|]; [|done]. unfold tasks_of, AddTasks, NewTasks.
  cbn [tasks_ring ring_next fmap option_fmap option_map default elems]. cbv [id].
  rewrite ring_tasks_app, ring_tasks_imap. by rewrite app_nil_r.
Qed.
Lemma new_tasks_containers rand ty (cs : list K) : tk_Container <$> imap (λ i c, new_task rand i ty c) cs = cs.
Proof.
  rewrite fmap_imap. cut (∀ k, imap (λ i c, tk_Container (new_task rand (k + i)%nat ty c)) cs = cs).
  { intros Hk. exact (Hk 0%nat). }
  induction cs as [|c cs IH]; intros k; cbn; [done|]. f_equal. rewrite <- (IH (S k)) at 2.
  apply imap_ext. intros i c' _. done.
Qed.
Lemma new_tasks_type rand ty (cs : list K) : Forall (λ t, tk_TaskType t = ty) (imap (λ i c, new_task rand i ty c) cs).
Proof. apply Forall_forall. by intros t (i & c & -> & _)%elem_of_lookup_imap. Qed.

Lemma add_repeatedly_containers rand (cs : list K) ty n : ∀ i t,
  cs ≠ [] → tasks_wf t → tasks_ring t = None ∨ tasks_of t ≠ [] →
  let t' := add_repeatedly rand i n (Some cs) ty t in
  (tk_Container <$> tasks_of t') ≡ₚ (tk_Container <$> tasks_of t) ++ mjoin (replicate n cs) ∧
  (Forall (λ t, tk_TaskType t = ty) (tasks_of t) → Forall (λ t, tk_TaskType t = ty) (tasks_of t')).
Proof.
  induction n as [|n IH]; intros i t Hcs Hwf Hopen; cbn [add_repeatedly].
  { cbn. by rewrite app_nil_r. }
  destruct (AddTasks_adds (rand i) (Some cs) ty t Hwf) as [Hwf' Hp].
  assert (tasks_of (AddTasks (rand i) (Some cs) ty t) ≡ₚ
    tasks_of t ++ imap (λ j c, new_task (rand i) j ty c) cs) as Hp'.
  { rewrite Hp. destruct Hopen as [->|Hne]; [done|]. by destruct (tasks_ring t), (tasks_of t). }
  clear Hp. destruct (IH (S i) _ Hcs Hwf') as [Ha Hb].
  { right. intros Hnil. rewrite Hnil in Hp'. apply Permutation_nil_l in Hp'. symmetry in Hp'. apply app_nil in Hp' as [_ Hnil'].
    destruct cs; done. }
  split.
  - rewrite Ha, (fmap_Permutation _ _ _ Hp'), fmap_app, new_tasks_containers.
    cbn [replicate]. by rewrite <- app_assoc.
  - intros Hall. apply Hb. rewrite Hp'. apply Forall_app. split; [done|]. apply new_tasks_type.
Qed.

(** The tasks of [n] calls on an empty queue. *)
Lemma add_repeatedly_new rand (cs : list K) ty n :
  cs ≠ [] →
  let t := add_repeatedly rand 0 n (Some cs) ty NewTasks in
  (tk_Container <$> tasks_of t) ≡ₚ mjoin (replicate n cs) ∧ Forall (λ t, tk_TaskType t = ty) (tasks_of t).
Proof.
  intros Hcs t. destruct (add_repeatedly_containers rand cs ty n 0 NewTasks Hcs) as [Ha Hb]; [done|by left|].
  split; [exact Ha|]. by apply Hb, Forall_nil.
Qed.

End tasks.

Section scaling.
Context {K : Type} `{TaskContainer K} (point : Container → K).


(** ** Scaling up *)


(** ** A service without an app label *)

Lemma collect_apps_None f n l : ∀ m,
  (∀ app cs, m !! app = Some cs → ∃ c0 cs', cs = c0 :: cs' ∧ is_Some (ctr_Config c0)) →
  Forall (λ c, is_Some (ctr_Config c)) l →
  (∃ c, c ∈ l ∧ matching f c = true ∧ ctr_Labels c !! LabelKeyApp = None) →
  collect_apps f n l m = Ret None.
Proof.
  induction l as [|c l IH]; intros m Hm Hcfg (c1 & Hin & Hmatch & Happ); cbn [collect_apps].
  { by apply not_elem_of_nil in Hin. }
  apply Forall_cons in Hcfg as [Hc Hcfg].
  assert (matching f c = true → is_Some (ctr_Labels c !! LabelKeyApp) →
    ∃ c, c ∈ l ∧ matching f c = true ∧ ctr_Labels c !! LabelKeyApp = None) as Hrest.
  { intros _ Hsome. apply elem_of_cons in Hin as [->|Hin]; [|eauto]. rewrite Happ in Hsome. by destruct Hsome. }
  destruct (matching f c) eqn:Hmc.
  - destruct (ctr_Labels c !! LabelKeyApp) as [app|] eqn:Hl; [|done].
    destruct (m !! app) as [cs|] eqn:Hcs.
    + destruct (Hm _ _ Hcs) as (c0 & cs' & -> & [cfg0 Hcfg0]).
      unfold container_minNum, container_Env. rewrite Hcfg0. cbn [deref mbind outcome_bind].
      destruct (_ <? _); apply IH; eauto.
      intros app' cs1. destruct (decide (app = app')) as [<-|Hneq].
      * rewrite lookup_insert_eq. intros [= <-]. cbn. eauto.
      * rewrite lookup_insert_ne by done. apply Hm.
    + apply IH; eauto. intros app' cs1. destruct (decide (app = app')) as [<-|Hneq].
      * rewrite lookup_insert_eq. intros [= <-]. eauto.
      * rewrite lookup_insert_ne by done. apply Hm.
  - apply IH; [done..|]. apply elem_of_cons in Hin as [->|Hin]; [congruence|eauto].
Qed.

(** A scale item with a service filter that stops or destroys, when one of the
    matching containers has no app label: the filter reports no container, and yet the
    tasks stop or destroy every container of the cluster. *)
Theorem service_without_app_takes_all rand c item k f :
  NewFilter c item = Ret (Some (k, f)) → k = StopContainerFilter ∨ k = DestroyContainerFilter →
  fb_filterType f = LabelKeyService →
  Forall (λ c, is_Some (ctr_Config c)) (cluster_Containers c) →
  (∃ c1, c1 ∈ cluster_Containers c ∧ matching f c1 = true ∧ ctr_Labels c1 !! LabelKeyApp = None) →
  scale_Filter (hdr_at c) k f = Ret (None, f) ∧
  ∃ t, scale_item rand point c item NewTasks = Ret t ∧
    tk_Container <$> tasks_of t = point <$> cluster_Containers c ∧
    Forall (λ t, tk_TaskType t = fb_taskType f) (tasks_of t).
Proof.
  intros Hnew Hk Hty Hcfg Hex.
  assert (fb_containers f = Some (cluster_Containers c)) as Hcs.
  { unfold NewFilter in Hnew. repeat case_match; by simplify_eq. }
  assert (scale_Filter (hdr_at c) k f = Ret (None, f)) as Hf.
  { unfold scale_Filter. rewrite Hty, String.eqb_refl.
    assert (base_filterService f = Ret (None, f)) as Hb.
    { unfold base_filterService. rewrite Hcs. change (elems (Some ?l)) with l.
      rewrite collect_apps_None; [done| |done|done]. intros ? ? Hlk. by rewrite lookup_empty in Hlk. }
    by destruct Hk as [-> | ->]. }
  split; [done|]. unfold scale_item. rewrite Hnew. cbn [mbind outcome_bind]. rewrite Hf.
  exists (AddTasks (rand 0%nat) (Some (point <$> cluster_Containers c)) (fb_taskType f) NewTasks).
  rewrite AddTasks_new. split; [|split].
  - destruct Hk as [-> | ->]; cbn [mbind outcome_bind snd]; unfold scale_AddTasks; by rewrite Hcs.
  - apply new_tasks_containers.
  - apply new_tasks_type.
Qed.
End scaling.
End filters.

(** ** Concrete items *)

Section concrete.
Existing Instances re2 json_strings canonical_range.

Definition app_container (id : string) (labels : gmap string string) (env : list string) : Container :=
  {| ctr_Container := {| lc_ID := id; lc_Names := ["/" +:+ id]; lc_Labels := labels; lc_State := "running";
                         lc_Created := 0; lc_Image := ""; lc_Ports := [] |};
     ctr_Config := Some (BuildContainerConfig (dc_set_Env env zero_DockerConfig) zero_HostConfig
                           {| EndpointsConfig := ∅ |});
     ctr_Info := zero_ContainerJSON; ctr_Engine := 0%nat |}.
(** One engine with three containers: two of the application [web], which asks for a
    minimum of one, and one of the service [api] without an app label. *)
Definition web_container (id : string) : Container := app_container id {["app" := "web"]} ["MIN_NUMBER=1"].
Definition api_container : Container := app_container "c3" {["service" := "api"]} [].
Definition app_cluster : Cluster :=
  mkCluster {[0%nat := set_containers
    {["c1" := web_container "c1"; "c2" := web_container "c2"; "c3" := api_container]}
    (NewEngine 0 "a:1" 5 3 0)]}
    {["X" := 0%nat]} ∅ ∅ false.
Definition scale_request (filter : string) (n : Z) : ScaleItem :=
  {| it_Filters := [filter]; it_Number := n; it_ENVs := []; it_Labels := ∅ |}.
(** The filter of a request, as [NewFilter] makes it. *)
Definition request_filter (filter : LabelFilter) (service : bool) (n : Z) : ContainerFilterBase :=
  {| fb_item := scale_request (print_filter filter) n; fb_containers := Some (cluster_Containers app_cluster);
     fb_filterType := if service then "service" else ""; fb_filters := [filter];
     fb_taskType := if n <? 0 then TaskTypeDestroyContainer else TaskTypeCreateContainer |}.
Definition label_is (key value : string) : LabelFilter :=
  {| fl_Key := key; fl_Operater := "=="; fl_Pattern := value |}.
Definition task_ids (t : Tasks Container) : list string := ctr_ID ∘ tk_Container <$> tasks_of t.

Lemma app_containers : cluster_Containers app_cluster = [api_container; web_container "c1"; web_container "c2"].
Proof. by vm_compute. Qed.
Lemma app_configs : Forall (λ c, is_Some (ctr_Config c)) (cluster_Containers app_cluster).
Proof. rewrite app_containers. repeat constructor; by eexists. Qed.
Lemma web_minimum : uniform_minimum (request_filter (label_is "app" "web") false (-5)) 1 (cluster_Containers app_cluster).
Proof.
  intros c. rewrite app_containers.
  intros [-> | [-> | [-> | []%elem_of_nil]%elem_of_cons]%elem_of_cons]%elem_of_cons Hm; by vm_compute in Hm |- *.
Qed.



Lemma service_without_app_takes_all_witness :
  ∃ t, scale_item (λ _ _, 7) id app_cluster (scale_request "service==api" (-1)) NewTasks = Ret t ∧
    tk_Container <$> tasks_of t = cluster_Containers app_cluster.
Proof.
  destruct (service_without_app_takes_all id (λ _ _, 7) app_cluster (scale_request "service==api" (-1))
    DestroyContainerFilter (request_filter (label_is "service" "api") true (-1)))
    as (_ & t & Ht & Hc & _); [by vm_compute|by right|done|apply app_configs| |by exists t].
  exists api_container. split; [rewrite app_containers; set_solver|by vm_compute].
Defined.
End concrete.
