(* ===== verification/OldFilter.v ===== *)
(** * The former choice of the containers of a scale request ([cluster/swarm/cluster.go])

    [Cluster.filterContainer], which nothing calls any more: the filters of [ScaleFilter.v]
    took its place.  It is written with their loops, and compared to them. *)
From S2P Require Import Prelude GoStrings Regexp Json Config Container EngineState SwarmRegistry SwarmCluster ScaleUtils Tasks ScaleFilter.

Section old.
Context `{GoJson} `{GoRegexp} `{MapRange}.

(** The filters of the call, seen as a filter that looks at labels only. *)
Definition label_filter (filters : list LabelFilter) : ContainerFilterBase :=
  {| fb_item := {| it_Filters := []; it_Number := 0; it_ENVs := []; it_Labels := ∅ |}; fb_containers := None;
     fb_filterType := ""; fb_taskType := TaskTypeCreateContainer; fb_filters := filters |}.
(** The loop that stops at the first container; its log message reads the configuration. *)
Fixpoint first_match (filters : list LabelFilter) (l : list Container) : outcome (slice Container) :=
  match l with
  | [] => Ret None
  | c :: l =>
      _ ← deref (ci_Config (ctr_Info c));
      if filterContainer filters c then Ret (Some [c]) else first_match filters l
  end.
(** [showContainers(cs)] only logs. [(c *Cluster) filterContainer(f, n)]: *)
Definition old_filterContainer (c : Cluster) (f : list string) (n : Z) : outcome (slice Container) :=
  let isScaleService := hasPrifix f LabelKeyService in
  match parseFilterString f with
  | Panic w => Panic w
  | Err _ => Ret None
  | Ret filters =>
      let base := label_filter filters in
      if 0 <? n then
        if isScaleService then
          serviceAppSet ← last_of_apps base (cluster_Containers c) ∅;
          Ret (match serviceAppSet with Some m => append None (range_map m).*2 | None => None end)
        else first_match filters (cluster_Containers c)
      else if n <? 0 then
        let n := wrap64 (- n) in
        if isScaleService then
          serviceApps ← collect_apps base n (cluster_Containers c) ∅;
          match serviceApps with Some m => take_apps n (range_map m).*2 None | None => Ret None end
        else
          r ← collect base n (cluster_Containers c) None 1;
          let '(containers, minNum, isContainersLeftBigger) := r in
          if (Z.of_nat (length (elems containers)) <? wrap64 (n + minNum)) && negb isContainersLeftBigger
          then slice_from containers minNum else Ret containers
      else Ret None
  end.

(** ** Comparison *)

Lemma collect_minNum f n l acc m1 m2 :
  (∃ c, c ∈ l ∧ matching f c = true) → collect f n l acc m1 = collect f n l acc m2.
Proof.
  revert acc. induction l as [|x l IH]; intros acc (c & Hc & Hm); [by apply elem_of_nil in Hc|]. simpl.
  destruct (matching f x) eqn:Hx; [done|]. apply IH. apply elem_of_cons in Hc as [->|Hc]; [congruence|eauto].
Qed.
(** The loops look at a filter through what it matches. *)
Lemma collect_ext f g n l acc m :
  (∀ c, matching f c = matching g c) → collect f n l acc m = collect g n l acc m.
Proof.
  intros Hfg. revert acc m. induction l as [|x l IH]; intros acc m; simpl; [done|]. rewrite Hfg.
  destruct (matching g x); [|by apply IH]. destruct (container_minNum x); simpl; [|done..].
  destruct (_ <=? _); [done|]. apply IH.
Qed.
Lemma collect_apps_ext f g n l apps :
  (∀ c, matching f c = matching g c) → collect_apps f n l apps = collect_apps g n l apps.
Proof.
  intros Hfg. revert apps. induction l as [|x l IH]; intros apps; simpl; [done|]. rewrite Hfg.
  destruct (matching g x); [|by apply IH]. destruct (_ !! LabelKeyApp); [|done].
  destruct (apps !! _) as [[|c0 cs]|]; simpl; [done| |by apply IH].
  destruct (container_minNum c0); simpl; [|done..]. destruct (_ <? _); apply IH.
Qed.
(** Scaling down without constraints, the former filter chooses the containers that the one of
    the tasks that destroy chooses, of a service always, and otherwise as soon as one matches. *)
Theorem old_filter_agrees E c item filters :
  it_Number item < 0 → hasConstraint (it_ENVs item) = false → parseFilterString (it_Filters item) = Ret filters →
  let service := hasPrifix (it_Filters item) LabelKeyService in
  service = true ∨ (∃ x, x ∈ cluster_Containers c ∧ filterContainer filters x = true) →
  old_filterContainer c (it_Filters item) (it_Number item) =
    fst <$> scale_Filter E DestroyContainerFilter
      {| fb_item := item; fb_containers := Some (cluster_Containers c);
         fb_filterType := (if service then LabelKeyService else "");
         fb_taskType := TaskTypeDestroyContainer; fb_filters := filters |}.
Proof.
  intros Hn Hcon Hf service Hor. unfold old_filterContainer. rewrite Hf. fold service.
  destruct (Z.ltb_spec 0 (it_Number item)); [lia|]. destruct (Z.ltb_spec (it_Number item) 0); [|lia].
  set (base := {| fb_item := item |}). unfold scale_Filter. simpl fb_filterType.
  assert (Hm : ∀ x, matching (label_filter filters) x = matching base x) by done.
  assert (Hcount : item_count item = wrap64 (- it_Number item)).
  { unfold item_count. destruct (Z.ltb_spec (it_Number item) 0); [done|lia]. }
  destruct service; simpl String.eqb.
  - unfold base_filterService. simpl fb_item. simpl fb_containers. rewrite Hcount. simpl elems.
    rewrite (collect_apps_ext _ base) by done. destruct (collect_apps _ _ _ _) as [[m|]| |]; simpl; [|done..].
    by destruct (take_apps _ _ _).
  - destruct Hor as [|Hex]; [done|]. unfold base_filterContainers. simpl fb_item. simpl fb_containers. simpl fb_filters.
    unfold filterConstraintContainers. rewrite Hcon, Hcount. simpl.
    rewrite (collect_ext _ base) by done. rewrite (collect_minNum base _ _ _ 1 0) by done.
    destruct (collect _ _ _ _ _) as [[[containers minNum] b]| |]; simpl; [|done..].
    destruct (_ && _); simpl; [|done]. by destruct (slice_from _ _).
Qed.
(** When none matches it slices a nil slice past its end. *)
Theorem old_filter_none_panics c f n filters :
  - 2^62 ≤ n < 0 → parseFilterString f = Ret filters → hasPrifix f LabelKeyService = false →
  (∀ x, x ∈ cluster_Containers c → filterContainer filters x = false) →
  old_filterContainer c f n = Panic "slice bounds out of range".
Proof.
  intros Hn Hf Hs Hnone. unfold old_filterContainer. rewrite Hf, Hs.
  rewrite !(wrap64_id (- n)) by (unfold int64_range; lia).
  destruct (Z.ltb_spec 0 n); [lia|]. destruct (Z.ltb_spec n 0); [|lia].
  assert (Hcol : ∀ l, (∀ x, x ∈ l → filterContainer filters x = false) →
    collect (label_filter filters) (- n) l None 1 = Ret (None, 1, false)).
  { induction l as [|x l IH]; intros Hl; simpl; [done|].
    assert (matching (label_filter filters) x = false) as -> by (apply Hl; by left). apply IH. intros y Hy. apply Hl. by right. }
  rewrite Hcol by done. cbn [mbind outcome_bind elems default length].
  rewrite (wrap64_id ((- n) + 1)) by (unfold int64_range; lia).
  destruct (Z.ltb_spec (Z.of_nat 0) ((- n) + 1)); [done|lia].
Qed.
End old.
