(* ===== verification/Seize.v ===== *)
(** * Scaling: seizing resources ([cluster/swarm/resource_filter.go], [task_filter.go])

    A scale item with a constraint and an inaffinity takes nodes: the containers it is not
    to run beside are stopped or destroyed, and containers are created or started in their
    place. *)
From S2P Require Import Prelude GoStrings Regexp Json Config Container EngineState EngineOps SwarmRegistry SwarmCluster ScaleUtils Tasks TaskHeap LocalProcessor ScaleFilter.

(** ** Data *)

(** [type SeizeContainer struct] *)
Record SeizeContainer := { sz_container : tcontainer; sz_priority : Z; sz_taskType : TaskType }.

(** [type SeizeNode struct] *)
Record SeizeNode := {
  sn_engine : ptr;
  sn_Name : string;
  sn_scaleUpContainers : list SeizeContainer;
  sn_scaleDownContainers : list SeizeContainer;
  sn_isFreeNode : bool;
  sn_cantSeize : bool;
  sn_alreadyHasFree : Z
}.
Definition sn_set_up (l : list SeizeContainer) (n : SeizeNode) : SeizeNode :=
  {| sn_engine := sn_engine n; sn_Name := sn_Name n; sn_scaleUpContainers := l;
     sn_scaleDownContainers := sn_scaleDownContainers n; sn_isFreeNode := sn_isFreeNode n;
     sn_cantSeize := sn_cantSeize n; sn_alreadyHasFree := sn_alreadyHasFree n |}.
Definition sn_set_down (l : list SeizeContainer) (n : SeizeNode) : SeizeNode :=
  {| sn_engine := sn_engine n; sn_Name := sn_Name n; sn_scaleUpContainers := sn_scaleUpContainers n;
     sn_scaleDownContainers := l; sn_isFreeNode := sn_isFreeNode n;
     sn_cantSeize := sn_cantSeize n; sn_alreadyHasFree := sn_alreadyHasFree n |}.
Definition sn_set_free (free : bool) (has : Z) (n : SeizeNode) : SeizeNode :=
  {| sn_engine := sn_engine n; sn_Name := sn_Name n; sn_scaleUpContainers := sn_scaleUpContainers n;
     sn_scaleDownContainers := sn_scaleDownContainers n; sn_isFreeNode := free;
     sn_cantSeize := sn_cantSeize n; sn_alreadyHasFree := has |}.
Definition sn_set_cantSeize (b : bool) (n : SeizeNode) : SeizeNode :=
  {| sn_engine := sn_engine n; sn_Name := sn_Name n; sn_scaleUpContainers := sn_scaleUpContainers n;
     sn_scaleDownContainers := sn_scaleDownContainers n; sn_isFreeNode := sn_isFreeNode n;
     sn_cantSeize := b; sn_alreadyHasFree := sn_alreadyHasFree n |}.

(** The implementations of [TaskFilter]. *)
Inductive TaskFilter := CreateTaskFilter | DestroyTaskFilter | StartTaskFilter | StopTaskFilter.

(** The fields of [SeizeResourceFilter] that [NewSeizeResourceFilter] sets once. *)
Record SeizeRequest := {
  sr_item : ScaleItem;
  sr_ScaleUpTaskType : TaskType;
  sr_ScaleDownTaskType : TaskType;
  sr_scaleUpTaskFilter : TaskFilter;
  sr_scaleDownTaskFilter : TaskFilter;
  sr_Constraints : list LabelFilter;
  sr_Inaffinities : list LabelFilter;
  sr_Filters : list LabelFilter
}.

(** Those that [Filter] computes.  [ss_createContainer] is the container and the priority of
    [createContainer]; its task type is [ScaleUpTaskType]. *)
Record SeizeState := {
  ss_scaleUpAppPriority : Z;
  ss_AppLots : Z;
  ss_scaleUpedCount : Z;
  ss_needFreeEngineNumber : Z;
  ss_createContainer : option (Container * Z)
}.
Definition ss_set_count (z : Z) (s : SeizeState) : SeizeState :=
  {| ss_scaleUpAppPriority := ss_scaleUpAppPriority s; ss_AppLots := ss_AppLots s; ss_scaleUpedCount := z;
     ss_needFreeEngineNumber := ss_needFreeEngineNumber s; ss_createContainer := ss_createContainer s |}.
Definition ss_set_AppLots (z : Z) (s : SeizeState) : SeizeState :=
  {| ss_scaleUpAppPriority := ss_scaleUpAppPriority s; ss_AppLots := z; ss_scaleUpedCount := ss_scaleUpedCount s;
     ss_needFreeEngineNumber := ss_needFreeEngineNumber s; ss_createContainer := ss_createContainer s |}.
Definition ss_set_need (z : Z) (s : SeizeState) : SeizeState :=
  {| ss_scaleUpAppPriority := ss_scaleUpAppPriority s; ss_AppLots := ss_AppLots s;
     ss_scaleUpedCount := ss_scaleUpedCount s; ss_needFreeEngineNumber := z;
     ss_createContainer := ss_createContainer s |}.
Definition initial_state : SeizeState :=
  {| ss_scaleUpAppPriority := DefaultPriority; ss_AppLots := -1; ss_scaleUpedCount := 0;
     ss_needFreeEngineNumber := 0; ss_createContainer := None |}.

Section seize.
Context `{GoJson} `{GoRegexp} `{MapRange} `{GoSlices}.
(** The conversion to [int] of an infinite quotient, which Go leaves to the machine. *)
Context (int_of_inf : Z).

(** ** Making the filter *)

(** [setTaskType()] *)
Definition task_types (ENVs : list string) : (TaskType * TaskFilter) * (TaskType * TaskFilter) :=
  match getEnv EnvTaskTypeKey ENVs with
  | (values, true) =>
      (if existsb (λ v, Contains v EnvTaskStart) values
       then (TaskTypeStartContainer, StartTaskFilter) else (TaskTypeCreateContainer, CreateTaskFilter),
       if existsb (λ v, Contains v EnvTaskStop) values
       then (TaskTypeStopContainer, StopTaskFilter) else (TaskTypeDestroyContainer, DestroyTaskFilter))
  | (_, false) =>
      ((TaskTypeCreateContainer, CreateTaskFilter), (TaskTypeDestroyContainer, DestroyTaskFilter))
  end.

(** Filters that do not parse are logged and left out. *)
Definition filters_or_none (l : list string) : outcome (list LabelFilter) :=
  match parseFilterString l with Err _ => Ret [] | o => o end.

Definition it_set_Number (z : Z) (item : ScaleItem) : ScaleItem :=
  {| it_Filters := it_Filters item; it_Number := z; it_ENVs := it_ENVs item; it_Labels := it_Labels item |}.

Definition NewSeizeResourceFilter (item : ScaleItem) : outcome SeizeRequest :=
  let item := it_set_Number (item_count item) item in
  let '((upType, upFilter), (downType, downFilter)) := task_types (it_ENVs item) in
  constraints ← filters_or_none (getConstaintStrings (it_ENVs item));
  inaffinities ← filters_or_none (getInaffinityStrings (it_ENVs item));
  filters ← filters_or_none (it_Filters item);
  Ret {| sr_item := item; sr_ScaleUpTaskType := upType; sr_ScaleDownTaskType := downType;
         sr_scaleUpTaskFilter := upFilter; sr_scaleDownTaskFilter := downFilter;
         sr_Constraints := constraints; sr_Inaffinities := inaffinities; sr_Filters := filters |}.

(** ** The containers of a node *)

(** [FilterContainer(filters, container)], by task filter *)
Definition create_FilterContainer (filters : list LabelFilter) (c : Container) : bool := filterContainer filters c.
Definition destroy_FilterContainer (filters : list LabelFilter) (c : Container) : bool := filterContainer filters c.
Definition start_FilterContainer (filters : list LabelFilter) (c : Container) : bool :=
  filterContainer filters c && in_states ["paused"; "created"; "restarting"; "exited"] c.
Definition stop_FilterContainer (filters : list LabelFilter) (c : Container) : bool :=
  filterContainer filters c && in_states ["paused"; "running"] c.
Definition task_FilterContainer (k : TaskFilter) : list LabelFilter → Container → bool :=
  match k with
  | CreateTaskFilter => create_FilterContainer
  | DestroyTaskFilter => destroy_FilterContainer
  | StartTaskFilter => start_FilterContainer
  | StopTaskFilter => stop_FilterContainer
  end.

Definition getSeizeContainer (c : Container) (taskType : TaskType) : outcome SeizeContainer :=
  env ← container_Env c;
  match getEnv EnvironmentPriority env with
  | (_, false) => Ret {| sz_container := Stored c; sz_priority := DefaultPriority; sz_taskType := taskType |}
  | (p, true) =>
      index0 (ctr_Names c) ;;
      Ret {| sz_container := Stored c; sz_priority := (Atoi (first_value p)).1; sz_taskType := taskType |}
  end.

(** The number of an [applots] entry, when there is one and it is a number. *)
Definition applots_in (envs : list string) : option Z :=
  match getEnv Applots envs with
  | (applotsStr, true) =>
      match Atoi (first_value applotsStr) with (a, true) => Some a | (_, false) => None end
  | (_, false) => None
  end.
Definition getApplots (item : ScaleItem) (envs : list string) : Z :=
  match applots_in (it_ENVs item) with
  | Some a => a
  | None => default (-1) (applots_in envs)
  end.

(** The first [if] of [filterNodeContainers]: the container is one of those to scale up. *)
Definition take_up (r : SeizeRequest) (c : Container) (node : SeizeNode) (s : SeizeState)
    : outcome (SeizeNode * SeizeState) :=
  scr ← getSeizeContainer c (sr_ScaleUpTaskType r);
  env ← container_Env c;
  let up := sn_scaleUpContainers node ++ [scr] in
  let a := getApplots (sr_item r) env in
  let lots := if negb (a =? -1) && (ss_AppLots s =? -1) then a else ss_AppLots s in
  let prio := if negb (sz_priority scr =? DefaultPriority) && (ss_scaleUpAppPriority s =? DefaultPriority)
              then sz_priority scr else ss_scaleUpAppPriority s in
  let full := (lots <=? Z.of_nat (length up)) && negb (Z.of_nat (length up) =? 0) in
  Ret (sn_set_free (negb full) (if full then 0 else sn_alreadyHasFree node + 1) (sn_set_up up node),
       {| ss_scaleUpAppPriority := prio; ss_AppLots := lots; ss_scaleUpedCount := ss_scaleUpedCount s + 1;
          ss_needFreeEngineNumber := ss_needFreeEngineNumber s;
          ss_createContainer := match ss_createContainer s with
                                | None => Some (c, sz_priority scr)
                                | some => some
                                end |}).

(** [filterNodeContainers(node, c)] *)
Definition filterNodeContainers (r : SeizeRequest) (c : Container) (node : SeizeNode) (s : SeizeState)
    : outcome (SeizeNode * SeizeState) :=
  x ← (if task_FilterContainer (sr_scaleUpTaskFilter r) (sr_Filters r) c then take_up r c node s
       else Ret (node, s));
  let '(node, s) := x in
  if task_FilterContainer (sr_scaleDownTaskFilter r) (sr_Inaffinities r) c then
    scd ← getSeizeContainer c (sr_ScaleDownTaskType r);
    Ret (sn_set_free false (sn_alreadyHasFree node)
           (sn_set_down (sn_scaleDownContainers node ++ [scd]) node), s)
  else Ret (node, s).

Fixpoint filter_containers (r : SeizeRequest) (l : list Container) (node : SeizeNode) (s : SeizeState)
    : outcome (SeizeNode * SeizeState) :=
  match l with
  | [] => Ret (node, s)
  | c :: l' => x ← filterNodeContainers r c node s; filter_containers r l' x.1 x.2
  end.

Definition new_node (p : ptr) (e : Engine) : SeizeNode :=
  {| sn_engine := p; sn_Name := eng_Name (e_hdr e); sn_scaleUpContainers := []; sn_scaleDownContainers := [];
     sn_isFreeNode := true; sn_cantSeize := false; sn_alreadyHasFree := -1 |}.

(** The loop over the engines: the free nodes and the others. *)
Fixpoint classify (r : SeizeRequest) (l : list (ptr * Engine)) (free pool : list SeizeNode) (s : SeizeState)
    : outcome (list SeizeNode * list SeizeNode * SeizeState) :=
  match l with
  | [] => Ret (free, pool, s)
  | (p, e) :: l' =>
      if filterConstraintEngine (e_hdr e) (sr_Constraints r) then
        x ← filter_containers r (Containers e) (new_node p e) s;
        let '(node, s) := x in
        if sn_isFreeNode node then classify r l' (free ++ [node]) pool s
        else if negb (sn_alreadyHasFree node =? 0) then classify r l' free (pool ++ [node]) s
        else classify r l' free pool s
      else classify r l' free pool s
  end.

(** ** Filling a node *)

Definition node_constraint (node : SeizeNode) : string := Constraint_prefix +:+ ":node==" +:+ sn_Name node.

(** [CreateTaskFilter]: one more copy of the configuration of the template, with the
    constraint appended to the environment that the copies share. *)
Definition add_copy (node : SeizeNode) (s : SeizeState) (h : GoHeap)
    : outcome (SeizeNode * SeizeState * GoHeap) :=
  x ← deref (ss_createContainer s);
  let c := x.1 in
  cfg ← deref (ctr_Config c);
  let '(h, env) := env_slice h (object_of c) (cc_Env cfg) in
  let '(h, env) := append_env h env (node_constraint node) in
  let n := fresh (dom (gh_copies h) : gset nat) in
  let copy := {| cp_template := object_of c; cp_Env := env; cp_config := cfg |} in
  let temp := {| sz_container := Seized n (ctr_Names c); sz_priority := 0;
                 sz_taskType := TaskTypeCreateContainer |} in
  index0 (ctr_Names c) ;;
  Ret (sn_set_up (sn_scaleUpContainers node ++ [temp]) node,
       ss_set_count (ss_scaleUpedCount s + 1) s,
       gh_set_copies (<[n := copy]> (gh_copies h)) h).

(** [StartTaskFilter]: the template once more; what is appended to its own environment is
    the empty string, the result of [Sprintf] being dropped. *)
Definition add_start (r : SeizeRequest) (node : SeizeNode) (s : SeizeState) (h : GoHeap)
    : outcome (SeizeNode * SeizeState * GoHeap) :=
  x ← deref (ss_createContainer s);
  let '(c, priority) := x in
  cfg ← deref (ctr_Config c);
  let '(h, env) := env_slice h (object_of c) (cc_Env cfg) in
  let '(h, env) := append_env h env "" in
  let temp := {| sz_container := Stored c; sz_priority := priority; sz_taskType := sr_ScaleUpTaskType r |} in
  Ret (sn_set_up (sn_scaleUpContainers node ++ [temp]) node,
       ss_set_count (ss_scaleUpedCount s + 1) s,
       gh_set_envs (<[object_of c := env]> (gh_envs h)) h).

(** The loop that adds [n] containers, or fewer when the number asked for is reached. *)
Fixpoint add_up_to (add : SeizeNode → SeizeState → GoHeap → outcome (SeizeNode * SeizeState * GoHeap))
    (Number : Z) (n : nat) (node : SeizeNode) (s : SeizeState) (h : GoHeap)
    : outcome (SeizeNode * SeizeState * GoHeap) :=
  match n with
  | O => Ret (node, s, h)
  | S n' =>
      if Number <=? ss_scaleUpedCount s then Ret (node, s, h)
      else
        x ← add node s h;
        let '(node, s, h) := x in add_up_to add Number n' node s h
  end.

(** [DoContainers(node, f)], by task filter *)
Definition DoContainers (r : SeizeRequest) (node : SeizeNode) (s : SeizeState) (h : GoHeap)
    : outcome (SeizeNode * SeizeState * GoHeap) :=
  let Number := it_Number (sr_item r) in
  let length := Z.of_nat (length (sn_scaleUpContainers node)) in
  match sr_scaleUpTaskFilter r with
  | CreateTaskFilter =>
      let needs := if wrap64 (ss_AppLots s - length) <? wrap64 (Number - ss_scaleUpedCount s)
                   then wrap64 (ss_AppLots s - length) else wrap64 (Number - ss_scaleUpedCount s) in
      add_up_to add_copy Number (Z.to_nat needs) node s h
  | StartTaskFilter =>
      let s := ss_set_count (ss_scaleUpedCount s + length) s in
      add_up_to (add_start r) Number (Z.to_nat (wrap64 (ss_AppLots s - length))) node s h
  | DestroyTaskFilter | StopTaskFilter => Ret (node, s, h)
  end.

(** ** Priorities *)

(** Whether a container to stop stops the seizing: the first whose priority is not greater.
    The log messages read the names. *)
Fixpoint outranked (priority : Z) (l : list SeizeContainer) : outcome bool :=
  match l with
  | [] => Ret false
  | c :: l' =>
      index0 (task_Names (sz_container c)) ;;
      if sz_priority c <=? priority then Ret true else outranked priority l'
  end.

(** The loop of [doPriority]: it ends with the node that completes the number, and leaves
    the rest as they are. *)
Fixpoint do_nodes (r : SeizeRequest) (l : list SeizeNode) (s : SeizeState) (h : GoHeap)
    : outcome (list SeizeNode * SeizeState * GoHeap) :=
  match l with
  | [] => Ret ([], s, h)
  | node :: l' =>
      cant ← outranked (ss_scaleUpAppPriority s) (sn_scaleDownContainers node);
      let node := if cant : bool then sn_set_cantSeize true (sn_set_down [] (sn_set_up [] node)) else node in
      x ← (if sn_cantSeize node then Ret (node, ss_set_need (ss_needFreeEngineNumber s + 1) s, h)
           else DoContainers r node s h);
      let '(node, s, h) := x in
      if it_Number (sr_item r) <=? ss_scaleUpedCount s then Ret (node :: l', s, h)
      else
        y ← do_nodes r l' s h;
        let '(l', s, h) := y in Ret (node :: l', s, h)
  end.

Definition doPriority (r : SeizeRequest) (pool : list SeizeNode) (s : SeizeState) (h : GoHeap)
    : outcome (list SeizeNode * SeizeState * GoHeap) :=
  x ← do_nodes r pool s h;
  let '(pool, s, h) := x in
  if ss_needFreeEngineNumber s <? Z.of_nat (length pool) then
    if ss_needFreeEngineNumber s <? 0 then Panic "slice bounds out of range"
    else Ret (take (Z.to_nat (ss_needFreeEngineNumber s)) pool, s, h)
  else Ret (pool, s, h).

(** ** The whole filter *)

Fixpoint do_free (r : SeizeRequest) (l : list SeizeNode) (s : SeizeState) (h : GoHeap)
    : outcome (list SeizeNode * SeizeState * GoHeap) :=
  match l with
  | [] => Ret ([], s, h)
  | node :: l' =>
      x ← DoContainers r node s h;
      let '(node, s, h) := x in
      y ← do_free r l' s h;
      let '(l', s, h) := y in Ret (node :: l', s, h)
  end.

(** The first loop of [reorganizeContainers], and whether it returned. *)
Fixpoint reorganize_free (Number : Z) (l : list SeizeNode) (temp : Z) (out : list SeizeContainer)
    : list SeizeContainer * bool :=
  match l with
  | [] => (out, false)
  | freeNode :: l' =>
      if Number <? temp then (out, true)
      else reorganize_free Number l' (temp + Z.of_nat (length (sn_scaleUpContainers freeNode)))
             (out ++ sn_scaleUpContainers freeNode)
  end.

(** [reorganizeContainers()]: the containers filtered out, in order *)
Definition reorganizeContainers (Number : Z) (free pool : list SeizeNode) : list SeizeContainer :=
  let '(out, returned) := reorganize_free Number free 0 [] in
  if returned then out
  else out ++ mjoin ((λ node, sn_scaleDownContainers node ++ sn_scaleUpContainers node) <$> pool).

(** [int(math.Ceil(float64(x) / float64(n)))] *)
Definition ceil_quotient (x n : Z) : Z :=
  if n =? 0 then int_of_inf
  else if 0 <? n then (if 0 <=? x then float_div_ceil x n else - float_div_floor (- x) n)
  else if 0 <=? x then - float_div_floor x (- n) else float_div_ceil (- x) (- n).

(** [Filter()] *)
Definition seize_Filter (c : Cluster) (r : SeizeRequest) (h : GoHeap)
    : outcome (list SeizeContainer * SeizeState * GoHeap) :=
  let Number := it_Number (sr_item r) in
  x ← classify r (engine_list c) [] [] initial_state;
  let '(free, pool, s) := x in
  let s := if ss_AppLots s =? -1 then ss_set_AppLots DefaultAppLots s else s in
  let enough := Number <=? wrap64 (Z.of_nat (length free) * ss_AppLots s) in
  let pool := if enough then [] else pool in
  let s := if enough then s
           else ss_set_need (wrap64 (ceil_quotient Number (ss_AppLots s) - Z.of_nat (length free))) s in
  x ← doPriority r pool s h;
  let '(pool, s, h) := x in
  x ← do_free r free s h;
  let '(free, s, h) := x in
  Ret (reorganizeContainers Number free pool, s, h).

(** [AddTasks(tasks)] *)
Fixpoint seize_AddTasks (rand : nat → nat → Z) (l : list SeizeContainer) (t : Tasks tcontainer)
    : outcome (Tasks tcontainer) :=
  match l with
  | [] => Ret t
  | c :: l' =>
      t ← AddTask (rand (length l')) (Some (sz_container c)) (sz_taskType c) t;
      seize_AddTasks rand l' t
  end.
End seize.

(** ** How many containers are added *)

Definition is_copy (z : SeizeContainer) : bool :=
  match sz_container z with Seized _ _ => true | Stored _ => false end.
Definition copies (l : list SeizeContainer) : Z := Z.of_nat (length (List.filter is_copy l)).
Lemma copies_app l1 l2 : copies (l1 ++ l2) = copies l1 + copies l2.
Proof. unfold copies. rewrite List.filter_app, length_app. lia. Qed.
Lemma copies_nonneg l : 0 ≤ copies l.
Proof. unfold copies. lia. Qed.
(** The copies on the nodes of a pool. *)
Definition node_copies (n : SeizeNode) : Z := copies (sn_scaleUpContainers n) + copies (sn_scaleDownContainers n).
Definition pool_copies (l : list SeizeNode) : Z := foldr (λ n z, node_copies n + z) 0 l.
Lemma node_copies_nonneg n : 0 ≤ node_copies n.
Proof. unfold node_copies. pose proof (copies_nonneg (sn_scaleUpContainers n)). pose proof (copies_nonneg (sn_scaleDownContainers n)). lia. Qed.
Lemma pool_copies_nonneg l : 0 ≤ pool_copies l.
Proof. induction l as [|n l IH]; simpl; [done|]. pose proof (node_copies_nonneg n). lia. Qed.
Lemma pool_copies_app l1 l2 : pool_copies (l1 ++ l2) = pool_copies l1 + pool_copies l2.
Proof. induction l1 as [|n l1 IH]; simpl; [done|]. rewrite IH. lia. Qed.
Lemma pool_copies_take k l : pool_copies (take k l) ≤ pool_copies l.
Proof.
  rewrite <- (take_drop k l) at 2. rewrite pool_copies_app.
  pose proof (pool_copies_nonneg (drop k l)). lia.
Qed.

Section bounds.
Context `{GoJson} `{GoRegexp} `{MapRange} `{GoSlices} (int_of_inf : Z).

(** Filling a node adds one copy for each unit of the count, which stays within the number
    asked for, and never more than the lots of the node. *)
Definition filled (N : Z) (node node' : SeizeNode) (s s' : SeizeState) : Prop :=
  node_copies node' + ss_scaleUpedCount s = node_copies node + ss_scaleUpedCount s' ∧
  ss_scaleUpedCount s ≤ ss_scaleUpedCount s' ≤ Z.max N (ss_scaleUpedCount s) ∧
  ss_AppLots s' = ss_AppLots s ∧ ss_scaleUpAppPriority s' = ss_scaleUpAppPriority s ∧
  ss_needFreeEngineNumber s' = ss_needFreeEngineNumber s ∧
  sn_scaleDownContainers node' = sn_scaleDownContainers node ∧
  sn_scaleUpContainers node `prefix_of` sn_scaleUpContainers node'.

Lemma add_copy_filled node s h node' s' h' :
  add_copy node s h = Ret (node', s', h') →
  node_copies node' = node_copies node + 1 ∧ s' = ss_set_count (ss_scaleUpedCount s + 1) s ∧
  sn_scaleDownContainers node' = sn_scaleDownContainers node ∧
  ∃ z, sn_scaleUpContainers node' = sn_scaleUpContainers node ++ [z].
Proof.
  unfold add_copy. destruct (ss_createContainer s) as [[c prio]|]; simpl; [|done].
  destruct (ctr_Config c) as [cfg|]; simpl; [|done].
  destruct (env_slice _ _ _) as [h1 env]. destruct (append_env _ _ _) as [h2 env2].
  destruct (index0 (ctr_Names c)); simpl; [|done..]. intros [= <- <- <-]. simpl.
  split; [|by eauto]. unfold node_copies. simpl. rewrite copies_app. unfold copies at 2. simpl. lia.
Qed.

Lemma add_up_to_filled N k node s h node' s' h' :
  add_up_to add_copy N k node s h = Ret (node', s', h') →
  filled N node node' s s' ∧
  (length (sn_scaleUpContainers node') ≤ length (sn_scaleUpContainers node) + k)%nat.
Proof.
  revert node s h. induction k as [|k IH]; intros node s h; simpl.
  { intros [= <- <- <-]. split; [|lia]. split_and!; done || lia. }
  destruct (N <=? ss_scaleUpedCount s) eqn:HN.
  { intros [= <- <- <-]. split; [|lia]. split_and!; done || lia. }
  apply Z.leb_gt in HN. destruct (add_copy node s h) as [[[node1 s1] h1]| |] eqn:Hadd; simpl; [|done..].
  intros Hrun. apply add_copy_filled in Hadd as (Hc & -> & Hd & z & Hz).
  apply IH in Hrun as ((H1' & H2' & H3' & H4' & H5' & H6' & H7') & Hl). simpl in *. split.
  - split_and!; try congruence; try lia. etrans; [|done]. rewrite Hz. by eexists.
  - rewrite Hz, length_app in Hl. simpl in Hl. lia.
Qed.

Lemma DoContainers_filled r node s h node' s' h' :
  sr_scaleUpTaskFilter r = CreateTaskFilter →
  DoContainers r node s h = Ret (node', s', h') → filled (it_Number (sr_item r)) node node' s s'.
Proof. unfold DoContainers. intros ->. intros Hrun. by apply add_up_to_filled in Hrun as [? _]. Qed.

Lemma do_free_copies r l s h l' s' h' :
  sr_scaleUpTaskFilter r = CreateTaskFilter →
  do_free r l s h = Ret (l', s', h') →
  pool_copies l' + ss_scaleUpedCount s = pool_copies l + ss_scaleUpedCount s' ∧
  ss_scaleUpedCount s ≤ ss_scaleUpedCount s' ≤ Z.max (it_Number (sr_item r)) (ss_scaleUpedCount s).
Proof.
  intros Hk. revert s h l'. induction l as [|node l IH]; intros s h l'; simpl.
  { intros [= <- <- <-]. simpl. lia. }
  destruct (DoContainers r node s h) as [[[node1 s1] h1]| |] eqn:Hdo; simpl; [|done..].
  destruct (do_free r l s1 h1) as [[[l1 s2] h2]| |] eqn:Hrest; simpl; [|done..]. intros [= <- <- <-].
  apply DoContainers_filled in Hdo as (H1' & H2' & _); [|done]. apply IH in Hrest as [H3' H4']. simpl. lia.
Qed.

Lemma do_nodes_copies r l s h l' s' h' :
  sr_scaleUpTaskFilter r = CreateTaskFilter →
  do_nodes r l s h = Ret (l', s', h') →
  pool_copies l' + ss_scaleUpedCount s ≤ pool_copies l + ss_scaleUpedCount s' ∧
  ss_scaleUpedCount s ≤ ss_scaleUpedCount s' ≤ Z.max (it_Number (sr_item r)) (ss_scaleUpedCount s).
Proof.
  intros Hk. revert s h l'. induction l as [|node l IH]; intros s h l'; simpl.
  { intros [= <- <- <-]. simpl. lia. }
  destruct (outranked _ _) as [cant| |]; simpl; [|done..].
  set (node0 := if cant then _ else node).
  assert (node_copies node0 ≤ node_copies node) as Hle.
  { unfold node0. destruct cant; [|done]. pose proof (node_copies_nonneg node). done. }
  destruct (if sn_cantSeize node0 then _ else _) as [[[node1 s1] h1]| |] eqn:Hdo; simpl; [|done..].
  assert (node_copies node1 + ss_scaleUpedCount s ≤ node_copies node + ss_scaleUpedCount s1 ∧
    ss_scaleUpedCount s ≤ ss_scaleUpedCount s1 ≤ Z.max (it_Number (sr_item r)) (ss_scaleUpedCount s)) as [H1' H2'].
  { destruct (sn_cantSeize node0).
    - injection Hdo as <- <- <-. simpl. lia.
    - apply DoContainers_filled in Hdo as (? & ? & _); [|done]. lia. }
  destruct (it_Number (sr_item r) <=? ss_scaleUpedCount s1); [intros [= <- <- <-]; simpl; lia|].
  destruct (do_nodes r l s1 h1) as [[[l1 s2] h2]| |] eqn:Hrest; simpl; [|done..]. intros [= <- <- <-].
  apply IH in Hrest as [H3' H4']. simpl. lia.
Qed.

Lemma doPriority_copies r l s h l' s' h' :
  sr_scaleUpTaskFilter r = CreateTaskFilter →
  doPriority r l s h = Ret (l', s', h') →
  pool_copies l' + ss_scaleUpedCount s ≤ pool_copies l + ss_scaleUpedCount s' ∧
  ss_scaleUpedCount s ≤ ss_scaleUpedCount s' ≤ Z.max (it_Number (sr_item r)) (ss_scaleUpedCount s).
Proof.
  intros Hk. unfold doPriority.
  destruct (do_nodes r l s h) as [[[l1 s1] h1]| |] eqn:Hdo; simpl; [|done..].
  apply do_nodes_copies in Hdo as [H1' H2']; [|done].
  destruct (_ <? Z.of_nat _); [destruct (_ <? 0); [done|]|]; intros [= <- <- <-]; [|lia].
  pose proof (pool_copies_take (Z.to_nat (ss_needFreeEngineNumber s1)) l1). lia.
Qed.

(** What is reorganised comes from the pools. *)
Lemma reorganize_copies N free pool :
  copies (reorganizeContainers N free pool) ≤ pool_copies free + pool_copies pool.
Proof.
  assert (∀ l temp out, copies (reorganize_free N l temp out).1 ≤ copies out + pool_copies l) as Hfree.
  { induction l as [|n l IH]; intros temp out; simpl; [lia|].
    pose proof (pool_copies_nonneg l). pose proof (node_copies_nonneg n).
    destruct (N <? temp); simpl; [lia|].
    specialize (IH (temp + Z.of_nat (length (sn_scaleUpContainers n))) (out ++ sn_scaleUpContainers n)).
    rewrite copies_app in IH. unfold node_copies in *. pose proof (copies_nonneg (sn_scaleDownContainers n)). lia. }
  unfold reorganizeContainers. specialize (Hfree free 0 []). destruct (reorganize_free N free 0 []) as [out b].
  simpl in Hfree. pose proof (pool_copies_nonneg pool). unfold copies at 2 in Hfree. simpl in Hfree.
  destruct b; [lia|]. rewrite copies_app.
  match goal with |- context [copies (mjoin ?x)] => assert (copies (mjoin x) = pool_copies pool) as ->; [|lia] end.
  clear. induction pool as [|n pool IH]; [done|].
  rewrite fmap_cons. change (mjoin (?x :: ?l)) with (x ++ mjoin l).
  rewrite !copies_app, IH. simpl. unfold node_copies. lia.
Qed.

(** The nodes classified have no copies. *)
Lemma filterNodeContainers_stored r c node s node' s' :
  filterNodeContainers r c node s = Ret (node', s') → node_copies node' = node_copies node ∧
  ss_scaleUpedCount s ≤ ss_scaleUpedCount s'.
Proof.
  assert (∀ ty z, getSeizeContainer c ty = Ret z → is_copy z = false) as Hz.
  { intros ty z. unfold getSeizeContainer. intros Hrun.
    apply bind_Ret_inv in Hrun as (env & _ & Hrun). destruct (getEnv EnvironmentPriority env) as [p []].
    - apply bind_Ret_inv in Hrun as (? & _ & [= <-]). done.
    - by injection Hrun as <-. }
  unfold filterNodeContainers. intros Hrun.
  apply bind_Ret_inv in Hrun as ([node1 s1] & Hup & Hdown).
  assert (node_copies node1 = node_copies node ∧ ss_scaleUpedCount s ≤ ss_scaleUpedCount s1) as [H1' H2'].
  { destruct (task_FilterContainer _ _ _); [|injection Hup as <- <-; split; [done|lia]].
    unfold take_up in Hup. apply bind_Ret_inv in Hup as (z & Hg & Hup).
    apply bind_Ret_inv in Hup as (env & _ & [= <- <-]). simpl. split; [|lia].
    unfold node_copies. simpl. rewrite copies_app. unfold copies at 2. simpl. rewrite (Hz _ _ Hg). simpl. lia. }
  clear Hup. cbn beta iota in Hdown. destruct (task_FilterContainer _ _ _); [|by injection Hdown as <- <-].
  apply bind_Ret_inv in Hdown as (z & Hg & [= <- <-]). split; [|done]. rewrite <- H1'.
  unfold node_copies. simpl. rewrite copies_app. unfold copies at 3. simpl. rewrite (Hz _ _ Hg). simpl. lia.
Qed.
Lemma filter_containers_stored r l node s node' s' :
  filter_containers r l node s = Ret (node', s') → node_copies node' = node_copies node ∧
  ss_scaleUpedCount s ≤ ss_scaleUpedCount s'.
Proof.
  revert node s. induction l as [|c l IH]; intros node s; simpl; [intros [= <- <-]; lia|].
  intros Hrun. apply bind_Ret_inv in Hrun as ([node1 s1] & H1' & H2').
  apply filterNodeContainers_stored in H1' as [? ?]. apply IH in H2' as [? ?]. simpl in *. lia.
Qed.
Lemma classify_stored r l free pool s free' pool' s' :
  classify r l free pool s = Ret (free', pool', s') →
  pool_copies free' + pool_copies pool' = pool_copies free + pool_copies pool ∧
  ss_scaleUpedCount s ≤ ss_scaleUpedCount s'.
Proof.
  revert free pool s. induction l as [|[p e] l IH]; intros free pool s; simpl; [intros [= <- <- <-]; lia|].
  destruct (filterConstraintEngine _ _); [|apply IH]. intros Hrun.
  apply bind_Ret_inv in Hrun as ([node s1] & H1' & H2'). apply filter_containers_stored in H1' as [Hc Hs].
  change (node_copies (new_node p e)) with 0 in Hc.
  destruct (sn_isFreeNode node); [|destruct (negb _)]; apply IH in H2' as [Hp Hs'];
    rewrite ?pool_copies_app in Hp; simpl in Hp; lia.
Qed.


(** ** Priorities *)

(** All the containers to stop have a priority greater than that of the application. *)
Definition seizable (priority : Z) (n : SeizeNode) : Prop :=
  Forall (λ z, priority < sz_priority z) (sn_scaleDownContainers n).

Lemma outranked_false priority l :
  outranked priority l = Ret false → Forall (λ z, priority < sz_priority z) l.
Proof.
  induction l as [|z l IH]; simpl; [done|]. destruct (index0 _); simpl; [|done..].
  destruct (sz_priority z <=? priority) eqn:Hz; [done|]. apply Z.leb_gt in Hz.
  intros Hrun. constructor; auto.
Qed.

Lemma DoContainers_keeps r node s h node' s' h' :
  DoContainers r node s h = Ret (node', s', h') →
  sn_scaleDownContainers node' = sn_scaleDownContainers node ∧
  ss_scaleUpAppPriority s' = ss_scaleUpAppPriority s.
Proof.
  assert (∀ add N k node s h node' s' h',
    (∀ node s h node' s' h', add node s h = Ret (node', s', h') →
      sn_scaleDownContainers node' = sn_scaleDownContainers node ∧
      ss_scaleUpAppPriority s' = ss_scaleUpAppPriority s) →
    add_up_to add N k node s h = Ret (node', s', h') →
      sn_scaleDownContainers node' = sn_scaleDownContainers node ∧
      ss_scaleUpAppPriority s' = ss_scaleUpAppPriority s) as Hloop.
  { clear. intros add N k node s h node' s' h' Hadd. revert node s h.
    induction k as [|k IH]; intros node s h; simpl; [by intros [= <- <- <-]|].
    destruct (_ <=? _); [by intros [= <- <- <-]|].
    destruct (add node s h) as [[[n1 s1] h1]| |] eqn:Ha; simpl; [|done..].
    apply Hadd in Ha as [Ha1 Ha2]. intros Hrun. apply IH in Hrun as [-> ->]. done. }
  unfold DoContainers. destruct (sr_scaleUpTaskFilter r); try by intros [= <- <- <-].
  - apply Hloop. clear. intros node s h node' s' h' Ha. by apply add_copy_filled in Ha as (_ & -> & -> & _).
  - intros Hrun. apply Hloop in Hrun as [-> ->]; [done|]. clear. intros node s h node' s' h'.
    unfold add_start. intros Ha. apply bind_Ret_inv in Ha as ([c prio] & _ & Ha).
    apply bind_Ret_inv in Ha as (cfg & _ & Ha).
    destruct (env_slice _ _ _) as [h1 env]. destruct (append_env _ _ _) as [h2 env2].
    by injection Ha as <- <- <-.
Qed.

(** Priorities.  The loop of [doPriority] goes through the nodes in order until the number
    is reached.  On the nodes it went through, only containers of a greater priority value
    are left to be stopped; those it did not reach are unchanged. *)
Theorem do_nodes_priority r l s h l' s' h' :
  do_nodes r l s h = Ret (l', s', h') →
  ∃ k, l' = take k l' ++ drop k l ∧ length (take k l') = Nat.min k (length l) ∧
    Forall (seizable (ss_scaleUpAppPriority s)) (take k l') ∧
    (it_Number (sr_item r) ≤ ss_scaleUpedCount s' ∨ k = length l).
Proof.
  revert s h l'. induction l as [|node l IH]; intros s h l'; simpl.
  { intros [= <- <- <-]. exists 0%nat. split_and!; auto. }
  destruct (outranked _ _) as [cant| |] eqn:Hout; simpl; [|done..].
  set (node0 := if cant then _ else node).
  assert (seizable (ss_scaleUpAppPriority s) node0) as Hnode0.
  { unfold node0, seizable. destruct cant; [constructor|]. by apply outranked_false. }
  destruct (if sn_cantSeize node0 then _ else _) as [[[node1 s1] h1]| |] eqn:Hdo; simpl; [|done..].
  assert (seizable (ss_scaleUpAppPriority s) node1 ∧ ss_scaleUpAppPriority s1 = ss_scaleUpAppPriority s) as [Hnode1 Hs1].
  { destruct (sn_cantSeize node0); [by injection Hdo as <- <- <-|].
    apply DoContainers_keeps in Hdo as [Hd ->]. split; [|done]. unfold seizable. by rewrite Hd. }
  destruct (it_Number (sr_item r) <=? ss_scaleUpedCount s1) eqn:HN.
  { intros [= <- <- <-]. exists 1%nat. simpl. rewrite take_0. split_and!; [done|done|by constructor|].
    left. by apply Z.leb_le. }
  destruct (do_nodes r l s1 h1) as [[[l1 s2] h2]| |] eqn:Hrest; simpl; [|done..]. intros [= <- <- <-].
  apply IH in Hrest as (k & Hl & Hlen & Hall & Hend). exists (S k). simpl. split_and!.
  - by rewrite <- Hl.
  - by rewrite Hlen.
  - constructor; [done|]. by rewrite <- Hs1.
  - destruct Hend as [?| ->]; auto.
Qed.

(** ** Starting *)

(** [StartTaskFilter] creates nothing: what it adds, when there are not enough containers
    to start, is the first container found, again and again, to be started. *)
Theorem start_filter_creates_nothing r node s h node' s' h' :
  sr_scaleUpTaskFilter r = StartTaskFilter →
  DoContainers r node s h = Ret (node', s', h') →
  sn_scaleUpContainers node' = sn_scaleUpContainers node ∨
  ∃ c priority k, ss_createContainer s = Some (c, priority) ∧
    sn_scaleUpContainers node' = sn_scaleUpContainers node ++
      replicate k {| sz_container := Stored c; sz_priority := priority; sz_taskType := sr_ScaleUpTaskType r |}.
Proof.
  unfold DoContainers. intros ->.
  set (s1 := ss_set_count _ s). set (n := Z.to_nat _). clearbody n.
  assert (ss_createContainer s1 = ss_createContainer s) as <- by done. clearbody s1. clear s.
  revert node s1 h. induction n as [|n IH]; intros node s h; simpl; [intros [= <- <- <-]; by left|].
  destruct (_ <=? _); [intros [= <- <- <-]; by left|].
  destruct (add_start r node s h) as [[[node1 s2] h1]| |] eqn:Ha; simpl; [|done..].
  unfold add_start in Ha. destruct (ss_createContainer s) as [[c priority]|] eqn:Hc; simpl in Ha; [|done].
  destruct (ctr_Config c); simpl in Ha; [|done].
  destruct (env_slice _ _ _) as [h2 env]. destruct (append_env _ _ _) as [h3 env2].
  injection Ha as <- <- <-. intros Hrun. right. exists c, priority.
  apply IH in Hrun as [Hrun|(c' & priority' & k & Hc' & Hrun)]; simpl in *.
  - exists 1%nat. by rewrite Hrun.
  - rewrite Hc in Hc'. injection Hc' as <- <-. exists (S k). by rewrite Hrun, <- app_assoc.
Qed.

(** ** The environment of the copies *)

(** The copy added to a node. *)
Definition copy_of (c : Container) (i : nat) : SeizeContainer :=
  {| sz_container := Seized i (ctr_Names c); sz_priority := 0; sz_taskType := TaskTypeCreateContainer |}.

Lemma add_copy_heap node s h node' s' h' c prio sl :
  ss_createContainer s = Some (c, prio) → gh_envs h !! object_of c = Some sl →
  add_copy node s h = Ret (node', s', h') →
  ∃ i h1 env cfg, append_env h sl (node_constraint node) = (h1, env) ∧ gh_copies h1 !! i = None ∧
    h' = gh_set_copies (<[i := {| cp_template := object_of c; cp_Env := env; cp_config := cfg |}]> (gh_copies h1)) h1 ∧
    gh_envs h1 = gh_envs h ∧ gh_copies h1 = gh_copies h ∧
    sn_scaleUpContainers node' = sn_scaleUpContainers node ++ [copy_of c i] ∧
    ss_createContainer s' = ss_createContainer s.
Proof.
  intros Hc Hsl Ha. unfold add_copy in Ha. rewrite Hc in Ha. cbn [deref mbind outcome_bind fst] in Ha.
  apply bind_Ret_inv in Ha as (cfg & _ & Ha). unfold env_slice in Ha. rewrite Hsl in Ha.
  destruct (append_env h sl (node_constraint node)) as [h1 env] eqn:Happ.
  apply bind_Ret_inv in Ha as (? & _ & [= <- <- <-]).
  set (i := fresh (dom (gh_copies h1) : gset nat)).
  assert (gh_envs h1 = gh_envs h ∧ gh_copies h1 = gh_copies h) as [He Hcp].
  { unfold append_env in Happ. by destruct (_ <? _)%nat; injection Happ as <- <-. }
  exists i, h1, env, cfg. split_and!; try done.
  apply (not_elem_of_dom (D := gset nat)). apply is_fresh.
Qed.

(** Copies of one configuration.  Two copies made for two nodes have the environment of
    the template and a constraint.  The second has the constraint of its node; the first
    has that of its own node only when the template's array was full: otherwise both
    appended to the same cell, and it has the second's. *)
Theorem copies_share_env node1 node2 s h s1 h1 s2 h2 n1 n2 c prio sl :
  ss_createContainer s = Some (c, prio) → gh_envs h !! object_of c = Some sl →
  is_Some (gh_arrays h !! sl_array sl) → (sl_len sl ≤ length (array_of h sl))%nat →
  add_copy node1 s h = Ret (n1, s1, h1) → add_copy node2 s1 h1 = Ret (n2, s2, h2) →
  ∃ i1 i2 cp1 cp2,
    sn_scaleUpContainers n1 = sn_scaleUpContainers node1 ++ [copy_of c i1] ∧
    sn_scaleUpContainers n2 = sn_scaleUpContainers node2 ++ [copy_of c i2] ∧
    gh_copies h2 !! i1 = Some cp1 ∧ gh_copies h2 !! i2 = Some cp2 ∧
    contents h2 (cp_Env cp2) = contents h sl ++ [node_constraint node2] ∧
    contents h2 (cp_Env cp1) =
      contents h sl ++ [if has_room h sl then node_constraint node2 else node_constraint node1].
Proof.
  intros Hc Hsl Hin Hle H1' H2'.
  destruct (add_copy_heap _ _ _ _ _ _ _ _ _ Hc Hsl H1')
    as (i1 & g1 & env1 & cfg1 & Happ1 & Hnew1 & -> & He1 & Hcp1 & Hup1 & Hc1).
  rewrite <- Hc1 in Hc.
  assert (gh_envs (gh_set_copies (<[i1 := {| cp_template := object_of c; cp_Env := env1; cp_config := cfg1 |}]>
    (gh_copies g1)) g1) !! object_of c = Some sl) as Hsl1 by (simpl; by rewrite He1).
  destruct (add_copy_heap _ _ _ _ _ _ _ _ _ Hc Hsl1 H2')
    as (i2 & g2 & env2 & cfg2 & Happ2 & Hnew2 & -> & He2 & Hcp2 & Hup2 & Hc2).
  set (cp1 := {| cp_template := object_of c; cp_Env := env1; cp_config := cfg1 |}) in *.
  set (cp2 := {| cp_template := object_of c; cp_Env := env2; cp_config := cfg2 |}).
  assert (gh_copies g2 !! i1 = Some cp1) as Hi1 by (rewrite Hcp2; simpl; by rewrite lookup_insert_eq).
  assert (i1 ≠ i2) as Hne by (intros ->; congruence).
  assert (∃ g2', append_env g1 sl (node_constraint node2) = (g2', env2) ∧ gh_arrays g2' = gh_arrays g2)
    as (g2' & Happ2' & Harr).
  { unfold append_env in Happ2 |- *. simpl in Happ2. destruct (_ <? _)%nat; injection Happ2 as <- <-; by eexists. }
  destruct (append_env_twice _ _ _ _ _ _ _ _ Hle Happ1 Happ2' Hin) as [Hb Ha].
  unfold contents in *. rewrite Harr in Ha, Hb.
  exists i1, i2, cp1, cp2. simpl. rewrite lookup_insert_eq, lookup_insert_ne by done. by split_and!.
Qed.

(** ** No template *)

Definition empty_up (n : SeizeNode) : Prop := sn_scaleUpContainers n = [].
(** Nothing found, one lot a node. *)
Definition idle (s : SeizeState) : Prop :=
  ss_createContainer s = None ∧ ss_scaleUpedCount s = 0 ∧ ss_AppLots s = 1.

Lemma DoContainers_idle r node s h :
  sr_scaleUpTaskFilter r = CreateTaskFilter → 0 < it_Number (sr_item r) < 2^63 → idle s → empty_up node →
  DoContainers r node s h = Panic nil_dereference.
Proof.
  intros Hk HN (Hc & Hn & Ha) Hup. unfold DoContainers. rewrite Hk, Hup, Hn, Ha. cbn [length].
  change (wrap64 (1 - Z.of_nat 0)) with 1. rewrite Z.sub_0_r, wrap64_id by (unfold int64_range; lia).
  assert (Z.to_nat (if 1 <? it_Number (sr_item r) then 1 else it_Number (sr_item r)) = 1%nat) as ->.
  { destruct (1 <? it_Number (sr_item r)) eqn:Hlt; [done|]. apply Z.ltb_ge in Hlt. lia. }
  simpl. rewrite Hn, (proj2 (Z.leb_gt _ _)) by lia. unfold add_copy. by rewrite Hc.
Qed.

Definition is_panic {A} (o : outcome A) : Prop := match o with Panic _ => True | _ => False end.
Lemma is_panic_bind {A B} (m : outcome A) (f : A → outcome B) :
  match m with Ret a => is_panic (f a) | Err _ => False | Panic _ => True end → is_panic (m ≫= f).
Proof. by destruct m. Qed.

Lemma index0_cases {A} (l : list A) : (∃ x, index0 l = Ret x) ∨ is_panic (index0 l).
Proof. destruct l; [by right|left; by eexists]. Qed.
Lemma outranked_cases priority l : (∃ b, outranked priority l = Ret b) ∨ is_panic (outranked priority l).
Proof.
  induction l as [|z l IH]; simpl; [left; by eexists|].
  destruct (index0_cases (task_Names (sz_container z))) as [[x ->]|Hp]; simpl.
  - destruct (_ <=? _); [left; by eexists|done].
  - right. by destruct (index0 (task_Names (sz_container z))).
Qed.

Lemma do_nodes_idle r l s h :
  sr_scaleUpTaskFilter r = CreateTaskFilter → 0 < it_Number (sr_item r) < 2^63 → idle s → Forall empty_up l →
  match do_nodes r l s h with Ret (_, s', _) => idle s' | Err _ => False | Panic _ => True end.
Proof.
  intros Hk HN Hs Hl. revert s Hs. induction Hl as [|node l Hnode Hl IH]; intros s Hs; simpl; [done|].
  destruct (outranked_cases (ss_scaleUpAppPriority s) (sn_scaleDownContainers node)) as [[cant ->]|Hp];
    [|by destruct (outranked _ _)]. cbn [mbind outcome_bind].
  set (node0 := if cant then _ else node).
  assert (empty_up node0) as Hup by (unfold node0; by destruct cant).
  destruct (sn_cantSeize node0).
  - cbn [mbind outcome_bind]. set (s1 := ss_set_need _ s). assert (idle s1) as Hs1 by exact Hs.
    destruct (it_Number (sr_item r) <=? ss_scaleUpedCount s1); [done|]. specialize (IH s1 Hs1).
    by destruct (do_nodes r l s1 h) as [[[l1 s2] h2]| |].
  - by rewrite DoContainers_idle.
Qed.

(** No container of an engine that satisfies the constraints matches the filters. *)
Definition nothing_matches (r : SeizeRequest) (l : list (ptr * Engine)) : Prop :=
  ∀ p e c, (p, e) ∈ l → filterConstraintEngine (e_hdr e) (sr_Constraints r) = true → c ∈ Containers e →
    task_FilterContainer (sr_scaleUpTaskFilter r) (sr_Filters r) c = false.
(** One of those engines has nothing to give way either. *)
Definition unoccupied (r : SeizeRequest) (x : ptr * Engine) : Prop :=
  filterConstraintEngine (e_hdr x.2) (sr_Constraints r) = true ∧
  ∀ c, c ∈ Containers x.2 → task_FilterContainer (sr_scaleDownTaskFilter r) (sr_Inaffinities r) c = false.

Lemma getSeizeContainer_cases c ty :
  (∃ z, getSeizeContainer c ty = Ret z) ∨ is_panic (getSeizeContainer c ty).
Proof.
  unfold getSeizeContainer, container_Env. destruct (ctr_Config c); [|by right]. cbn [deref mbind outcome_bind].
  destruct (getEnv _ _) as [q []]; [|left; by eexists].
  destruct (index0_cases (ctr_Names c)) as [[x ->]|Hp]; [left; by eexists|right].
  by destruct (index0 (ctr_Names c)).
Qed.

Lemma filter_containers_nothing r l node s :
  (∀ c, c ∈ l → task_FilterContainer (sr_scaleUpTaskFilter r) (sr_Filters r) c = false) → empty_up node →
  match filter_containers r l node s with
  | Ret (node', s') => s' = s ∧ empty_up node' ∧
      ((∀ c, c ∈ l → task_FilterContainer (sr_scaleDownTaskFilter r) (sr_Inaffinities r) c = false) →
       sn_isFreeNode node' = sn_isFreeNode node)
  | Err _ => False
  | Panic _ => True
  end.
Proof.
  revert node. induction l as [|c l IH]; intros node Hl Hup; simpl; [done|].
  unfold filterNodeContainers. rewrite Hl by left. cbn [mbind outcome_bind].
  destruct (task_FilterContainer (sr_scaleDownTaskFilter r) _ c) eqn:Hdown.
  - destruct (getSeizeContainer_cases c (sr_ScaleDownTaskType r)) as [[z ->]|Hp];
      [|by destruct (getSeizeContainer _ _)]. cbn [mbind outcome_bind fst snd].
    match goal with |- context [filter_containers r l ?n s] => specialize (IH n) end.
    destruct (filter_containers r l _ s) as [[node' s']| |]; [|apply IH; [set_solver|done]|done].
    destruct IH as (-> & Hup' & _); [set_solver|done|]. split_and!; [done..|].
    intros Hno. specialize (Hno c). rewrite Hdown in Hno. by discriminate Hno; left.
  - cbn [fst snd mbind outcome_bind]. specialize (IH node).
    destruct (filter_containers r l node s) as [[node' s']| |]; [|apply IH; [set_solver|done]|done].
    destruct IH as (-> & Hup' & Hfree); [set_solver|done|]. split_and!; [done..|]. set_solver.
Qed.

Lemma classify_nothing r l free pool s :
  nothing_matches r l → Forall empty_up free → Forall empty_up pool →
  match classify r l free pool s with
  | Ret (free', pool', s') =>
      s' = s ∧ Forall empty_up free' ∧ Forall empty_up pool' ∧
      (free ≠ [] ∨ Exists (unoccupied r) l → free' ≠ [])
  | Err _ => False
  | Panic _ => True
  end.
Proof.
  revert free pool. induction l as [|[p e] l IH]; intros free pool Hl Hf Hp; simpl.
  { split_and!; [done..|]. intros [?|Hex]; [done|]. by apply Exists_nil in Hex. }
  assert (nothing_matches r l) as Hl' by (intros q e' c Hq; apply (Hl q e' c); by right).
  assert (∀ (b : bool) free' pool', Forall empty_up free' → Forall empty_up pool' →
    (free ≠ [] ∨ Exists (unoccupied r) ((p, e) :: l) → free' ≠ [] ∨ Exists (unoccupied r) l) →
    match classify r l free' pool' s with
    | Ret (free'', pool'', s') => s' = s ∧ Forall empty_up free'' ∧ Forall empty_up pool'' ∧
        (free ≠ [] ∨ Exists (unoccupied r) ((p, e) :: l) → free'' ≠ [])
    | Err _ => False | Panic _ => True end) as Hgo.
  { intros _ free' pool' Hf' Hp' Hex. specialize (IH free' pool' Hl' Hf' Hp').
    destruct (classify r l free' pool' s) as [[[f1 p1] s1]| |]; [|done..].
    destruct IH as (-> & ? & ? & Hne). split_and!; auto. }
  destruct (filterConstraintEngine (e_hdr e) (sr_Constraints r)) eqn:Hcons.
  2: { apply (Hgo true); [done..|]. intros [?|[[Hc _]|Hex]%Exists_cons]; auto. simpl in Hc. congruence. }
  pose proof (filter_containers_nothing r (Containers e) (new_node p e) s) as Hnode.
  destruct (filter_containers r (Containers e) (new_node p e) s) as [[node s1]| |]; cbn [mbind outcome_bind];
    [|apply Hnode; [|done]; intros c Hc; by apply (Hl p e c); [left|..]|done].
  destruct Hnode as (-> & Hup & Hfree); [intros c Hc; by apply (Hl p e c); [left|..]|done|].
  destruct (sn_isFreeNode node) eqn:Hn.
  - apply (Hgo true); [by apply Forall_app; split; [|constructor]|done|]. intros _. left. by destruct free.
  - assert (free ≠ [] ∨ Exists (unoccupied r) ((p, e) :: l) → free ≠ [] ∨ Exists (unoccupied r) l) as Hex.
    { intros [?|[[_ Hd]|Hex]%Exists_cons]; auto. simpl in Hd. specialize (Hfree Hd). done. }
    destruct (negb _); apply (Hgo true); try done. apply Forall_app. by split; [|constructor].
Qed.

(** When no container matches, and some node is unoccupied, the create filter panics
    instead of reporting that there is nothing to copy. *)
Theorem seize_without_template_panics c r h :
  sr_scaleUpTaskFilter r = CreateTaskFilter → 0 < it_Number (sr_item r) < 2^63 →
  nothing_matches r (engine_list c) → Exists (unoccupied r) (engine_list c) →
  is_panic (seize_Filter int_of_inf c r h).
Proof.
  intros Hk HN Hno Hex. unfold seize_Filter.
  pose proof (classify_nothing r (engine_list c) [] [] initial_state Hno) as Hcl.
  destruct (classify r (engine_list c) [] [] initial_state) as [[[free pool] s]| |]; [|by apply Hcl|done].
  destruct Hcl as (-> & Hf & Hp & Hne); [done..|]. specialize (Hne (or_intror Hex)).
  cbn [mbind outcome_bind]. change (ss_AppLots initial_state =? -1) with true. cbn [negb].
  set (enough := _ <=? wrap64 _). set (pool1 := if enough then [] else pool). set (s1 := if enough then _ else _).
  assert (idle s1) as Hs1 by (unfold s1; by destruct enough).
  assert (Forall empty_up pool1) as Hpool1 by (unfold pool1; by destruct enough).
  apply is_panic_bind. unfold doPriority.
  pose proof (do_nodes_idle r pool1 s1 h Hk HN Hs1 Hpool1) as Hdo.
  destruct (do_nodes r pool1 s1 h) as [[[pool2 s2] h2]| |]; cbn [mbind outcome_bind]; [|done..].
  assert (∃ node free', free = node :: free' ∧ empty_up node) as (node & free' & -> & Hnode).
  { destruct free as [|node free']; [done|]. apply Forall_cons in Hf as [Hnode _]. eauto. }
  assert (∀ pool3 h3, is_panic (do_free r (node :: free') s2 h3 ≫= λ '(free, s, h),
    Ret (reorganizeContainers (it_Number (sr_item r)) free pool3, s, h))) as Hfree.
  { intros pool3 h3. simpl. by rewrite DoContainers_idle. }
  destruct (_ <? Z.of_nat _); [destruct (_ <? 0); [done|]|]; apply Hfree.
Qed.
End bounds.

(** ** Three engines of a zone *)

Section concrete.
Existing Instances re2 json_strings canonical_range insertion_sort.
(** Whether the arrays that [append] is given have spare cells. *)
Definition exact_slices : GoSlices := {| spare_cells := λ _, 0%nat; grow := λ n, n |}.
Definition roomy_slices : GoSlices := {| spare_cells := λ _, 1%nat; grow := λ n, n |}.

Definition zone_engine (p : ptr) (id : string) (m : gmap string Container) : Engine :=
  set_containers m (set_connected true (set_state stateHealthy
    (set_hdr {| eng_ID := id; eng_IP := ""; eng_Addr := id; eng_Name := id; eng_Labels := {["zone" := "a"]} |}
       (NewEngine p id 5 3 0)))).
Definition labelled (p : ptr) (id app : string) (env : list string) : Container := {|
  ctr_Container := {| lc_ID := id; lc_Names := ["/" +:+ id]; lc_Labels := {["app" := app]};
                      lc_State := "running"; lc_Created := 0; lc_Image := ""; lc_Ports := [] |};
  ctr_Config := Some (BuildContainerConfig (dc_set_Env env zero_DockerConfig) zero_HostConfig zero_NetworkingConfig);
  ctr_Info := zero_ContainerJSON; ctr_Engine := p |}.
Definition zone (a b c : list Container) : Cluster :=
  let ctrs (l : list Container) : gmap string Container := list_to_map ((λ x, (ctr_ID x, x)) <$> l) in
  mkCluster (<[0%nat := zone_engine 0 "A" (ctrs a)]> (<[1%nat := zone_engine 1 "B" (ctrs b)]>
               {[2%nat := zone_engine 2 "C" (ctrs c)]}))
    (<["A" := 0%nat]> (<["B" := 1%nat]> {["C" := 2%nat]})) ∅ ∅ false.
Definition seize_item (n : Z) (envs : list string) : ScaleItem :=
  {| it_Filters := ["app==web"]; it_Number := n;
     it_ENVs := ["constraint:zone==a"; "affinity:app!=batch"] ++ envs; it_Labels := ∅ |}.
(** One web container, one batch container of each priority: the smaller number is the
    higher priority. *)
Definition web : Container := labelled 0 "w1" "web" ["PRIORITY=3"; "applots=1"].
Definition critical_batch : Container := labelled 1 "b1" "batch" ["PRIORITY=1"].
Definition common_batch : Container := labelled 2 "b2" "batch" ["PRIORITY=5"].
Definition busy_zone : Cluster := zone [web] [critical_batch] [common_batch].

(** The tasks a scale item asks for: names, task and environment. *)
Definition env_of (c : Cluster) (h : GoHeap) (k : tcontainer) : outcome (list string) :=
  cfg ← read_config c h k; Ret (cc_Env cfg).
Definition asked (c : Cluster) (h : GoHeap) (l : list SeizeContainer)
    : list (list string * TaskType * outcome (list string)) :=
  (λ z, (task_Names (sz_container z), sz_taskType z, env_of c h (sz_container z))) <$> l.
Definition seized (sl : GoSlices) (c : Cluster) (item : ScaleItem)
    : outcome (list (list string * TaskType * outcome (list string))) :=
  r ← NewSeizeResourceFilter item;
  x ← @seize_Filter _ _ sl 0 c r empty_heap;
  Ret (asked c x.2 x.1.1).

(** Priorities are not respected on the nodes that the loop does not reach.  With three
    copies in all the critical container is left alone; with two, the loop ends before its
    node, and it is destroyed although its priority is higher than that of the application. *)
Theorem seized_despite_priority :
  seized exact_slices busy_zone (seize_item 3 []) = Ret
    [(["/b2"], TaskTypeDestroyContainer, Ret ["PRIORITY=5"]);
     (["/w1"], TaskTypeCreateContainer, Ret ["PRIORITY=3"; "applots=1"; "constraint:node==C"])] ∧
  seized exact_slices busy_zone (seize_item 2 []) = Ret
    [(["/b2"], TaskTypeDestroyContainer, Ret ["PRIORITY=5"]);
     (["/w1"], TaskTypeCreateContainer, Ret ["PRIORITY=3"; "applots=1"; "constraint:node==C"]);
     (["/b1"], TaskTypeDestroyContainer, Ret ["PRIORITY=1"])].
Proof. split; vm_compute; reflexivity. Qed.

Definition environments (o : outcome (list (list string * TaskType * outcome (list string))))
    : list (outcome (list string)) :=
  match o with Ret l => (λ x, x.2) <$> l | _ => [] end.

(** Both copies are made for their own node when the array is full, and for the second
    node when it has room. *)
Example two_free_nodes :
  environments (seized exact_slices (zone [web] [] []) (seize_item 3 [])) =
    [Ret ["PRIORITY=3"; "applots=1"; "constraint:node==C"]; Ret ["PRIORITY=3"; "applots=1"; "constraint:node==B"]] ∧
  environments (seized roomy_slices (zone [web] [] []) (seize_item 3 [])) =
    [Ret ["PRIORITY=3"; "applots=1"; "constraint:node==B"]; Ret ["PRIORITY=3"; "applots=1"; "constraint:node==B"]].
Proof. split; vm_compute; reflexivity. Qed.

(** The request of the examples, as parsed. *)
Definition parsed (item : ScaleItem) : SeizeRequest :=
  match NewSeizeResourceFilter item with
  | Ret r => r
  | _ => {| sr_item := item; sr_ScaleUpTaskType := TaskTypeCreateContainer;
            sr_ScaleDownTaskType := TaskTypeDestroyContainer; sr_scaleUpTaskFilter := CreateTaskFilter;
            sr_scaleDownTaskFilter := DestroyTaskFilter; sr_Constraints := []; sr_Inaffinities := [];
            sr_Filters := [] |}
  end.
Definition classified (c : Cluster) (item : ScaleItem) : list SeizeNode * list SeizeNode * SeizeState :=
  match classify (parsed item) (engine_list c) [] [] initial_state with
  | Ret x => x
  | _ => ([], [], initial_state)
  end.
Definition filtered (c : Cluster) (item : ScaleItem) : list SeizeContainer * SeizeState * GoHeap :=
  match @seize_Filter _ _ exact_slices 0 c (parsed item) empty_heap with
  | Ret x => x
  | _ => ([], initial_state, empty_heap)
  end.


(** The loop of [doPriority] on the nodes of the busy zone. *)
Definition visited (item : ScaleItem) : list SeizeNode * SeizeState * GoHeap :=
  match @do_nodes exact_slices (parsed item) (classified busy_zone item).1.2
    (ss_set_AppLots 1 (classified busy_zone item).2) empty_heap with
  | Ret x => x
  | _ => ([], initial_state, empty_heap)
  end.
Lemma do_nodes_priority_witness :
  ∃ k, Forall (seizable 3) (take k (visited (seize_item 2 [])).1.1).
Proof.
  destruct (@do_nodes_priority exact_slices (parsed (seize_item 2 [])) (classified busy_zone (seize_item 2 [])).1.2
    (ss_set_AppLots 1 (classified busy_zone (seize_item 2 [])).2) empty_heap
    (visited (seize_item 2 [])).1.1 (visited (seize_item 2 [])).1.2 (visited (seize_item 2 [])).2)
    as (k & _ & _ & Hk & _); [vm_compute; reflexivity|].
  exists k. exact Hk.
Defined.

(** Nothing to copy. *)
Definition no_web : Cluster := zone [common_batch] [] [].
Lemma no_web_engines : engine_list no_web =
  [(2%nat, zone_engine 2 "C" ∅); (0%nat, zone_engine 0 "A" {["b2" := common_batch]}); (1%nat, zone_engine 1 "B" ∅)].
Proof. vm_compute. reflexivity. Qed.
Lemma no_web_matches : nothing_matches (parsed (seize_item 2 [])) (engine_list no_web).
Proof.
  intros p e c Hin _ Hc. rewrite no_web_engines in Hin.
  apply elem_of_cons in Hin as [[= -> ->]|[[= -> ->]|[= -> ->]%list_elem_of_singleton]%elem_of_cons];
    vm_compute in Hc; try by apply elem_of_nil in Hc.
  apply list_elem_of_singleton in Hc as ->. vm_compute. reflexivity.
Qed.
Lemma seize_without_template_panics_witness :
  is_panic (@seize_Filter _ _ exact_slices 0 no_web (parsed (seize_item 2 [])) empty_heap).
Proof.
  apply (@seize_without_template_panics _ _ exact_slices 0 no_web (parsed (seize_item 2 [])) empty_heap);
    [vm_compute; reflexivity|vm_compute; by split|exact no_web_matches|].
  rewrite no_web_engines. left. split; [vm_compute; reflexivity|].
  intros c Hc. vm_compute in Hc. by apply elem_of_nil in Hc.
Defined.

(** Two copies of one configuration, in an array with a spare cell. *)
Definition shared_env : GoHeap :=
  gh_set_envs {[object_of web := {| sl_array := 0; sl_len := 2 |}]}
    (gh_set_arrays {[0%nat := ["PRIORITY=3"; "applots=1"; ""]]} empty_heap).
Definition seizing_web : SeizeState :=
  {| ss_scaleUpAppPriority := 3; ss_AppLots := 1; ss_scaleUpedCount := 1; ss_needFreeEngineNumber := 0;
     ss_createContainer := Some (web, 3) |}.
Definition free_node (id : string) : SeizeNode :=
  {| sn_engine := 0%nat; sn_Name := id; sn_scaleUpContainers := []; sn_scaleDownContainers := [];
     sn_isFreeNode := true; sn_cantSeize := false; sn_alreadyHasFree := -1 |}.
Definition copied (node : SeizeNode) (s : SeizeState) (h : GoHeap) : SeizeNode * SeizeState * GoHeap :=
  match @add_copy roomy_slices node s h with Ret x => x | _ => (node, s, h) end.
Definition first_copied := copied (free_node "C") seizing_web shared_env.
Definition second_copied := copied (free_node "B") first_copied.1.2 first_copied.2.
Lemma copies_share_env_witness :
  ∃ i cp, sn_scaleUpContainers first_copied.1.1 = [copy_of web i] ∧ gh_copies second_copied.2 !! i = Some cp ∧
    contents second_copied.2 (cp_Env cp) = ["PRIORITY=3"; "applots=1"; "constraint:node==B"].
Proof.
  destruct (@copies_share_env roomy_slices (free_node "C") (free_node "B") seizing_web shared_env
    first_copied.1.2 first_copied.2 second_copied.1.2 second_copied.2 first_copied.1.1 second_copied.1.1 web 3
    {| sl_array := 0; sl_len := 2 |}) as (i & _ & cp & _ & Hup & _ & Hcp & _ & _ & Henv);
    try (vm_compute; reflexivity); [by eexists|vm_compute; lia|].
  exists i, cp. split_and!; [exact Hup|exact Hcp|rewrite Henv; vm_compute; reflexivity].
Defined.
End concrete.
