(* ===== verification/Scale.v ===== *)
(** * Scaling: a whole request ([cluster/swarm/cluster.go])

    [Scale] turns every item of a request into tasks and then runs them all. *)
From S2P Require Import Prelude GoStrings Regexp Json Config Container EngineState EngineOps Strategy Filters Scheduler SwarmRegistry SwarmCluster Watchdog ScaleUtils Tasks TaskHeap LocalProcessor ScaleFilter Seize.

Section scale.
Context {W : Type} (api : ptr → DockerAPI W).
Context `{GoRegexp} `{GoJson} `{GoNet} `{MapRange} `{GoSort} `{GoSlices} (Intn : Z → Z).
Context (scheduler : Scheduler) (createRetry : Z) (name_id : nat → string) (ids : nat → id_draws).
Context (int_of_inf : Z) (rand : nat → nat → nat → Z).

Definition set_cluster (f : Cluster → Cluster) : P W unit := in_cluster (modify_cluster f).
Definition set_heap (h : GoHeap) : P W unit := λ st,
  (Ret tt, mkPS (ps_cs st) h (ps_calls st) (ps_goroutines st)).

(** The configurations of the containers of the filter, written where they belong. *)
Definition write_back (c : Cluster) (x : Container) : Cluster :=
  match ctr_Config x with
  | Some cfg => update_object (ctr_set_Config cfg) (object_of x) c
  | None => c
  end.

(** The body of the loop over the items; [i] numbers the items. *)
Definition process_item (i : nat) (item : ScaleItem) (t : Tasks tcontainer) : P W (Tasks tcontainer) :=
  st ← get_proc;
  let c := cs_cluster (ps_cs st) in
  if IsResourceSeize item then
    r ← lift_p (NewSeizeResourceFilter item);
    x ← lift_p (seize_Filter int_of_inf c r (ps_heap st));
    let '(l, _, h) := x in
    set_heap h ;;
    set_cluster (sync_envs h) ;;
    lift_p (seize_AddTasks (rand i) l t)
  else
    o ← lift_p (NewFilter c item);
    match o with
    | None => mret t
    | Some (k, f) =>
        r ← lift_p (scale_Filter (hdr_at c) k f);
        let f := r.2 in
        set_cluster (λ c, foldl write_back c (elems (fb_containers f))) ;;
        lift_p (scale_AddTasks (rand i) Stored k f t)
    end.

Fixpoint process_items (i : nat) (items : list ScaleItem) (t : Tasks tcontainer) : P W (Tasks tcontainer) :=
  match items with
  | [] => mret t
  | item :: items' => t ← process_item i item t; process_items (S i) items' t
  end.

Definition processor : TaskProssesor tcontainer (ProcSt W) :=
  LocalProcessor api Intn scheduler createRetry name_id ids.

(** [tasks.DoTasks()], with as many iterations as it can take. *)
Definition run_tasks (t : Tasks tcontainer) : P W (list string) := λ st,
  match @DoTasks _ _ processor (S (attempts (tasks_of t))) t st with
  | Some (o, st') => (r ← o; Ret r.2, st')
  | None => (Err "not enough iterations", st)
  end.

(** [Scale(scaleConfig)]: the error of [DoTasks] is always nil, so what is returned is the
    nil slice. *)
Definition Scale (items : list ScaleItem) : P W (option (list string)) :=
  t ← process_items 0 items NewTasks;
  run_tasks t ;;
  mret None.
End scale.

(** ** A request is served *)

Section served.
Context {W : Type} (api : ptr → DockerAPI W).
Context `{GoRegexp} `{GoJson} `{GoNet} `{MapRange} `{GoSort} `{GoSlices} (Intn : Z → Z).
Context (scheduler : Scheduler) (createRetry : Z) (name_id : nat → string) (ids : nat → id_draws).
Context (int_of_inf : Z) (rand : nat → nat → nat → Z).
Implicit Types st : ProcSt W.

Lemma P_bind_Ret {A B} (m : P W A) (f : A → P W B) st b st' :
  (m ≫= f) st = (Ret b, st') → ∃ a st1, m st = (Ret a, st1) ∧ f a st1 = (Ret b, st').
Proof. unfold mbind, P_bind. destruct (m st) as [[a|e|w] st1]; [|done..]. intros Hf. by exists a, st1. Qed.

Lemma seize_AddTasks_ok f l t t' : seize_AddTasks f l t = Ret t' → queue_ok t → queue_ok t'.
Proof.
  revert t. induction l as [|z l IH]; intros t; simpl; [by intros [= <-]|].
  intros Hrun Ht. apply bind_Ret_inv in Hrun as (t1 & Hadd & Hrest).
  eapply IH; [done|]. by eapply AddTask_ok.
Qed.
Lemma add_repeatedly_ok (f : nat → nat → Z) i n (cs : slice tcontainer) ty t :
  queue_ok t → queue_ok (add_repeatedly f i n cs ty t).
Proof. revert i t. induction n as [|n IH]; intros i t Ht; simpl; [done|]. by apply IH, AddTasks_ok. Qed.
Lemma scale_AddTasks_ok f k b t t' : scale_AddTasks f Stored k b t = Ret t' → queue_ok t → queue_ok t'.
Proof.
  unfold scale_AddTasks. intros Hrun Ht. destruct k.
  - apply bind_Ret_inv in Hrun as (c & _ & Hrun). apply bind_Ret_inv in Hrun as (? & _ & [= <-]).
    by apply add_repeatedly_ok.
  - destruct (_ && _).
    + apply bind_Ret_inv in Hrun as (x & _ & [= <-]). by apply add_repeatedly_ok, AddTasks_ok.
    + injection Hrun as <-. by apply AddTasks_ok.
  - injection Hrun as <-. by apply AddTasks_ok.
  - injection Hrun as <-. by apply AddTasks_ok.
Qed.

Lemma process_items_ok i items t st t' st' :
  process_items int_of_inf rand i items t st = (Ret t', st') → queue_ok t → queue_ok t'.
Proof.
  revert i t st. induction items as [|item items IH]; intros i t st; simpl; [by intros [= <- <-]|].
  intros Hrun Ht. apply P_bind_Ret in Hrun as (t1 & st1 & Hone & Hrest). eapply IH; [exact Hrest|].
  clear IH Hrest. unfold process_item in Hone. apply P_bind_Ret in Hone as (s & st2 & [= <- <-] & Hone).
  destruct (IsResourceSeize item).
  - apply P_bind_Ret in Hone as (r & st3 & _ & Hone).
    apply P_bind_Ret in Hone as ([[l s] h] & st4 & _ & Hone).
    apply P_bind_Ret in Hone as (? & st5 & _ & Hone). apply P_bind_Ret in Hone as (? & st6 & _ & Hone).
    injection Hone as Hone _. by eapply seize_AddTasks_ok.
  - apply P_bind_Ret in Hone as ([[k f]|] & st3 & _ & Hone); [|by injection Hone as <- _].
    apply P_bind_Ret in Hone as (r & st4 & _ & Hone). apply P_bind_Ret in Hone as (? & st5 & _ & Hone).
    injection Hone as Hone _. by eapply scale_AddTasks_ok.
Qed.

(** Running the tasks made of the items, and what comes of it. *)
Lemma Scale_run items st t st1 :
  process_items int_of_inf rand 0 items NewTasks st = (Ret t, st1) →
  ∃ tr st2 w,
    @served _ _ (processor api Intn scheduler createRetry name_id ids) (tasks_of t) st1 tr st2 w ∧
    (length tr ≤ attempts (tasks_of t))%nat ∧
    Scale api Intn scheduler createRetry name_id ids int_of_inf rand items st
    = (match w with None => Ret None | Some w => Panic w end, st2).
Proof.
  intros Hitems. pose proof (process_items_ok _ _ _ _ _ _ Hitems new_queue_ok) as [Hwf Hall].
  destruct (@DoTasks_served _ _ (processor api Intn scheduler createRetry name_id ids) t st1
    (S (attempts (tasks_of t))) Hwf Hall) as (tr & st2 & w & Hs & Hrun); [lia|].
  destruct (@served_counts _ _ (processor api Intn scheduler createRetry name_id ids) _ st1 tr st2 w Hs Hall) as [Hl _].
  exists tr, st2, w. split; [done|]. split; [done|].
  unfold Scale. unfold mbind at 1, P_bind at 1. rewrite Hitems. unfold mbind at 1, P_bind at 1. unfold run_tasks.
  destruct w as [w|]; [by rewrite Hrun|]. destruct Hrun as (t' & -> & _). done.
Qed.

End served.

(** ** A replica and its template *)

Section concrete.
Existing Instances re2 json_strings net_zero canonical_range insertion_sort.
(** Engine [A] holds the template [c1], with Swarm ID [S1]; engine [B] will hold the
    replica. *)
Definition replica_config (id : string) : ContainerConfig :=
  SetSwarmID id (BuildContainerConfig zero_DockerConfig zero_HostConfig zero_NetworkingConfig).
Definition app_on (p : ptr) (id name swarmID : string) : Container := {|
  ctr_Container := {| lc_ID := id; lc_Names := ["/" +:+ name]; lc_Labels := {["app" := "web"]};
                      lc_State := "running"; lc_Created := 0; lc_Image := ""; lc_Ports := [] |};
  ctr_Config := Some (replica_config swarmID);
  ctr_Info := {| ci_Name := "/" +:+ name; ci_HostConfig := Some zero_HostConfig; ci_State := Some running_state;
                 ci_Config := Some (cc_Config (replica_config swarmID)); ci_NetworkSettings := None; ci_Created := ""; ci_ExecIDs := []; ci_Mounts := [] |};
  ctr_Engine := p |}.
Definition inspect_of (x : Container) (cfg : ContainerConfig) : Inspect := {|
  in_Name := ci_Name (ctr_Info x); in_HostConfig := zero_HostConfig; in_State := running_state;
  in_Config := cc_Config cfg; in_NetworkSettings := {| ns_Ports := ∅; ns_Networks := ∅ |};
  in_Created := ""; in_ExecIDs := []; in_Mounts := [] |}.
Definition template : Container := app_on 0 "c1" "web" "S1".
Definition replica : Container := app_on 1 "c0" "web---0123456789" "X1".
Definition scale_daemons (p : ptr) : DockerAPI unit :=
  match p with
  | 0%nat => holding_daemon (info_of "A") [(ctr_Container template, inspect_of template (replica_config "S1"))]
  | _ => holding_daemon (info_of "B") [(ctr_Container replica, inspect_of replica (replica_config "X1"))]
  end.
Definition before_scale : ProcSt unit :=
  mkPS (two_engines (engine_at 0 "A" stateHealthy {["c1" := template]}) (engine_at 1 "B" stateHealthy ∅))
    empty_heap 0 [].
Definition one_draw : nat → id_draws := λ _, {| dr_first := ["X1"]; dr_second := ["X1"]; dr_retry := λ _, ["X1"] |}.
Definition scale_by (item : ScaleItem) : outcome (option (list string)) * ProcSt unit :=
  @Scale unit scale_daemons _ _ _ _ _ exact_slices (λ _, 0) health_scheduler 0 (λ _, "0123456789abcdef") one_draw
    0 (λ _ _ _, 0) [item] before_scale.
Definition swarm_ids (c : Cluster) : list (string * string) := (λ x, (ctr_ID x, swarm_of x)) <$> cluster_Containers c.
Definition web_request : ScaleItem := scale_request "app==web" 1.
Definition scaled : outcome (option (list string)) * ProcSt unit := scale_by web_request.
(** The watchdog's task for the engine of the template, when it comes back. *)
Definition reconnected (st : ClusterSt unit) : Cluster :=
  cs_cluster (removeDuplicateContainers scale_daemons 0 st).2.

(** Scaling up costs the template its identity.  The replica's Swarm ID is written into the
    labels that the configuration of the template shares; both containers then have it.
    When the engine of the template next reconnects, the template is a duplicate of its own
    replica, and it is removed; had the replica not been made, it would have been kept. *)
Theorem template_destroyed_on_reconnect :
  scaled.1 = Ret None ∧
  swarm_ids (cs_cluster (ps_cs before_scale)) = [("c1", "S1")] ∧
  swarm_ids (cs_cluster (ps_cs scaled.2)) = [("c1", "X1"); ("c0", "X1")] ∧
  swarm_ids (reconnected (ps_cs scaled.2)) = [("c0", "X1")] ∧
  swarm_ids (reconnected (ps_cs before_scale)) = [("c1", "S1")].
Proof. split_and!; vm_compute; reflexivity. Qed.

(** The tasks of the request. *)
Definition web_tasks : outcome (Tasks tcontainer) * ProcSt unit :=
  @process_items unit _ _ _ exact_slices 0 (λ _ _ _, 0) 0 [web_request] NewTasks before_scale.
Definition tasks_made : Tasks tcontainer := match web_tasks.1 with Ret t => t | _ => NewTasks end.
End concrete.
