(* ===== verification/ScaleApi.v ===== *)
(** * Scaling through the API ([postScale] of [api/handlers.go])

    The handler of the scale request: the body is decoded, the request is run, and the
    names that it returns are encoded.  It changes the state of the local task processor,
    of which the cluster is a part. *)
From S2P Require Import Prelude GoStrings Regexp Json Config Container EngineState EngineOps Filters Scheduler SwarmRegistry SwarmCluster Watchdog ScaleUtils ApiList ApiUtils Tasks TaskHeap LocalProcessor Seize Scale.

Section scale_api.
Context {W : Type} (api : ptr → DockerAPI W).
Context `{GoRegexp} `{GoJson} `{GoNet} `{MapRange} `{GoSort} `{GoSlices} (Intn : Z → Z).
Context (scheduler : Scheduler) (createRetry : Z) (name_id : nat → string) (ids : nat → id_draws).
Context (int_of_inf : Z) (rand : nat → nat → nat → Z).
(** [json.NewDecoder(r.Body).Decode(&scaleConfig)] *)
Context (decode_scale : string → list ScaleItem + string).

Definition postScale (r : Request) : P W (list effect) :=
  match (match rq_Body r with inl body => decode_scale body | inr err => inr err end) with
  | inr err => mret [httpError err 400]
  | inl items =>
      containers ← Scale api Intn scheduler createRetry name_id ids int_of_inf rand items;
      mret [Write (ScaledNames containers)]
  end.

(** Once its items have been turned into tasks, a scale request is answered when the last
    task has been run, unless a run panics: with the status 200 and without any name,
    whichever tasks failed. *)
Theorem postScale_answer r body items st t st1 :
  rq_Body r = inl body → decode_scale body = inl items →
  process_items int_of_inf rand 0 items NewTasks st = (Ret t, st1) →
  ∃ tr st2 w,
    @served _ _ (processor api Intn scheduler createRetry name_id ids) (tasks_of t) st1 tr st2 w ∧
    postScale r st = (match w with None => Ret [Write (ScaledNames None)] | Some w => Panic w end, st2) ∧
    status_of [Write (ScaledNames None)] = 200.
Proof.
  intros Hb Hd Hitems.
  destruct (Scale_run api Intn scheduler createRetry name_id ids int_of_inf rand items st t st1 Hitems)
    as (tr & st2 & w & Hs & _ & Hrun).
  exists tr, st2, w. split; [done|]. split; [|done]. unfold postScale. rewrite Hb, Hd.
  unfold mbind, P_bind. rewrite Hrun. by destruct w.
Qed.
End scale_api.

(** ** One more replica *)

Section concrete.
Existing Instances re2 json_strings net_zero canonical_range insertion_sort.
Definition scale_message : Request :=
  {| rq_Path := "/scale"; rq_RawQuery := ""; rq_Query := ∅; rq_Form := ∅; rq_FormErr := None; rq_vars := ∅;
     rq_Header := λ _, ""; rq_Body := inl "web"; rq_RemoteAddr := "" |}.
Definition decode_web (body : string) : list ScaleItem + string :=
  if String.eqb body "web" then inl [web_request] else inr "invalid character".
Definition scale_post (r : Request) : outcome (list effect) * ProcSt unit :=
  @postScale unit scale_daemons _ _ _ _ _ exact_slices (λ _, 0) health_scheduler 0 (λ _, "0123456789abcdef") one_draw
    0 (λ _ _ _, 0) decode_web r before_scale.
(** The replica is made and the answer does not say so. *)
Example scale_unnamed :
  (scale_post scale_message).1 = Ret [Write (ScaledNames None)] ∧
  fst <$> swarm_ids (cs_cluster (ps_cs (scale_post scale_message).2)) = ["c1"; "c0"].
Proof. by vm_compute. Qed.
Lemma postScale_answer_witness :
  ∃ st2 w, scale_post scale_message = (match w with None => Ret [Write (ScaledNames None)] | Some w => Panic w end, st2).
Proof.
  destruct (@postScale_answer unit scale_daemons _ _ _ _ _ exact_slices (λ _, 0) health_scheduler 0
    (λ _, "0123456789abcdef") one_draw 0 (λ _ _ _, 0) decode_web scale_message "web" [web_request] before_scale
    tasks_made web_tasks.2) as (tr & st2 & w & _ & Hrun & _); [done|done|vm_compute; reflexivity|].
  exists st2, w. exact Hrun.
Defined.
End concrete.
