(* ===== verification/MesosTask.v ===== *)
(** * Mesos tasks ([cluster/mesos/task/task.go], [task/utils.go])

    The messages of the Mesos protocol that the back end reads and writes, the task that
    asks for one container, its launching request and its status updates. *)
From S2P Require Import Prelude GoStrings GoFloat Config Container.
From Stdlib Require Import SpecFloat.

(** ** Messages ([mesosproto]) *)

Inductive Value_Type := Value_SCALAR | Value_RANGES | Value_SET | Value_TEXT.
(** [Value_Range], as read by [GetBegin] and [GetEnd]: two [uint64]. *)
Record Value_Range := { vr_Begin : Z; vr_End : Z }.
(** [Resource]; a scalar without a value is as good as none. *)
Record Resource := {
  rs_Name : string;
  rs_Type : Value_Type;
  rs_Scalar : option spec_float;
  rs_Ranges : list Value_Range
}.
(** [mesosutil.NewScalarResource] and [NewRangesResource] *)
Definition NewScalarResource (name : string) (val : spec_float) : Resource :=
  {| rs_Name := name; rs_Type := Value_SCALAR; rs_Scalar := Some val; rs_Ranges := [] |}.
Definition NewRangesResource (name : string) (ranges : list Value_Range) : Resource :=
  {| rs_Name := name; rs_Type := Value_RANGES; rs_Scalar := None; rs_Ranges := ranges |}.

Record Attribute := { at_Name : string; at_Type : Value_Type; at_Scalar : spec_float; at_Text : string }.
(** [Offer]; the identifiers are those that [GetValue] returns. *)
Record Offer := {
  of_Id : string;
  of_SlaveId : string;
  of_Hostname : option string;
  of_Resources : list Resource;
  of_Attributes : list Attribute
}.

Inductive TaskState :=
  | TASK_STAGING | TASK_STARTING | TASK_RUNNING | TASK_FINISHED | TASK_FAILED
  | TASK_KILLED | TASK_LOST | TASK_ERROR.
Record TaskStatus := {
  ts_TaskId : string;
  ts_SlaveId : string;
  ts_State : TaskState;
  ts_Message : string;
  ts_Data : option string
}.

Inductive DockerNetwork := network_HOST | network_BRIDGE | network_NONE.
(** [ContainerInfo_DockerInfo_PortMapping]: two [uint32] and a protocol. *)
Record PortMapping := { pm_HostPort : Z; pm_ContainerPort : Z; pm_Protocol : string }.
(** [ContainerInfo] with its [DockerInfo] *)
Record ContainerInfo := {
  mc_Image : string;
  mc_Hostname : option string;
  mc_Network : option DockerNetwork;
  mc_PortMappings : list PortMapping;
  mc_Parameters : list (string * string)
}.
Record CommandInfo := { cmd_Shell : bool; cmd_Value : option string; cmd_Arguments : list string }.
Record TaskInfo := {
  ti_Name : string;
  ti_TaskId : string;
  ti_SlaveId : option string;
  ti_Labels : list (string * string);
  ti_Container : option ContainerInfo;
  ti_Command : option CommandInfo;
  ti_Resources : list Resource
}.

(** ** The task *)

(** [type Task struct], without its channels *)
Record MesosTask := {
  mt_TaskInfo : TaskInfo;
  mt_config : ContainerConfig;
  mt_done : bool
}.
Definition ID (t : MesosTask) : string := ti_TaskId (mt_TaskInfo t).
Definition GetConfig (t : MesosTask) : ContainerConfig := mt_config t.
Definition Stopped (t : MesosTask) : bool := mt_done t.
Definition Stop (t : MesosTask) : MesosTask :=
  {| mt_TaskInfo := mt_TaskInfo t; mt_config := mt_config t; mt_done := true |}.

Definition mesos_name_label : string := SwarmLabelNamespace +:+ ".mesos.name".
Definition mesos_task_label : string := SwarmLabelNamespace +:+ ".mesos.task".
Definition mesos_detach_label : string := SwarmLabelNamespace +:+ ".mesos.detach".

(** [NewTask(config, name, timeout)], up to the starting of [suicide]; [random] is the
    random identifier.  The labels of the caller's configuration are written too: it is
    the configuration of the task. *)
Definition NewTask (config : ContainerConfig) (name random : string) : MesosTask :=
  let id := TruncateID random in
  let id := if negb (String.eqb name "") then name +:+ "." +:+ id else id in
  let labels := <[mesos_task_label := id]> (<[mesos_name_label := name]> (cc_Labels config)) in
  {| mt_TaskInfo := {| ti_Name := name; ti_TaskId := id; ti_SlaveId := None;
                       ti_Labels := [("SWARM_CONTAINER_NAME", name)];
                       ti_Container := None; ti_Command := None; ti_Resources := [] |};
     mt_config := cc_set_Labels labels config;
     mt_done := false |}.

(** What [suicide] reports when the time is over: nothing once the task has stopped or has
    been given an agent. *)
Definition suicide (timeout : string) (t : MesosTask) : option string :=
  if negb (Stopped t) && bool_decide (ti_SlaveId (mt_TaskInfo t) = None)
  then Some ("container failed to start after " +:+ timeout) else None.

(** [Monitor()] on the status it reads: whether the task is finished, the data, the error. *)
Definition Monitor (status : TaskStatus) : bool * option string * option string :=
  match ts_State status with
  | TASK_STAGING | TASK_STARTING | TASK_RUNNING => (false, ts_Data status, None)
  | TASK_FINISHED | TASK_KILLED => (true, ts_Data status, None)
  | TASK_FAILED =>
      let m := ts_Message status in
      (true, None, Some (if Contains m "Abnormal executor termination"
                         then m +:+ " : please verify your SWARM_MESOS_USER is correctly set" else m))
  | TASK_LOST | TASK_ERROR => (true, None, Some (ts_Message status))
  end.

(** ** Ports *)

Definition uint64_max : Z := 2^64 - 1.
(** The loop [for i := begin; i <= end; i++] on [uint64], with at most [fuel] iterations. *)
Fixpoint range_ports (fuel : nat) (i last : Z) : option (list Z) :=
  match fuel with
  | O => None
  | S f => if i <=? last then cons i <$> range_ports f ((i + 1) mod 2^64) last else Some []
  end.
Fixpoint ranges_ports (fuel : nat) (l : list Value_Range) : option (list Z) :=
  match l with
  | [] => Some []
  | r :: l' =>
      p ← range_ports fuel (vr_Begin r) (vr_End r);
      app p <$> ranges_ports fuel l'
  end.
Fixpoint resources_ports (fuel : nat) (l : list Resource) : option (list Z) :=
  match l with
  | [] => Some []
  | r :: l' =>
      p ← (if String.eqb (rs_Name r) "ports" then ranges_ports fuel (rs_Ranges r) else Some []);
      app p <$> resources_ports fuel l'
  end.
(** [getPorts(offer)] *)
Definition getPorts (fuel : nat) (offer : Offer) : option (list Z) := resources_ports fuel (of_Resources offer).
Fixpoint offers_ports (fuel : nat) (l : list Offer) : option (list Z) :=
  match l with
  | [] => Some []
  | o :: l' => p ← getPorts fuel o; app p <$> offers_ports fuel l'
  end.

(** [strconv.ParseUint(s, 10, 32)], when it gives no error *)
Definition ParseUint32 (s : string) : option Z :=
  match s with
  | EmptyString => None
  | _ => match digits 0 s with Some n => if n <? 2^32 then Some n else None | None => None end
  end.

(** The ports still free, the mappings and the resources made so far. *)
Record port_state := { ps_ports : list Z; ps_mappings : list PortMapping; ps_resources : list Resource }.

(** The mapping of a host port, and the resource it takes. *)
Definition bind_port (hostPort containerPort : Z) (protocol : string) (ports : list Z) (s : port_state)
    : port_state :=
  {| ps_ports := ports;
     ps_mappings := ps_mappings s ++ [{| pm_HostPort := hostPort mod 2^32; pm_ContainerPort := containerPort;
                                         pm_Protocol := protocol |}];
     ps_resources := ps_resources s ++
       [NewRangesResource "ports" [{| vr_Begin := hostPort; vr_End := hostPort |}]] |}.

(** The host port of a binding and the ports that remain, or none when it does not parse. *)
Definition host_port (b : PortBinding) (ports : list Z) : option (Z * list Z) :=
  if negb (String.eqb (pb_HostPort b) "") then (λ p, (p, ports)) <$> ParseUint32 (pb_HostPort b)
  else match ports with
       | p :: ports' => Some (p, ports')
       | [] => Some (0, [])
       end.

(** The body of the loop over the bindings of a port. *)
Definition bind_one (containerProtoPort : string) (s : port_state) (b : PortBinding) : port_state :=
  let containerInfo := SplitN2 containerProtoPort "/" in
  match ParseUint32 (default "" (head containerInfo)) with
  | None => s
  | Some containerPort =>
      match host_port b (ps_ports s) with
      | None => s
      | Some (hostPort, ports) =>
          if hostPort =? 0
          then {| ps_ports := ports; ps_mappings := ps_mappings s; ps_resources := ps_resources s |}
          else bind_port hostPort containerPort (default "tcp" (containerInfo !! 1%nat)) ports s
      end
  end.
Definition bind_ports (l : list (string * PortBinding)) (s : port_state) : port_state :=
  foldl (λ s x, bind_one x.1 s x.2) s l.
(** The pairs that the two nested loops go through. *)
Definition all_bindings `{MapRange} (m : PortMap) : list (string * PortBinding) :=
  mjoin ((λ x, (λ b, (x.1, b)) <$> x.2) <$> range_map m).

(** ** The launching request *)

Section build.
Context `{MapRange}.

Definition task_hostname (c : DockerConfig) : option string :=
  if String.eqb (dc_Hostname c) "" then None
  else if String.eqb (dc_Domainname c) "" then Some (dc_Hostname c)
  else Some (dc_Hostname c +:+ "." +:+ dc_Domainname c).

(** The [switch] on the network mode: the network and what the ports become. *)
Definition task_network (fuel : nat) (h : HostConfig) (offers : gmap string Offer) (s : port_state)
    : option (DockerNetwork * port_state) :=
  let mode := hc_NetworkMode h in
  if String.eqb mode "none" then Some (network_NONE, s)
  else if String.eqb mode "host" then Some (network_HOST, s)
  else if String.eqb mode "default" || String.eqb mode "bridge" || String.eqb mode "" then
    ports ← offers_ports fuel (range_map offers).*2;
    Some (network_BRIDGE, bind_ports (all_bindings (hc_PortBindings h))
      {| ps_ports := ports; ps_mappings := ps_mappings s; ps_resources := ps_resources s |})
  else Some (network_BRIDGE, s).

Definition task_resources (h : HostConfig) : list Resource :=
  (if 0 <? hc_CPUShares h then [NewScalarResource "cpus" (float64_of_int (hc_CPUShares h))] else []) ++
  (if 0 <? hc_Memory h then [NewScalarResource "mem" (float64_of_int (hc_Memory h ÷ 1024 ÷ 1024))] else []).

Definition task_command (cmd : list string) : CommandInfo := {|
  cmd_Shell := false;
  cmd_Value := match cmd with c :: _ => if String.eqb c "" then None else Some c | [] => None end;
  cmd_Arguments := match cmd with _ :: (_ :: _) as args => args | _ => [] end |}.

Definition task_parameters (c : DockerConfig) : list (string * string) :=
  ((λ x, ("label", x.1 +:+ "=" +:+ x.2)) <$> range_map (dc_Labels c)) ++
  ((λ v, ("env", v)) <$> dc_Env c) ++
  (if negb (dc_AttachStdin c) && negb (dc_AttachStdout c) && negb (dc_AttachStderr c)
   then [("label", mesos_detach_label +:+ "=true")] else []).

(** [Build(slaveID, offers)] *)
Definition Build (fuel : nat) (slaveID : string) (offers : gmap string Offer) (t : MesosTask)
    : option MesosTask :=
  let c := cc_Config (mt_config t) in
  let h := cc_HostConfig (mt_config t) in
  let ti := mt_TaskInfo t in
  x ← task_network fuel h offers {| ps_ports := []; ps_mappings := []; ps_resources := ti_Resources ti |};
  let '(network, s) := x in
  Some {|
    mt_TaskInfo := {|
      ti_Name := ti_Name ti; ti_TaskId := ti_TaskId ti; ti_SlaveId := Some slaveID; ti_Labels := ti_Labels ti;
      ti_Container := Some {| mc_Image := dc_Image c; mc_Hostname := task_hostname c; mc_Network := Some network;
                              mc_PortMappings := ps_mappings s; mc_Parameters := task_parameters c |};
      ti_Command := Some (task_command (dc_Cmd c));
      ti_Resources := ps_resources s ++ task_resources h |};
    mt_config := mt_config t; mt_done := mt_done t |}.
End build.

(** ** The ports of an offer *)

(** The ports of a range, and of all the ["ports"] resources of some offers, in order. *)
Definition range_list (r : Value_Range) : list Z := seqZ (vr_Begin r) (vr_End r - vr_Begin r + 1).
Definition resource_list (r : Resource) : list Z :=
  if String.eqb (rs_Name r) "ports" then mjoin (range_list <$> rs_Ranges r) else [].
Definition offer_list (o : Offer) : list Z := mjoin (resource_list <$> of_Resources o).
(** A range of [uint64]s that does not end with the largest one. *)
Definition range_ok (r : Value_Range) : Prop := 0 ≤ vr_Begin r ∧ vr_End r < uint64_max.
Definition offer_ok (o : Offer) : Prop := Forall (λ r, Forall range_ok (rs_Ranges r)) (of_Resources o).

Lemma range_ports_spec fuel i last :
  0 ≤ i → last < uint64_max → (Z.to_nat (last - i + 1) < fuel)%nat →
  range_ports fuel i last = Some (seqZ i (last - i + 1)).
Proof.
  unfold uint64_max. revert i. induction fuel as [|fuel IH]; intros i Hi Hlast Hfuel; [lia|]. simpl.
  destruct (Z.leb_spec i last) as [Hle|Hgt].
  - rewrite Z.mod_small by lia. rewrite IH by lia. rewrite (seqZ_cons i) by lia. cbn.
    do 2 f_equal. f_equal; lia.
  - by rewrite seqZ_nil by lia.
Qed.
(** A range that ends with the largest [uint64] is never left. *)
Lemma range_ports_diverges fuel i : 0 ≤ i ≤ uint64_max → range_ports fuel i uint64_max = None.
Proof.
  unfold uint64_max. revert i. induction fuel as [|fuel IH]; intros i Hi; simpl; [done|].
  rewrite (proj2 (Z.leb_le _ _)) by lia. rewrite IH; [done|].
  pose proof (Z.mod_pos_bound (i + 1) (2^64)). lia.
Qed.

(** Enough iterations for each range. *)
Definition range_fuel (r : Value_Range) : nat := S (Z.to_nat (vr_End r - vr_Begin r + 1)).
Definition offer_fuel (o : Offer) : nat :=
  foldr (λ r n, Nat.max (foldr (λ v m, Nat.max (range_fuel v) m) 0%nat (rs_Ranges r)) n) 0%nat (of_Resources o).
Definition offers_fuel (l : list Offer) : nat := foldr (λ o n, Nat.max (offer_fuel o) n) 0%nat l.

Lemma ranges_ports_spec fuel l :
  Forall range_ok l → (foldr (λ v m, Nat.max (range_fuel v) m) 0 l ≤ fuel)%nat →
  ranges_ports fuel l = Some (mjoin (range_list <$> l)).
Proof.
  induction 1 as [|r l [Hb He] _ IH]; intros Hfuel; simpl in *; [done|].
  rewrite range_ports_spec by (unfold range_fuel in Hfuel; lia). rewrite IH by lia. done.
Qed.
Lemma getPorts_spec fuel o :
  offer_ok o → (offer_fuel o ≤ fuel)%nat → getPorts fuel o = Some (offer_list o).
Proof.
  unfold offer_ok, offer_fuel, getPorts, offer_list. intros Hok.
  induction Hok as [|r l Hr _ IH]; intros Hfuel; simpl in *; [done|].
  unfold resource_list at 1. destruct (String.eqb (rs_Name r) "ports").
  - rewrite ranges_ports_spec by (done || lia). rewrite IH by lia. done.
  - rewrite IH by lia. done.
Qed.
Lemma offers_ports_spec fuel l :
  Forall offer_ok l → (offers_fuel l ≤ fuel)%nat → offers_ports fuel l = Some (mjoin (offer_list <$> l)).
Proof.
  induction 1 as [|o l Ho _ IH]; intros Hfuel; simpl in *; [done|].
  rewrite getPorts_spec by (done || lia). rewrite IH by lia. done.
Qed.

(** ** The ports of a task *)

(** The host ports that resources take. *)
Definition taken (l : list Resource) : list Z := mjoin (resource_list <$> l).
Definition port_resource (p : Z) : Resource := NewRangesResource "ports" [{| vr_Begin := p; vr_End := p |}].
(** The host port that a binding asks for. *)
Definition asked_port (b : PortBinding) (p : Z) : Prop := pb_HostPort b ≠ "" ∧ ParseUint32 (pb_HostPort b) = Some p.

Lemma ParseUint32_range s p : ParseUint32 s = Some p → p < 2^32.
Proof.
  unfold ParseUint32. destruct s; [done|]. case_match; [|done]. case_match eqn:Hlt; [|done].
  intros [= <-]. by apply Z.ltb_lt in Hlt.
Qed.

(** What the loop over the bindings did: it went through [auto] of the free ports, and
    made one mapping and one resource for each host port of [hosts]. *)
Record bound (l : list (string * PortBinding)) (s s' : port_state) (auto hosts : list Z) : Prop := {
  bd_ports : ps_ports s = auto ++ ps_ports s';
  bd_maps : pm_HostPort <$> ps_mappings s' = (pm_HostPort <$> ps_mappings s) ++ ((λ p, p mod 2^32) <$> hosts);
  bd_res : ps_resources s' = ps_resources s ++ (port_resource <$> hosts);
  bd_zero : Forall (λ p, p ≠ 0) hosts;
  bd_from : Forall (λ p, p ∈ auto ∨ ∃ k b, (k, b) ∈ l ∧ asked_port b p) hosts;
  bd_sub : (∀ k b, (k, b) ∈ l → pb_HostPort b = "") → hosts `sublist_of` auto
}.

Lemma bind_one_bound k b s : ∃ auto hosts, bound [(k, b)] s (bind_one k s b) auto hosts.
Proof.
  assert (bound [(k, b)] s s [] []) as Hnone.
  { split; simpl; rewrite ?app_nil_r; done || constructor. }
  unfold bind_one. destruct (ParseUint32 (default "" _)) as [containerPort|]; [|by eauto].
  destruct (host_port b (ps_ports s)) as [[p ports]|] eqn:Hhost; [|by eauto]. unfold host_port in Hhost.
  destruct (String.eqb_spec (pb_HostPort b) "") as [He|Hne]; simpl in Hhost.
  - assert ((p = 0 ∧ ps_ports s = [] ∧ ports = []) ∨ ps_ports s = p :: ports) as Hp.
    { destruct (ps_ports s) as [|q ps]; injection Hhost as <- <-; auto. }
    destruct (Z.eqb_spec p 0) as [Hz|Hz].
    + exists (if ps_ports s is [] then [] else [p]), []. destruct Hp as [(_ & Hs & ->)|Hs]; rewrite Hs.
      * split; simpl; rewrite ?app_nil_r; done || constructor.
      * split; simpl; rewrite ?app_nil_r; first [done|by constructor|intros _; apply sublist_nil_l].
    + destruct Hp as [(? & _)|Hs]; [done|]. exists [p], [p].
      split; simpl; [done|by rewrite fmap_app|done|by constructor| |done].
      constructor; [left; by left|constructor].
  - destruct (ParseUint32 (pb_HostPort b)) as [q|] eqn:Hq; [|done]. injection Hhost as <- <-.
    destruct (Z.eqb_spec q 0) as [Hz|Hz].
    + exists [], []. split; simpl; rewrite ?app_nil_r; done || constructor.
    + exists [], [q]. split; simpl; [done|by rewrite fmap_app|done|by constructor| |].
      * constructor; [|constructor]. right. exists k, b. split; [by left|done].
      * intros Hall. destruct Hne. eapply Hall. by left.
Qed.

Lemma bound_trans l1 l2 s1 s2 s3 auto1 hosts1 auto2 hosts2 :
  bound l1 s1 s2 auto1 hosts1 → bound l2 s2 s3 auto2 hosts2 →
  bound (l1 ++ l2) s1 s3 (auto1 ++ auto2) (hosts1 ++ hosts2).
Proof.
  intros [H1 H2 H3 H4 H5 H6] [K1 K2 K3 K4 K5 K6]. split.
  - by rewrite H1, K1, app_assoc.
  - by rewrite K2, H2, fmap_app, app_assoc.
  - by rewrite K3, H3, fmap_app, app_assoc.
  - by apply Forall_app.
  - apply Forall_app. split; eapply Forall_impl; try done; intros p [?|(k & b & Hkb & ?)];
      try (left; set_solver); right; exists k, b; set_solver.
  - intros Hall. apply sublist_app; [apply H6|apply K6]; intros k b Hkb; eapply (Hall k b); set_solver.
Qed.

Lemma bind_ports_bound l s : ∃ auto hosts, bound l s (bind_ports l s) auto hosts.
Proof.
  revert s. induction l as [|[k b] l IH]; intros s; simpl.
  { exists [], []. split; simpl; rewrite ?app_nil_r; done || constructor. }
  destruct (bind_one_bound k b s) as (auto1 & hosts1 & H1). destruct (IH (bind_one k s b)) as (auto2 & hosts2 & H2).
  exists (auto1 ++ auto2), (hosts1 ++ hosts2). by apply (bound_trans [(k, b)] l _ _ _ _ _ _ _ H1 H2).
Qed.

Lemma taken_ports hosts : taken (port_resource <$> hosts) = hosts.
Proof.
  unfold taken. induction hosts as [|p hosts IH]; [done|]. rewrite !fmap_cons.
  change (mjoin (?x :: ?l)) with (x ++ mjoin l). rewrite IH.
  unfold resource_list, port_resource, range_list. cbn.
  replace (p - p + 1) with (1) by lia. done.
Qed.

(** ** What a task asks Mesos for *)

Section request.
Context `{MapRange}.

Lemma task_resources_ports h : taken (task_resources h) = [].
Proof.
  unfold task_resources, taken. rewrite fmap_app. destruct (0 <? hc_CPUShares h), (0 <? hc_Memory h); done.
Qed.

(** C33: a bridged task.  For offers whose port ranges do not end with the largest [uint64] the
    request is built; it takes one host port, never 0, for each port mapping, in order; each
    is asked for by a binding or offered; and when no binding asks for one, they are
    different offered ports. *)
Theorem Build_ports fuel slaveID offers t :
  let h := cc_HostConfig (mt_config t) in
  let l := all_bindings (hc_PortBindings h) in
  let offered := mjoin (offer_list <$> (range_map offers).*2) in
  hc_NetworkMode h ∈ ["default"; "bridge"; ""] → ti_Resources (mt_TaskInfo t) = [] →
  Forall offer_ok (range_map offers).*2 → (offers_fuel (range_map offers).*2 ≤ fuel)%nat →
  ∃ t' c, Build fuel slaveID offers t = Some t' ∧ ti_Container (mt_TaskInfo t') = Some c ∧
    mc_Network c = Some network_BRIDGE ∧
    let hosts := taken (ti_Resources (mt_TaskInfo t')) in
    (pm_HostPort <$> mc_PortMappings c) = (λ p, p mod 2^32) <$> hosts ∧
    Forall (λ p, p ≠ 0) hosts ∧
    Forall (λ p, p ∈ offered ∨ ∃ k b, (k, b) ∈ l ∧ asked_port b p) hosts ∧
    ((∀ k b, (k, b) ∈ l → pb_HostPort b = "") → NoDup offered → NoDup hosts).
Proof.
  intros h l offered Hmode Hres Hok Hfuel. unfold Build, task_network. fold h. rewrite Hres.
  assert (String.eqb (hc_NetworkMode h) "none" = false ∧ String.eqb (hc_NetworkMode h) "host" = false ∧
    (String.eqb (hc_NetworkMode h) "default" || String.eqb (hc_NetworkMode h) "bridge" ||
     String.eqb (hc_NetworkMode h) "") = true) as (-> & -> & ->).
  { repeat (apply elem_of_cons in Hmode as [->|Hmode]; [done|]). by apply elem_of_nil in Hmode. }
  rewrite offers_ports_spec by done. cbn [mbind option_bind]. fold l. fold offered.
  set (s := {| ps_ports := offered; ps_mappings := []; ps_resources := [] |}).
  destruct (bind_ports_bound l s) as (auto & hosts & [Hp Hm Hr Hz Hf Hsub]).
  eexists _, _. split; [done|].
  cbn [mt_TaskInfo ti_Container ti_Resources mc_Network mc_PortMappings ps_mappings ps_resources].
  split; [done|]. split; [done|].
  assert (taken (ps_resources (bind_ports l s) ++ task_resources h) = hosts) as Htaken.
  { rewrite Hr. unfold taken. rewrite fmap_app, join_app. fold (taken (task_resources h)).
    rewrite task_resources_ports, app_nil_r. apply taken_ports. }
  fold s. rewrite Htaken.
  split; [exact Hm|]. split; [done|]. simpl in Hp. split.
  - eapply Forall_impl; [exact Hf|]. intros p [?|?]; [left|by right]. rewrite Hp. set_solver.
  - intros Hall Hnd. rewrite Hp in Hnd. apply NoDup_app in Hnd as [Hnd _].
    by eapply sublist_NoDup, Hsub.
Qed.
End request.

(** ** A container with two ports *)

Section concrete.
Existing Instance canonical_range.
Definition ports_offer (first last : Z) : Offer := {|
  of_Id := "offer-1"; of_SlaveId := "slave-1"; of_Hostname := Some "node-1";
  of_Resources := [NewScalarResource "cpus" (float64_of_int 4); NewScalarResource "mem" (float64_of_int 2048);
                   NewRangesResource "ports" [{| vr_Begin := first; vr_End := last |}]];
  of_Attributes := [] |}.
Definition bridged (bindings : PortMap) : ContainerConfig := {|
  cc_Config := zero_DockerConfig;
  cc_HostConfig := {| hc_Memory := 64 * 1024 * 1024; hc_MemorySwap := 0; hc_CPUShares := 1; hc_CpusetCpus := "";
                      hc_NetworkMode := "bridge"; hc_VolumesFrom := []; hc_Links := []; hc_PortBindings := bindings |};
  cc_NetworkingConfig := zero_NetworkingConfig |}.
Definition free_binding : PortBinding := {| pb_HostIP := ""; pb_HostPort := "" |}.
Definition host_binding (port : string) : PortBinding := {| pb_HostIP := ""; pb_HostPort := port |}.
Definition built (bindings : PortMap) : option MesosTask :=
  Build 10 "slave-1" {["offer-1" := ports_offer 31000 31001]} (NewTask (bridged bindings) "web" "0123456789abcdef").
(** The host ports that the request takes. *)
Definition hosts_of (o : option MesosTask) : list Z :=
  match o with Some t => taken (ti_Resources (mt_TaskInfo t)) | None => [] end.

Example two_free_ports : hosts_of (built {["80/tcp" := [free_binding; free_binding]]}) = [31000; 31001].
Proof. vm_compute. reflexivity. Qed.

(** A port asked for by a binding stays among those given to the bindings without one: one
    request can take the same host port twice. *)
Theorem explicit_port_taken_twice :
  hosts_of (built {["80/tcp" := [host_binding "31000"; free_binding]]}) = [31000; 31000].
Proof. vm_compute. reflexivity. Qed.

(** The last port of all, as a [uint64], is never passed: [getPorts] does not end. *)
Theorem getPorts_diverges fuel first :
  0 ≤ first ≤ uint64_max → getPorts fuel (ports_offer first uint64_max) = None.
Proof.
  intros Hf. unfold getPorts, ports_offer. cbn -[range_ports uint64_max]. by rewrite range_ports_diverges.
Qed.
Lemma getPorts_diverges_witness : getPorts 100 (ports_offer 31000 uint64_max) = None.
Proof. apply getPorts_diverges. unfold uint64_max. lia. Defined.

Definition free_bindings : PortMap := {["80/tcp" := [free_binding; free_binding]]}.
Definition one_offer : gmap string Offer := {["offer-1" := ports_offer 31000 31001]}.
Definition web_task : MesosTask := NewTask (bridged free_bindings) "web" "0123456789abcdef".
Lemma Build_ports_witness :
  ∃ t' c, Build 10 "slave-1" one_offer web_task = Some t' ∧ ti_Container (mt_TaskInfo t') = Some c ∧
    NoDup (taken (ti_Resources (mt_TaskInfo t'))).
Proof.
  destruct (Build_ports 10 "slave-1" one_offer web_task) as (t' & c & HB & Hc & _ & _ & _ & _ & Hnd).
  - change (hc_NetworkMode (cc_HostConfig (mt_config web_task))) with "bridge". right. left.
  - reflexivity.
  - replace (range_map one_offer).*2 with [ports_offer 31000 31001] by (vm_compute; reflexivity).
    repeat constructor; simpl; unfold uint64_max; lia.
  - replace (range_map one_offer).*2 with [ports_offer 31000 31001] by (vm_compute; reflexivity). vm_compute. lia.
  - exists t', c. split; [exact HB|]. split; [exact Hc|]. apply Hnd.
    + replace (all_bindings _) with [("80/tcp", free_binding); ("80/tcp", free_binding)] by (vm_compute; reflexivity).
      intros k b Hkb. apply elem_of_cons in Hkb as [[= -> ->]|Hkb]; [done|].
      apply list_elem_of_singleton in Hkb. by injection Hkb as -> ->.
    + replace (range_map one_offer).*2 with [ports_offer 31000 31001] by (vm_compute; reflexivity).
      replace (mjoin _) with [31000; 31001] by (vm_compute; reflexivity).
      apply NoDup_cons. split; [by intros [=]%list_elem_of_singleton|apply NoDup_singleton].
Defined.
End concrete.
