(* ===== verification/MesosCluster.v ===== *)
(** * The Mesos cluster ([cluster/mesos/cluster.go], [agent.go], [scheduler.go], [utils.go])

    Agents with their offers and tasks, the operations of the cluster that do not block,
    and the parts of [LaunchTask] between its blocking operations. *)
From S2P Require Import Prelude GoStrings GoFloat Regexp Json Config Container Inventory EngineState EngineOps Node Strategy Filters Scheduler SwarmRegistry SwarmCluster MesosTask.
From Stdlib Require Import SpecFloat Ascii.

(** ** State *)

(** [type agent struct]; a task is a pointer to an object of [ms_tasks]. *)
Record agent := mkAgent {
  ag_id : string;
  ag_offers : gmap string Offer;
  ag_tasks : gmap string nat;
  ag_engine : ptr
}.
Definition newAgent (sid : string) (e : ptr) : agent := mkAgent sid ∅ ∅ e.
Definition agent_addOffer (offer : Offer) (s : agent) : agent :=
  mkAgent (ag_id s) (<[of_Id offer := offer]> (ag_offers s)) (ag_tasks s) (ag_engine s).
Definition agent_addTask (id : string) (t : nat) (s : agent) : agent :=
  mkAgent (ag_id s) (ag_offers s) (<[id := t]> (ag_tasks s)) (ag_engine s).
(** The second component tells whether the offer, or the task, was there. *)
Definition agent_removeOffer (offerID : string) (s : agent) : agent * bool :=
  (mkAgent (ag_id s) (delete offerID (ag_offers s)) (ag_tasks s) (ag_engine s),
   bool_decide (is_Some (ag_offers s !! offerID))).
Definition agent_removeTask (taskID : string) (s : agent) : agent * bool :=
  (mkAgent (ag_id s) (ag_offers s) (delete taskID (ag_tasks s)) (ag_engine s),
   bool_decide (is_Some (ag_tasks s !! taskID))).
Definition agent_empty (s : agent) : bool :=
  bool_decide (ag_offers s = ∅) && bool_decide (ag_tasks s = ∅).

(** The agents of [type Cluster struct], the task objects, and [pendingTasks.Tasks]. *)
Record Mesos := mkMesos {
  ms_agents : gmap string agent;
  ms_tasks : gmap nat MesosTask;
  ms_pending : gmap string nat
}.
Definition ms_set_agents (m : gmap string agent) (z : Mesos) : Mesos := mkMesos m (ms_tasks z) (ms_pending z).
Definition ms_set_tasks (m : gmap nat MesosTask) (z : Mesos) : Mesos := mkMesos (ms_agents z) m (ms_pending z).
Definition ms_set_pending (m : gmap string nat) (z : Mesos) : Mesos := mkMesos (ms_agents z) (ms_tasks z) m.

(** The engine objects, the daemons and the scheduler's lock are those of a [ClusterSt];
    its tables of engines are not used. *)
Record MesosSt (W : Type) := mkMS { mz_cs : ClusterSt W; mz_mesos : Mesos }.
Arguments mkMS {W}.
Arguments mz_cs {W}.
Arguments mz_mesos {W}.

Definition X (W A : Type) : Type := MesosSt W → outcome A * MesosSt W.
#[export] Instance X_ret W : MRet (X W) := λ A a st, (Ret a, st).
#[export] Instance X_bind W : MBind (X W) := λ A B f m st,
  match m st with
  | (Ret a, st') => f a st'
  | (Err e, st') => (Err e, st')
  | (Panic w, st') => (Panic w, st')
  end.
Definition get_mesos {W} : X W Mesos := λ st, (Ret (mz_mesos st), st).
Definition modify_mesos {W} (f : Mesos → Mesos) : X W unit := λ st, (Ret tt, mkMS (mz_cs st) (f (mz_mesos st))).
Definition lift_x {W A} (o : outcome A) : X W A := λ st, (o, st).
Definition in_engines {W A} (m : C W A) : X W A := λ st,
  let '(o, cs) := m (mz_cs st) in (o, mkMS cs (mz_mesos st)).
Definition get_engines {W} : X W Cluster := in_engines get_cluster.
Fixpoint for_each_x {W A} (f : A → X W unit) (l : list A) : X W unit :=
  match l with
  | [] => mret tt
  | x :: l' => f x ;; for_each_x f l'
  end.

(** The driver of the Mesos master; the error of [DeclineOffer] is only logged. *)
Class MesosDriver (W : Type) := {
  drv_LaunchTasks : list string → TaskInfo → Z → W → W * option error;
  drv_DeclineOffer : string → W → W
}.

(** [%q], of a text without characters to escape *)
Definition quoted (s : string) : string := String "034"%char s +:+ String "034"%char EmptyString.
Definition errNotSupported : error := plain_error "not supported with mesos".
Definition errResourcesNeeded : error :=
  plain_error "resources constraints (-c and/or -m) are required by mesos".
Definition mesos_name_conflict (name : string) : error := plain_error
  ("Conflict: The name " +:+ name +:+ " is already assigned or in pending tasks. You have to delete (or rename) "
   +:+ "that container to be able to assign " +:+ name +:+ " to a container again.").

Section cluster.
Context {W : Type} (api : ptr → DockerAPI W) `{MesosDriver W}.
Context `{GoRegexp} `{GoJson} `{GoNet} `{MapRange} `{GoSort} (Intn : Z → Z).
Context (scheduler : Scheduler) (out_of_range : Z) (fuel : nat).

(** ** Resources ([utils.go]) *)

(** [sumScalarResourceValue(offers, name)] *)
Fixpoint sum_resources (l : list Resource) (name : string) (value : spec_float) : outcome spec_float :=
  match l with
  | [] => Ret value
  | r :: l' =>
      if String.eqb (rs_Name r) name then
        v ← deref (rs_Scalar r); sum_resources l' name (float64_add value v)
      else sum_resources l' name value
  end.
Fixpoint sum_offers (l : list Offer) (name : string) (value : spec_float) : outcome spec_float :=
  match l with
  | [] => Ret value
  | o :: l' => v ← sum_resources (of_Resources o) name value; sum_offers l' name v
  end.
Definition sumScalarResourceValue (offers : gmap string Offer) (name : string) : outcome spec_float :=
  sum_offers (range_map offers).*2 name (S754_zero false).

Definition agent_cpus (s : agent) : outcome Z :=
  v ← sumScalarResourceValue (ag_offers s) "cpus"; Ret (int64_of_float out_of_range v).
Definition agent_memory (s : agent) : outcome Z :=
  v ← sumScalarResourceValue (ag_offers s) "mem";
  Ret (wrap64 (wrap64 (int64_of_float out_of_range v * 1024) * 1024)).

(** [TotalMemory()] and [TotalCpus()] *)
Fixpoint sum_agents (f : agent → outcome Z) (l : list agent) (total : Z) : outcome Z :=
  match l with
  | [] => Ret total
  | s :: l' => v ← f s; sum_agents f l' (wrap64 (total + v))
  end.
Definition agents (z : Mesos) : list agent := (range_map (ms_agents z)).*2.
Definition mesos_TotalMemory (z : Mesos) : outcome Z := sum_agents agent_memory (agents z) 0.
Definition mesos_TotalCpus (z : Mesos) : outcome Z := sum_agents agent_cpus (agents z) 0.

(** ** Nodes *)

(** The body of the loop of [listNodes]: what the agent offers is free, whatever its
    engine says. *)
Definition agent_node (e : Engine) (s : agent) : outcome Node :=
  n ← NewNode e;
  cpus ← agent_cpus s;
  memory ← agent_memory s;
  Ret {| nd_ID := ag_id s; nd_IP := nd_IP n; nd_Addr := nd_Addr n; nd_Name := nd_Name n;
         nd_Labels := nd_Labels n; nd_Containers := nd_Containers n; nd_Images := nd_Images n;
         nd_UsedMemory := 0; nd_UsedCpus := 0; nd_TotalMemory := memory; nd_TotalCpus := cpus;
         nd_HealthIndicator := nd_HealthIndicator n |}.
Definition engine_at_ptr (c : Cluster) (p : ptr) : outcome Engine := deref (cl_heap c !! p).
Fixpoint list_nodes (c : Cluster) (l : list agent) : outcome (list Node) :=
  match l with
  | [] => Ret []
  | s :: l' => e ← engine_at_ptr c (ag_engine s); n ← agent_node e s; ns ← list_nodes c l'; Ret (n :: ns)
  end.
Definition mesos_listNodes (c : Cluster) (z : Mesos) : outcome (list Node) := list_nodes c (agents z).

(** [c.scheduler.SelectNodesForContainer(c.listNodes(), config)], its error a value *)
Definition mesos_SelectNodes (config : ContainerConfig) : X W (list Node + error) :=
  c ← get_engines;
  z ← get_mesos;
  nodes ← lift_x (mesos_listNodes c z);
  match SelectNodesForContainer Intn (hdr_at c) scheduler nodes config with
  | Ret l => mret (inl l)
  | Err msg => mret (inr (plain_error msg))
  | Panic w => lift_x (Panic w)
  end.

Definition mesos_RANDOMENGINE : X W (ptr + error) :=
  nodes ← mesos_SelectNodes zero_ContainerConfig;
  match nodes with
  | inr err => mret (inr err)
  | inl [] => lift_x (Panic "index out of range")
  | inl (n :: _) => z ← get_mesos; s ← lift_x (deref (ms_agents z !! nd_ID n)); mret (inl (ag_engine s))
  end.

(** ** Containers *)

(** [formatContainer(container)], on a container that is not nil: the name that was asked
    for comes first. *)
Definition with_names (l : list string) (c : Container) : Container := {|
  ctr_Container := {| lc_ID := lc_ID (ctr_Container c); lc_Names := l; lc_Labels := lc_Labels (ctr_Container c);
                      lc_State := lc_State (ctr_Container c); lc_Created := lc_Created (ctr_Container c);
                      lc_Image := lc_Image (ctr_Container c); lc_Ports := lc_Ports (ctr_Container c) |};
  ctr_Config := ctr_Config c; ctr_Info := ctr_Info c; ctr_Engine := ctr_Engine c |}.
Definition formatContainer (c : Container) : outcome Container :=
  cfg ← deref (ctr_Config c);
  let name := default "" (cc_Labels cfg !! mesos_name_label) in
  if String.eqb name "" then Ret c
  else match ctr_Names c with
       | [] => Panic "index out of range"
       | first :: _ =>
           if String.eqb first ("/" +:+ name) then Ret c
           else Ret (with_names (("/" +:+ name) :: ctr_Names c) c)
       end.

(** A formatted container is the object that the engine holds. *)
Definition store_container (c : Container) (e : Engine) : Engine :=
  set_containers (<[ctr_ID c := c]> (e_containers e)) e.
(** The containers of the engine [p] that tasks launched, formatted. *)
Fixpoint task_containers (p : ptr) (l : list Container) : X W (list Container) :=
  match l with
  | [] => mret []
  | c :: l' =>
      cfg ← lift_x (deref (ctr_Config c));
      match cc_Labels cfg !! mesos_task_label with
      | Some _ =>
          c ← lift_x (formatContainer c);
          in_engines (on api p (λ _, modify (store_container c))) ;;
          cs ← task_containers p l';
          mret (c :: cs)
      | None => task_containers p l'
      end
  end.

(** [Containers()] *)
Fixpoint agents_containers (l : list agent) : X W (list Container) :=
  match l with
  | [] => mret []
  | s :: l' =>
      c ← get_engines;
      e ← lift_x (engine_at_ptr c (ag_engine s));
      out ← task_containers (ag_engine s) (Containers e);
      out' ← agents_containers l';
      mret (out ++ out')
  end.
Definition mesos_Containers : X W (list Container) := z ← get_mesos; agents_containers (agents z).

(** [Container(IDOrName)] *)
Definition mesos_Container (IDOrName : string) : X W (option Container) :=
  if len IDOrName =? 0 then mret None
  else
    l ← mesos_Containers;
    c ← get_engines;
    o ← lift_x (Containers_Get (hdr_at c) l IDOrName);
    match o with None => mret None | Some x => x ← lift_x (formatContainer x); mret (Some x) end.

(** [checkNameUniqueness(name)] *)
Definition bears_name (name : string) (e : Engine) : bool :=
  existsb (λ ctr, existsb (λ cname, String.eqb cname name || String.eqb cname ("/" +:+ name)) (ctr_Names ctr))
    (Containers e).
Definition asks_name (name : string) (t : MesosTask) : bool :=
  match cc_Labels (mt_config t) !! mesos_name_label with
  | Some tname => String.eqb tname name || String.eqb tname ("/" +:+ name)
  | None => false
  end.
Definition engines_of (c : Cluster) (z : Mesos) : list Engine :=
  omap (λ s, cl_heap c !! ag_engine s) (agents z).
Definition pending_tasks (z : Mesos) : list MesosTask :=
  omap (λ t, ms_tasks z !! t) (range_map (ms_pending z)).*2.
Definition mesos_checkNameUniqueness (c : Cluster) (z : Mesos) (name : string) : bool :=
  if len name =? 0 then true
  else negb (existsb (bears_name name) (engines_of c z)) && negb (existsb (asks_name name) (pending_tasks z)).

(** [RenameContainer(container, newName)] *)
Definition rename_label (newName : string) (container : Container) : Container :=
  match ctr_Config container with
  | Some cfg => ctr_set_Config (cc_set_Labels (<[mesos_name_label := newName]> (cc_Labels cfg)) cfg) container
  | None => container
  end.
Definition mesos_RenameContainer (container : Container) (newName : string) : X W (option error) :=
  c ← get_engines;
  z ← get_mesos;
  if negb (mesos_checkNameUniqueness c z newName) then mret (Some (mesos_name_conflict newName))
  else
    lift_x (deref (ctr_Config container)) ;;
    in_engines (on api (ctr_Engine container)
      (λ _, modify (λ e, match e_containers e !! ctr_ID container with
                         | Some x => set_containers (<[ctr_ID container := rename_label newName x]> (e_containers e)) e
                         | None => e end))) ;;
    mret None.

(** [StartContainer(container, hostConfig)], [now] being the time in seconds *)
Definition mesos_StartContainer (now : Z) (container : Container) : X W (option error) :=
  cfg ← lift_x (deref (ctr_Config container));
  if (1 <? wrap64 (now - lc_Created (ctr_Container container))) ||
     negb (String.eqb (default "" (cc_Labels cfg !! mesos_detach_label)) "true")
  then in_engines (on api (ctr_Engine container) (λ _, EngineOps.StartContainer (ctr_ID container)))
  else mret None.

Definition mesos_RemoveContainer (container : Container) (force volumes : bool) : X W (option error) :=
  in_engines (lock ;; err ← on api (ctr_Engine container) (λ _, EngineOps.RemoveContainer container force volumes);
              unlock ;; mret err).

(** ** Images and networks *)

Definition mesos_Images (c : Cluster) (z : Mesos) : list Image := mjoin (Images <$> engines_of c z).
Definition mesos_Image (c : Cluster) (z : Mesos) (IDOrName : string) : option Image :=
  if len IDOrName =? 0 then None
  else head (omap (λ e, Engine_Image e IDOrName) (engines_of c z)).
Definition mesos_Networks (c : Cluster) (z : Mesos) : list Network := mjoin (EngineOps.Networks <$> engines_of c z).
Definition mesos_RemoveImages (name : string) (force : bool) : list string * option error :=
  ([], Some errNotSupported).
Definition mesos_RemoveVolumes (name : string) : bool * option error := (false, Some errNotSupported).
Definition mesos_TagImage (IDOrName ref : string) (force : bool) : option error := Some errNotSupported.

Definition refreshNetworks : X W unit :=
  z ← get_mesos;
  for_each_x (λ s, in_engines (on api (ag_engine s) (λ _, RefreshNetworks)) ;; mret tt) (agents z).

Definition mesos_CreateNetwork (name : string) : X W (option string * option error) :=
  let '(name, config) :=
    match SplitN2 name "/" with
    | [node; name] =>
        (name, BuildContainerConfig (dc_set_Env ["constraint:node==" +:+ node] zero_DockerConfig)
                 zero_HostConfig zero_NetworkingConfig)
    | _ => (name, zero_ContainerConfig)
    end in
  in_engines lock ;;
  nodes ← mesos_SelectNodes config;
  in_engines unlock ;;
  match nodes with
  | inr err => mret (None, Some err)
  | inl [] => mret (None, Some (plain_error "cannot find node to create network"))
  | inl (n :: _) =>
      z ← get_mesos;
      match ms_agents z !! nd_ID n with
      | None => mret (None, Some (plain_error ("Unable to create network on agent " +:+ quoted (nd_ID n))))
      | Some s =>
          resp ← in_engines (on api (ag_engine s) (λ _, EngineOps.CreateNetwork name));
          refreshNetworks ;;
          mret match resp with inl ID => (Some ID, None) | inr err => (None, Some err) end
      end
  end.

Definition mesos_RemoveNetwork (network : Network) : X W (option error) :=
  err ← in_engines (on api (net_Engine network) (λ _, EngineOps.RemoveNetwork network));
  refreshNetworks ;; mret err.

(** ** Offers *)

Definition set_agent (s : agent) : X W unit :=
  modify_mesos (λ z, ms_set_agents (<[ag_id s := s]> (ms_agents z)) z).
Definition driver {A} (f : W → W * A) : X W A := λ st,
  let '(w, a) := f (cs_world (mz_cs st)) in
  (Ret a, mkMS (mkCS w (cs_cluster (mz_cs st)) (cs_events (mz_cs st))) (mz_mesos st)).

(** [addOffer(offer)] up to the goroutine that declines the offer later: whether that
    goroutine was started. *)
Definition addOffer (offer : Offer) : X W bool :=
  z ← get_mesos;
  match ms_agents z !! of_SlaveId offer with
  | None => mret false
  | Some s =>
      modify_mesos (λ z, ms_set_agents (<[of_SlaveId offer := agent_addOffer offer s]> (ms_agents z)) z) ;;
      mret true
  end.

(** [removeOffer(offer)] *)
Definition removeOffer (offer : Offer) : X W bool :=
  z ← get_mesos;
  match ms_agents z !! of_SlaveId offer with
  | None => mret false
  | Some s =>
      let '(s, found) := agent_removeOffer (of_Id offer) s in
      modify_mesos (λ z, ms_set_agents (<[of_SlaveId offer := s]> (ms_agents z)) z) ;;
      (if agent_empty s then
         r ← in_engines (on api (ag_engine s) (λ _, Disconnect));
         lift_x r ;;
         modify_mesos (λ z, ms_set_agents (delete (of_SlaveId offer) (ms_agents z)) z)
       else mret tt) ;;
      mret found
  end.

(** The goroutine of [addOffer], once [offerTimeout] is over. *)
Definition offer_timeout (offer : Offer) : X W unit :=
  found ← removeOffer offer;
  if found : bool then driver (λ w, (drv_DeclineOffer (of_Id offer) w, tt)) else mret tt.

(** ** Callbacks of the driver ([scheduler.go]) *)

(** The port of the daemon that the attributes of an offer tell. *)
Definition docker_port (default_port : string) (l : list Attribute) : string :=
  foldl (λ port a,
    if String.eqb (at_Name a) "docker_port" then
      match at_Type a with
      | Value_SCALAR => Itoa (int64_of_float out_of_range (at_Scalar a))
      | Value_TEXT => at_Text a
      | _ => port
      end
    else port) default_port l.

(** The agent of an offer that has none yet, unless its engine cannot be connected. *)
Definition new_agent (resolve : string → string + error) (dial : string → option error)
    (dockerEnginePort : string) (FailureRetry now : Z) (offer : Offer) : X W unit :=
  hostname ← lift_x (deref (of_Hostname offer));
  c ← get_engines;
  let p := fresh_ptr c in
  let addr := hostname +:+ ":" +:+ docker_port dockerEnginePort (of_Attributes offer) in
  in_engines (modify_cluster (cl_set_heap (<[p := NewEngine p addr 0 FailureRetry now]> (cl_heap c)))) ;;
  err ← in_engines (on api p (λ _, Connect resolve dial));
  match err with
  | Some _ => mret tt
  | None =>
      in_engines (on api p (λ _, modify ValidationComplete)) ;;
      modify_mesos (λ z, ms_set_agents (<[of_SlaveId offer := newAgent (of_SlaveId offer) p]> (ms_agents z)) z) ;;
      in_engines (on api p (λ _, RegisterEventHandler)) ;;
      mret tt
  end.

(** The body of the loop of [ResourceOffers]. *)
Definition receive_offer (resolve : string → string + error) (dial : string → option error)
    (dockerEnginePort : string) (FailureRetry now : Z) (offer : Offer) : X W bool :=
  z ← get_mesos;
  match ms_agents z !! of_SlaveId offer with
  | Some _ => mret tt
  | None => new_agent resolve dial dockerEnginePort FailureRetry now offer
  end ;;
  addOffer offer.
(** [ResourceOffers(offers)] up to the starting of [Process]: the offers whose timeouts
    were started. *)
Fixpoint ResourceOffers (resolve : string → string + error) (dial : string → option error)
    (dockerEnginePort : string) (FailureRetry now : Z) (offers : list Offer) : X W (list Offer) :=
  match offers with
  | [] => mret []
  | offer :: offers' =>
      added ← receive_offer resolve dial dockerEnginePort FailureRetry now offer;
      l ← ResourceOffers resolve dial dockerEnginePort FailureRetry now offers';
      mret (if added : bool then offer :: l else l)
  end.

(** [OfferRescinded(offerID)] *)
Definition OfferRescinded (offerID : string) : X W unit :=
  z ← get_mesos;
  match head (omap (λ s, ag_offers s !! offerID) (agents z)) with
  | Some offer => removeOffer offer ;; mret tt
  | None => mret tt
  end.

(** [StatusUpdate(taskStatus)]: the task that the status is sent to. *)
Definition StatusUpdate (z : Mesos) (status : TaskStatus) : option nat :=
  s ← ms_agents z !! ts_SlaveId status; ag_tasks s !! ts_TaskId status.

(** ** Launching a task *)

Definition task_at (t : nat) : X W MesosTask := z ← get_mesos; lift_x (deref (ms_tasks z !! t)).
Definition set_task (t : nat) (task : MesosTask) : X W unit :=
  modify_mesos (λ z, ms_set_tasks (<[t := task]> (ms_tasks z)) z).

(** How the first part of [LaunchTask] ends: [false] is returned; the agent of the node is
    gone, and the error is sent with the scheduler's lock held; the driver refused; the
    task is on the agent; or [getPorts] has not ended within the fuel. *)
Inductive launched :=
  | not_now
  | no_agent (err : string)
  | refused (err : error)
  | on_agent (id : string)
  | out_of_fuel.

(** [LaunchTask(t)] up to [t.Monitor()], between the two ends of its critical section. *)
Definition launch (refuseTimeout : Z) (t : nat) : X W launched :=
  in_engines lock ;;
  task ← task_at t;
  nodes ← mesos_SelectNodes (GetConfig task);
  match nodes with
  | inr _ => in_engines unlock ;; mret not_now
  | inl [] => lift_x (Panic "index out of range")
  | inl (n :: _) =>
      z ← get_mesos;
      match ms_agents z !! nd_ID n with
      | None => mret (no_agent ("Unable to create on agent " +:+ quoted (nd_ID n)))
      | Some s =>
          match Build fuel (nd_ID n) (ag_offers s) task with
          | None => mret out_of_fuel
          | Some task =>
              let offers := (range_map (ag_offers s)).*2 in
              set_task t task ;;
              err ← driver (drv_LaunchTasks (of_Id <$> offers) (mt_TaskInfo task) refuseTimeout);
              match err with
              | Some err =>
                  for_each_x (λ o, removeOffer o ;; mret tt) offers ;;
                  in_engines unlock ;; mret (refused err)
              | None =>
                  modify_mesos (λ z, ms_set_agents
                    (<[nd_ID n := agent_addTask (ID task) t s]> (ms_agents z)) z) ;;
                  for_each_x (λ o, removeOffer o ;; mret tt) offers ;;
                  in_engines unlock ;; mret (on_agent (nd_ID n))
              end
          end
      end
  end.

(** The task taken off its agent when its monitoring failed. *)
Definition drop_task (t : nat) (id : string) : X W unit :=
  task ← task_at t;
  modify_mesos (λ z, match ms_agents z !! id with
    | Some s => ms_set_agents (<[id := (agent_removeTask (ID task) s).1]> (ms_agents z)) z
    | None => z end).

(** What is sent to the creator at the end of [LaunchTask], if anything. *)
Inductive delivery := a_container (c : option Container) | an_error (msg : string) | nothing.

(** The identifiers that the status data, JSON of a list of inspected containers, holds. *)
Context (inspect_ids : string → option (list string)).
(** The end of [LaunchTask], from the registration of the container. *)
Definition find_task_container (taskID : string) (l : list Container) : outcome (option Container) :=
  ofind (λ c, cfg ← deref (ctr_Config c);
              Ret (String.eqb (default "" (cc_Labels cfg !! mesos_task_label)) taskID)) l.
Definition unless_stopped (t : nat) (d : delivery) : X W delivery :=
  task ← task_at t; mret (if Stopped task then nothing else d).
Definition register_by_label (t : nat) (p : ptr) : X W delivery :=
  task ← task_at t;
  in_engines (on api p (λ _, RefreshContainers true)) ;;
  c ← get_engines;
  e ← lift_x (engine_at_ptr c p);
  o ← lift_x (find_task_container (ID task) (Containers e));
  match o with
  | Some container => unless_stopped t (a_container (Some container))
  | None => unless_stopped t (an_error "Container failed to create")
  end.
Definition register (t : nat) (p : ptr) (data : option string) : X W delivery :=
  match data ≫= inspect_ids with
  | Some [id] =>
      r ← in_engines (on api p (λ _, refreshContainer id true));
      match r.2 with
      | None => unless_stopped t (a_container r.1)
      | Some _ => register_by_label t p
      end
  | _ => register_by_label t p
  end.

(** ** The pending tasks ([task/tasks.go]) *)

(** [Add]'s critical section, and [remove] *)
Definition add_pending_task (t : nat) : X W unit :=
  task ← task_at t; modify_mesos (λ z, ms_set_pending (<[ID task := t]> (ms_pending z)) z).
Definition remove_pending (t : nat) : X W unit :=
  task ← task_at t;
  set_task t (Stop task) ;;
  modify_mesos (λ z, ms_set_pending (delete (ID task) (ms_pending z)) z).

(** [CreateContainer(config, name)] up to its [select]: the new task. *)
Definition start_creation (config : ContainerConfig) (name random : string) : X W (nat + error) :=
  if (hc_Memory (cc_HostConfig config) =? 0) && (hc_CPUShares (cc_HostConfig config) =? 0)
  then mret (inr errResourcesNeeded)
  else
    c ← get_engines;
    z ← get_mesos;
    if negb (mesos_checkNameUniqueness c z name) then mret (inr (mesos_name_conflict name))
    else
      let t := fresh (dom (ms_tasks z) : gset nat) in
      set_task t (NewTask config name random) ;;
      mret (inl t).

(** ** Building an image *)

Definition mesos_build_config (o : ImageBuildOptions) : ContainerConfig :=
  cc_set_HostConfig (hc_set_CPUShares (ib_CPUShares o) (hc_set_Memory (ib_Memory o) zero_HostConfig)) zero_ContainerConfig.
(** The engine of the agent [n.ID]; an agent that is not there is a nil pointer. *)
Definition engine_of_agent (id : string) : X W ptr :=
  z ← get_mesos; s ← lift_x (deref (ms_agents z !! id)); mret (ag_engine s).
(** [BuildImage(buildContext, buildImage, out)], [copy] being the error of the copying to
    [out]. *)
Definition mesos_BuildImage (o : ImageBuildOptions) (content : string) (copy : string → option error)
    : X W (option error) :=
  in_engines lock ;;
  nodes ← mesos_SelectNodes (mesos_build_config o);
  in_engines unlock ;;
  match nodes with
  | inr err => mret (Some err)
  | inl [] => lift_x (Panic "index out of range")
  | inl (n :: _) =>
      p ← engine_of_agent (nd_ID n);
      r ← in_engines (on api p (λ _, EngineOps.BuildImage o content));
      match r with
      | inr err => mret (Some err)
      | inl output =>
          match copy output with
          | Some err => mret (Some err)
          | None =>
              p ← engine_of_agent (nd_ID n);
              in_engines (on api p (λ _, RefreshImages)) ;;
              mret None
          end
      end
  end.

(** ** What is not supported *)

(** [CreateVolume(request)] and [RemoveImage(image)]; [RefreshEngine] and [RefreshEngines]
    do nothing, there are no volumes, and [Scale] gives the nil slice. *)
Definition mesos_CreateVolume (name driver : string) : option VolumeInfo * option error := (None, Some errNotSupported).
Definition mesos_RemoveImage (image : Image) : list string * option error := ([], Some errNotSupported).
Definition mesos_RefreshEngine (hostname : string) : X W (option error) := mret None.
Definition mesos_RefreshEngines : X W (option error) := mret None.
Definition mesos_Volumes : list Volume := [].
Definition mesos_Scale : option (list string) := None.

(** ** Information *)

(** [Less] of [offerSorter] *)
Definition offer_less (a b : Offer) : bool := String.ltb (of_Id a) (of_Id b).
Definition listOffers (z : Mesos) : list Offer := mjoin ((λ s, (range_map (ag_offers s)).*2) <$> agents z).

(** [BytesSize] of [go-units] *)
Context (BytesSize : spec_float → string).
(** [formatResource(resource)] *)
Definition formatResource (r : Resource) : string :=
  let scalar := default (S754_zero false) (rs_Scalar r) in
  match rs_Type r with
  | Value_SCALAR =>
      if String.eqb (rs_Name r) "disk" || String.eqb (rs_Name r) "mem"
      then BytesSize (float64_mul (float64_mul scalar (float64_of_int 1024)) (float64_of_int 1024))
      else Itoa (int64_of_float out_of_range scalar)
  | Value_RANGES => Join ((λ v, Itoa (vr_Begin v) +:+ "-" +:+ Itoa (vr_End v)) <$> rs_Ranges r) ", "
  | _ => "?"
  end.
(** [Info()] *)
Definition offer_info (o : Offer) : list (string * string) :=
  ("  Offer", of_Id o) :: ((λ r, ("   └ " +:+ rs_Name r, formatResource r)) <$> of_Resources o).
Definition mesos_Info (z : Mesos) : list (string * string) :=
  let offers := listOffers z in
  [("Strategy", strategy_Name (sch_strategy scheduler)); ("Filters", Scheduler_Filters scheduler);
   ("Offers", Itoa (Z.of_nat (length offers)))] ++
  mjoin (offer_info <$> go_sort offer_less offers).
End cluster.
