(* ===== verification/MesosFacts.v ===== *)
(** * The agents of the Mesos cluster

    The invariant of the tables, what launching a task does to its agent, and the names of
    the containers. *)
From S2P Require Import Prelude GoStrings Regexp Json Config Container Inventory EngineState EngineOps Node Strategy Filters Scheduler SwarmRegistry SwarmCluster MesosTask MesosCluster.

(** An agent is filed under its identifier, its engine is an object, and its offers and
    tasks are filed under theirs. *)
Record agent_ok (heap : gmap nat Engine) (tasks : gmap nat MesosTask) (id : string) (s : agent) : Prop := {
  ao_id : ag_id s = id;
  ao_engine : is_Some (heap !! ag_engine s);
  ao_offers : map_Forall (λ k o, of_Id o = k ∧ of_SlaveId o = id) (ag_offers s);
  ao_tasks : map_Forall (λ k t, ∃ task, tasks !! t = Some task ∧ ID task = k) (ag_tasks s)
}.
Record mesos_ok (c : Cluster) (z : Mesos) : Prop := {
  mo_agents : map_Forall (agent_ok (cl_heap c) (ms_tasks z)) (ms_agents z);
  mo_pending : map_Forall (λ k t, ∃ task, ms_tasks z !! t = Some task ∧ ID task = k) (ms_pending z)
}.

(** The engine objects and the tasks that there are stay, each task with its identifier. *)
Definition grows (h h' : gmap nat Engine) (m m' : gmap nat MesosTask) : Prop :=
  (∀ p, is_Some (h !! p) → is_Some (h' !! p)) ∧
  (∀ t task, m !! t = Some task → ∃ task', m' !! t = Some task' ∧ ID task' = ID task).
Lemma agent_ok_grows h h' m m' id s : grows h h' m m' → agent_ok h m id s → agent_ok h' m' id s.
Proof.
  intros [Hh Hm] [H1 H2 H3 H4]. split; [done|by apply Hh|done|].
  intros k t Ht. destruct (H4 k t Ht) as (task & Htask & <-). apply Hm in Htask as (task' & ? & ?). eauto.
Qed.
Lemma mesos_ok_grows c c' z z' :
  grows (cl_heap c) (cl_heap c') (ms_tasks z) (ms_tasks z') → ms_agents z' = ms_agents z →
  ms_pending z' = ms_pending z → mesos_ok c z → mesos_ok c' z'.
Proof.
  intros Hg Ha Hp [H1 H2]. split; rewrite ?Ha, ?Hp.
  - intros id s Hs. eapply agent_ok_grows; [done|]. by apply H1.
  - intros k t Ht. destruct (H2 k t Ht) as (task & Htask & <-). apply Hg in Htask as (task' & ? & ?). eauto.
Qed.
Lemma grows_refl h m : grows h h m m.
Proof. split; eauto. Qed.

Section facts.
Context {W : Type} (api : ptr → DockerAPI W) `{MesosDriver W}.
Context `{GoRegexp} `{GoJson} `{GoNet} `{MapRange} `{GoSort} (Intn : Z → Z).
Context (scheduler : Scheduler) (out_of_range : Z) (fuel : nat).
Implicit Types st : MesosSt W.

Lemma X_bind_Ret {A B} (m : X W A) (f : A → X W B) st b st' :
  (m ≫= f) st = (Ret b, st') → ∃ a st1, m st = (Ret a, st1) ∧ f a st1 = (Ret b, st').
Proof. unfold mbind, X_bind. destruct (m st) as [[a|e|w] st1]; [|done..]. intros Hf. by exists a, st1. Qed.
Lemma X_bind_eq {A B} (m : X W A) (f : A → X W B) st a st1 : m st = (Ret a, st1) → (m ≫= f) st = f a st1.
Proof. intros Hm. unfold mbind, X_bind. by rewrite Hm. Qed.

(** ** Nodes are agents *)

Lemma list_nodes_agents c l ns n :
  list_nodes out_of_range c l = Ret ns → n ∈ ns → ∃ s, s ∈ l ∧ nd_ID n = ag_id s.
Proof.
  revert ns. induction l as [|s l IH]; intros ns; simpl; [intros [= <-]; set_solver|].
  intros Hrun Hn. apply bind_Ret_inv in Hrun as (e & _ & Hrun). apply bind_Ret_inv in Hrun as (n' & Hn' & Hrun).
  apply bind_Ret_inv in Hrun as (ns' & Hns & [= <-]). apply elem_of_cons in Hn as [->|Hn].
  - exists s. split; [by left|]. unfold agent_node in Hn'.
    apply bind_Ret_inv in Hn' as (? & _ & Hn'). apply bind_Ret_inv in Hn' as (? & _ & Hn').
    by apply bind_Ret_inv in Hn' as (? & _ & [= <-]).
  - destruct (IH _ Hns Hn) as (s' & ? & ?). exists s'. split; [by right|done].
Qed.

Lemma SelectNodes_agent config st st' n l :
  mesos_ok (cs_cluster (mz_cs st)) (mz_mesos st) →
  mesos_SelectNodes Intn scheduler out_of_range config st = (Ret (inl (n :: l)), st') →
  st' = st ∧ ∃ s, ms_agents (mz_mesos st) !! nd_ID n = Some s.
Proof.
  intros [Hok _] Hrun. unfold mesos_SelectNodes in Hrun.
  apply X_bind_Ret in Hrun as (c & st1 & [= <- <-] & Hrun).
  apply X_bind_Ret in Hrun as (z & st2 & [= <- <-] & Hrun).
  apply X_bind_Ret in Hrun as (ns & st3 & Hns & Hrun). destruct st as [cs z]; cbn in *.
  unfold lift_x in Hns. injection Hns as Hns <-.
  destruct (SelectNodesForContainer _ _ _ _ _) as [l'| |] eqn:Hsel; [|done..].
  injection Hrun as -> <-. split; [done|].
  destruct (SelectNodes_accepted _ _ _ _ _ _ n Hsel) as [Hn _]; [left|].
  destruct (list_nodes_agents _ _ _ _ Hns Hn) as (s & Hs & ->). exists s.
  apply elem_of_range_snd in Hs as [id Hid]. by rewrite (ao_id _ _ _ _ (Hok _ _ Hid)).
Qed.

(** ** Using up the offers of an agent *)

Definition without_offers (l : list Offer) (s : agent) : agent :=
  mkAgent (ag_id s) (foldl (λ m o, delete (of_Id o) m) (ag_offers s) l) (ag_tasks s) (ag_engine s).
Definition put_agent (id : string) (s : agent) st : MesosSt W :=
  mkMS (mz_cs st) (ms_set_agents (<[id := s]> (ms_agents (mz_mesos st))) (mz_mesos st)).

(** An agent with a task keeps its engine. *)
Lemma remove_offers_busy id l st s :
  ms_agents (mz_mesos st) !! id = Some s → ag_tasks s ≠ ∅ → Forall (λ o, of_SlaveId o = id) l →
  for_each_x (λ o, removeOffer api o ;; mret tt) l st = (Ret tt, put_agent id (without_offers l s) st).
Proof.
  revert st s. induction l as [|o l IH]; intros st s Hs Hne Hl.
  { simpl. unfold put_agent. destruct st as [cs z]; simpl in *. rewrite insert_id; [by destruct z|].
    by destruct s. }
  apply Forall_cons in Hl as [Ho Hl]. cbn [for_each_x].
  set (s1 := (agent_removeOffer (of_Id o) s).1).
  assert ((removeOffer api o ;; mret tt) st = (Ret tt, put_agent id s1 st)) as Hone.
  { unfold removeOffer, mbind, X_bind, get_mesos. rewrite Ho, Hs. cbn.
    unfold agent_empty. simpl. rewrite (bool_decide_eq_false_2 (ag_tasks s = ∅)) by done.
    by rewrite andb_false_r. }
  rewrite (X_bind_eq _ _ _ _ _ Hone), (IH _ s1); [|simpl; by rewrite lookup_insert_eq|done|done].
  unfold put_agent. simpl. unfold ms_set_agents. simpl. by rewrite insert_insert_eq.
Qed.

(** What one removal does to the tables. *)
Lemma removeOffer_Ret o st r st' s :
  ms_agents (mz_mesos st) !! of_SlaveId o = Some s → removeOffer api o st = (Ret r, st') →
  let s1 := (agent_removeOffer (of_Id o) s).1 in
  ms_agents (mz_mesos st') =
    (if agent_empty s1 then delete (of_SlaveId o) (ms_agents (mz_mesos st))
     else <[of_SlaveId o := s1]> (ms_agents (mz_mesos st))) ∧
  ms_tasks (mz_mesos st') = ms_tasks (mz_mesos st) ∧ ms_pending (mz_mesos st') = ms_pending (mz_mesos st) ∧
  cl_locked (cs_cluster (mz_cs st')) = cl_locked (cs_cluster (mz_cs st)) ∧
  (∀ p, is_Some (cl_heap (cs_cluster (mz_cs st)) !! p) → is_Some (cl_heap (cs_cluster (mz_cs st')) !! p)) ∧
  r = bool_decide (is_Some (ag_offers s !! of_Id o)).
Proof.
  intros Hs Hrun s1. unfold removeOffer in Hrun. apply X_bind_Ret in Hrun as (z & st1 & [= <- <-] & Hrun).
  rewrite Hs in Hrun. cbn [agent_removeOffer] in Hrun. fold (agent_removeOffer (of_Id o) s) in Hrun.
  apply X_bind_Ret in Hrun as ([] & st2 & [= <-] & Hrun).
  change (mkAgent (ag_id s) (delete (of_Id o) (ag_offers s)) (ag_tasks s) (ag_engine s)) with s1 in Hrun.
  destruct (agent_empty s1).
  2: { apply X_bind_Ret in Hrun as ([] & st3 & [= <-] & [= <- <-]). split_and!; try done. }
  apply X_bind_Ret in Hrun as ([] & st3 & Hd & [= <- <-]).
  apply X_bind_Ret in Hd as (r & st4 & Hon & Hd). apply X_bind_Ret in Hd as ([] & st5 & Hlift & [= <-]).
  unfold lift_x in Hlift. injection Hlift as _ <-. unfold in_engines in Hon. cbn in Hon.
  destruct (on api (ag_engine s) (λ _, Disconnect) (mz_cs st)) as [o' cs'] eqn:Hd. injection Hon as -> <-.
  simpl. rewrite delete_insert_eq. pose proof (on_same_tables _ _ _ _ _ _ (@Disconnect_keeps_name _ (api (ag_engine s))) Hd) as Hsame.
  split_and!; try done.
  - apply Hsame.
  - intros p [e He]. destruct (st_heap_le _ _ Hsame p e He) as (e' & -> & _). by eexists.
Qed.

(** What changes when some offers of the agent [id] are removed. *)
Record used_up (id : string) (st st' : MesosSt W) : Prop := {
  uu_tasks : ms_tasks (mz_mesos st') = ms_tasks (mz_mesos st);
  uu_pending : ms_pending (mz_mesos st') = ms_pending (mz_mesos st);
  uu_locked : cl_locked (cs_cluster (mz_cs st')) = cl_locked (cs_cluster (mz_cs st));
  uu_heap : ∀ p, is_Some (cl_heap (cs_cluster (mz_cs st)) !! p) → is_Some (cl_heap (cs_cluster (mz_cs st')) !! p);
  uu_others : ∀ k, k ≠ id → ms_agents (mz_mesos st') !! k = ms_agents (mz_mesos st) !! k
}.
Lemma used_up_refl id st : used_up id st st.
Proof. by split. Qed.
Lemma used_up_trans id st1 st2 st3 : used_up id st1 st2 → used_up id st2 st3 → used_up id st1 st3.
Proof.
  intros [A1 A2 A3 A4 A5] [B1 B2 B3 B4 B5]. split; [congruence..|auto|]. intros k Hk. by rewrite B5, A5.
Qed.

Lemma removeOffer_used_up o st r st' :
  removeOffer api o st = (Ret r, st') → used_up (of_SlaveId o) st st'.
Proof.
  intros Hrun. destruct (ms_agents (mz_mesos st) !! of_SlaveId o) as [s|] eqn:Hs.
  - destruct (removeOffer_Ret _ _ _ _ _ Hs Hrun) as (Ha & ? & ? & ? & ? & _). split; try done.
    intros k Hk. rewrite Ha. by case_match; simplify_map_eq.
  - unfold removeOffer in Hrun. apply X_bind_Ret in Hrun as (z & st1 & [= <- <-] & Hrun). rewrite Hs in Hrun.
    injection Hrun as _ <-. apply used_up_refl.
Qed.

Lemma foldl_delete_empty (l : list Offer) : foldl (λ m o, delete (of_Id o) m) (∅ : gmap string Offer) l = ∅.
Proof. induction l as [|o l IH]; simpl; [done|]. by rewrite delete_empty. Qed.
Lemma without_offers_empty l s : agent_empty s = true → agent_empty (without_offers l s) = true.
Proof.
  unfold agent_empty. intros [Ho Ht]%andb_prop. apply bool_decide_eq_true in Ho. simpl.
  by rewrite Ho, foldl_delete_empty, Ht, bool_decide_eq_true_2.
Qed.

Lemma remove_offers_Ret id l st st' :
  Forall (λ o, of_SlaveId o = id) l →
  for_each_x (λ o, removeOffer api o ;; mret tt) l st = (Ret tt, st') →
  used_up id st st' ∧
  (ms_agents (mz_mesos st) !! id = None → ms_agents (mz_mesos st') !! id = None) ∧
  (∀ s, ms_agents (mz_mesos st) !! id = Some s → l ≠ [] →
    ms_agents (mz_mesos st') !! id =
    if agent_empty (without_offers l s) then None else Some (without_offers l s)).
Proof.
  revert st. induction l as [|o l IH]; intros st Hl; cbn [for_each_x]; [by intros [= <-]|].
  apply Forall_cons in Hl as [Ho Hl]. intros Hrun.
  apply X_bind_Ret in Hrun as ([] & st1 & Hone & Hrest). apply X_bind_Ret in Hone as (r & st2 & Hone & [= <-]).
  pose proof (removeOffer_used_up _ _ _ _ Hone) as Hu. rewrite Ho in Hu.
  destruct (IH st2 Hl Hrest) as (Hu' & Hnone & Hsome). split; [by eapply used_up_trans|].
  destruct (ms_agents (mz_mesos st) !! id) as [s|] eqn:Hs; split; try done.
  - intros s' [= <-] _. assert (ms_agents (mz_mesos st) !! of_SlaveId o = Some s) as Hs1 by congruence.
    destruct (removeOffer_Ret _ _ _ _ _ Hs1 Hone) as (Ha & _). rewrite Ho in Ha.
    set (s1 := (agent_removeOffer (of_Id o) s).1) in Ha. change (without_offers (o :: l) s) with (without_offers l s1).
    destruct (agent_empty s1) eqn:He.
    + rewrite without_offers_empty by done. apply Hnone. by rewrite Ha, lookup_delete_eq.
    + assert (ms_agents (mz_mesos st2) !! id = Some s1) as Hs2 by (by rewrite Ha, lookup_insert_eq).
      destruct l as [|o' l]; [|by apply Hsome]. injection Hrest as <-.
      change (without_offers [] s1) with s1. by rewrite Hs2, He.
  - intros _. apply Hnone. unfold removeOffer in Hone.
    apply X_bind_Ret in Hone as (z & st3 & [= <- <-] & Hone). rewrite Ho, Hs in Hone.
    by injection Hone as _ <-.
Qed.

Lemma foldl_delete_None (l : list Offer) (m : gmap string Offer) k :
  m !! k = None → foldl (λ m o, delete (of_Id o) m) m l !! k = None.
Proof.
  revert m. induction l as [|x l IH]; intros m Hm; simpl; [done|]. apply IH.
  destruct (decide (of_Id x = k)) as [<-|]; [by rewrite lookup_delete_eq|by rewrite lookup_delete_ne].
Qed.
(** Nothing is left once all the offers are removed. *)
Lemma without_all_offers id s :
  map_Forall (λ k o, of_Id o = k ∧ of_SlaveId o = id) (ag_offers s) →
  Forall (λ o, of_SlaveId o = id) (range_map (ag_offers s)).*2 ∧
  ag_offers (without_offers (range_map (ag_offers s)).*2 s) = ∅.
Proof.
  intros Hoff. split.
  - apply Forall_forall. intros o [k Hk]%elem_of_range_snd. by apply (Hoff k o).
  - simpl. apply map_empty. intros k. destruct (ag_offers s !! k) as [o|] eqn:Ho.
    + assert (o ∈ (range_map (ag_offers s)).*2) as Hin by (apply elem_of_range_snd; by exists k).
      assert (of_Id o = k) as Hk by (by apply (Hoff k o)).
      apply list_elem_of_split in Hin as (l1 & l2 & ->). rewrite foldl_app. simpl. rewrite Hk.
      apply foldl_delete_None. by rewrite lookup_delete_eq.
    + by apply foldl_delete_None.
Qed.

(** ** Launching *)

Abbreviation good st := (mesos_ok (cs_cluster (mz_cs st)) (mz_mesos st)).

Lemma good_same st st' :
  cl_heap (cs_cluster (mz_cs st')) = cl_heap (cs_cluster (mz_cs st)) → mz_mesos st' = mz_mesos st → good st → good st'.
Proof.
  intros Hh Hz. apply mesos_ok_grows; rewrite ?Hh, ?Hz; [apply grows_refl|done..].
Qed.

Lemma used_up_ok id st st' :
  good st → used_up id st st' →
  (∀ s', ms_agents (mz_mesos st') !! id = Some s' →
    ∃ s, ms_agents (mz_mesos st) !! id = Some s ∧ ag_tasks s' = ag_tasks s ∧ ag_engine s' = ag_engine s ∧
         ag_id s' = ag_id s ∧ ag_offers s' ⊆ ag_offers s) →
  good st'.
Proof.
  intros [Ha Hp] [U1 U2 U3 U4 U5] Hid.
  assert (grows (cl_heap (cs_cluster (mz_cs st))) (cl_heap (cs_cluster (mz_cs st')))
    (ms_tasks (mz_mesos st)) (ms_tasks (mz_mesos st'))) as Hg by (split; [done|rewrite U1; eauto]).
  split; [|rewrite U1, U2; exact Hp]. intros k s Hs. destruct (decide (k = id)) as [->|Hne].
  - destruct (Hid _ Hs) as (s0 & Hs0 & E1 & E2 & E3 & E4). apply (agent_ok_grows _ _ _ _ _ _ Hg).
    destruct (Ha _ _ Hs0) as [A1 A2 A3 A4]. split; rewrite ?E1, ?E2, ?E3; try done.
    intros j o Ho. apply A3. by eapply lookup_weaken.
  - rewrite U5 in Hs by done. eapply agent_ok_grows; [done|]. by apply Ha.
Qed.

Lemma without_offers_sub l s : ag_offers (without_offers l s) ⊆ ag_offers s.
Proof.
  simpl. revert s. assert (∀ m : gmap string Offer, foldl (λ m o, delete (of_Id o) m) m l ⊆ m) as Hm.
  { induction l as [|o l IH]; intros m; simpl; [done|]. etrans; [apply IH|apply delete_subseteq]. }
  intros s. apply Hm.
Qed.

Lemma remove_offers_ok id l st st' :
  good st → Forall (λ o, of_SlaveId o = id) l →
  for_each_x (λ o, removeOffer api o ;; mret tt) l st = (Ret tt, st') → good st'.
Proof.
  intros Hok Hl Hrun. destruct (remove_offers_Ret _ _ _ _ Hl Hrun) as (Hu & Hnone & Hsome).
  eapply used_up_ok; [done..|]. intros s' Hs'.
  destruct (ms_agents (mz_mesos st) !! id) as [s|] eqn:Hs; [|by rewrite Hnone in Hs'].
  exists s. split; [done|]. destruct l as [|o l].
  - injection Hrun as <-. rewrite Hs in Hs'. by injection Hs' as <-.
  - rewrite (Hsome s) in Hs' by done. destruct (agent_empty _); [done|]. injection Hs' as <-.
    split_and!; try done. apply without_offers_sub.
Qed.

Lemma Build_ID id offers task task' : Build fuel id offers task = Some task' → ID task' = ID task.
Proof. unfold Build. destruct (task_network _ _ _ _) as [[n s]|]; [|done]. by intros [= <-]. Qed.

Definition put_task (t : nat) (task : MesosTask) st : MesosSt W :=
  mkMS (mz_cs st) (ms_set_tasks (<[t := task]> (ms_tasks (mz_mesos st))) (mz_mesos st)).
Lemma put_task_ok t task task' st :
  good st → ms_tasks (mz_mesos st) !! t = Some task → ID task' = ID task → good (put_task t task' st).
Proof.
  intros Hok Ht Hid. refine (mesos_ok_grows _ _ _ _ _ _ _ Hok); [|done..]. split; [done|]. intros u x Hx. simpl.
  destruct (decide (t = u)) as [<-|Hne].
  - exists task'. rewrite lookup_insert_eq. split; congruence.
  - exists x. by rewrite lookup_insert_ne.
Qed.

(** The task joins the agent it was built for. *)
Lemma put_agent_task_ok id t task s st :
  good st → ms_agents (mz_mesos st) !! id = Some s → ms_tasks (mz_mesos st) !! t = Some task →
  good (put_agent id (agent_addTask (ID task) t s) st).
Proof.
  intros [Ha Hp] Hs Ht. split; [|exact Hp]. intros k x Hx. simpl in Hx. destruct (decide (id = k)) as [<-|Hne].
  - rewrite lookup_insert_eq in Hx. injection Hx as <-. destruct (Ha _ _ Hs) as [A1 A2 A3 A4].
    split; try done. apply map_Forall_insert_2; [|done]. by exists task.
  - rewrite lookup_insert_ne in Hx by done. by apply Ha.
Qed.
(** Its offers are used up. *)
Lemma put_agent_offers_ok id l s st :
  good st → ms_agents (mz_mesos st) !! id = Some s → good (put_agent id (without_offers l s) st).
Proof.
  intros Hok Hs. eapply used_up_ok; [exact Hok| |].
  - split; try done. intros k Hk. simpl. by rewrite lookup_insert_ne.
  - intros s' Hs'. simpl in Hs'. rewrite lookup_insert_eq in Hs'. injection Hs' as <-.
    exists s. split_and!; try done. apply without_offers_sub.
Qed.
(** All the offers of an agent removed one after the other: it has none, or it is gone. *)
Lemma remove_all_offers id s st st' :
  ms_agents (mz_mesos st) !! id = Some s →
  map_Forall (λ k o, of_Id o = k ∧ of_SlaveId o = id) (ag_offers s) →
  for_each_x (λ o, removeOffer api o ;; mret tt) (range_map (ag_offers s)).*2 st = (Ret tt, st') →
  ∀ s', ms_agents (mz_mesos st') !! id = Some s' → ag_offers s' = ∅.
Proof.
  intros Hs Hso Hrem s' Hs'. destruct (without_all_offers _ _ Hso) as [Hslave Hall].
  destruct (remove_offers_Ret _ _ _ _ Hslave Hrem) as (_ & _ & Hsome).
  destruct (range_map (ag_offers s)).*2 as [|o rest] eqn:Hoff.
  - injection Hrem as <-. rewrite Hs in Hs'. by injection Hs' as <-.
  - rewrite (Hsome s) in Hs' by done. destruct (agent_empty _); [done|]. by injection Hs' as <-.
Qed.

(** What launching does to the tables. *)
Lemma launch_tables refuseTimeout t st r st' :
  good st →
  launch api Intn scheduler out_of_range fuel refuseTimeout t st = (Ret r, st') →
  (r = out_of_fuel ∨ cl_locked (cs_cluster (mz_cs st')) = false) ∧ good st' ∧
  match r with
  | not_now => mz_mesos st' = mz_mesos st
  | no_agent _ => False
  | out_of_fuel => mz_mesos st' = mz_mesos st
  | refused _ => ∃ id, is_Some (ms_agents (mz_mesos st) !! id) ∧
      (∀ s', ms_agents (mz_mesos st') !! id = Some s' → ag_offers s' = ∅) ∧
      (∀ k, k ≠ id → ms_agents (mz_mesos st') !! k = ms_agents (mz_mesos st) !! k)
  | on_agent id => ∃ s task task', ms_agents (mz_mesos st) !! id = Some s ∧
      ms_tasks (mz_mesos st) !! t = Some task ∧ Build fuel id (ag_offers s) task = Some task' ∧
      ms_tasks (mz_mesos st') !! t = Some task' ∧
      ms_agents (mz_mesos st') !! id = Some (mkAgent id ∅ (<[ID task := t]> (ag_tasks s)) (ag_engine s)) ∧
      (∀ k, k ≠ id → ms_agents (mz_mesos st') !! k = ms_agents (mz_mesos st) !! k)
  end.
Proof.
  intros Hok Hrun. unfold launch in Hrun.
  apply X_bind_Ret in Hrun as ([] & st1 & [= <-] & Hrun).
  set (st1 := mkMS _ _) in Hrun. assert (good st1) as Hok1 by (by apply (good_same st)).
  apply X_bind_Ret in Hrun as (task & st2 & Htask & Hrun).
  unfold task_at in Htask. apply X_bind_Ret in Htask as (z & st3 & [= <- <-] & Htask).
  unfold lift_x in Htask. injection Htask as Htask <-.
  change (ms_tasks (mz_mesos st1)) with (ms_tasks (mz_mesos st)) in Htask.
  destruct (ms_tasks (mz_mesos st) !! t) as [task0|] eqn:Ht; [|done]. injection Htask as ->.
  apply X_bind_Ret in Hrun as (nodes & st2 & Hsel & Hrun). destruct nodes as [[|n nodes]|err].
  - done.
  - apply SelectNodes_agent in Hsel as [-> [s Hs]]; [|done].
    apply X_bind_Ret in Hrun as (z & st3 & [= <- <-] & Hrun).
    change (mz_mesos st1) with (mz_mesos st) in Hs, Hrun. rewrite Hs in Hrun.
    destruct (Build fuel (nd_ID n) (ag_offers s) task) as [task'|] eqn:Hb; [|injection Hrun as <- <-; by auto].
    pose proof (Build_ID _ _ _ _ Hb) as HID.
    destruct (mo_agents _ _ Hok _ _ Hs) as [Hsid Hse Hso Hst].
    destruct (without_all_offers _ _ Hso) as [Hslave Hall].
    set (offers := (range_map (ag_offers s)).*2) in *.
    apply X_bind_Ret in Hrun as ([] & st2 & [= <-] & Hrun). fold (put_task t task' st1) in Hrun.
    set (st2 := put_task t task' st1) in Hrun.
    assert (good st2) as Hok2 by (eapply put_task_ok; [done|exact Ht|done]).
    apply X_bind_Ret in Hrun as (err & st3 & Hdrv & Hrun).
    unfold driver in Hdrv. destruct (drv_LaunchTasks _ _ _ _) as [w err']. injection Hdrv as <- <-.
    set (st3 := mkMS _ _) in Hrun. assert (good st3) as Hok3 by (by apply (good_same st2)).
    change (ms_agents (mz_mesos st)) with (ms_agents (mz_mesos st3)) in Hs |- *.
    destruct err' as [err|].
    + apply X_bind_Ret in Hrun as ([] & st4 & Hrem & Hrun).
      apply X_bind_Ret in Hrun as ([] & st5 & [= <-] & [= <- <-]).
      split; [by right|]. split; [by apply (good_same st4); [..|eapply remove_offers_ok]|].
      destruct (remove_offers_Ret _ _ _ _ Hslave Hrem) as (Hu & _).
      exists (nd_ID n). split; [by eexists|]. split; [exact (remove_all_offers _ s st3 st4 Hs Hso Hrem)|apply Hu].
    + apply X_bind_Ret in Hrun as ([] & st4 & [= <-] & Hrun).
      set (s1 := agent_addTask (ID task') t s) in Hrun. fold (put_agent (nd_ID n) s1 st3) in Hrun.
      set (st4 := put_agent (nd_ID n) s1 st3) in Hrun.
      apply X_bind_Ret in Hrun as ([] & st5 & Hrem & Hrun).
      apply X_bind_Ret in Hrun as ([] & st6 & [= <-] & [= <- <-]).
      assert (ms_tasks (mz_mesos st3) !! t = Some task') as Ht3 by (simpl; by rewrite lookup_insert_eq).
      assert (ms_agents (mz_mesos st4) !! nd_ID n = Some s1) as Hs1 by (simpl; by rewrite lookup_insert_eq).
      rewrite (remove_offers_busy (nd_ID n) _ _ s1) in Hrem; [|done|apply insert_non_empty|done].
      injection Hrem as <-.
      assert (good st4) as Hok4 by (by apply put_agent_task_ok).
      split; [by right|]. split.
      { apply (good_same (put_agent (nd_ID n) (without_offers offers s1) st4)); [done..|].
        by apply put_agent_offers_ok. }
      exists s, task, task'. split_and!; try done.
      * simpl. rewrite lookup_insert_eq. f_equal. unfold without_offers. simpl in Hall |- *.
        by rewrite Hall, Hsid, HID.
      * intros k Hk. simpl. by rewrite !lookup_insert_ne.
  - assert (st2 = st1) as ->.
    { unfold mesos_SelectNodes in Hsel. apply X_bind_Ret in Hsel as (? & ? & [= <- <-] & Hsel).
      apply X_bind_Ret in Hsel as (? & ? & [= <- <-] & Hsel).
      apply X_bind_Ret in Hsel as (ns & ? & [= _ <-] & Hsel).
      by destruct (SelectNodesForContainer _ _ _ _ _); [|injection Hsel as _ <-|]. }
    apply X_bind_Ret in Hrun as ([] & st3 & [= <-] & [= <- <-]). split; [by right|]. split; [|done].
    by apply (good_same st).
Qed.

(** C31: launching a task.  It ends with the scheduler's lock free, unless a panic or the ports
    stop it; the agent of the selected node is always there.  When no node can take the
    task nothing changes.  Otherwise the offers of one agent are used up, and on success
    that agent has the task, built for it. *)
Theorem launch_spec refuseTimeout t st r st' :
  good st →
  launch api Intn scheduler out_of_range fuel refuseTimeout t st = (Ret r, st') →
  (r = out_of_fuel ∨ cl_locked (cs_cluster (mz_cs st')) = false) ∧ good st' ∧
  match r with
  | not_now => mz_mesos st' = mz_mesos st
  | no_agent _ => False
  | out_of_fuel => mz_mesos st' = mz_mesos st
  | refused _ => ∃ id, is_Some (ms_agents (mz_mesos st) !! id) ∧
      (∀ s', ms_agents (mz_mesos st') !! id = Some s' → ag_offers s' = ∅) ∧
      (∀ k, k ≠ id → ms_agents (mz_mesos st') !! k = ms_agents (mz_mesos st) !! k)
  | on_agent id => ∃ s task task', ms_agents (mz_mesos st) !! id = Some s ∧
      ms_tasks (mz_mesos st) !! t = Some task ∧ Build fuel id (ag_offers s) task = Some task' ∧
      ms_tasks (mz_mesos st') !! t = Some task' ∧
      ms_agents (mz_mesos st') !! id = Some (mkAgent id ∅ (<[ID task := t]> (ag_tasks s)) (ag_engine s)) ∧
      (∀ k, k ≠ id → ms_agents (mz_mesos st') !! k = ms_agents (mz_mesos st) !! k)
  end.
Proof. apply launch_tables. Qed.

(** ** The other operations keep the tables well formed *)

Lemma X_get_inv {B} (f : Mesos → X W B) st b st' :
  (get_mesos ≫= f) st = (Ret b, st') → f (mz_mesos st) st = (Ret b, st').
Proof. done. Qed.
Lemma X_modify_inv {B} g (f : unit → X W B) st b st' :
  (modify_mesos g ≫= f) st = (Ret b, st') → f tt (mkMS (mz_cs st) (g (mz_mesos st))) = (Ret b, st').
Proof. done. Qed.
Lemma X_lift_inv {A B} (o : outcome A) (f : A → X W B) st b st' :
  (lift_x o ≫= f) st = (Ret b, st') → ∃ a, o = Ret a ∧ f a st = (Ret b, st').
Proof. unfold mbind, X_bind, lift_x. destruct o as [a| |]; [|done..]. by exists a. Qed.

(** Computations on the engines. *)
Lemma in_engines_inv {A} (m : C W A) st a st' :
  in_engines m st = (Ret a, st') → ∃ cs', m (mz_cs st) = (Ret a, cs') ∧ st' = mkMS cs' (mz_mesos st).
Proof. unfold in_engines. destruct (m (mz_cs st)) as [o cs']. intros [= -> <-]. eauto. Qed.
Lemma on_heap {A} p (f : DockerAPI W → M W A) cs a cs' q :
  on api p f cs = (Ret a, cs') → is_Some (cl_heap (cs_cluster cs) !! q) → is_Some (cl_heap (cs_cluster cs') !! q).
Proof.
  unfold on. destruct (cl_heap (cs_cluster cs) !! p); [|done]. destruct (f (api p) _) as [x y].
  intros [= <- <-] Hq. simpl. destruct (decide (p = q)) as [<-|]; [rewrite lookup_insert_eq; eauto|by rewrite lookup_insert_ne].
Qed.
Lemma good_heap (cs : ClusterSt W) z (cs' : ClusterSt W) :
  (∀ q, is_Some (cl_heap (cs_cluster cs) !! q) → is_Some (cl_heap (cs_cluster cs') !! q)) →
  good (mkMS cs z) → good (mkMS cs' z).
Proof. intros Hq. apply mesos_ok_grows; [|done..]. split; [exact Hq|eauto]. Qed.
Lemma on_good {A} p (f : DockerAPI W → M W A) st a st' :
  in_engines (on api p f) st = (Ret a, st') → good st → good st'.
Proof.
  intros (cs' & Hon & ->)%in_engines_inv. destruct st as [cs z]. apply good_heap. intros q. by eapply on_heap.
Qed.

Lemma good_put_agent id s st :
  good st → agent_ok (cl_heap (cs_cluster (mz_cs st))) (ms_tasks (mz_mesos st)) id s → good (put_agent id s st).
Proof.
  intros [Ha Hp] Hs. split; [|exact Hp]. intros k x Hx. simpl in Hx. destruct (decide (id = k)) as [<-|Hne].
  - rewrite lookup_insert_eq in Hx. by injection Hx as <-.
  - rewrite lookup_insert_ne in Hx by done. by apply Ha.
Qed.

Lemma addOffer_good o st r st' : addOffer o st = (Ret r, st') → good st → good st'.
Proof.
  unfold addOffer. intros Hrun%X_get_inv Hok. destruct (ms_agents (mz_mesos st) !! of_SlaveId o) as [s|] eqn:Hs.
  - apply X_modify_inv in Hrun. injection Hrun as _ <-. fold (put_agent (of_SlaveId o) (agent_addOffer o s) st).
    apply good_put_agent; [done|]. destruct (mo_agents _ _ Hok _ _ Hs) as [A1 A2 A3 A4].
    split; try done. simpl. by apply map_Forall_insert_2.
  - by injection Hrun as _ <-.
Qed.
Lemma removeOffer_good o st r st' : removeOffer api o st = (Ret r, st') → good st → good st'.
Proof.
  intros Hrun Hok. pose proof (removeOffer_used_up _ _ _ _ Hrun) as Hu.
  eapply used_up_ok; [done..|]. intros s' Hs'.
  destruct (ms_agents (mz_mesos st) !! of_SlaveId o) as [s|] eqn:Hs.
  - exists s. split; [done|]. destruct (removeOffer_Ret _ _ _ _ _ Hs Hrun) as (Ha & _). rewrite Ha in Hs'.
    case_match; simplify_map_eq. split_and!; try done. simpl. apply delete_subseteq.
  - exfalso. unfold removeOffer in Hrun. apply X_get_inv in Hrun. rewrite Hs in Hrun. injection Hrun as _ <-. congruence.
Qed.
Lemma driver_good {A} (f : W → W * A) st a st' : driver f st = (Ret a, st') → good st → good st'.
Proof. unfold driver. destruct (f _) as [w x]. intros [= <- <-]. by apply good_same. Qed.
Lemma offer_timeout_good o st st' : offer_timeout api o st = (Ret tt, st') → good st → good st'.
Proof.
  unfold offer_timeout. intros (found & st1 & H1' & H2')%X_bind_Ret Hok.
  pose proof (removeOffer_good _ _ _ _ H1' Hok). destruct found; [by eapply driver_good|by injection H2' as <-].
Qed.
Lemma OfferRescinded_good id st st' : OfferRescinded api id st = (Ret tt, st') → good st → good st'.
Proof.
  unfold OfferRescinded. intros Hrun%X_get_inv Hok. destruct (head _) as [o|]; [|by injection Hrun as <-].
  apply X_bind_Ret in Hrun as (r & st1 & Hrem & [= <-]). by eapply removeOffer_good.
Qed.

Lemma new_agent_good resolve dial port retry now o st st' :
  new_agent api out_of_range resolve dial port retry now o st = (Ret tt, st') → good st → good st'.
Proof.
  unfold new_agent. intros Hrun Hok. apply X_lift_inv in Hrun as (hostname & _ & Hrun).
  apply X_bind_Ret in Hrun as (c & st1 & Hc & Hrun). apply in_engines_inv in Hc as (cs & [= <- <-] & ->).
  set (p := fresh_ptr _) in Hrun. apply X_bind_Ret in Hrun as ([] & st1 & Hmod & Hrun).
  apply in_engines_inv in Hmod as (cs1 & [= <-] & ->).
  set (st1 := mkMS _ _) in Hrun.
  assert (good st1) as Hok1.
  { destruct st as [cs z]. refine (good_heap cs _ _ _ Hok). intros q [e He]. simpl.
    destruct (decide (p = q)) as [<-|]; [rewrite lookup_insert_eq; eauto|rewrite lookup_insert_ne by done; eauto]. }
  assert (is_Some (cl_heap (cs_cluster (mz_cs st1)) !! p)) as Hp by (simpl; rewrite lookup_insert_eq; eauto).
  clearbody st1 p. apply X_bind_Ret in Hrun as (err & st2 & Hcon & Hrun).
  pose proof (on_good _ _ _ _ _ Hcon Hok1) as Hok2.
  apply in_engines_inv in Hcon as (cs2 & Hon & ->). apply (on_heap _ _ _ _ _ p) in Hon; [|done].
  destruct err as [err|]; [by injection Hrun as <-|].
  apply X_bind_Ret in Hrun as ([] & st3 & Hval & Hrun). pose proof (on_good _ _ _ _ _ Hval Hok2) as Hok3.
  apply in_engines_inv in Hval as (cs3 & Hon3 & ->). apply (on_heap _ _ _ _ _ p) in Hon3; [|done].
  apply X_modify_inv in Hrun. fold (put_agent (of_SlaveId o) (newAgent (of_SlaveId o) p) (mkMS cs3 (mz_mesos st1))) in Hrun.
  apply X_bind_Ret in Hrun as (err & st4 & Hreg & [= <-]). eapply on_good; [exact Hreg|].
  apply good_put_agent; [done|]. split; try done; simpl; apply map_Forall_empty.
Qed.
Lemma ResourceOffers_good resolve dial port retry now offers st l st' :
  ResourceOffers api out_of_range resolve dial port retry now offers st = (Ret l, st') → good st → good st'.
Proof.
  revert l st. induction offers as [|o offers IH]; intros l st; cbn [ResourceOffers]; [by intros [= <- <-]|].
  intros (added & st1 & Hone & Hrest)%X_bind_Ret Hok. apply X_bind_Ret in Hrest as (l' & st2 & Hrest & [= <- <-]).
  eapply IH; [exact Hrest|]. clear IH Hrest. unfold receive_offer in Hone. apply X_get_inv in Hone.
  apply X_bind_Ret in Hone as ([] & st3 & Hnew & Hadd). eapply addOffer_good; [exact Hadd|].
  destruct (ms_agents (mz_mesos st) !! of_SlaveId o); [by injection Hnew as <-|by eapply new_agent_good].
Qed.

Lemma task_at_inv t {B} (f : MesosTask → X W B) st b st' :
  (task_at t ≫= f) st = (Ret b, st') → ∃ task, ms_tasks (mz_mesos st) !! t = Some task ∧ f task st = (Ret b, st').
Proof.
  intros (task & st1 & Ht & Hf)%X_bind_Ret. unfold task_at in Ht. apply X_get_inv in Ht.
  unfold lift_x in Ht. destruct (ms_tasks (mz_mesos st) !! t) as [x|]; [|done]. injection Ht as <- <-. eauto.
Qed.
Lemma drop_task_good t id st st' : drop_task t id st = (Ret tt, st') → good st → good st'.
Proof.
  unfold drop_task. intros (task & _ & [= <-])%task_at_inv Hok.
  destruct (ms_agents (mz_mesos st) !! id) as [s|] eqn:Hs; [|by destruct st].
  fold (put_agent id (agent_removeTask (ID task) s).1 st). apply good_put_agent; [done|].
  destruct (mo_agents _ _ Hok _ _ Hs) as [A1 A2 A3 A4]. split; try done. simpl. by apply map_Forall_delete.
Qed.
Lemma add_pending_good t st st' : add_pending_task t st = (Ret tt, st') → good st → good st'.
Proof.
  unfold add_pending_task. intros (task & Ht & [= <-])%task_at_inv [Ha Hp]. split; [exact Ha|]. simpl.
  apply map_Forall_insert_2; eauto.
Qed.
Lemma remove_pending_good t st st' : remove_pending t st = (Ret tt, st') → good st → good st'.
Proof.
  unfold remove_pending. intros (task & Ht & Hrun)%task_at_inv Hok.
  apply X_modify_inv in Hrun. fold (put_task t (Stop task) st) in Hrun. injection Hrun as <-.
  destruct (put_task_ok t task (Stop task) st Hok Ht eq_refl) as [Ha Hp]. split; [exact Ha|]. simpl.
  by apply map_Forall_delete.
Qed.
Lemma start_creation_good config name random st r st' :
  start_creation config name random st = (Ret r, st') → good st → good st' ∧
  match r with
  | inr _ => st' = st
  | inl t => ms_tasks (mz_mesos st) !! t = None ∧
             st' = put_task t (NewTask config name random) st
  end.
Proof.
  unfold start_creation. intros Hrun Hok. destruct (_ && _); [by injection Hrun as <- <-|].
  apply X_bind_Ret in Hrun as (c & st1 & Hc & Hrun). apply in_engines_inv in Hc as (cs & [= <- <-] & ->).
  apply X_get_inv in Hrun. simpl in Hrun. destruct (negb _); [by injection Hrun as <- <-; destruct st|].
  set (t := fresh _) in Hrun. apply X_modify_inv in Hrun. injection Hrun as <- <-.
  assert (ms_tasks (mz_mesos st) !! t = None) as Ht.
  { apply (not_elem_of_dom (D := gset nat)). apply is_fresh. }
  split; [|by destruct st]. refine (mesos_ok_grows _ _ _ _ _ _ _ Hok); [|done..]. split; [done|].
  intros u x Hx. exists x. simpl. rewrite lookup_insert_ne; [done|congruence].
Qed.
Lemma register_good inspect_ids t p data st r st' :
  register api inspect_ids t p data st = (Ret r, st') → good st → good st'.
Proof.
  assert (∀ t d st r st', unless_stopped (W := W) t d st = (Ret r, st') → st' = st) as Hun.
  { intros u d s r' s'. unfold unless_stopped. by intros (task & _ & [= _ <-])%task_at_inv. }
  assert (∀ st r st', register_by_label api t p st = (Ret r, st') → good st → good st') as Hlabel.
  { clear -Hun. intros st r st' Hrun Hok. unfold register_by_label in Hrun. apply task_at_inv in Hrun as (task & _ & Hrun).
    apply X_bind_Ret in Hrun as (e & st1 & Hon & Hrun). apply (on_good _ _ _ _ _ Hon) in Hok.
    apply X_bind_Ret in Hrun as (c & st2 & Hc & Hrun). apply in_engines_inv in Hc as (cs & [= <- <-] & ->).
    apply X_lift_inv in Hrun as (eng & _ & Hrun). apply X_lift_inv in Hrun as (o & _ & Hrun).
    destruct st1 as [cs z]. by destruct o; apply Hun in Hrun as ->. }
  unfold register. intros Hrun Hok. destruct (data ≫= inspect_ids) as [[|id [|]]|]; try by eapply Hlabel.
  apply X_bind_Ret in Hrun as (x & st1 & Hon & Hrun). apply (on_good _ _ _ _ _ Hon) in Hok.
  destruct (x.2); [by eapply Hlabel|]. by apply Hun in Hrun as ->.
Qed.
End facts.

(** ** What stays *)

(** The pending tasks are the same, and no task object goes. *)
Definition keeps {W} (st st' : MesosSt W) : Prop :=
  ms_pending (mz_mesos st') = ms_pending (mz_mesos st) ∧
  ∀ t, is_Some (ms_tasks (mz_mesos st) !! t) → is_Some (ms_tasks (mz_mesos st') !! t).
Definition xkeeps {W A} (m : X W A) : Prop := ∀ st, keeps st (m st).2.

Create HintDb mesos.

Section keeps.
Context {W : Type}.
Lemma keeps_refl (st : MesosSt W) : keeps st st.
Proof. by split. Qed.
Lemma keeps_trans (st1 st2 st3 : MesosSt W) : keeps st1 st2 → keeps st2 st3 → keeps st1 st3.
Proof. intros [A1 A2] [B1 B2]. split; [congruence|auto]. Qed.
Lemma xkeeps_ret {A} (a : A) : xkeeps (W := W) (mret a).
Proof. intros st. apply keeps_refl. Qed.
Lemma xkeeps_lift {A} (o : outcome A) : xkeeps (W := W) (lift_x o).
Proof. intros st. apply keeps_refl. Qed.
Lemma xkeeps_get : xkeeps (W := W) get_mesos.
Proof. intros st. apply keeps_refl. Qed.
Lemma xkeeps_in_engines {A} (m : C W A) : xkeeps (in_engines m).
Proof. intros st. unfold in_engines. by destruct (m (mz_cs st)). Qed.
Lemma xkeeps_driver {A} (f : W → W * A) : xkeeps (driver f).
Proof. intros st. unfold driver. by destruct (f _). Qed.
Lemma xkeeps_agents (f : Mesos → gmap string agent) : xkeeps (W := W) (modify_mesos (λ z, ms_set_agents (f z) z)).
Proof. intros st. by split. Qed.
Lemma xkeeps_set_task t task : xkeeps (W := W) (set_task t task).
Proof.
  intros st. split; [done|]. intros u Hu. simpl.
  destruct (decide (t = u)) as [<-|]; [rewrite lookup_insert_eq; eauto|by rewrite lookup_insert_ne].
Qed.
Lemma xkeeps_bind {A B} (m : X W A) (f : A → X W B) : xkeeps m → (∀ a, xkeeps (f a)) → xkeeps (m ≫= f).
Proof.
  intros Hm Hf st. unfold mbind, X_bind. specialize (Hm st). destruct (m st) as [[a| |] st1]; [|done..].
  eapply keeps_trans; [exact Hm|apply Hf].
Qed.
Lemma xkeeps_for_each {A} (f : A → X W unit) l : (∀ x, xkeeps (f x)) → xkeeps (for_each_x f l).
Proof. intros Hf. induction l as [|x l IH]; simpl; [apply xkeeps_ret|]. by apply xkeeps_bind. Qed.
Lemma xkeeps_run {A} (m : X W A) st a st' : xkeeps m → m st = (a, st') → keeps st st'.
Proof. intros Hm Hrun. specialize (Hm st). by rewrite Hrun in Hm. Qed.
End keeps.
#[export] Hint Resolve xkeeps_ret xkeeps_lift xkeeps_get xkeeps_in_engines xkeeps_driver xkeeps_agents
  xkeeps_set_task : mesos.
(** One operation at a time. *)
Ltac xkeeps_tac :=
  repeat first
    [ progress auto with mesos
    | apply xkeeps_bind; [|intros ?]
    | apply xkeeps_for_each; intros ?
    | case_match ].

Section keeping.
Context {W : Type} (api : ptr → DockerAPI W) `{MesosDriver W}.
Context `{GoRegexp} `{GoJson} `{GoNet} `{MapRange} `{GoSort} (Intn : Z → Z).
Context (scheduler : Scheduler) (out_of_range : Z) (fuel : nat).

Lemma SelectNodes_keeps config : xkeeps (W := W) (mesos_SelectNodes Intn scheduler out_of_range config).
Proof. unfold mesos_SelectNodes, get_engines. xkeeps_tac. Qed.
Lemma removeOffer_keeps o : xkeeps (removeOffer api o).
Proof.
  unfold removeOffer. apply xkeeps_bind; [auto with mesos|]. intros z.
  destruct (ms_agents z !! of_SlaveId o); [|auto with mesos].
  destruct (agent_removeOffer _ _) as [s found]. apply xkeeps_bind.
  { apply (xkeeps_agents (λ z, <[of_SlaveId o := s]> (ms_agents z))). }
  intros _. apply xkeeps_bind; [|auto with mesos]. destruct (agent_empty s); [|auto with mesos].
  apply xkeeps_bind; [auto with mesos|]. intros r. apply xkeeps_bind; [auto with mesos|]. intros _.
  apply (xkeeps_agents (λ z, delete (of_SlaveId o) (ms_agents z))).
Qed.
Hint Resolve SelectNodes_keeps removeOffer_keeps : mesos.
Lemma offer_timeout_keeps o : xkeeps (offer_timeout api o).
Proof. unfold offer_timeout. xkeeps_tac. Qed.
Lemma OfferRescinded_keeps id : xkeeps (OfferRescinded api id).
Proof. unfold OfferRescinded. xkeeps_tac. Qed.
Lemma addOffer_keeps o : xkeeps (W := W) (addOffer o).
Proof.
  unfold addOffer. apply xkeeps_bind; [auto with mesos|]. intros z. case_match; [|auto with mesos].
  apply xkeeps_bind; [|auto with mesos].
  match goal with |- context [agent_addOffer o ?s] =>
    apply (xkeeps_agents (λ z, <[of_SlaveId o := agent_addOffer o s]> (ms_agents z))) end.
Qed.
Lemma new_agent_keeps resolve dial port retry now o :
  xkeeps (new_agent api out_of_range resolve dial port retry now o).
Proof.
  unfold new_agent, get_engines. apply xkeeps_bind; [auto with mesos|]. intros hostname.
  apply xkeeps_bind; [auto with mesos|]. intros c. apply xkeeps_bind; [auto with mesos|]. intros _.
  apply xkeeps_bind; [auto with mesos|]. intros [err|]; [auto with mesos|].
  apply xkeeps_bind; [auto with mesos|]. intros _. apply xkeeps_bind.
  { apply (xkeeps_agents (λ z, <[of_SlaveId o := newAgent (of_SlaveId o) (fresh_ptr c)]> (ms_agents z))). }
  intros _. xkeeps_tac.
Qed.
Hint Resolve addOffer_keeps new_agent_keeps : mesos.
Lemma ResourceOffers_keeps resolve dial port retry now offers :
  xkeeps (ResourceOffers api out_of_range resolve dial port retry now offers).
Proof.
  induction offers as [|o offers IH]; cbn [ResourceOffers]; [auto with mesos|]. unfold receive_offer.
  apply xkeeps_bind; [|intros added; xkeeps_tac]. xkeeps_tac.
Qed.
Lemma task_at_keeps t : xkeeps (W := W) (task_at t).
Proof. unfold task_at. xkeeps_tac. Qed.
Hint Resolve task_at_keeps : mesos.
Lemma drop_task_keeps t id : xkeeps (W := W) (drop_task t id).
Proof.
  unfold drop_task. apply xkeeps_bind; [auto with mesos|]. intros task st. unfold modify_mesos. simpl.
  by destruct (ms_agents (mz_mesos st) !! id).
Qed.
Lemma register_keeps inspect_ids t p data : xkeeps (register api inspect_ids t p data).
Proof. unfold register, register_by_label, unless_stopped, get_engines. xkeeps_tac. Qed.
Lemma launch_keeps refuseTimeout t :
  xkeeps (launch api Intn scheduler out_of_range fuel refuseTimeout t).
Proof.
  unfold launch. apply xkeeps_bind; [auto with mesos|]. intros _. apply xkeeps_bind; [auto with mesos|]. intros task.
  apply xkeeps_bind; [auto with mesos|]. intros [[|n l]|err]; [auto with mesos| |xkeeps_tac].
  apply xkeeps_bind; [auto with mesos|]. intros z. destruct (ms_agents z !! nd_ID n) as [s|]; [|auto with mesos].
  destruct (Build _ _ _ _) as [task'|]; [|auto with mesos]. apply xkeeps_bind; [auto with mesos|]. intros _.
  apply xkeeps_bind; [auto with mesos|]. intros [err|]; [xkeeps_tac|].
  apply xkeeps_bind; [|intros _; xkeeps_tac].
  apply (xkeeps_agents (λ z, <[nd_ID n := agent_addTask (ID task') t s]> (ms_agents z))).
Qed.
End keeping.
#[export] Hint Resolve SelectNodes_keeps removeOffer_keeps offer_timeout_keeps OfferRescinded_keeps addOffer_keeps
  new_agent_keeps ResourceOffers_keeps task_at_keeps drop_task_keeps register_keeps launch_keeps : mesos.

(** ** One task on one agent

    A task is created when there is no agent; then an offer arrives, and the task is
    launched. *)

Section concrete.
Existing Instances re2 json_strings net_zero canonical_range insertion_sort.
#[export] Instance willing_driver : MesosDriver unit := {|
  drv_LaunchTasks _ _ _ w := (w, None);
  drv_DeclineOffer _ w := w |}.
Definition race_api (_ : ptr) : DockerAPI unit := quiet_daemon quiet_info.
Definition race_scheduler : Scheduler := {| sch_strategy := SpreadPlacementStrategy; sch_filters := [HealthFilter] |}.
Definition resolve_any (_ : string) : string + error := inl "10.0.0.1".
Definition dial_any (_ : string) : option error := None.
Definition no_inspect (_ : string) : option (list string) := None.
Definition race_st0 : MesosSt unit := mkMS (mkCS tt empty_cluster []) (mkMesos ∅ ∅ ∅).
Definition race_config : ContainerConfig := bridged free_bindings.
Definition race_create : X unit (nat + error) := start_creation race_config "web" "0123456789abcdef".
Definition race_launch : X unit launched := launch race_api (λ _, 0) race_scheduler 0 10 0 0.
Definition race_offers : X unit (list Offer) :=
  ResourceOffers race_api 0 resolve_any dial_any "2375" 3 0 [ports_offer 31000 31001].
Definition race_register (p : ptr) : X unit delivery := register race_api no_inspect 0 p None.
(** The states of the race: the task is created, cannot be launched, is queued; an offer
    arrives; the task is launched; its container is looked for. *)
Definition race_st1 := (race_create race_st0).2.
Definition race_st2 := (race_launch race_st1).2.
Definition race_st3 := (add_pending_task 0 race_st2).2.
Definition race_st4 := (race_offers race_st3).2.
Definition race_st5 := (race_launch race_st4).2.
Definition race_st6 := (race_register 0 race_st5).2.

Definition race_task : MesosTask := NewTask race_config "web" "0123456789abcdef".
Lemma split_run {A} (c : X unit A) st a : (c st).1 = Ret a → c st = (Ret a, (c st).2).
Proof. destruct (c st) as [o st']. simpl. by intros ->. Qed.

Lemma race_create_run : race_create race_st0 = (Ret (inl 0%nat), race_st1).
Proof. apply (split_run race_create). vm_compute. reflexivity. Qed.
Lemma race_launch_run1 : race_launch race_st1 = (Ret not_now, race_st2).
Proof. apply (split_run race_launch). vm_compute. reflexivity. Qed.
Lemma race_queue_run : add_pending_task 0 race_st2 = (Ret tt, race_st3).
Proof. apply (split_run (add_pending_task 0)). vm_compute. reflexivity. Qed.
Lemma race_offers_run : race_offers race_st3 = (Ret [ports_offer 31000 31001], race_st4).
Proof. apply (split_run race_offers). vm_compute. reflexivity. Qed.
Lemma race_launch_run2 : race_launch race_st4 = (Ret (on_agent "slave-1"), race_st5).
Proof. apply (split_run race_launch). vm_compute. reflexivity. Qed.
Lemma race_register_run : race_register 0 race_st5 = (Ret (an_error "Container failed to create"), race_st6).
Proof. apply (split_run (race_register 0)). vm_compute. reflexivity. Qed.


(** Two creations of one name both pass the check while neither task is queued; once the
    first is, the name is taken. *)
Theorem same_name_twice :
  (race_create race_st0).1 = Ret (inl 0%nat) ∧ (race_create race_st1).1 = Ret (inl 1%nat) ∧
  (race_create race_st3).1 = Ret (inr (mesos_name_conflict "web")).
Proof. split_and!; vm_compute; reflexivity. Qed.

Lemma race_st4_ok : mesos_ok (cs_cluster (mz_cs race_st4)) (mz_mesos race_st4).
Proof.
  eapply ResourceOffers_good; [exact race_offers_run|]. eapply add_pending_good; [exact race_queue_run|].
  eapply launch_tables; [|exact race_launch_run1].
  eapply start_creation_good; [exact race_create_run|]. split; apply map_Forall_empty.
Qed.
Lemma launch_spec_witness :
  cl_locked (cs_cluster (mz_cs race_st5)) = false ∧
  ∃ s, ms_agents (mz_mesos race_st4) !! "slave-1" = Some s ∧
    ms_agents (mz_mesos race_st5) !! "slave-1" = Some (mkAgent "slave-1" ∅ (<[ID race_task := 0%nat]> (ag_tasks s)) (ag_engine s)).
Proof.
  destruct (launch_spec race_api (λ _, 0) race_scheduler 0 10 0 0 race_st4 (on_agent "slave-1") race_st5)
    as (Hl & _ & s & task & task' & Hs & Ht & _ & _ & Ha & _); [exact race_st4_ok|exact race_launch_run2|].
  split; [by destruct Hl|]. exists s. split; [exact Hs|].
  replace (ID race_task) with (ID task); [exact Ha|].
  assert (option_map ID (ms_tasks (mz_mesos race_st4) !! 0%nat) = Some (ID race_task)) as HID by (vm_compute; reflexivity).
  rewrite Ht in HID. by injection HID.
Defined.
End concrete.
