(* ===== verification/MesosRun.v ===== *)
(** * The goroutines of the Mesos cluster

    A creation starts goroutines that meet on unbuffered channels and share the lock of the
    pending tasks.  [mesos_step] interleaves them with the callbacks of the driver, between the
    operations that can block. *)
From S2P Require Import Prelude GoStrings Regexp Json Config Container Inventory EngineState EngineOps Node Strategy Filters Scheduler SwarmRegistry SwarmCluster MesosTask MesosCluster MesosFacts.

(** Where [LaunchTask] is: before its critical section; in [t.Monitor()], on the agent [id]
    with the engine [p]; before the registration of the container; blocked while sending
    to the creator, in one case with the scheduler's lock held. *)
Inductive pc :=
  | pc_start
  | pc_monitor (id : string) (p : ptr)
  | pc_register (p : ptr) (data : option string)
  | pc_deliver (c : option Container)
  | pc_error (msg : string)
  | pc_error_locked (msg : string).

(** A goroutine. *)
Inductive thread :=
  | th_create (t : nat)                    (* [CreateContainer], in its [select] *)
  | th_remove (t : nat) (msg : string)     (* and before [pendingTasks.Remove] *)
  | th_created (t : nat) (c : option Container)  (* returned a container *)
  | th_failed (t : nat) (msg : string)     (* returned an error *)
  | th_add (t : nat) (l : pc)              (* [pendingTasks.Add] *)
  | th_enqueue (t : nat)                   (* and before its critical section *)
  | th_process_wait                        (* [pendingTasks.Process] before the lock *)
  | th_process (todo : list nat) (cur : option (nat * pc)) (toRemove : list nat)
  | th_suicide (t : nat)
  | th_suicide_send (t : nat) (msg : string)
  | th_watch (t : nat)                     (* the goroutine that reads the later statuses *)
  | th_timeout (o : Offer).

(** [sy_driver] is the callback [StatusUpdate] of the driver while it sends a status; the
    driver runs one callback at a time. *)
Record MesosSys (W : Type) := mkRun {
  sy_st : MesosSt W;
  sy_tasklock : bool;
  sy_driver : option (nat * TaskStatus);
  sy_threads : gmap nat thread
}.
Arguments mkRun {W}.
Arguments sy_st {W}.
Arguments sy_tasklock {W}.
Arguments sy_driver {W}.
Arguments sy_threads {W}.

(** The launching that a goroutine is in. *)
Definition place (th : thread) : option (nat * pc) :=
  match th with th_add t l => Some (t, l) | th_process _ cur _ => cur | _ => None end.
(** What the goroutine becomes when [LaunchTask] goes on, or returns. *)
Definition at_pc (l : pc) (th : thread) : thread :=
  match th with
  | th_add t _ => th_add t l
  | th_process todo (Some (t, _)) r => th_process todo (Some (t, l)) r
  | th => th
  end.
Definition after_launch (launched : bool) (th : thread) : option thread :=
  match th with
  | th_add t _ => if launched then None else Some (th_enqueue t)
  | th_process todo (Some (t, _)) r => Some (th_process todo None (if launched then r ++ [t] else r))
  | th => Some th
  end.
Definition put (i : nat) (th : option thread) (m : gmap nat thread) : gmap nat thread :=
  partial_alter (λ _, th) i m.
Definition spawn_timers (l : list Offer) (m : gmap nat thread) : gmap nat thread :=
  foldl (λ m o, <[fresh (dom m : gset nat) := th_timeout o]> m) m l.
Definition formatted (c : option Container) : outcome (option Container) :=
  match c with None => Ret None | Some c => c ← formatContainer c; Ret (Some c) end.

Section run.
Context {W : Type} (api : ptr → DockerAPI W) `{MesosDriver W}.
Context `{GoRegexp} `{GoJson} `{GoNet} `{MapRange} `{GoSort} (Intn : Z → Z).
Context (scheduler : Scheduler) (out_of_range : Z) (fuel : nat).
Context (inspect_ids : string → option (list string)).
Context (resolve : string → string + error) (dial : string → option error).
Context (dockerEnginePort timeout : string) (FailureRetry refuseTimeout : Z).

(** What [LaunchTask] does next, by the end of its critical section. *)
Definition launch_pc (z : Mesos) (r : launched) : option (pc + bool) :=
  match r with
  | not_now => Some (inr false)
  | no_agent msg => Some (inl (pc_error_locked msg))
  | refused err => Some (inl (pc_error (err_msg err)))
  | on_agent id => (λ s, inl (pc_monitor id (ag_engine s))) <$> ms_agents z !! id
  | out_of_fuel => None
  end.
(** One turn of the loop of the goroutine that goes on reading the statuses of a task. *)
Definition watch (t : nat) (status : TaskStatus) : option thread :=
  match Monitor status with (false, _, None) => Some (th_watch t) | _ => None end.
(** And by what there is to send. *)
Definition delivery_pc (d : delivery) : pc + bool :=
  match d with
  | a_container c => inl (pc_deliver c)
  | an_error msg => inl (pc_error msg)
  | nothing => inr true
  end.
Definition go_on (x : pc + bool) (th : thread) : option thread :=
  match x with inl l => Some (at_pc l th) | inr b => after_launch b th end.

Inductive mesos_step : MesosSys W → MesosSys W → Prop :=
  (** [CreateContainer(config, name)] starts a creation. *)
  | step_create st k d m config name random t st' i j l :
      start_creation config name random st = (Ret (inl t), st') →
      m !! i = None → m !! j = None → m !! l = None → i ≠ j → i ≠ l → j ≠ l →
      mesos_step (mkRun st k d m)
        (mkRun st' k d (<[i := th_create t]> (<[j := th_add t pc_start]> (<[l := th_suicide t]> m))))
  (** The critical section of [LaunchTask]. *)
  | step_launch st k d m i th t r st' x :
      m !! i = Some th → place th = Some (t, pc_start) → cl_locked (cs_cluster (mz_cs st)) = false →
      launch api Intn scheduler out_of_range fuel refuseTimeout t st = (Ret r, st') →
      launch_pc (mz_mesos st') r = Some x →
      mesos_step (mkRun st k d m) (mkRun st' k d (put i (go_on x th) m))
  (** A status update arrives for a task. *)
  | step_status st k m status t :
      StatusUpdate (mz_mesos st) status = Some t →
      mesos_step (mkRun st k None m) (mkRun st k (Some (t, status)) m)
  (** [Monitor] receives it: the first status of the task. *)
  | step_monitor_ok st k m i j th t id p status finished data :
      m !! i = Some th → place th = Some (t, pc_monitor id p) →
      Monitor status = (finished, data, None) → m !! j = None →
      mesos_step (mkRun st k (Some (t, status)) m)
        (mkRun st k None (put i (Some (at_pc (pc_register p data) th))
           (if finished then m else <[j := th_watch t]> m)))
  | step_monitor_error st k m i th t id p status msg st' :
      m !! i = Some th → place th = Some (t, pc_monitor id p) →
      (Monitor status).2 = Some msg → drop_task t id st = (Ret tt, st') →
      mesos_step (mkRun st k (Some (t, status)) m)
        (mkRun st' k None (put i (Some (at_pc (pc_error msg) th)) m))
  (** The goroutine started by [LaunchTask] receives a later one. *)
  | step_watch st k m i t status :
      m !! i = Some (th_watch t) →
      mesos_step (mkRun st k (Some (t, status)) m)
        (mkRun st k None (put i (watch t status) m))
  (** The registration of the container. *)
  | step_register st k d m i th t p data r st' :
      m !! i = Some th → place th = Some (t, pc_register p data) →
      register api inspect_ids t p data st = (Ret r, st') →
      mesos_step (mkRun st k d m) (mkRun st' k d (put i (go_on (delivery_pc r) th) m))
  (** The creator receives a container, or an error. *)
  | step_deliver st k d m i th j t c c' :
      m !! i = Some th → place th = Some (t, pc_deliver c) → m !! j = Some (th_create t) →
      formatted c = Ret c' →
      mesos_step (mkRun st k d m) (mkRun st k d (<[j := th_created t c']> (put i (after_launch true th) m)))
  | step_error st k d m i th j t msg :
      m !! i = Some th → place th = Some (t, pc_error msg) → m !! j = Some (th_create t) →
      mesos_step (mkRun st k d m) (mkRun st k d (<[j := th_remove t msg]> (put i (after_launch true th) m)))
  | step_error_locked st k d m i th j t msg st' :
      m !! i = Some th → place th = Some (t, pc_error_locked msg) → m !! j = Some (th_create t) →
      in_engines unlock st = (Ret tt, st') →
      mesos_step (mkRun st k d m) (mkRun st' k d (<[j := th_remove t msg]> (put i (after_launch true th) m)))
  (** The timeout of the creation. *)
  | step_suicide st k d m i t task :
      m !! i = Some (th_suicide t) → ms_tasks (mz_mesos st) !! t = Some task →
      mesos_step (mkRun st k d m) (mkRun st k d (put i (th_suicide_send t <$> suicide timeout task) m))
  | step_suicide_send st k d m i j t msg :
      m !! i = Some (th_suicide_send t msg) → m !! j = Some (th_create t) →
      mesos_step (mkRun st k d m) (mkRun st k d (<[j := th_remove t msg]> (delete i m)))
  (** The critical sections of the pending tasks. *)
  | step_remove st d m i t msg st' :
      m !! i = Some (th_remove t msg) → remove_pending t st = (Ret tt, st') →
      mesos_step (mkRun st false d m) (mkRun st' false d (<[i := th_failed t msg]> m))
  | step_enqueue st d m i t st' :
      m !! i = Some (th_enqueue t) → add_pending_task t st = (Ret tt, st') →
      mesos_step (mkRun st false d m) (mkRun st' false d (delete i m))
  | step_process st d m i :
      m !! i = Some th_process_wait →
      mesos_step (mkRun st false d m)
        (mkRun st true d (<[i := th_process (range_map (ms_pending (mz_mesos st))).*2 None []]> m))
  | step_process_next st k d m i t todo r :
      m !! i = Some (th_process (t :: todo) None r) →
      mesos_step (mkRun st k d m) (mkRun st k d (<[i := th_process todo (Some (t, pc_start)) r]> m))
  | step_process_end st k d m i r st' :
      m !! i = Some (th_process [] None r) → for_each_x remove_pending r st = (Ret tt, st') →
      mesos_step (mkRun st k d m) (mkRun st' false d (delete i m))
  (** Offers arrive, are rescinded, or time out. *)
  | step_offers st k m offers now l st' i :
      ResourceOffers api out_of_range resolve dial dockerEnginePort FailureRetry now offers st = (Ret l, st') →
      m !! i = None →
      mesos_step (mkRun st k None m) (mkRun st' k None (spawn_timers l (<[i := th_process_wait]> m)))
  | step_rescinded st k m id st' :
      OfferRescinded api id st = (Ret tt, st') →
      mesos_step (mkRun st k None m) (mkRun st' k None m)
  | step_timeout st k d m i o st' :
      m !! i = Some (th_timeout o) → offer_timeout api o st = (Ret tt, st') →
      mesos_step (mkRun st k d m) (mkRun st' k d (delete i m))
  (** Anything else that happens to an engine. *)
  | step_engine A st k d m p (f : DockerAPI W → M W A) a st' :
      in_engines (on api p f) st = (Ret a, st') →
      mesos_step (mkRun st k d m) (mkRun st' k d m).

Definition mesos_steps : MesosSys W → MesosSys W → Prop := rtc mesos_step.
(** No agent, no task, nothing running. *)
Definition start (st : MesosSt W) : MesosSys W := mkRun st false None ∅.
End run.

(** ** Roles *)

(** The task whose creator the goroutine is, and the one that it is to add. *)
Definition creator_of (th : thread) : option nat :=
  match th with th_create t | th_remove t _ | th_created t _ | th_failed t _ => Some t | _ => None end.
Definition adder_of (th : thread) : option nat :=
  match th with th_add t _ | th_enqueue t => Some t | _ => None end.
(** Whether it is in [Process]'s critical section, and the tasks that it handles there. *)
Definition processing (th : thread) : option nat :=
  match th with th_process _ _ _ => Some 0%nat | _ => None end.
Definition handled (th : thread) : list nat :=
  match th with
  | th_process todo cur r => todo ++ match cur with Some (t, _) => [t] | None => [] end ++ r
  | _ => []
  end.
(** The tasks that it refers to. *)
Definition mentions (th : thread) : list nat :=
  match th with
  | th_create t | th_remove t _ | th_created t _ | th_failed t _ | th_add t _ | th_enqueue t
  | th_suicide t | th_suicide_send t _ | th_watch t => [t]
  | th_process todo cur r => handled (th_process todo cur r)
  | th_process_wait | th_timeout _ => []
  end.

(** At most one goroutine has the role for a task. *)
Definition unique (f : thread → option nat) (m : gmap nat thread) : Prop :=
  ∀ i j th th' t, m !! i = Some th → m !! j = Some th' → f th = Some t → f th' = Some t → i = j.
(** What a goroutine may count on: its tasks are objects; a task that is being added is not
    among the pending ones; the tasks that are processed are different pending ones, and
    the lock is held. *)
Record thread_ok (z : Mesos) (lock : bool) (th : thread) : Prop := {
  to_tasks : ∀ t, t ∈ mentions th → is_Some (ms_tasks z !! t);
  to_adder : ∀ t k, adder_of th = Some t → ms_pending z !! k ≠ Some t;
  to_lock : processing th ≠ None → lock = true;
  to_handled : NoDup (handled th) ∧ ∀ t, t ∈ handled th → ∃ k, ms_pending z !! k = Some t
}.
Record sys_ok {W} (s : MesosSys W) : Prop := {
  so_tables : mesos_ok (cs_cluster (mz_cs (sy_st s))) (mz_mesos (sy_st s));
  so_creator : unique creator_of (sy_threads s);
  so_adder : unique adder_of (sy_threads s);
  so_processing : unique processing (sy_threads s);
  so_held : sy_tasklock s = true → ∃ i th, sy_threads s !! i = Some th ∧ processing th ≠ None;
  so_threads : map_Forall (λ _ th, thread_ok (mz_mesos (sy_st s)) (sy_tasklock s) th) (sy_threads s)
}.

(** A goroutine that goes on with no new role. *)
Record sub_thread (o : option thread) (th : thread) : Prop := {
  su_creator : ∀ th' t, o = Some th' → creator_of th' = Some t → creator_of th = Some t;
  su_adder : ∀ th' t, o = Some th' → adder_of th' = Some t → adder_of th = Some t;
  su_processing : ∀ th', o = Some th' → processing th' = processing th;
  su_stays : processing th ≠ None → o ≠ None;
  su_handled : ∀ th', o = Some th' → handled th' ⊆+ handled th;
  su_mentions : ∀ th', o = Some th' → mentions th' ⊆ mentions th
}.
(** A goroutine without a role. *)
Definition plain (th : thread) : Prop := creator_of th = None ∧ adder_of th = None ∧ processing th = None.

Lemma lookup_put i o m : put i o m !! i = o.
Proof. apply lookup_partial_alter_eq. Qed.
Lemma lookup_put_ne i j o m : i ≠ j → put i o m !! j = m !! j.
Proof. intros. by apply lookup_partial_alter_ne. Qed.
Lemma put_cases i o m j th : put i o m !! j = Some th → (i = j ∧ o = Some th) ∨ (i ≠ j ∧ m !! j = Some th).
Proof.
  destruct (decide (i = j)) as [<-|Hne]; [rewrite lookup_put; auto|rewrite lookup_put_ne by done; auto].
Qed.

Lemma unique_put f m i th o :
  unique f m → m !! i = Some th → (∀ th' t, o = Some th' → f th' = Some t → f th = Some t) → unique f (put i o m).
Proof.
  intros Hu Hi Ho j k a b t [[<- ->]|[Hij Hj]]%put_cases [[<- Hb]|[Hik Hk]]%put_cases Ha Hfb; [done|..].
  - apply (Hu i k th b t); try done. by eapply Ho.
  - apply (Hu j i a th t); try done. by eapply Ho.
  - by apply (Hu j k a b t).
Qed.
Lemma unique_add f m i th :
  unique f m → m !! i = None → (∀ t j th', f th = Some t → m !! j = Some th' → f th' ≠ Some t) →
  unique f (<[i := th]> m).
Proof.
  intros Hu Hi Hnew j k a b t [[<- <-]|[_ Hj]]%lookup_insert_Some [[<- <-]|[_ Hk]]%lookup_insert_Some Ha Hb; try done.
  - by destruct (Hnew t k b).
  - by destruct (Hnew t j a).
  - by apply (Hu j k a b t).
Qed.

Section invariant.
Context {W : Type}.
Implicit Types (st : MesosSt W) (m : gmap nat thread).

Lemma thread_ok_keeps st st' k th :
  keeps st st' → thread_ok (mz_mesos st) k th → thread_ok (mz_mesos st') k th.
Proof. intros [Hp Ht] [A1 A2 A3 A4]. split; rewrite ?Hp; auto. Qed.
Lemma submseteq_NoDup {A} (l k : list A) : l ⊆+ k → NoDup k → NoDup l.
Proof. intros (k' & ->)%submseteq_Permutation Hnd. by apply NoDup_app in Hnd as [? _]. Qed.
Lemma thread_ok_sub z k o th th' :
  sub_thread o th → o = Some th' → thread_ok z k th → thread_ok z k th'.
Proof.
  intros [S1 S2 S3 S4 S5 S6] Ho [A1 A2 A3 [A4 A5]]. split.
  - intros t Ht. apply A1. by apply (S6 th' Ho).
  - intros t j Ht. apply A2. by apply (S2 th' t Ho).
  - rewrite (S3 th' Ho). exact A3.
  - split; [by eapply submseteq_NoDup; [apply S5|]|]. intros t Ht. apply A5.
    by eapply elem_of_submseteq; [|apply S5].
Qed.

(** One goroutine goes on. *)
Lemma put_ok st k d m i th st' d' o :
  sys_ok (mkRun st k d m) → m !! i = Some th → keeps st st' →
  mesos_ok (cs_cluster (mz_cs st')) (mz_mesos st') → sub_thread o th → sys_ok (mkRun st' k d' (put i o m)).
Proof.
  intros [A1 A2 A3 A4 A5 A6] Hi Hk Hok Hsub. simpl in *. pose proof Hsub as [S1 S2 S3 S4 S5 S6]. split; simpl.
  - done.
  - by eapply unique_put.
  - by eapply unique_put.
  - eapply unique_put; [done..|]. intros th' t Ho Ht. rewrite <- (S3 th' Ho). exact Ht.
  - intros Hl. destruct (A5 Hl) as (j & thj & Hj & Hp). destruct (decide (i = j)) as [<-|Hne].
    + assert (thj = th) as -> by congruence. destruct o as [th'|]; [|by destruct S4].
      exists i, th'. rewrite lookup_put. split; [done|]. by rewrite (S3 th' eq_refl).
    + exists j, thj. by rewrite lookup_put_ne.
  - intros j thj [[<- ->]|[_ Hj]]%put_cases.
    + eapply thread_ok_keeps; [done|]. eapply thread_ok_sub; [done..|]. by apply (A6 i).
    + eapply thread_ok_keeps; [done|]. by apply (A6 j).
Qed.
(** Nothing but the tables changes. *)
Lemma same_threads_ok st k d m st' d' :
  sys_ok (mkRun st k d m) → keeps st st' → mesos_ok (cs_cluster (mz_cs st')) (mz_mesos st') →
  sys_ok (mkRun st' k d' m).
Proof.
  intros [A1 A2 A3 A4 A5 A6] Hk Hok. split; try done. simpl in *. intros j thj Hj.
  eapply thread_ok_keeps; [done|]. by apply (A6 j).
Qed.
(** A goroutine without a role starts. *)
Lemma plain_ok st k d m i th :
  sys_ok (mkRun st k d m) → m !! i = None → plain th →
  (∀ t, t ∈ mentions th → is_Some (ms_tasks (mz_mesos st) !! t)) → sys_ok (mkRun st k d (<[i := th]> m)).
Proof.
  intros [A1 A2 A3 A4 A5 A6] Hi (Hc & Ha & Hp) Hm. simpl in *. split; simpl; [done|..].
  - apply unique_add; [done..|]. congruence.
  - apply unique_add; [done..|]. congruence.
  - apply unique_add; [done..|]. congruence.
  - intros Hl. destruct (A5 Hl) as (j & thj & Hj & ?). exists j, thj. split; [|done].
    rewrite lookup_insert_ne; [done|congruence].
  - apply map_Forall_insert_2; [|done]. split; [done|congruence|by rewrite Hp|].
    assert (handled th = []) as -> by (by destruct th). split; [constructor|]. by intros t ?%elem_of_nil.
Qed.

Lemma sub_self th th' :
  creator_of th' = creator_of th → adder_of th' = adder_of th → processing th' = processing th →
  handled th' = handled th → mentions th' = mentions th → sub_thread (Some th') th.
Proof.
  intros H1 H2 H3 H4 H5. split; [| | |done| |]; try intros x t [= <-]; try intros x [= <-].
  - by rewrite H1.
  - by rewrite H2.
  - exact H3.
  - by rewrite H4.
  - by rewrite H5.
Qed.
Lemma sub_none th : processing th = None → sub_thread None th.
Proof. intros Hp. by split. Qed.
Lemma sub_at_pc th t l l' : place th = Some (t, l) → sub_thread (Some (at_pc l' th)) th.
Proof.
  destruct th as [| | | |t' l1| | |todo [[t1 l1]|] r| | | |]; try done; intros _; by apply sub_self.
Qed.
Lemma sub_after th t l b : place th = Some (t, l) → sub_thread (after_launch b th) th.
Proof.
  destruct th as [| | | |t' l1| | |todo [[t1 l1]|] r| | | |]; try done; intros _; simpl.
  - destruct b; [by apply sub_none|by apply sub_self].
  - assert (∀ r', r' ⊆+ t1 :: r → sub_thread (Some (th_process todo None r')) (th_process todo (Some (t1, l1)) r)) as Hr.
    { intros r' Hr. assert (todo ++ r' ⊆+ todo ++ t1 :: r) as Hsub by (by apply submseteq_skips_l).
      split; try done; try (by intros ? ? [= <-]); intros ? [= <-]; simpl; [done|done|].
      intros u Hu. by eapply elem_of_submseteq. }
    destruct b; apply Hr; [|by apply submseteq_cons].
    rewrite <- Permutation_cons_append. done.
Qed.
Lemma sub_go_on th t l x : place th = Some (t, l) → sub_thread (go_on x th) th.
Proof. destruct x; [apply sub_at_pc|apply sub_after]. Qed.
End invariant.

(** ** Every step keeps the invariant *)

Section run_steps.
Context {W : Type} (api : ptr → DockerAPI W) `{MesosDriver W}.
Context `{GoRegexp} `{GoJson} `{GoNet} `{MapRange} `{GoSort} (Intn : Z → Z).
Context (scheduler : Scheduler) (out_of_range : Z) (fuel : nat).
Context (inspect_ids : string → option (list string)).
Context (resolve : string → string + error) (dial : string → option error).
Context (dockerEnginePort timeout : string) (FailureRetry refuseTimeout : Z).
Implicit Types (st : MesosSt W) (m : gmap nat thread).
Abbreviation mesos_step := (mesos_step api Intn scheduler out_of_range fuel inspect_ids resolve dial dockerEnginePort timeout
  FailureRetry refuseTimeout).
Abbreviation mesos_steps := (mesos_steps api Intn scheduler out_of_range fuel inspect_ids resolve dial dockerEnginePort timeout
  FailureRetry refuseTimeout).

(** A new task: its creator, its adder and its timeout. *)
Lemma create_ok st k d m config name random t st' i j l :
  sys_ok (mkRun st k d m) → start_creation config name random st = (Ret (inl t), st') →
  m !! i = None → m !! j = None → m !! l = None → i ≠ j → i ≠ l → j ≠ l →
  sys_ok (mkRun st' k d (<[i := th_create t]> (<[j := th_add t pc_start]> (<[l := th_suicide t]> m)))).
Proof.
  intros Hok Hrun Hi Hj Hl Hij Hil Hjl.
  destruct (start_creation_good _ _ _ _ _ _ Hrun) as (Hgood & Ht & ->); [apply Hok|].
  set (task := NewTask config name random).
  assert (sys_ok (mkRun (put_task t task st) k d m)) as Hok0.
  { eapply same_threads_ok; [done| |done]. by apply (xkeeps_set_task t task st). }
  assert (∀ x th, m !! x = Some th → t ∉ mentions th) as Hfresh.
  { intros x th Hx Hin. destruct (to_tasks _ _ _ (so_threads _ Hok x th Hx) t Hin) as [y Hy]. simpl in Hy. congruence. }
  assert (is_Some (ms_tasks (mz_mesos (put_task t task st)) !! t)) as Hsome by (simpl; rewrite lookup_insert_eq; eauto).
  assert (sys_ok (mkRun (put_task t task st) k d (<[l := th_suicide t]> m))) as Hok1.
  { apply plain_ok; [done..|]. by intros x ->%list_elem_of_singleton. }
  assert (∀ k, ms_pending (mz_mesos st) !! k ≠ Some t) as Hpend.
  { intros x Hx. destruct (mo_pending _ _ (so_tables _ Hok) x t Hx) as (y & Hy & _). simpl in Hy. congruence. }
  assert (∀ x th, (<[l := th_suicide t]> m) !! x = Some th → creator_of th ≠ Some t ∧ adder_of th ≠ Some t) as Hroles.
  { intros x th [[<- <-]|[_ Hx]]%lookup_insert_Some; [done|]. specialize (Hfresh x th Hx).
    destruct th; simpl in Hfresh |- *; split; try done; intros [= ->]; apply Hfresh; by left. }
  destruct Hok1 as [A1 A2 A3 A4 A5 A6]; simpl in *. split; simpl; [done|..].
  - apply unique_add; [apply unique_add; [done|by rewrite lookup_insert_ne|done]|by rewrite !lookup_insert_ne|].
    intros u x th [= <-] [[<- <-]|[_ Hx]]%lookup_insert_Some; [done|]. by apply (Hroles x th).
  - apply unique_add; [apply unique_add; [done|by rewrite lookup_insert_ne|]|by rewrite !lookup_insert_ne|done].
    intros u x th [= <-] Hx. by apply (Hroles x th).
  - apply unique_add; [apply unique_add; [done|by rewrite lookup_insert_ne|done]|by rewrite !lookup_insert_ne|done].
  - intros Hk. destruct (A5 Hk) as (x & th & Hx & Hp). exists x, th. split; [|done].
    apply lookup_insert_Some in Hx as [[_ <-]|[_ Hx]]; [done|].
    by rewrite !lookup_insert_ne by congruence.
  - apply map_Forall_insert_2; [|apply map_Forall_insert_2; [|done]].
    + split; try done; [by intros x ->%list_elem_of_singleton|split; [constructor|by intros x ?%elem_of_nil]].
    + split; try done; [by intros x ->%list_elem_of_singleton|by intros x y [= <-]|
        split; [constructor|by intros x ?%elem_of_nil]].
Qed.

(** A creator, or an adder, that ends its work. *)
Lemma creator_ok st k d m j t th :
  sys_ok (mkRun st k d m) → m !! j = Some (th_create t) →
  creator_of th = Some t → adder_of th = None → processing th = None → handled th = [] → mentions th = [t] →
  sys_ok (mkRun st k d (<[j := th]> m)).
Proof.
  intros Hok Hj Hc Ha Hp Hh Hm. refine (put_ok _ _ _ _ j _ _ _ (Some th) Hok Hj (keeps_refl _) (so_tables _ Hok) _).
  by apply sub_self.
Qed.

(** The creator is not the goroutine that launches. *)
Lemma creator_elsewhere m i th j t o l :
  m !! i = Some th → place th = Some (t, l) → m !! j = Some (th_create t) → put i o m !! j = Some (th_create t).
Proof. intros Hi Hp Hj. rewrite lookup_put_ne; [done|]. intros ->. rewrite Hi in Hj. by injection Hj as ->. Qed.

(** What [put_ok] needs of a computation. *)
Lemma run_ok {A} (c : X W A) st k d m i th a st' d' o :
  sys_ok (mkRun st k d m) → m !! i = Some th → xkeeps c → c st = (Ret a, st') →
  (mesos_ok (cs_cluster (mz_cs st)) (mz_mesos st) → mesos_ok (cs_cluster (mz_cs st')) (mz_mesos st')) →
  sub_thread o th → sys_ok (mkRun st' k d' (put i o m)).
Proof.
  intros Hok Hi Hc Hrun Hgood Hsub. eapply put_ok; [exact Hok|exact Hi| |by apply Hgood, (so_tables _ Hok)|done].
  by eapply xkeeps_run.
Qed.

(** The critical section of [Add]. *)
Lemma enqueue_ok st d m i t st' :
  sys_ok (mkRun st false d m) → m !! i = Some (th_enqueue t) → add_pending_task t st = (Ret tt, st') →
  sys_ok (mkRun st' false d (delete i m)).
Proof.
  intros [A1 A2 A3 A4 A5 A6] Hi Hrun. simpl in *. pose proof (add_pending_good _ _ _ Hrun A1) as Hgood.
  assert (sys_ok (mkRun st false d (delete i m))) as Hok.
  { apply (put_ok st false d m i (th_enqueue t) st d None); [by split|done|apply keeps_refl|done|by apply sub_none]. }
  unfold add_pending_task in Hrun. apply task_at_inv in Hrun as (task & Ht & [= <-]).
  destruct Hok as [B1 B2 B3 B4 B5 B6]. split; try done. simpl. intros j th [Hij Hj]%lookup_delete_Some.
  destruct (A6 j th Hj) as [C1 C2 C3 C4]. split; [done| |done|].
  - intros u x Hu. simpl. intros [[<- ->]|[_ Hx]]%lookup_insert_Some; [|by eapply C2].
    apply Hij. by apply (A3 i j (th_enqueue u) th u).
  - destruct C4 as [C4 C5]. split; [done|]. intros u Hu.
    destruct th; simpl in Hu; try by apply elem_of_nil in Hu. by discriminate C3.
Qed.

(** A task that is no longer pending. *)
Lemma remove_one st t st' :
  remove_pending t st = (Ret tt, st') →
  (∀ u, is_Some (ms_tasks (mz_mesos st) !! u) → is_Some (ms_tasks (mz_mesos st') !! u)) ∧
  ms_pending (mz_mesos st') ⊆ ms_pending (mz_mesos st).
Proof.
  unfold remove_pending. intros (task & Ht & Hrun)%task_at_inv. apply X_modify_inv in Hrun. injection Hrun as <-.
  split; [|simpl; apply delete_subseteq]. apply (xkeeps_set_task t (Stop task) st).
Qed.
Lemma remove_all l st st' :
  for_each_x remove_pending l st = (Ret tt, st') → mesos_ok (cs_cluster (mz_cs st)) (mz_mesos st) →
  mesos_ok (cs_cluster (mz_cs st')) (mz_mesos st') ∧
  (∀ u, is_Some (ms_tasks (mz_mesos st) !! u) → is_Some (ms_tasks (mz_mesos st') !! u)) ∧
  ms_pending (mz_mesos st') ⊆ ms_pending (mz_mesos st).
Proof.
  revert st. induction l as [|t l IH]; intros st; simpl; [by intros [= <-]|].
  intros ([] & st1 & Hone & Hrest)%X_bind_Ret Hok. pose proof (remove_pending_good _ _ _ Hone Hok) as Hok1.
  destruct (remove_one _ _ _ Hone) as [H1' H2']. destruct (IH _ Hrest Hok1) as (H3' & H4' & H5').
  split_and!; [done|auto|by etrans].
Qed.
(** Threads that are not in [Process] do not mind. *)
Lemma fewer_pending st st' k k' d m :
  sys_ok (mkRun st k d m) → (∀ j th, m !! j = Some th → processing th = None) → k' = false →
  mesos_ok (cs_cluster (mz_cs st')) (mz_mesos st') →
  (∀ u, is_Some (ms_tasks (mz_mesos st) !! u) → is_Some (ms_tasks (mz_mesos st') !! u)) →
  ms_pending (mz_mesos st') ⊆ ms_pending (mz_mesos st) → sys_ok (mkRun st' k' d m).
Proof.
  intros [A1 A2 A3 A4 A5 A6] Hno -> Hgood Ht Hp. simpl in *. split; try done. simpl. intros j th Hj.
  destruct (A6 j th Hj) as [C1 C2 C3 C4]. split; [auto| | |].
  - intros u x Hu Hx. eapply C2; [done|]. by eapply lookup_weaken.
  - by rewrite (Hno j th Hj).
  - specialize (Hno j th Hj). assert (handled th = []) as -> by (by destruct th).
    split; [constructor|by intros x ?%elem_of_nil].
Qed.
Lemma unlocked_idle st d m j th : sys_ok (mkRun st false d m) → m !! j = Some th → processing th = None.
Proof.
  intros Hok Hj. destruct (processing th) as [x|] eqn:Hp; [|done].
  assert (processing th ≠ None) as Hne by congruence. by apply (to_lock _ _ _ (so_threads _ Hok j th Hj)) in Hne.
Qed.

Lemma timers_ok st k d l m : sys_ok (mkRun st k d m) → sys_ok (mkRun st k d (spawn_timers l m)).
Proof.
  revert m. unfold spawn_timers. induction l as [|o l IH]; intros m Hok; simpl; [done|]. apply IH.
  apply plain_ok; [done|apply (not_elem_of_dom (D := gset nat)), is_fresh|done|by intros t ?%elem_of_nil].
Qed.

Lemma pending_ids st : mesos_ok (cs_cluster (mz_cs st)) (mz_mesos st) →
  NoDup (range_map (ms_pending (mz_mesos st))).*2 ∧
  ∀ t, t ∈ (range_map (ms_pending (mz_mesos st))).*2 →
    ∃ k task, ms_pending (mz_mesos st) !! k = Some t ∧ ms_tasks (mz_mesos st) !! t = Some task.
Proof.
  intros [_ Hp]. split.
  - pose proof (NoDup_range_map_fst (ms_pending (mz_mesos st))) as Hnd.
    assert (∀ k t, (k, t) ∈ range_map (ms_pending (mz_mesos st)) → ms_pending (mz_mesos st) !! k = Some t) as Hin.
    { intros k t. by rewrite elem_of_range_map. }
    revert Hnd Hin. generalize (range_map (ms_pending (mz_mesos st))) as l.
    induction l as [|[k t] l IH]; intros Hnd Hin; [constructor|]. cbn in *. apply NoDup_cons in Hnd as [Hk Hnd].
    apply NoDup_cons. split; [|apply IH; [done|intros; apply Hin; by right]].
    intros ([k' t'] & -> & Hkt)%list_elem_of_fmap. apply Hk. apply list_elem_of_fmap. exists (k', t'). split; [|done].
    destruct (Hp k t') as (x & Hx & <-); [apply Hin; by left|].
    destruct (Hp k' t') as (y & Hy & <-); [apply Hin; by right|]. simpl. congruence.
  - intros t [k Hk]%elem_of_range_snd. destruct (Hp k t Hk) as (task & Ht & _). eauto.
Qed.

Lemma process_ok st d m i :
  sys_ok (mkRun st false d m) → m !! i = Some th_process_wait →
  sys_ok (mkRun st true d (<[i := th_process (range_map (ms_pending (mz_mesos st))).*2 None []]> m)).
Proof.
  intros Hok Hi. pose proof (λ j th, unlocked_idle st d m j th Hok) as Hidle.
  destruct (pending_ids _ (so_tables _ Hok)) as [Hnd Hin]. destruct Hok as [A1 A2 A3 A4 A5 A6]. simpl in *.
  set (th := th_process _ _ _). change (<[i := th]> m) with (put i (Some th) m). split; simpl; [done|..].
  - eapply unique_put; [done..|]. by intros ? ? [= <-].
  - eapply unique_put; [done..|]. by intros ? ? [= <-].
  - intros j k a b t [[<- [= <-]]|[_ Hj]]%put_cases [[<- [= <-]]|[_ Hk]]%put_cases Ha Hb; try done.
    + rewrite (Hidle k b Hk) in Hb. done.
    + rewrite (Hidle j a Hj) in Ha. done.
    + rewrite (Hidle j a Hj) in Ha. done.
  - intros _. exists i, th. by rewrite lookup_put.
  - intros j thj [[<- [= <-]]|[_ Hj]]%put_cases.
    + split; simpl; [|done|done|]; rewrite !app_nil_r.
      * intros t Ht. destruct (Hin t Ht) as (k & task & _ & ->). by eexists.
      * split; [done|]. intros t Ht. destruct (Hin t Ht) as (k & task & ? & _). by eexists.
    + destruct (A6 j thj Hj) as [C1 C2 C3 C4]. by split.
Qed.

Lemma process_end_ok st k d m i r st' :
  sys_ok (mkRun st k d m) → m !! i = Some (th_process [] None r) → for_each_x remove_pending r st = (Ret tt, st') →
  sys_ok (mkRun st' false d (delete i m)).
Proof.
  intros Hok Hi Hrun. destruct (remove_all _ _ _ Hrun (so_tables _ Hok)) as (Hgood & Ht & Hp).
  destruct Hok as [A1 A2 A3 A4 A5 A6]. simpl in *.
  assert (∀ j th, delete i m !! j = Some th → processing th = None) as Hidle.
  { intros j th [Hij Hj]%lookup_delete_Some. destruct (processing th) as [x|] eqn:Hx; [|done].
    destruct Hij. apply (A4 i j (th_process [] None r) th 0%nat); try done. by destruct th. }
  split; simpl; [done| | | |done|].
  - eapply (unique_put _ m i _ None); [done..|]. by intros ? ? [=].
  - eapply (unique_put _ m i _ None); [done..|]. by intros ? ? [=].
  - eapply (unique_put _ m i _ None); [done..|]. by intros ? ? [=].
  - intros j th Hj. pose proof (Hidle j th Hj) as Hno. apply lookup_delete_Some in Hj as [_ Hj].
    destruct (A6 j th Hj) as [C1 C2 C3 C4]. split; [auto| | |].
    + intros u x Hu Hx. eapply C2; [done|]. by eapply lookup_weaken.
    + by rewrite Hno.
    + assert (handled th = []) as -> by (by destruct th). split; [constructor|by intros x ?%elem_of_nil].
Qed.

Lemma step_ok s s' : mesos_step s s' → sys_ok s → sys_ok s'.
Proof.
  intros Hstep Hok. destruct Hstep.
  - by eapply create_ok.
  - eapply run_ok; [done|done|apply launch_keeps|done| |by eapply sub_go_on].
    intros Hgood. eapply launch_tables; [exact Hgood|done].
  - by eapply same_threads_ok; [|apply keeps_refl|apply (so_tables _ Hok)].
  - assert (sys_ok (mkRun st k None (if finished then m else <[j := th_watch t]> m))) as Hok1.
    { destruct finished; [by eapply same_threads_ok; [|apply keeps_refl|apply (so_tables _ Hok)]|].
      apply plain_ok; [|done|done|].
      - by eapply same_threads_ok; [|apply keeps_refl|apply (so_tables _ Hok)].
      - intros x ->%list_elem_of_singleton. pose proof (so_threads _ Hok i th ltac:(done)) as Hth.
        apply (to_tasks _ _ _ Hth). destruct th as [| | | |t1 l1| | |todo [[t1 l1]|] r| | | |]; try done;
          match goal with Hp : place _ = _ |- _ => injection Hp as -> -> end; simpl; set_solver. }
    eapply put_ok; [exact Hok1| |apply keeps_refl|apply (so_tables _ Hok1)|by eapply sub_at_pc].
    destruct finished; [done|]. rewrite lookup_insert_ne; [done|congruence].
  - eapply run_ok; [done|done|apply drop_task_keeps|done| |by eapply sub_at_pc]. by eapply drop_task_good.
  - eapply put_ok; [done|done|apply keeps_refl|apply (so_tables _ Hok)|].
    unfold watch. destruct (Monitor status) as [[[] data] [msg|]]; (by apply sub_none) || (by apply sub_self).
  - eapply run_ok; [done|done|apply register_keeps|done| |by eapply sub_go_on]. by eapply register_good.
  - eapply creator_ok; [|by eapply creator_elsewhere|done..].
    eapply put_ok; [done|done|apply keeps_refl|apply (so_tables _ Hok)|by eapply sub_after].
  - eapply creator_ok; [|by eapply creator_elsewhere|done..].
    eapply put_ok; [done|done|apply keeps_refl|apply (so_tables _ Hok)|by eapply sub_after].
  - eapply creator_ok; [|by eapply creator_elsewhere|done..].
    eapply run_ok; [done|done|apply xkeeps_in_engines|done| |by eapply sub_after].
    match goal with Hun : in_engines _ _ = _ |- _ => apply in_engines_inv in Hun as (cs & [= <-] & ->) end.
    by apply good_same.
  - eapply put_ok; [done|done|apply keeps_refl|apply (so_tables _ Hok)|].
    destruct (suicide timeout task); [by apply sub_self|by apply sub_none].
  - eapply creator_ok; [|rewrite lookup_delete_ne; [done|congruence]|done..].
    eapply (put_ok _ _ _ _ i _ _ _ None); [done|done|apply keeps_refl|apply (so_tables _ Hok)|by apply sub_none].
  - assert (sys_ok (mkRun st false d (<[i := th_failed t msg]> m))) as Hok1.
    { eapply (put_ok _ _ _ _ i _ _ _ (Some _)); [done|done|apply keeps_refl|apply (so_tables _ Hok)|by apply sub_self]. }
    edestruct remove_one as [? ?]; [done|].
    eapply fewer_pending; [exact Hok1|intros j th Hj; by eapply unlocked_idle|done| |done..].
    eapply remove_pending_good; [done|]. apply (so_tables _ Hok).
  - by eapply enqueue_ok.
  - by apply process_ok.
  - eapply (put_ok _ _ _ _ i _ _ _ (Some _)); [done|done|apply keeps_refl|apply (so_tables _ Hok)|].
    assert (todo ++ [t] ++ r ≡ₚ t :: todo ++ r) as Hp by (by rewrite Permutation_middle).
    split; try done; try (by intros ? ? [= <-]); intros ? [= <-]; simpl; [done| |].
    + by rewrite <- Hp.
    + intros u. by rewrite <- Hp.
  - by eapply process_end_ok.
  - apply timers_ok. apply plain_ok; [|done|done|by intros t ?%elem_of_nil].
    eapply same_threads_ok; [done|eapply xkeeps_run; [apply ResourceOffers_keeps|done]|].
    eapply ResourceOffers_good; [done|apply (so_tables _ Hok)].
  - eapply same_threads_ok; [done|eapply xkeeps_run; [apply OfferRescinded_keeps|done]|].
    eapply OfferRescinded_good; [done|apply (so_tables _ Hok)].
  - eapply (run_ok _ _ _ _ _ _ _ _ _ _ None); [done|done|apply offer_timeout_keeps|done| |by apply sub_none].
    by eapply offer_timeout_good.
  - eapply same_threads_ok; [done|eapply xkeeps_run; [apply xkeeps_in_engines|done]|].
    eapply on_good; [done|apply (so_tables _ Hok)].
Qed.

(** The goroutine that launches a task. *)
Definition launching (m : gmap nat thread) (t i : nat) : Prop :=
  ∃ th l, m !! i = Some th ∧ place th = Some (t, l).

End run_steps.

(** ** A send that nobody receives *)

Section blocked.
Context {W : Type} (api : ptr → DockerAPI W) `{MesosDriver W}.
Context `{GoRegexp} `{GoJson} `{GoNet} `{MapRange} `{GoSort} (Intn : Z → Z).
Context (scheduler : Scheduler) (out_of_range : Z) (fuel : nat).
Context (inspect_ids : string → option (list string)).
Context (resolve : string → string + error) (dial : string → option error).
Context (dockerEnginePort timeout : string) (FailureRetry refuseTimeout : Z).
Abbreviation mesos_step := (mesos_step api Intn scheduler out_of_range fuel inspect_ids resolve dial dockerEnginePort timeout
  FailureRetry refuseTimeout).
Abbreviation mesos_steps := (mesos_steps api Intn scheduler out_of_range fuel inspect_ids resolve dial dockerEnginePort timeout
  FailureRetry refuseTimeout).

(** The goroutine sends the result of the launching of [t] to its creator. *)
Definition sending (t : nat) (th : thread) : Prop :=
  ∃ l, place th = Some (t, l) ∧ match l with pc_deliver _ | pc_error _ | pc_error_locked _ => True | _ => False end.
(** It does, or it waits for the lock of the pending tasks before a failed creation returns. *)
Definition inert (t : nat) (th : thread) : Prop := sending t th ∨ ∃ u msg, th = th_remove u msg.

(** [Process] sends a result, and the creator no longer receives. *)
Record orphaned (t : nat) (s : MesosSys W) : Prop := {
  or_ok : sys_ok s;
  or_sender : ∃ i th, sy_threads s !! i = Some th ∧ processing th ≠ None ∧ sending t th;
  or_gone : ∀ j, sy_threads s !! j ≠ Some (th_create t);
  or_task : is_Some (ms_tasks (mz_mesos (sy_st s)) !! t)
}.

Lemma orphaned_lock t s : orphaned t s → sy_tasklock s = true.
Proof. intros [Hok (i & th & Hi & Hp & _) _ _]. by apply (to_lock _ _ _ (so_threads _ Hok i th Hi)). Qed.

Lemma inert_put i j o (m : gmap nat thread) th th0 :
  m !! j = Some th0 → m !! i = Some th → th ≠ th0 → put i o m !! j = Some th0.
Proof. intros Hj Hi Hne. rewrite lookup_put_ne; [done|congruence]. Qed.
Lemma gone_put t i o (m : gmap nat thread) :
  (∀ j, m !! j ≠ Some (th_create t)) → o ≠ Some (th_create t) → ∀ j, put i o m !! j ≠ Some (th_create t).
Proof. intros Hm Ho j [[_ ->]|[_ Hj]]%put_cases; [done|by apply (Hm j)]. Qed.
Lemma go_on_create x th t l u : place th = Some (t, l) → go_on x th ≠ Some (th_create u).
Proof.
  destruct th as [| | | |t1 l1| | |todo [[t1 l1]|] r| | | |]; try done; intros _; destruct x as [l'|[]]; done.
Qed.
Lemma inert_at t th th0 t' l :
  inert t th0 → place th = Some (t', l) →
  match l with pc_deliver _ | pc_error _ | pc_error_locked _ => t ≠ t' | _ => True end → th ≠ th0.
Proof.
  intros [(l' & Hl & Hs)|(u & msg & ->)] Hp Ht ->; [|done].
  rewrite Hp in Hl. injection Hl as -> ->. by destruct l'.
Qed.

Lemma spawn_timers_old l (m : gmap nat thread) j th : m !! j = Some th → spawn_timers l m !! j = Some th.
Proof.
  unfold spawn_timers. revert m. induction l as [|o l IH]; intros m Hm; simpl; [done|]. apply IH.
  rewrite lookup_insert_ne; [done|]. intros <-.
  assert (m !! fresh (dom m : gset nat) = None) as Hf by (apply (not_elem_of_dom (D := gset nat)), is_fresh).
  congruence.
Qed.

Lemma spawn_timers_gone t l (m : gmap nat thread) :
  (∀ j, m !! j ≠ Some (th_create t)) → ∀ j, spawn_timers l m !! j ≠ Some (th_create t).
Proof.
  unfold spawn_timers. revert m. induction l as [|o l IH]; intros m Hm; simpl; [done|]. apply IH.
  intros j [[_ ?]|[_ Hj]]%lookup_insert_Some; [done|by apply (Hm j)].
Qed.

(** One step leaves the senders and the waiting creators where they are. *)
Lemma step_inert t s s' j th0 :
  mesos_step s s' → orphaned t s → sy_threads s !! j = Some th0 → inert t th0 → sy_threads s' !! j = Some th0.
Proof.
  intros Hstep Hor Hj Hin. pose proof (orphaned_lock _ _ Hor) as Hlock.
  destruct Hor as [Hok (i0 & th1 & Hi0 & Hp0 & Hs0) Hgone Htask].
  assert (∀ u, th_create u ≠ th0) as Hc by (intros u <-; destruct Hin as [(l & Hl & _)|(? & ? & ?)]; done).
  destruct Hstep; simpl in *; try done.
  - rewrite !lookup_insert_ne; [done|congruence..].
  - eapply inert_put; [done..|]. by eapply inert_at.
  - assert ((if finished then m else <[j0 := th_watch t0]> m) !! j = Some th0) as Hj'.
    { destruct finished; [done|]. rewrite lookup_insert_ne; [done|congruence]. }
    eapply inert_put; [exact Hj'| |by eapply inert_at].
    destruct finished; [done|]. rewrite lookup_insert_ne; [done|congruence].
  - eapply inert_put; [done..|]. by eapply inert_at.
  - eapply inert_put; [done..|]. intros <-. destruct Hin as [(l & Hl & _)|(? & ? & ?)]; done.
  - eapply inert_put; [done..|]. by eapply inert_at.
  - rewrite lookup_insert_ne by (intros ->; naive_solver). eapply inert_put; [done..|].
    eapply inert_at; [done..|]. simpl. intros <-. by eapply Hgone.
  - rewrite lookup_insert_ne by (intros ->; naive_solver). eapply inert_put; [done..|].
    eapply inert_at; [done..|]. simpl. intros <-. by eapply Hgone.
  - rewrite lookup_insert_ne by (intros ->; naive_solver). eapply inert_put; [done..|].
    eapply inert_at; [done..|]. simpl. intros <-. by eapply Hgone.
  - eapply inert_put; [done..|]. intros <-. destruct Hin as [(l & Hl & _)|(? & ? & ?)]; done.
  - rewrite lookup_insert_ne by (intros ->; naive_solver). rewrite lookup_delete_ne; [done|].
    intros ->. assert (th0 = th_suicide_send t0 msg) as -> by congruence.
    destruct Hin as [(l & Hl & _)|(? & ? & ?)]; done.
  - rewrite lookup_insert_ne; [done|]. intros ->. assert (th0 = th_process (t0 :: todo) None r) as -> by congruence.
    destruct Hin as [(l & Hl & _)|(? & ? & ?)]; done.
  - assert (i = i0) as ->.
    { apply (so_processing _ Hok i i0 (th_process [] None r) th1 0%nat); try done. by destruct th1. }
    assert (th1 = th_process [] None r) as -> by congruence. by destruct Hs0 as (l & Hl & _).
  - apply spawn_timers_old. rewrite lookup_insert_ne; [done|congruence].
  - rewrite lookup_delete_ne; [done|]. intros ->. assert (th0 = th_timeout o) as -> by congruence.
    destruct Hin as [(l & Hl & _)|(? & ? & ?)]; done.
Qed.

(** No step makes the creator receive again. *)
Lemma step_gone t s s' :
  mesos_step s s' → orphaned t s → ∀ j, sy_threads s' !! j ≠ Some (th_create t).
Proof.
  intros Hstep [Hok _ Hgone Htask].
  assert (∀ u th m, (∀ j, m !! j ≠ Some (th_create t)) → th ≠ th_create t →
    ∀ j, (<[u := th]> m : gmap nat thread) !! j ≠ Some (th_create t)) as Hins.
  { intros u th m Hm Hth j [[_ ->]|[_ Hj]]%lookup_insert_Some; [done|by apply (Hm j)]. }
  destruct Hstep; simpl in *; try done; intros u.
  - destruct (start_creation_good _ _ _ _ _ _ ltac:(eassumption)) as (_ & Ht & _); [apply (so_tables _ Hok)|].
    apply Hins; [|intros [= ->]; destruct Htask; congruence]. apply Hins; [|done]. by apply Hins.
  - apply gone_put; [done|by eapply go_on_create].
  - apply gone_put; [destruct finished; [done|by apply Hins]|].
    eapply (go_on_create (inl _)); done.
  - apply gone_put; [done|]. eapply (go_on_create (inl _)); done.
  - apply gone_put; [done|]. unfold watch. by destruct (Monitor status) as [[[] ?] [?|]].
  - apply gone_put; [done|by eapply go_on_create].
  - apply Hins; [|done]. apply gone_put; [done|]. eapply (go_on_create (inr _)); done.
  - apply Hins; [|done]. apply gone_put; [done|]. eapply (go_on_create (inr _)); done.
  - apply Hins; [|done]. apply gone_put; [done|]. eapply (go_on_create (inr _)); done.
  - apply gone_put; [done|]. by destruct (suicide timeout task).
  - apply Hins; [|done]. intros v [_ ?]%lookup_delete_Some. by eapply Hgone.
  - by apply Hins.
  - intros [_ ?]%lookup_delete_Some. by eapply Hgone.
  - by apply Hins.
  - by apply Hins.
  - intros [_ ?]%lookup_delete_Some. by eapply Hgone.
  - apply spawn_timers_gone. by apply Hins.
  - intros [_ ?]%lookup_delete_Some. by eapply Hgone.
Qed.

Lemma sending_mentions t th : sending t th → t ∈ mentions th.
Proof.
  intros (l & Hl & _). destruct th as [| | | |t1 l1| | |todo [[t1 l1]|] r| | | |]; try done;
    injection Hl as -> ->; simpl; set_solver.
Qed.

Lemma step_orphaned t s s' : mesos_step s s' → orphaned t s → orphaned t s'.
Proof.
  intros Hstep Hor. pose proof (step_gone _ _ _ Hstep Hor) as Hgone. pose proof Hor as [Hok (i & th & Hi & Hp & Hs) _ _].
  assert (sys_ok s') as Hok' by (by eapply step_ok).
  assert (sy_threads s' !! i = Some th) as Hi' by (eapply step_inert; [done..|by left]).
  split; [done|by exists i, th|done|].
  apply (to_tasks _ _ _ (so_threads _ Hok' i th Hi')). by apply sending_mentions.
Qed.

Lemma orphaned_forever t s s' :
  orphaned t s → mesos_steps s s' →
  sy_tasklock s' = true ∧
  ∀ j th, sy_threads s !! j = Some th → inert t th → sy_threads s' !! j = Some th.
Proof.
  intros Hor Hrun. revert Hor. induction Hrun as [s|s1 s2 s3 H12 _ IH]; intros Hor.
  { split; [by eapply orphaned_lock|done]. }
  destruct (IH (step_orphaned _ _ _ H12 Hor)) as [Hl Hj]. split; [done|].
  intros j th Hth Hin. apply Hj; [|done]. by eapply step_inert.
Qed.
End blocked.

(** ** The race between a timeout and a launch *)

Section race.
Existing Instances re2 json_strings net_zero canonical_range insertion_sort.
Definition race_step : MesosSys unit → MesosSys unit → Prop :=
  mesos_step race_api (λ _, 0) race_scheduler 0 10 no_inspect resolve_any dial_any "2375" "5s" 3 0.
Definition race_steps : MesosSys unit → MesosSys unit → Prop :=
  mesos_steps race_api (λ _, 0) race_scheduler 0 10 no_inspect resolve_any dial_any "2375" "5s" 3 0.

(** The goroutines when the task is queued and the offer has arrived: the creator, the
    timeout, [Process], and the timeout of the offer. *)
Definition race_threads4 : gmap nat thread :=
  spawn_timers [ports_offer 31000 31001]
    (<[3%nat := th_process_wait]> (delete 1%nat (put 1 (Some (th_enqueue 0))
      (<[0%nat := th_create 0]> (<[1%nat := th_add 0 pc_start]> {[2%nat := th_suicide 0]}))))).
(** The timeout has gone off and the creator has received it. *)
Definition timeout_text : string := "container failed to start after 5s".
Definition race_threads6 : gmap nat thread :=
  <[0%nat := th_remove 0 timeout_text]> (delete 2%nat (put 2 (Some (th_suicide_send 0 timeout_text)) race_threads4)).
(** [Process] launches the task. *)
Definition race_processing (l : pc) : thread := th_process [] (Some (0%nat, l)) [].
Definition race_threads7 : gmap nat thread :=
  <[3%nat := race_processing pc_start]> (<[3%nat := th_process [0%nat] None []]> race_threads6).
Definition race_threads9 : gmap nat thread :=
  put 3 (Some (race_processing (pc_register 0 None)))
    (<[9%nat := th_watch 0]> (put 3 (Some (race_processing (pc_monitor "slave-1" 0))) race_threads7)).
(** The end: it sends an error to a creator that waits for the lock it holds. *)
Definition race_end : MesosSys unit :=
  mkRun race_st6 true None
    (put 3 (Some (race_processing (pc_error "Container failed to create"))) race_threads9).

Lemma race_first : race_steps (start race_st0) (mkRun race_st4 false None race_threads4).
Proof.
  eapply rtc_l.
  { apply (step_create _ _ _ _ _ _ _ _ _ _ _ _ _ _ _ _ race_config "web" "0123456789abcdef" 0 race_st1 0 1 2);
      [exact race_create_run|done..]. }
  eapply rtc_l.
  { eapply (step_launch _ _ _ _ _ _ _ _ _ _ _ _ race_st1 false None _ 1 (th_add 0 pc_start) 0 not_now race_st2 (inr false));
      [done..|vm_compute; reflexivity|exact race_launch_run1|done]. }
  eapply rtc_l.
  { apply (step_enqueue _ _ _ _ _ _ _ _ _ _ _ _ race_st2 None _ 1 0 race_st3); [done|exact race_queue_run]. }
  eapply rtc_once.
  apply (step_offers _ _ _ _ _ _ _ _ _ _ _ _ race_st3 false _ [ports_offer 31000 31001] 0
    [ports_offer 31000 31001] race_st4 3); [exact race_offers_run|done].
Qed.

Lemma race_second : race_steps (mkRun race_st4 false None race_threads4) (mkRun race_st4 true None race_threads7).
Proof.
  eapply rtc_l.
  { apply (step_suicide _ _ _ _ _ _ _ _ _ _ _ _ race_st4 false None race_threads4 2 0 race_task);
      [vm_compute; reflexivity|vm_compute; reflexivity]. }
  eapply rtc_l.
  { apply (step_suicide_send _ _ _ _ _ _ _ _ _ _ _ _ race_st4 false None _ 2 0 0 timeout_text);
      vm_compute; reflexivity. }
  eapply rtc_l.
  { apply (step_process _ _ _ _ _ _ _ _ _ _ _ _ race_st4 None _ 3). vm_compute. reflexivity. }
  eapply rtc_once.
  apply (step_process_next _ _ _ _ _ _ _ _ _ _ _ _ race_st4 true None _ 3 0 [] []). vm_compute. reflexivity.
Qed.

Definition running_status : TaskStatus := {|
  ts_TaskId := ID race_task; ts_SlaveId := "slave-1"; ts_State := TASK_RUNNING; ts_Message := ""; ts_Data := None |}.
Lemma race_third : race_steps (mkRun race_st4 true None race_threads7) race_end.
Proof.
  eapply rtc_l.
  { apply (step_launch _ _ _ _ _ _ _ _ _ _ _ _ race_st4 true None race_threads7 3 (race_processing pc_start) 0
      (on_agent "slave-1") race_st5 (inl (pc_monitor "slave-1" 0)));
      [vm_compute; reflexivity|done|vm_compute; reflexivity|exact race_launch_run2|vm_compute; reflexivity]. }
  eapply rtc_l.
  { apply (step_status _ _ _ _ _ _ _ _ _ _ _ _ race_st5 true _ running_status 0). vm_compute. reflexivity. }
  eapply rtc_l.
  { apply (step_monitor_ok _ _ _ _ _ _ _ _ _ _ _ _ race_st5 true _ 3 9 (race_processing (pc_monitor "slave-1" 0)) 0
      "slave-1" 0 running_status false None); [vm_compute; reflexivity|done|done|vm_compute; reflexivity]. }
  eapply rtc_once.
  apply (step_register _ _ _ _ _ _ _ _ _ _ _ _ race_st5 true None race_threads9 3
    (race_processing (pc_register 0 None)) 0 0 None (an_error "Container failed to create") race_st6);
    [vm_compute; reflexivity|done|exact race_register_run].
Qed.

Lemma race_reaches_end : race_steps (start race_st0) race_end.
Proof. etrans; [exact race_first|]. etrans; [exact race_second|exact race_third]. Qed.

Lemma steps_ok s s' : race_steps s s' → sys_ok s → sys_ok s'.
Proof. induction 1 as [|s1 s2 s3 H12 _ IH]; [done|]. intros Hok. apply IH. by eapply step_ok. Qed.

Definition is_create (th : thread) : bool := match th with th_create _ => true | _ => false end.
Lemma no_creator (m : gmap nat thread) t :
  existsb (λ x, is_create x.2) (map_to_list m) = false → ∀ j, m !! j ≠ Some (th_create t).
Proof.
  intros Hno j Hj. apply elem_of_map_to_list, list_elem_of_In in Hj.
  assert (existsb (λ x, is_create x.2) (map_to_list m) = true) as Hyes by (apply existsb_exists; eauto). congruence.
Qed.

Lemma race_end_orphaned : orphaned 0 race_end.
Proof.
  split.
  - apply (steps_ok _ _ race_reaches_end). split; try done; apply map_Forall_empty.
  - exists 3%nat, (race_processing (pc_error "Container failed to create")). split; [vm_compute; reflexivity|].
    split; [done|]. by exists (pc_error "Container failed to create").
  - apply no_creator. vm_compute. reflexivity.
  - assert (option_map mt_done (ms_tasks (mz_mesos race_st6) !! 0%nat) = Some false) as Ht by (vm_compute; reflexivity).
    change (is_Some (ms_tasks (mz_mesos race_st6) !! 0%nat)).
    destruct (ms_tasks (mz_mesos race_st6) !! 0%nat); [by eexists|done].
Qed.

(** C32: a deadlock.  A creation whose timeout goes off just before its task is launched by
    [Process] leads to a state from which, whatever happens, the lock of the pending tasks
    stays held: the goroutine that holds it sends to the creator, and the creator waits for
    the lock.  [CreateContainer] never returns, and no pending task is ever launched. *)
Theorem timeout_race_deadlocks :
  ∃ s, race_steps (start race_st0) s ∧ sy_threads s !! 0%nat = Some (th_remove 0 timeout_text) ∧
    ∀ s', race_steps s s' →
      sy_tasklock s' = true ∧ sy_threads s' !! 0%nat = Some (th_remove 0 timeout_text).
Proof.
  assert (sy_threads race_end !! 0%nat = Some (th_remove 0 timeout_text)) as H0 by (vm_compute; reflexivity).
  exists race_end. split; [exact race_reaches_end|]. split; [exact H0|]. intros s' Hs'.
  destruct (orphaned_forever _ _ _ _ _ _ _ _ _ _ _ _ 0 _ _ race_end_orphaned Hs') as [Hl Hj].
  split; [exact Hl|]. apply Hj; [exact H0|]. right. by exists 0%nat, timeout_text.
Qed.

End race.
